(* ===== verification/_CoqProject ===== *)
-Q . S2P
Prelude.v
GoLib.v
Hash.v
Ids.v
Record.v
FS.v
Segment.v
SegmentScan.v
SegmentStore.v
SegmentDurable.v
SegmentLoss.v
WriteBuffer.v
SegmentIndex.v
Metadata.v
MetadataInv.v
Clone.v
Disk.v
Ledger.v
Compress.v
Dedup.v
BlobStore.v
Detect.v
Journal.v
UnpackQueue.v
UnpackLife.v
Ingest.v
IngestInv.v
IngestSafe.v
IngestDemo.v
Recovery.v
Metrics.v
ShardRepo.v
Registry.v
RegistryInv.v
Control.v
ControlDemo.v
Availability.v
Dashboard.v
Config.v
Http.v
CoordServer.v
RegisterClient.v
CoordDemo.v
Api.v
DiskGate.v
Restart.v
ApiInv.v
ApiDemo.v
Typed.v
Buffered.v
HttpMetrics.v
HttpDemo.v
ShardSync.v
Bootstrap.v
Startup.v
StartupDemo.v
Commands.v
CommandsDemo.v
ShardMirror.v
SyncDemo.v
MemRepo.v
MemRefine.v
