(* ===== verification/Prelude.v ===== *)
(** * little-big-files: a verification development

    little-big-files stores many small files (XML documents and ZIP archives of
    them) deduplicated by content: a shard server keeps the content in
    append-only segment files and the metadata in PostgreSQL; a coordinator
    distributes suppliers' uploads over shards.  This library models the Go code
    under src/ and proves what makes it correct.

    ** How code becomes definitions

    - A function [func f(x T) (U, error)] that changes state is a function
      [f : T → M S U] where [M S U = S → S * result U]: the state survives an
      error, as in Go; undoing it is up to the code (a rolled-back transaction).
      [errors.Is] is membership of a sentinel in [err_wraps].
    - The environment is in the state: every call of the file system takes an
      outcome from [fs_faults] and every database statement one from [db_faults],
      so a theorem about every state is about every pattern of failures.  A
      transaction whose commit fails may have been committed all the same, and on
      the coordinator's database any statement's answer may be lost.  A crash is the
      relation [FS.crash]: what was not fsynced of a file may be anything, and so may
      the entries of its directory, which the program never fsyncs; the theorems that
      need an entry say so ([FS.entry_kept]).
    - Goroutines that share state are transition systems ([WriteBuffer.wb_step],
      [UnpackQueue.step], [UnpackLife.lstep], [Metrics.ustep]) whose steps are the critical sections; a
      running shard is one of requests, background work and disk measurements
      ([ApiInv.sstep]), in which an upload may also be processed later than it passed
      the guard ([ApiInv.lstep], which keeps the uploads past the guard).
    - What the other goroutines do while an append waits in the write buffer is a
      list in the state ([Buffered.bf_others]); a caller that is not answered before
      it ends is one that waits for ever, which is a result of its own
      ([Buffered.blocked]), not an error of the code.
    - The coordinator's environment ([Registry.World]) holds the answers shards will
      give, the statements other sessions will run between its own, and the gauges
      its handlers report to.
    - Integers are [Z] with the width written out ([u32], [u64], [i64]); bytes are
      [Byte.byte]; floats are IEEE 754 binary64 ([SpecFloat]); SHA-256, CRC-32 and hex
      are defined, not assumed.
    - Third-party code is a type class with the laws the code relies on: zstd
      ([Zstd]), archive/zip ([ZipLib]), the bloom filter ([Bloom]), encoding/json
      ([EntryJSON], [MetaJSON], [AdminJSON], [ClientJSON], [SegJSON]), RocksDB
      ([RocksDB]), what text PostgreSQL takes ([PG]), the coordinator's libraries
      ([CoordLib]), durations and floats of the environment ([EnvLib]), media types
      ([Mime]), the free space of a disk ([DiskProbe], [WindowsProbe]), open
      result rows ([Rows]), what the programs are linked with
      ([Linked], [CoordDriver]: the database connection, running SQL text, opening
      RocksDB).  Concrete instances show that the laws can
      hold.  chi's routing is by method and path; its answer to a request without a
      route is an argument of [Api.serve].
    - Loops that are not structural recurse on fuel that is the length of the
      data plus one; each iteration consumes at least one byte, so it is enough
      (SegmentScan.v proves the result).

    ** Files

    - Prelude.v: results, the monad, machine integers, slices, tactics.
    - GoLib.v: package strings, strconv, fmt and hex as far as used.
    - Hash.v: CRC-32 and SHA-256.
    - Ids.v: internal/globalid, internal/supplier.
    - Record.v: internal/storage/record.go.
    - FS.v: the file system and its failures.
    - Segment.v: internal/storage/segment.go.  SegmentScan.v: the recovery scan.
      SegmentStore.v: the manager's invariant [SegInv] and what each operation
      does to it.  SegmentDurable.v: read-back, durability, restart.
      SegmentLoss.v: the ways an acknowledged record is lost.
    - WriteBuffer.v: internal/storage/write_buffer.go, against the interface
      [batchAppender], which the segment manager implements.
    - SegmentIndex.v: internal/storage/segment_index.go.
    - Metadata.v: internal/metadata/repo.go: tables, constraints, statements and
      transactions.  MetadataInv.v: the reference-count invariant [db_inv].
    - Disk.v: [DiskOps]/[DiskLaws], what the blob store needs of the data
      directory, discharged by segments and index files in one directory.
      Ledger.v: the same with the list of what was appended.  Clone.v:
      ClonePackageRefs.
    - Compress.v: internal/compress.  Dedup.v: internal/dedup.
    - BlobStore.v: internal/storage/blob_store.go over those interfaces.
    - Detect.v: internal/ingestion/detect.go.
    - Journal.v: internal/recovery/journal.go, journal_record.go.
    - UnpackQueue.v: internal/ingestion/unpack_worker.go, the jobs.  UnpackLife.v:
      its goroutines from start to shutdown.
    - Ingest.v: internal/ingestion/package.go, stats.go, unpack_large.go.
      IngestInv.v and IngestSafe.v: its proofs.  IngestDemo.v: concrete runs.
    - Recovery.v: internal/recovery/rebuild.go.
    - ShardRepo.v: internal/coordinator/repo.go, models.go.  Registry.v:
      internal/coordinator/registry.go.  RegistryInv.v, Control.v: the invariant of
      the shard registry and the theorems.  ControlDemo.v: concrete runs.
    - Metrics.v: internal/metrics.  Availability.v: a program logic for the handlers
      of Registry.v, and the agreement of the availability gauge with the registry.
      Dashboard.v: what the coordinator's gauges show of its registry.
    - Config.v: internal/config.  Http.v: requests, responses and the body limits.
    - CoordServer.v: internal/coordinator/server.go, admin_requests.go.
      RegisterClient.v: register_client.go.  CoordDemo.v: concrete requests.
    - Api.v: internal/api.  DiskGate.v: the disk gate of cmd/server and
      internal/diskspace.  ApiInv.v: the handlers over the ingestion service, for
      any sequence of steps.  ApiDemo.v: concrete requests.  Typed.v: the types of
      the rows, kept by every step.
    - Buffered.v: [SegmentManager.Append] through the write buffer, and its closing.
    - HttpMetrics.v: internal/metrics/http.go around both routers.  HttpDemo.v:
      concrete requests.
    - ShardSync.v: cmd/shard-sync.  ShardMirror.v: a replica against the primary's
      endpoints of Api.v.  SyncDemo.v: concrete runs.
    - Restart.v: what a crash and a start of the storage keep.  Bootstrap.v:
      internal/compress/train.go, and the dictionary across starts.  Startup.v:
      cmd/server/main.go to its shutdown, the migration runner and dedup's Open.
      StartupDemo.v: a shard that crashes and comes back.  Commands.v: the other
      main functions.  CommandsDemo.v: concrete runs.
    - MemRepo.v: internal/testmetadata.  MemRefine.v: the interface [MetaRepo] that
      both repositories implement, and the simulation between them.

    ** What the theorems show

    - Storage: the recovery scan is exact on torn tails and equals its streaming
      version; an acknowledged append reads back, survives a crash that keeps its
      segment's directory entry, and a restart, and respects the segment size; a
      group commit acknowledges only durable writes; every waiter of the write
      buffer is answered once, with its own record's location, also through the
      segment manager that uses it, as long as the ticker fires or the buffer is
      closed; index and journal round-trip.
    - Content addressing: [StoreOrRef] yields the SHA-256 with one reference
      taken, and each row of the blob table reads back as content with its hash,
      whatever the hot index answers and whatever fails.
    - Ingestion: from any sound state, any sequence of uploads, unpack jobs and
      recovery scans keeps the service sound; the package an upload was answered with
      reads back; a
      repeated upload stores nothing; counts are exact for XML; every row keeps its
      type; no package is unpacked twice at a time, and a shutdown of the queue
      returns.
    - Rebuild: a successful run of the recovery tool yields sound tables, and
      journaled packages are put back exactly.
    - Coordinator: at most one active shard, whatever interleaves; shards only move
      from standby to active to sealed; rotation and promotion are all or nothing;
      an upload's global id leads back to the shard that took it; the lock is always
      released; admin requests other than the listing need the key, registration ends
      and is unique.
    - Shard server: an upload answered 201 can be downloaded through the URLs of the
      answer; a sealed shard admits no further upload and loses nothing; the disk
      gate is exactly its hysteresis.
    - Replication: no failure leaves a partial file; a synchronisation makes the
      replica a mirror.
    - Start: an acknowledged upload survives a crash of the machine that keeps the
      segments' directory entries, and a start of the server; a dictionary, once chosen, is found by every later start; a restart of
      the coordinator keeps its registry.
    - Metrics: a refresh makes the coordinator's gauges an exact picture of the
      registry and of the last reports, and without interference or faults, and with
      messages that are text, those agree with the rows of the shards; each answered
      request is counted once.
    - Tests' repository: it answers as PostgreSQL does, as the service uses it, up to
      three methods whose answers differ in a way the theorem states.
    - Where the code does not do what it means to, a theorem shows the behaviour in
      general (a record appended behind the footer of a clean shutdown is lost at the
      next start; a segment whose directory entry is lost takes acknowledged records
      with it; a seal check can undo a seal; an append after the buffer was closed
      waits for ever; lost handles; a rebuild that fails after it has truncated; an
      unparsable coordinator address that is retried for ever; a method that always
      finds its connection busy; a torn journal line that a later entry makes
      unreadable; a crash after which no start succeeds) or an example shows it on a
      concrete run (a torn index, discarded unpack errors, leaked references, a gauge
      that a race leaves stale, a member name that keeps an archive pending).

    ** Bounds of the model

    One database session of a shard is modelled: operations of the service are
    atomic with respect to each other except where a transition system says
    otherwise.  The journal and the data directory are separate states, though they
    are files of one directory; so is the directory a replica copies them to.  Of the
    other directories a path may lead to only the file itself is modelled: whether
    its directory exists is left to the faults.  A request that would hang (an
    append that waits for ever) ends with an error instead.
    Contexts and timeouts are failures of the calls they end; the ends of retry
    loops and timers are arguments (a number of ticks or of waits), over all of
    which the theorems range.  [os.File.Close] does not fail.

    ** Not modelled

    Logging, signals and listeners, the registration of metrics and the text of the
    metrics endpoint (the Prometheus library's), the SQL of the migrations,
    connection pools, and the scanning of a result row into a struct (a row of the
    model is the struct). *)

From Corelib Require Export ssreflect.
From Stdlib Require Export ZArith Lia Strings.String Strings.Byte Strings.Ascii.
From stdpp Require Export base gmap strings list sorting pretty.
From coqutil Require Export Byte Word.LittleEndianList.

Global Open Scope general_if_scope.
Global Open Scope Z_scope.

(** ** Results, errors and the state-and-error monad

    A Go function [func f(...) (T, error)] that mutates shared state is modelled
    as a function of type [M S T]: it receives the state, and returns the state
    it leaves behind together with [Ok v] or [Err e].  The state survives an
    error, as it does in Go: undoing it is the business of the code that does so
    (a transaction's rollback). *)

(** Sentinel errors that the code compares against with [errors.Is]. *)
Inductive sentinel : Set :=
  | ErrZipTooLarge | ErrSkipLargeUnpack
  | ErrShardNotFound | ErrStateConflict | ErrRotationIncomplete | ErrNoStandbyShard
  | ErrNotExist | ErrEOF | ErrClosed | ErrCanceled.

#[export] Instance sentinel_eq_dec : EqDecision sentinel.
Proof. solve_decision. Defined.

(** An error value: its [Error()] text and the sentinels it is or wraps. *)
Record error : Set := Error { err_msg : string; err_wraps : list sentinel }.

#[export] Instance error_eq_dec : EqDecision error.
Proof. solve_decision. Defined.

Definition errorf (msg : string) : error := Error msg [].
Definition error_is (e : error) (s : sentinel) : bool := bool_decide (s ∈ err_wraps e).

(** [fmt.Errorf("pre: %w", e)]. *)
Definition wrapf (pre : string) (e : error) : error := Error (pre +:+ err_msg e) (err_wraps e).

Inductive result (A : Type) : Type :=
  | Ok (a : A)
  | Err (e : error).
Arguments Ok {A} a.
Arguments Err {A} e.

Definition is_ok {A} (r : result A) : bool := match r with Ok _ => true | Err _ => false end.

#[export] Instance result_eq_dec `{EqDecision A} : EqDecision (result A).
Proof. solve_decision. Defined.

#[export] Instance result_ret : MRet result := fun A a => Ok a.
#[export] Instance result_bind : MBind result := fun A B f r =>
  match r with Ok a => f a | Err e => Err e end.

Definition M (S A : Type) : Type := S → S * result A.

#[export] Instance M_ret {S} : MRet (M S) := fun A a s => (s, Ok a).
#[export] Instance M_bind {S} : MBind (M S) := fun A B f m s =>
  match m s with
  | (s', Ok a) => f a s'
  | (s', Err e) => (s', Err e)
  end.

Definition get {S} : M S S := fun s => (s, Ok s).
Definition gets {S A} (f : S → A) : M S A := fun s => (s, Ok (f s)).
Definition modify {S} (f : S → S) : M S unit := fun s => (f s, Ok tt).
Definition fail {S A} (e : error) : M S A := fun s => (s, Err e).
Definition lift_result {S A} (r : result A) : M S A := fun s => (s, r).

(** [v, err := m()]: run [m] and continue with its outcome as a value. *)
Definition try {S A} (m : M S A) : M S (result A) := fun s =>
  match m s with (s', r) => (s', Ok r) end.

(** [if err != nil { return fmt.Errorf("pre: %w", err) }]. *)
Definition wrap_err {S A} (pre : string) (m : M S A) : M S A := fun s =>
  match m s with
  | (s', Err e) => (s', Err (wrapf pre e))
  | r => r
  end.

(** [_ = m()]: run [m] and drop its outcome. *)
Definition ignore {S A} (m : M S A) : M S unit := fun s => ((m s).1, Ok tt).

(** Run a computation on a component of a larger state. *)
Definition zoom {S T A} (pr : S → T) (up : T → S → S) (m : M T A) : M S A := fun s =>
  match m (pr s) with (t, r) => (up t s, r) end.

(** [for _, x := range xs { if err := f(x); err != nil { return err } }]. *)
Fixpoint forM_ {S A} (xs : list A) (f : A → M S unit) : M S unit :=
  match xs with
  | [] => mret tt
  | x :: xs' => f x ≫= fun _ => forM_ xs' f
  end.

(** The loop that threads an accumulator. *)
Fixpoint foldM {S A B} (f : B → A → M S B) (acc : B) (xs : list A) : M S B :=
  match xs with
  | [] => mret acc
  | x :: xs' => f acc x ≫= fun acc' => foldM f acc' xs'
  end.

Declare Scope lbf_scope.
Delimit Scope lbf_scope with lbf.
Notation "'let!' x := m 'in' k" := (mbind (fun x => k) m)
  (at level 10, x binder, m at level 100, k at level 200) : lbf_scope.
Notation "'do!' m ; k" := (mbind (fun _ => k) m)
  (at level 10, m at level 100, k at level 200) : lbf_scope.
Global Open Scope lbf_scope.

(** A dereferenced nil pointer; the code below it is not reached. *)
Definition nil_dereference : error := errorf "invalid memory address or nil pointer dereference".

(** ** Machine integers *)
Definition u32 (z : Z) : Z := z mod 2 ^ 32.
Definition u64 (z : Z) : Z := z mod 2 ^ 64.
(** [int64(u)]: two's complement reading of the low 64 bits. *)
Definition i64 (z : Z) : Z := (z + 2 ^ 63) mod 2 ^ 64 - 2 ^ 63.

Definition is_u32 (z : Z) : Prop := 0 <= z < 2 ^ 32.
Definition is_u64 (z : Z) : Prop := 0 <= z < 2 ^ 64.
Definition is_i64 (z : Z) : Prop := - 2 ^ 63 <= z < 2 ^ 63.

(** ** Byte slices *)
Abbreviation byte := Corelib.Init.Byte.byte.
Abbreviation bytes := (list byte).

Definition zlen {A} (l : list A) : Z := Z.of_nat (length l).
(** [data[lo:hi]]. *)
Definition slice {A} (lo hi : Z) (l : list A) : list A :=
  take (Z.to_nat (hi - lo)) (drop (Z.to_nat lo) l).
Definition zeros (n : nat) : bytes := replicate n x00.

#[export] Instance byte_eq_dec : EqDecision byte := Byte.byte_eq_dec.
#[export] Program Instance byte_countable : Countable byte :=
  inj_countable Byte.to_N Byte.of_N _.
Next Obligation. intros b. apply Byte.of_to_N. Qed.

(** ** Tactics

    [mstep] unfolds the monad's combinators; [minv] walks a hypothesis
    [m s = (s', r)] through its case distinctions. *)
Ltac mstep := rw /mbind /mret /M_bind /M_ret /result_bind /result_ret /=.
Ltac munfold :=
  unfold fail, gets, get, modify, lift_result, try, ignore, zoom,
    mbind, mret, M_bind, M_ret, result_bind, result_ret in *.

(** Split every [match] scrutinee of a hypothesis, keeping the equations. *)
Ltac case_hyp H :=
  match type of H with
  | context [match ?x with _ => _ end] =>
      lazymatch x with
      | context [match _ with _ => _ end] => fail
      | _ => let E := fresh "E" in destruct x eqn:E
      end
  end.
Ltac case_goal :=
  match goal with
  | |- context [match ?x with _ => _ end] =>
      lazymatch x with
      | context [match _ with _ => _ end] => fail
      | _ => let E := fresh "E" in destruct x eqn:E
      end
  end.

(** Sequencing, one outcome at a time. *)
Lemma bind_ok {S A B} (m : M S A) (k : A → M S B) s s' a :
  m s = (s', Ok a) → (m ≫= k) s = k a s'.
Proof. intros H. unfold mbind, M_bind. by rw H. Qed.

Lemma bind_err {S A B} (m : M S A) (k : A → M S B) s s' e :
  m s = (s', Err e) → (m ≫= k) s = (s', Err e).
Proof. intros H. unfold mbind, M_bind. by rw H. Qed.

Lemma bind_inv {S A B} (m : M S A) (k : A → M S B) s s' r :
  (m ≫= k) s = (s', r) →
  (∃ s1 a, m s = (s1, Ok a) ∧ k a s1 = (s', r)) ∨ (∃ e, m s = (s', Err e) ∧ r = Err e).
Proof.
  unfold mbind, M_bind. destruct (m s) as [s1 [a|e]]; intros H; [left; eauto|right].
  simplify_eq. eauto.
Qed.

Lemma bind_assoc {S A B C} (m : M S A) (k : A → M S B) (h : B → M S C) s :
  ((m ≫= k) ≫= h) s = (m ≫= fun a => k a ≫= h) s.
Proof. unfold mbind, M_bind. by destruct (m s) as [s1 [a|e]]. Qed.

Lemma bind_ext {S A B} (m : M S A) (k k' : A → M S B) s :
  (∀ a s, k a s = k' a s) → (m ≫= k) s = (m ≫= k') s.
Proof. intros E. unfold mbind, M_bind. destruct (m s) as [s1 [a|e]]; [apply E|done]. Qed.

Lemma wrap_err_inv {S A} pre (m : M S A) s s' r :
  wrap_err pre m s = (s', r) → ∃ r', m s = (s', r') ∧
    match r' with Ok a => r = Ok a | Err _ => is_ok r = false end.
Proof.
  unfold wrap_err. destruct (m s) as [s1 [a|e]]; intros H; injection H as <- <-; eexists; split; done.
Qed.

Lemma try_run {S A} (m : M S A) s s' r : m s = (s', r) → try m s = (s', Ok r).
Proof. unfold try. by intros ->. Qed.

Lemma try_inv {S A} (m : M S A) s s' r : try m s = (s', r) → ∃ r', m s = (s', r') ∧ r = Ok r'.
Proof. unfold try. destruct (m s). intros [= <- <-]. eauto. Qed.

Lemma wrap_ok {S A} pre (m : M S A) s s' a : m s = (s', Ok a) → wrap_err pre m s = (s', Ok a).
Proof. intros H. unfold wrap_err. by rw H. Qed.

(** ** Shared lemmas *)
Create HintDb lbf discriminated.
Create Rewrite HintDb len.

Lemma zlen_nonneg {A} (l : list A) : 0 <= zlen l.
Proof. rw /zlen. lia. Qed.

Lemma zlen_app {A} (l k : list A) : zlen (l ++ k) = zlen l + zlen k.
Proof. rw /zlen length_app. lia. Qed.

Lemma zlen_nil {A} : zlen (@nil A) = 0.
Proof. reflexivity. Qed.

Lemma zlen_cons {A} (x : A) l : zlen (x :: l) = 1 + zlen l.
Proof. rw /zlen /=. lia. Qed.

Lemma zlen_zero_inv {A} (l : list A) : zlen l = 0 → l = [].
Proof. destruct l; [done|rw zlen_cons; pose proof (zlen_nonneg l); lia]. Qed.

Lemma zlen_le_split n z : zlen (le_split n z) = Z.of_nat n.
Proof. by rw /zlen length_le_split. Qed.

Lemma zlen_replicate {A} n (x : A) : zlen (replicate n x) = Z.of_nat n.
Proof. by rw /zlen length_replicate. Qed.

#[export] Hint Rewrite @zlen_app @zlen_nil @zlen_cons @zlen_le_split @zlen_replicate : len.
Ltac len := autorewrite with len in *; try lia.

Lemma u32_small z : is_u32 z → u32 z = z.
Proof. apply Z.mod_small. Qed.

Lemma u32_range z : is_u32 (u32 z).
Proof. apply Z.mod_pos_bound. lia. Qed.

Lemma u64_range z : is_u64 (u64 z).
Proof. apply Z.mod_pos_bound. lia. Qed.

Lemma i64_small z : is_i64 z → i64 z = z.
Proof. rw /is_i64 /i64 => H. rw Z.mod_small; lia. Qed.

Lemma i64_range z : is_i64 (i64 z).
Proof. rw /is_i64 /i64. pose proof (Z.mod_pos_bound (z + 2^63) (2^64)). lia. Qed.

(** Reading an unsigned 64-bit word back as [int64] undoes [uint64(v)]. *)
Lemma i64_u64 z : is_i64 z → i64 (u64 z) = z.
Proof.
  intros H. rw /i64 /u64 Z.add_mod_idemp_l; [done|]. by apply i64_small.
Qed.

(** Slices of concatenations. *)
Lemma slice_app_mid {A} (p m q : list A) lo hi :
  lo = zlen p → hi = zlen p + zlen m → slice lo hi (p ++ m ++ q) = m.
Proof.
  intros -> ->. rw /slice /zlen.
  rw Nat2Z.id drop_app_length.
  replace (Z.to_nat _) with (length m) by lia. by rw take_app_length.
Qed.

Lemma slice_app_first {A} (m q : list A) hi : hi = zlen m → slice 0 hi (m ++ q) = m.
Proof. intros ->. by apply (slice_app_mid [] m q). Qed.

Lemma slice_app_last {A} (p m : list A) lo hi :
  lo = zlen p → hi = zlen p + zlen m → slice lo hi (p ++ m) = m.
Proof. intros. rw -{1}(app_nil_r m). by apply slice_app_mid. Qed.

Lemma slice_app_l {A} (p q : list A) lo hi :
  0 <= lo → hi <= zlen p → slice lo hi (p ++ q) = slice lo hi p.
Proof.
  rw /slice /zlen => ? H. rw skipn_app firstn_app.
  replace (Z.to_nat (hi - lo) - length (drop (Z.to_nat lo) p))%nat with 0%nat.
  - by rw take_0 app_nil_r.
  - rw length_drop. lia.
Qed.

Lemma slice_all {A} (l : list A) hi : hi = zlen l → slice 0 hi l = l.
Proof. intros ->. rw /slice /zlen Z.sub_0_r drop_0 Nat2Z.id. apply take_ge. done. Qed.

Lemma slice_shift {A} (p q : list A) lo hi :
  0 <= lo → slice (zlen p + lo) (zlen p + hi) (p ++ q) = slice lo hi q.
Proof.
  intros H. rw /slice /zlen.
  replace (Z.to_nat (Z.of_nat (length p) + lo)) with (length p + Z.to_nat lo)%nat by lia.
  rw drop_app_add'; [done|]. f_equal. lia.
Qed.

Lemma zlen_slice {A} (l : list A) lo hi :
  0 <= lo <= hi → hi <= zlen l → zlen (slice lo hi l) = hi - lo.
Proof. rw /slice /zlen length_take length_drop. lia. Qed.

(** Little-endian words. *)
Lemma le_u32 z : is_u32 z → le_combine (le_split 4 z) = z.
Proof. intros H. rw le_combine_split. apply Z.mod_small, H. Qed.

Lemma le_u64 z : le_combine (le_split 8 z) = u64 z.
Proof. by rw le_combine_split. Qed.

Lemma le_u32_wrap z : le_combine (le_split 4 z) = u32 z.
Proof. by rw le_combine_split. Qed.

Lemma byte_eqb_eq a b : Byte.eqb a b = true ↔ a = b.
Proof. split; [apply Byte.byte_dec_bl|apply Byte.byte_dec_lb]. Qed.
