(* ===== verification/GoLib.v ===== *)
(** * What the program uses of Go's standard library: strings, strconv, fmt

    Go strings are byte sequences; they are [string] here and the functions of
    package [strings] work on their bytes.  Case mapping and white space follow
    Go on every rune that can map to or compare equal with an ASCII character
    (the only strings the program compares with are ASCII). *)
From S2P Require Import Prelude.

Abbreviation bs := list_byte_of_string.
Abbreviation str := string_of_list_byte.

Definition bN (b : byte) : Z := byte.unsigned b.

(** ** Package strings *)
Module strings.

(** [unicode.IsSpace], by the UTF-8 encoding of the rune. *)
Definition space1 (a : byte) : bool :=
  ((9 <=? bN a) && (bN a <=? 13)) || (bN a =? 32).
Definition space2 (a b : byte) : bool :=
  (bN a =? 194) && ((bN b =? 133) || (bN b =? 160)).
Definition space3 (a b c : byte) : bool :=
  ((bN a =? 225) && (bN b =? 154) && (bN c =? 128)) ||
  ((bN a =? 226) && (bN b =? 128) &&
     (((128 <=? bN c) && (bN c <=? 138)) || (bN c =? 168) || (bN c =? 169) || (bN c =? 175))) ||
  ((bN a =? 226) && (bN b =? 129) && (bN c =? 159)) ||
  ((bN a =? 227) && (bN b =? 128) && (bN c =? 128)).

Fixpoint trim_left (l : bytes) : bytes :=
  match l with
  | a :: l1 =>
      if space1 a then trim_left l1 else
      match l1 with
      | b :: l2 =>
          if space2 a b then trim_left l2 else
          match l2 with
          | c :: l3 => if space3 a b c then trim_left l3 else l
          | [] => l
          end
      | [] => l
      end
  | [] => []
  end.

(** The same on a reversed string: the last rune's bytes come in reverse. *)
Fixpoint trim_left_rev (l : bytes) : bytes :=
  match l with
  | a :: l1 =>
      if space1 a then trim_left_rev l1 else
      match l1 with
      | b :: l2 =>
          if space2 b a then trim_left_rev l2 else
          match l2 with
          | c :: l3 => if space3 c b a then trim_left_rev l3 else l
          | [] => l
          end
      | [] => l
      end
  | [] => []
  end.

Definition trim_space (l : bytes) : bytes := rev (trim_left_rev (rev (trim_left l))).
Definition TrimSpace (s : string) : string := str (trim_space (bs s)).

Fixpoint has_prefix (p l : bytes) : bool :=
  match p, l with
  | [], _ => true
  | a :: p', b :: l' => Byte.eqb a b && has_prefix p' l'
  | _ :: _, [] => false
  end.

Definition HasPrefix (s p : string) : bool := has_prefix (bs p) (bs s).
Definition HasSuffix (s p : string) : bool := has_prefix (rev (bs p)) (rev (bs s)).

Fixpoint contains (l p : bytes) : bool :=
  has_prefix p l || match l with [] => false | _ :: l' => contains l' p end.
Definition Contains (s p : string) : bool := contains (bs s) (bs p).

Definition lower1 (a : byte) : byte :=
  if (65 <=? bN a) && (bN a <=? 90) then byte.of_Z (bN a + 32) else a.

(** [ToLower]: U+0130 and U+212A are the runes outside ASCII with an ASCII
    lower case. *)
Fixpoint to_lower (l : bytes) : bytes :=
  match l with
  | a :: ((b :: l2) as l1) =>
      if (bN a =? 196) && (bN b =? 176) then byte.of_Z 105 :: to_lower l2 else
      match l2 with
      | c :: l3 =>
          if (bN a =? 226) && (bN b =? 132) && (bN c =? 170)
          then byte.of_Z 107 :: to_lower l3 else lower1 a :: to_lower l1
      | [] => lower1 a :: to_lower l1
      end
  | [a] => [lower1 a]
  | [] => []
  end.
Definition ToLower (s : string) : string := str (to_lower (bs s)).

(** [EqualFold]: U+212A folds with k and U+017F with s. *)
Fixpoint fold_case (l : bytes) : bytes :=
  match l with
  | a :: ((b :: l2) as l1) =>
      if (bN a =? 197) && (bN b =? 191) then byte.of_Z 115 :: fold_case l2 else
      match l2 with
      | c :: l3 =>
          if (bN a =? 226) && (bN b =? 132) && (bN c =? 170)
          then byte.of_Z 107 :: fold_case l3 else lower1 a :: fold_case l1
      | [] => lower1 a :: fold_case l1
      end
  | [a] => [lower1 a]
  | [] => []
  end.
Definition EqualFold (s t : string) : bool :=
  bool_decide (fold_case (bs s) = fold_case (bs t)).

(** [strings.TrimRight(s, "/")]. *)
Fixpoint drop_slashes (l : bytes) : bytes :=
  match l with
  | a :: l' => if bN a =? 47 then drop_slashes l' else l
  | [] => []
  end.
Definition TrimRightSlash (s : string) : string := str (rev (drop_slashes (rev (bs s)))).

End strings.

(** ** Packages strconv and fmt *)
Definition is_digit (b : byte) : bool := (48 <=? bN b) && (bN b <=? 57).

(** Decimal digits, most significant first, appended to [acc]. *)
Fixpoint digits_acc (acc : Z) (l : bytes) : option Z :=
  match l with
  | [] => Some acc
  | b :: l' => if is_digit b then digits_acc (10 * acc + (bN b - 48)) l' else None
  end.

Definition parse_uint (l : bytes) : option Z :=
  match l with [] => None | _ => digits_acc 0 l end.

(** [strconv.ParseInt(s, 10, 64)] (and [Atoi], [int] being 64 bits wide). *)
Definition ParseInt64 (s : string) : result Z :=
  let l := bs s in
  let '(neg, ds) :=
    match l with
    | b :: l' => if bN b =? 45 then (true, l') else if bN b =? 43 then (false, l') else (false, l)
    | [] => (false, l)
    end in
  match parse_uint ds with
  | None => Err (errorf ("strconv.ParseInt: parsing " +:+ s +:+ ": invalid syntax"))
  | Some n =>
      let v := if neg : bool then - n else n in
      if (- 2 ^ 63 <=? v) && (v <? 2 ^ 63) then Ok v
      else Err (errorf ("strconv.ParseInt: parsing " +:+ s +:+ ": value out of range"))
  end.
Definition Atoi (s : string) : result Z := ParseInt64 s.

(** [strconv.Itoa] and [%d]. *)
Definition Itoa (z : Z) : string := pretty z.

(** [%04d]: zero padding to width four, the sign included. *)
Definition pad0 (w : nat) (s : string) : string :=
  str (replicate (w - length (bs s))%nat (byte.of_Z 48)) +:+ s.
Definition fmt_04d (z : Z) : string :=
  if z <? 0 then "-" +:+ pad0 3 (Itoa (- z)) else pad0 4 (Itoa z).

(** Up to [w] decimal digits from the front of the input: [scanNumber] under a
    width limit. *)
Fixpoint scan_digits (w : nat) (l : bytes) : bytes * bytes :=
  match w, l with
  | S w', b :: l' =>
      if is_digit b then let '(ds, r) := scan_digits w' l' in (b :: ds, r) else ([], l)
  | _, _ => ([], l)
  end.

(** [fmt.Sscanf(name, "segment_%04d" + suffix, &id)]: the width 4 of the verb
    bounds the number of characters read for the number (a sign included); text
    after the suffix is not looked at. *)
Definition Sscanf_segment (suffix name : string) : option Z :=
  let l := bs name in
  let pre := bs "segment_" in
  if strings.has_prefix pre l then
    let rest := strings.trim_left (drop (length pre) l) in
    let '(neg, w, body) :=
      match rest with
      | b :: r => if bN b =? 45 then (true, 3%nat, r) else
                  if bN b =? 43 then (false, 3%nat, r) else (false, 4%nat, rest)
      | [] => (false, 4%nat, rest)
      end in
    let '(ds, tail) := scan_digits w body in
    match parse_uint ds with
    | None => None
    | Some n => if strings.has_prefix (bs suffix) tail
                then Some (if neg : bool then - n else n) else None
    end
  else None.

(** ** Package encoding/hex *)
Definition hexdigit (z : Z) : byte := byte.of_Z (if z <? 10 then 48 + z else 87 + z).
Fixpoint hex_encode (l : bytes) : bytes :=
  match l with
  | [] => []
  | b :: l' => hexdigit (bN b / 16) :: hexdigit (bN b mod 16) :: hex_encode l'
  end.
Definition EncodeToString (l : bytes) : string := str (hex_encode l).

Definition unhex (b : byte) : option Z :=
  let n := bN b in
  if (48 <=? n) && (n <=? 57) then Some (n - 48) else
  if (97 <=? n) && (n <=? 102) then Some (n - 87) else
  if (65 <=? n) && (n <=? 70) then Some (n - 55) else None.

Fixpoint hex_decode (l : bytes) : option bytes :=
  match l with
  | [] => Some []
  | a :: b :: l' =>
      match unhex a, unhex b, hex_decode l' with
      | Some x, Some y, Some r => Some (byte.of_Z (16 * x + y) :: r)
      | _, _, _ => None
      end
  | [_] => None
  end.
Definition DecodeString (s : string) : result bytes :=
  match hex_decode (bs s) with
  | Some r => Ok r
  | None => Err (errorf "encoding/hex: invalid byte")
  end.

(** ** Facts *)

Lemma bN_range b : 0 <= bN b < 256.
Proof. apply byte.unsigned_range. Qed.

Lemma bs_str l : bs (str l) = l.
Proof. apply list_byte_of_string_of_list_byte. Qed.

Lemma str_bs s : str (bs s) = s.
Proof. apply string_of_list_byte_of_string. Qed.

Lemma bs_inj s t : bs s = bs t → s = t.
Proof. intros H. by rw -(str_bs s) H str_bs. Qed.

Lemma unhex_hexdigit z : 0 <= z < 16 → unhex (hexdigit z) = Some z.
Proof.
  intros H.
  assert (z = 0 ∨ z = 1 ∨ z = 2 ∨ z = 3 ∨ z = 4 ∨ z = 5 ∨ z = 6 ∨ z = 7 ∨ z = 8 ∨ z = 9 ∨
          z = 10 ∨ z = 11 ∨ z = 12 ∨ z = 13 ∨ z = 14 ∨ z = 15) as Hz by lia.
  by destruct_or! Hz; subst z.
Qed.

(** Hexadecimal text decodes to the bytes it was made from. *)
Lemma hex_decode_encode l : hex_decode (hex_encode l) = Some l.
Proof.
  induction l as [|b l IH]; [done|]. cbn [hex_encode hex_decode].
  pose proof (bN_range b).
  rewrite -> (unhex_hexdigit (bN b / 16)), (unhex_hexdigit (bN b mod 16)), IH
    by (pose proof (Z.div_mod (bN b) 16); pose proof (Z.mod_pos_bound (bN b) 16); lia).
  do 2 f_equal. rw -Z.div_mod //. apply byte.of_Z_unsigned.
Qed.

Lemma DecodeString_EncodeToString l : DecodeString (EncodeToString l) = Ok l.
Proof. by rw /DecodeString /EncodeToString bs_str hex_decode_encode. Qed.

Lemma has_prefix_app p l : strings.has_prefix p (p ++ l) = true.
Proof.
  induction p as [|b p IH]; [done|]. cbn. rw IH andb_true_r.
  apply byte_eqb_eq. done.
Qed.

Lemma has_prefix_spec p l : strings.has_prefix p l = true ↔ ∃ k, l = p ++ k.
Proof.
  split; [|intros [k ->]; apply has_prefix_app].
  revert l; induction p as [|a p IH]; intros l H; [by exists l|].
  destruct l as [|b l]; [done|]. cbn in H.
  apply andb_prop in H as [H1 H2]. apply byte_eqb_eq in H1 as ->.
  destruct (IH _ H2) as [k ->]. by exists k.
Qed.

(** Segment names: what [Sprintf("segment_%04d.dat", id)] prints, [Sscanf]
    reads back, for the ids of up to four digits. *)
Definition segment_name (suffix : string) (id : Z) : string :=
  "segment_" +:+ fmt_04d id +:+ suffix.

Lemma bs_app s t : bs (s +:+ t) = bs s ++ bs t.
Proof.
  rw /list_byte_of_string -map_app. f_equal.
  induction s as [|c s IH]; [done|].
  change (String c s +:+ t) with (String c (s +:+ t)). cbn. by f_equal.
Qed.

Lemma bs_cons c s : bs (String c s) = byte_of_ascii c :: bs s.
Proof. done. Qed.

Lemma digits_acc_app acc l k :
  digits_acc acc (l ++ k) = digits_acc acc l ≫= fun a => digits_acc a k.
Proof.
  revert acc; induction l as [|b l IH]; intros acc; [done|]. cbn.
  destruct (is_digit b); [apply IH|done].
Qed.

Lemma pretty_char_digit x : (x < 10)%N →
  is_digit (byte_of_ascii (pretty_N_char x)) = true ∧
  bN (byte_of_ascii (pretty_N_char x)) - 48 = Z.of_N x.
Proof.
  intros H.
  assert (x = 0 ∨ x = 1 ∨ x = 2 ∨ x = 3 ∨ x = 4 ∨ x = 5 ∨ x = 6 ∨ x = 7 ∨ x = 8 ∨ x = 9)%N
    as Hx by lia.
  by destruct_or! Hx; subst x.
Qed.

Lemma digits_pretty_go x s :
  digits_acc 0 (bs (pretty_N_go x s)) = digits_acc (Z.of_N x) (bs s).
Proof.
  revert s; induction (N.lt_wf_0 x) as [x _ IH]; intros s.
  destruct (decide (x = 0%N)) as [->|Hx]; [done|].
  rw pretty_N_go_step; [lia|]. rw IH; [apply N.div_lt; lia|].
  rw bs_cons. cbn [digits_acc].
  destruct (pretty_char_digit (x mod 10)) as [-> ->]; [apply N.mod_lt; lia|].
  f_equal. pose proof (N.div_mod x 10). lia.
Qed.

(** Every non-negative integer prints as decimal digits that read back. *)
Lemma digits_Itoa z : 0 <= z → digits_acc 0 (bs (Itoa z)) = Some z.
Proof.
  intros Hz. destruct z as [|p|p]; [done| |lia].
  rw /Itoa /pretty /pretty_Z /pretty /pretty_positive /pretty /pretty_N.
  case_decide; [done|]. by rw digits_pretty_go.
Qed.

Lemma Itoa_nonempty z : bs (Itoa z) ≠ [].
Proof.
  destruct (decide (0 <= z)) as [Hz|Hz].
  - intros E. pose proof (digits_Itoa z Hz) as H. rw E in H. cbn in H. injection H as <-.
    done.
  - destruct z as [|p|p]; [lia|lia|]. by rw /Itoa /pretty /pretty_Z bs_app.
Qed.

Lemma pad0_digits w s : digits_acc 0 (bs (pad0 w s)) = digits_acc 0 (bs s).
Proof.
  rw /pad0 bs_app bs_str digits_acc_app.
  induction (w - length (bs s))%nat as [|n IH]; [done|]. apply IH.
Qed.

Lemma fmt_04d_digits z : 0 <= z → digits_acc 0 (bs (fmt_04d z)) = Some z.
Proof.
  intros Hz. rw /fmt_04d. replace (z <? 0) with false by (symmetry; apply Z.ltb_ge; lia).
  by rw pad0_digits digits_Itoa.
Qed.

Lemma str_app_inj (p s t : string) : p +:+ s = p +:+ t → s = t.
Proof.
  intros H. apply bs_inj. apply (f_equal bs) in H. rw !bs_app in H. by apply app_inv_head in H.
Qed.

(** Distinct segments have distinct file names. *)
Lemma segment_name_inj suffix a b :
  0 <= a → 0 <= b → segment_name suffix a = segment_name suffix b → a = b.
Proof.
  rw /segment_name => Ha Hb H. apply str_app_inj in H.
  apply (f_equal bs) in H. rw !bs_app in H. apply app_inv_tail in H.
  apply (f_equal (digits_acc 0)) in H. rw !fmt_04d_digits in H; congruence.
Qed.

Lemma length_pretty_go k x s :
  (x < 10 ^ N.of_nat k)%N → (length (bs (pretty_N_go x s)) <= k + length (bs s))%nat.
Proof.
  revert x s; induction k as [|k IH]; intros x s Hx.
  - replace x with 0%N by (cbn in Hx; lia). rw pretty_N_go_0. lia.
  - destruct (decide (x = 0%N)) as [->|Hx0]; [rw pretty_N_go_0; lia|].
    rw pretty_N_go_step; [lia|].
    eapply Nat.le_trans; [apply IH|rw bs_cons; cbn [length]; lia].
    apply N.Div0.div_lt_upper_bound. rewrite <- N.pow_succ_r'. by rewrite <- Nat2N.inj_succ.
Qed.

Lemma length_fmt_04d z : 0 <= z < 10000 → length (bs (fmt_04d z)) = 4%nat.
Proof.
  intros Hz. rw /fmt_04d. replace (z <? 0) with false by lia.
  rw /pad0 bs_app bs_str length_app length_replicate.
  assert (length (bs (Itoa z)) <= 4)%nat; [|lia].
  destruct z as [|p|p]; [cbn; lia| |lia].
  rw /Itoa /pretty /pretty_Z /pretty /pretty_positive /pretty /pretty_N.
  case_decide; [cbn; lia|].
  pose proof (length_pretty_go 4 (N.pos p) "") as Hl. cbn in Hl |- *. lia.
Qed.

Lemma digits_acc_bound acc l v :
  0 <= acc → digits_acc acc l = Some v → v < (acc + 1) * 10 ^ zlen l.
Proof.
  revert acc; induction l as [|b l IH]; intros acc Hacc H; cbn in H.
  - injection H as <-. rw zlen_nil. lia.
  - destruct (is_digit b) eqn:Hd; [|done].
    rw /is_digit in Hd. apply andb_prop in Hd as [H1 H2].
    apply IH in H; [|lia]. rewrite -> zlen_cons, Z.pow_add_r by (pose proof (zlen_nonneg l); lia).
    eapply Z.lt_le_trans; [exact H|].
    pose proof (Z.pow_nonneg 10 (zlen l)). nia.
Qed.

Lemma digits_acc_all acc l v : digits_acc acc l = Some v → forallb is_digit l = true.
Proof.
  revert acc; induction l as [|b l IH]; intros acc H; [done|]. cbn in H |- *.
  destruct (is_digit b); [by eapply IH|done].
Qed.

Lemma scan_digits_take w l :
  forallb is_digit l = true → (w <= length l)%nat → 
  ∀ k, scan_digits w (l ++ k) = (take w l, drop w l ++ k).
Proof.
  revert l; induction w as [|w IH]; intros l Hl Hw k; [by destruct l|].
  destruct l as [|b l]; [cbn in Hw; lia|]. cbn in Hl, Hw |- *.
  apply andb_prop in Hl as [-> Hl]. rw IH //. lia.
Qed.

Lemma trim_left_digit d l : is_digit d = true → strings.trim_left (d :: l) = d :: l.
Proof.
  rw /is_digit => H. apply andb_prop in H as [G1 G2].
  assert (strings.space1 d = false) as S1 by (rw /strings.space1; lia).
  assert (∀ y, strings.space2 d y = false) as S2 by (intros; rw /strings.space2; lia).
  assert (∀ y z, strings.space3 d y z = false) as S3 by (intros; rw /strings.space3; lia).
  cbn. rw S1. destruct l as [|y [|z k]]; rw ?S2 ?S3 //.
Qed.

(** What the scan sees of a segment name: the first four digits of the id, and
    the rest compared with the suffix. *)
Lemma Sscanf_segment_unfold suffix id :
  0 <= id → (4 <= length (bs (fmt_04d id)))%nat →
  Sscanf_segment suffix (segment_name suffix id) =
    match parse_uint (take 4 (bs (fmt_04d id))) with
    | None => None
    | Some n => if strings.has_prefix (bs suffix) (drop 4 (bs (fmt_04d id)) ++ bs suffix)
                then Some n else None
    end.
Proof.
  intros Hid Hlen. pose proof (digits_acc_all _ _ _ (fmt_04d_digits id Hid)) as Hd.
  rw /Sscanf_segment /segment_name !bs_app has_prefix_app drop_app_length.
  set (l := bs (fmt_04d id)) in *. clearbody l.
  destruct l as [|d0 l]; [cbn in Hlen; lia|].
  assert (is_digit d0 = true) as Hd0 by (cbn in Hd; by apply andb_prop in Hd as [? _]).
  rw -app_comm_cons trim_left_digit //.
  rw /is_digit in Hd0. apply andb_prop in Hd0 as [? ?].
  replace (bN d0 =? 45) with false by lia. replace (bN d0 =? 43) with false by lia.
  by rw app_comm_cons scan_digits_take.
Qed.

Lemma Sscanf_segment_name suffix id :
  0 <= id < 10000 → Sscanf_segment suffix (segment_name suffix id) = Some id.
Proof.
  intros Hid. pose proof (length_fmt_04d id Hid) as Hl.
  rw Sscanf_segment_unfold; [lia|lia|].
  rewrite -> take_ge, drop_ge by lia.
  replace (parse_uint (bs (fmt_04d id))) with (Some id).
  - by rw app_nil_l -{2}(app_nil_r (bs suffix)) has_prefix_app.
  - rw /parse_uint. destruct (bs (fmt_04d id)) eqn:E; [done|].
    rw -E fmt_04d_digits //. lia.
Qed.

(** The five-digit ids are printed in full but are not read back: the verb's
    width stops the scan after four characters. *)
Lemma Sscanf_segment_wide suffix id c r :
  10000 <= id → bs suffix = c :: r → is_digit c = false →
  Sscanf_segment suffix (segment_name suffix id) = None.
Proof.
  intros Hid Hs Hc. pose proof (fmt_04d_digits id ltac:(lia)) as Hd.
  pose proof (digits_acc_bound 0 _ _ (Z.le_refl 0) Hd) as Hb.
  assert (5 <= length (bs (fmt_04d id)))%nat as Hlen.
  { destruct (decide (5 <= length (bs (fmt_04d id)))%nat); [done|exfalso].
    assert (10 ^ zlen (bs (fmt_04d id)) <= 10 ^ 4) by (apply Z.pow_le_mono_r; rw /zlen; lia).
    lia. }
  rw Sscanf_segment_unfold; [lia|lia|].
  apply digits_acc_all in Hd. set (l := bs (fmt_04d id)) in *. clearbody l.
  destruct (parse_uint _); [|done].
  destruct (drop 4 l) as [|y k] eqn:Ek.
  { apply (f_equal length) in Ek. rw length_drop in Ek. cbn in Ek. lia. }
  assert (is_digit y = true) as Hy.
  { rw -(take_drop 4 l) Ek forallb_app in Hd. apply andb_prop in Hd as [_ Hd].
    cbn in Hd. by apply andb_prop in Hd as [? _]. }
  rw Hs. cbn. destruct (Byte.eqb c y) eqn:Ecy; [|done].
  apply byte_eqb_eq in Ecy as ->. congruence.
Qed.

(** [Atoi] reads back what [Itoa] prints. *)
Lemma Atoi_Itoa z : 0 <= z < 2 ^ 63 → Atoi (Itoa z) = Ok z.
Proof.
  intros Hz. rw /Atoi /ParseInt64.
  pose proof (digits_Itoa z ltac:(lia)) as Hd. pose proof (digits_acc_all _ _ _ Hd) as Ha.
  destruct (bs (Itoa z)) as [|b l] eqn:E; [by apply Itoa_nonempty in E|].
  assert (is_digit b = true) as Hb by (cbn in Ha; by apply andb_prop in Ha as [? _]).
  rw /is_digit in Hb. apply andb_prop in Hb as [? ?].
  replace (bN b =? 45) with false by lia. replace (bN b =? 43) with false by lia.
  rw /parse_uint Hd. replace ((- 2 ^ 63 <=? z) && (z <? 2 ^ 63)) with true by lia. done.
Qed.
