(* ===== verification/Hash.v ===== *)
(** * Checksums and digests: hash/crc32 (Castagnoli and IEEE) and crypto/sha256

    Both are executable, and checked against their published test vectors. *)
From S2P Require Import Prelude GoLib.

Lemma lxor_bound a b n :
  0 <= n → 0 <= a < 2 ^ n → 0 <= b < 2 ^ n → 0 <= Z.lxor a b < 2 ^ n.
Proof.
  intros Hn Ha Hb.
  assert (0 <= Z.lxor a b) as Hnn by (apply Z.lxor_nonneg; lia).
  split; [done|].
  destruct (decide (Z.lxor a b = 0)) as [->|Hz]; [lia|].
  apply Z.log2_lt_pow2; [lia|].
  pose proof (Z.log2_lxor a b ltac:(lia) ltac:(lia)) as Hl.
  assert (∀ x, 0 <= x < 2 ^ n → x ≠ 0 → Z.log2 x < n) as Hlog.
  { intros x Hx Hx0. apply Z.log2_lt_pow2; lia. }
  destruct (decide (a = 0)) as [->|Ha0]; destruct (decide (b = 0)) as [->|Hb0].
  - done.
  - rw Z.lxor_0_l. apply Hlog; lia.
  - rw Z.lxor_0_r. apply Hlog; lia.
  - pose proof (Hlog a Ha Ha0). pose proof (Hlog b Hb Hb0). lia.
Qed.

(** ** CRC-32, bit-reflected, as [crc32.MakeTable(poly)] and [crc32.Checksum] *)
Module crc32.

Definition Castagnoli : Z := 0x82F63B78.
Definition IEEE : Z := 0xEDB88320.

Definition shift1 (poly c : Z) : Z :=
  if Z.odd c then Z.lxor (Z.shiftr c 1) poly else Z.shiftr c 1.

Definition update1 (poly c : Z) (b : byte) : Z :=
  Nat.iter 8 (shift1 poly) (Z.lxor c (bN b)).

Definition Checksum (poly : Z) (data : bytes) : Z :=
  Z.lxor (fold_left (update1 poly) data 0xFFFFFFFF) 0xFFFFFFFF.

Lemma shift1_range poly c : is_u32 poly → is_u32 c → is_u32 (shift1 poly c).
Proof.
  rw /is_u32 /shift1 => Hp Hc.
  assert (0 <= Z.shiftr c 1 < 2 ^ 32).
  { rw Z.shiftr_div_pow2; [lia|]. split; [apply Z.div_pos; lia|].
    apply Z.div_lt_upper_bound; lia. }
  destruct (Z.odd c); [|done]. apply lxor_bound; lia.
Qed.

Lemma update1_range poly c b : is_u32 poly → is_u32 c → is_u32 (update1 poly c b).
Proof.
  intros Hp Hc. rw /update1.
  assert (is_u32 (Z.lxor c (bN b))) as H0.
  { pose proof (bN_range b). apply lxor_bound; rw /is_u32 in Hc |- *; lia. }
  generalize 8%nat as n. induction n as [|n IH]; [done|]. cbn. by apply shift1_range.
Qed.

Lemma Checksum_range poly data : is_u32 poly → is_u32 (Checksum poly data).
Proof.
  intros Hp. rw /Checksum. apply lxor_bound; [lia| |lia].
  assert (is_u32 0xFFFFFFFF) as H by (rw /is_u32; lia). revert H.
  generalize 0xFFFFFFFF as c.
  induction data as [|b data IH]; intros c Hc; [done|]. cbn. by apply IH, update1_range.
Qed.

Example check_castagnoli : Checksum Castagnoli (bs "123456789") = 0xE3069283.
Proof. vm_compute. reflexivity. Qed.
Example check_ieee : Checksum IEEE (bs "123456789") = 0xCBF43926.
Proof. vm_compute. reflexivity. Qed.

End crc32.

(** ** SHA-256 *)
Module sha256.

(** The constants of FIPS 180-4: the first 32 bits of the fractional parts of the
    square and cube roots of the first primes. *)
Definition is_prime (n : Z) : bool :=
  forallb (fun d => negb (n mod d =? 0)) (Z.of_nat <$> List.seq 2 (Z.to_nat n - 2)).
Definition primes (n : nat) : list Z := take n (List.filter is_prime (Z.of_nat <$> List.seq 2 320)).

(** The integer cube root, a bit at a time from the top. *)
Fixpoint cbrt (bits : nat) (n r : Z) : Z :=
  match bits with
  | O => r
  | S b => let r' := r + 2 ^ Z.of_nat b in cbrt b n (if r' * r' * r' <=? n then r' else r)
  end.
Definition frac_sqrt (p : Z) : Z := Z.sqrt (p * 2 ^ 64) mod 2 ^ 32.
Definition frac_cbrt (p : Z) : Z := cbrt 36 (p * 2 ^ 96) 0 mod 2 ^ 32.

Definition K : list Z := Eval vm_compute in frac_cbrt <$> primes 64.

Definition add32 (a b : Z) : Z := (a + b) mod 2 ^ 32.
Definition rotr (n x : Z) : Z :=
  Z.lor (Z.shiftr x n) (Z.shiftl x (32 - n) mod 2 ^ 32).
Definition not32 (x : Z) : Z := Z.lxor x 0xFFFFFFFF.
Definition bsig0 x := Z.lxor (rotr 2 x) (Z.lxor (rotr 13 x) (rotr 22 x)).
Definition bsig1 x := Z.lxor (rotr 6 x) (Z.lxor (rotr 11 x) (rotr 25 x)).
Definition ssig0 x := Z.lxor (rotr 7 x) (Z.lxor (rotr 18 x) (Z.shiftr x 3)).
Definition ssig1 x := Z.lxor (rotr 17 x) (Z.lxor (rotr 19 x) (Z.shiftr x 10)).
Definition ch x y z := Z.lxor (Z.land x y) (Z.land (not32 x) z).
Definition maj x y z := Z.lxor (Z.land x y) (Z.lxor (Z.land x z) (Z.land y z)).

Record st : Set := St { a_ : Z; b_ : Z; c_ : Z; d_ : Z; e_ : Z; f_ : Z; g_ : Z; h_ : Z }.

Definition init : st := Eval vm_compute in
  match frac_sqrt <$> primes 8 with
  | [a; b; c; d; e; f; g; h] => St a b c d e f g h
  | _ => St 0 0 0 0 0 0 0 0
  end.

Definition round (s : st) (kw : Z * Z) : st :=
  let t1 := add32 (h_ s) (add32 (bsig1 (e_ s)) (add32 (ch (e_ s) (f_ s) (g_ s)) (add32 kw.1 kw.2))) in
  let t2 := add32 (bsig0 (a_ s)) (maj (a_ s) (b_ s) (c_ s)) in
  St (add32 t1 t2) (a_ s) (b_ s) (c_ s) (add32 (d_ s) t1) (e_ s) (f_ s) (g_ s).

(** The message schedule, most recent word first. *)
Fixpoint schedule (n : nat) (w : list Z) : list Z :=
  match n with
  | O => w
  | S n' =>
      let at_ i := nth i w 0 in
      let x := add32 (ssig1 (at_ 1%nat)) (add32 (at_ 6%nat) (add32 (ssig0 (at_ 14%nat)) (at_ 15%nat))) in
      schedule n' (x :: w)
  end.

Fixpoint words (l : bytes) : list Z :=
  match l with
  | a :: b :: c :: d :: l' =>
      (bN a * 2 ^ 24 + bN b * 2 ^ 16 + bN c * 2 ^ 8 + bN d) :: words l'
  | _ => []
  end.

Definition block (s : st) (blk : bytes) : st :=
  let w := rev (schedule 48 (rev (words blk))) in
  let s' := fold_left round (combine K w) s in
  St (add32 (a_ s) (a_ s')) (add32 (b_ s) (b_ s')) (add32 (c_ s) (c_ s')) (add32 (d_ s) (d_ s'))
     (add32 (e_ s) (e_ s')) (add32 (f_ s) (f_ s')) (add32 (g_ s) (g_ s')) (add32 (h_ s) (h_ s')).

Definition be (n : nat) (z : Z) : bytes := rev (le_split n z).

Definition pad (m : bytes) : bytes :=
  let n := zlen m in
  m ++ [x80] ++ replicate (Z.to_nat ((55 - n) mod 64)) x00 ++ be 8 (8 * n).

Fixpoint blocks (fuel : nat) (s : st) (l : bytes) : st :=
  match fuel with
  | O => s
  | S fuel' =>
      match l with
      | [] => s
      | _ => blocks fuel' (block s (take 64 l)) (drop 64 l)
      end
  end.

(** [sha256.Sum256]: the padded message has at most [length m / 64 + 2] blocks. *)
Definition Sum256 (m : bytes) : bytes :=
  let s := blocks (length m / 64 + 2) init (pad m) in
  be 4 (a_ s) ++ be 4 (b_ s) ++ be 4 (c_ s) ++ be 4 (d_ s) ++
  be 4 (e_ s) ++ be 4 (f_ s) ++ be 4 (g_ s) ++ be 4 (h_ s).

Example check_abc : EncodeToString (Sum256 (bs "abc")) =
  "ba7816bf8f01cfea414140de5dae2223b00361a396177a9cb410ff61f20015ad".
Proof. vm_compute. reflexivity. Qed.

Example check_two_blocks :
  EncodeToString (Sum256 (bs "abcdbcdecdefdefgefghfghighijhijkijkljklmklmnlmnomnopnopq")) =
  "248d6a61d20638b8e5c026930c3e6039a33ce45964ff2167f6ecedd419db06c1".
Proof. vm_compute. reflexivity. Qed.

Lemma Sum256_length m : length (Sum256 m) = 32%nat.
Proof.
  rw /Sum256. cbv zeta. by rw !length_app.
Qed.

End sha256.
