(* ===== verification/Ids.v ===== *)
(** * Identifiers: internal/globalid and internal/supplier

    A global package id packs a shard id and a shard-local package id into one
    signed 64-bit integer; a supplier id is read from a request's query. *)
From S2P Require Import Prelude GoLib.

Module globalid.

Definition ShardShift : Z := 48.
Definition localIDMask : Z := Z.shiftl 1 ShardShift - 1.

Definition Encode (shardID localID : Z) : Z :=
  i64 (Z.lor (u64 (Z.shiftl (u64 shardID) ShardShift)) (Z.land (u64 localID) localIDMask)).

Definition Decode (globalID : Z) : Z * Z :=
  let u := u64 globalID in
  (i64 (Z.shiftr u ShardShift), i64 (Z.land u localIDMask)).

(** The packed word is a sum: the two fields do not overlap. *)
Lemma pack_sum s l :
  Z.lor (u64 (Z.shiftl (u64 s) ShardShift)) (Z.land (u64 l) localIDMask) =
  (s mod 2 ^ 16) * 2 ^ 48 + l mod 2 ^ 48.
Proof.
  rw /localIDMask /ShardShift -(Z.ones_equiv 48 : Z.ones 48 = Z.shiftl 1 48 - 1).
  rw Z.land_ones; [lia|].
  assert (u64 (Z.shiftl (u64 s) 48) = Z.shiftl (s mod 2 ^ 16) 48) as ->.
  { rw /u64 !Z.shiftl_mul_pow2; try lia.
    rw Z.mul_mod_idemp_l; [lia|]. replace (2 ^ 64) with (2 ^ 16 * 2 ^ 48) by lia.
    rw Z.mul_mod_distr_r; lia. }
  assert (u64 l mod 2 ^ 48 = l mod 2 ^ 48) as ->.
  { symmetry. symmetry. apply Z.mod_mod_divide. by exists (2 ^ 16). }
  rw -Z.add_nocarry_lor; last first.
  { by rw Z.shiftl_mul_pow2; [lia|]. }
  apply Z.bits_inj'. intros n Hn. rw Z.land_spec Z.bits_0.
  destruct (Z.lt_ge_cases n 48).
  - rw Z.shiftl_spec_low //.
  - rw (Z.mod_pow2_bits_high _ 48); [lia|]. by rw andb_false_r.
Qed.

Lemma Encode_unsigned s l :
  u64 (Encode s l) = (s mod 2 ^ 16) * 2 ^ 48 + l mod 2 ^ 48.
Proof.
  rw /Encode pack_sum /u64 /i64.
  pose proof (Z.mod_pos_bound s (2 ^ 16)). pose proof (Z.mod_pos_bound l (2 ^ 48)).
  set (x := _ * _ + _) in *. 
  assert (0 <= x < 2 ^ 64) by lia.
  rw Zminus_mod_idemp_l.
  replace (x + 2 ^ 63 - 2 ^ 63) with x by lia. by apply Z.mod_small.
Qed.

Lemma unpack s l : 0 <= s < 2 ^ 16 → 0 <= l < 2 ^ 48 → Decode (Encode s l) = (s, l).
Proof.
  intros Hs Hl. rw /Decode Encode_unsigned.
  rewrite -> (Z.mod_small s), (Z.mod_small l) by lia.
  rw /localIDMask /ShardShift -(Z.ones_equiv 48 : Z.ones 48 = Z.shiftl 1 48 - 1).
  rewrite -> Z.land_ones, Z.shiftr_div_pow2 by lia.
  f_equal; rewrite -> i64_small; rw /is_i64.
  - rewrite -> Z.div_add_l by lia. rewrite -> Z.div_small; lia.
  - rewrite -> Z.div_add_l by lia. rewrite -> Z.div_small; lia.
  - rewrite -> Z.add_comm, Z_mod_plus_full, Z.mod_small; lia.
  - rewrite -> Z.add_comm, Z_mod_plus_full, Z.mod_small; lia.
Qed.

(** The id the coordinator builds for a package carries its shard and its
    local id exactly, for the 16-bit shard ids and 48-bit local ids of the layout. *)
Theorem Decode_Encode s l :
  0 <= s < 2 ^ 16 → 0 <= l < 2 ^ 48 → Decode (Encode s l) = (s, l).
Proof. apply unpack. Qed.

Lemma Decode_Encode_witness : Decode (Encode 3 77) = (3, 77).
Proof. apply (Decode_Encode 3 77); lia. Defined.

(** Every signed 64-bit id is the encoding of its decoded parts: decoding
    loses nothing, so two different ids never route to the same package. *)
Theorem Encode_Decode g :
  is_i64 g → Encode (Decode g).1 (Decode g).2 = g.
Proof.
  intros Hg. rw /Decode /=.
  assert (is_u64 (u64 g)) as Hu by apply u64_range. rw /is_u64 in Hu.
  rw /Encode pack_sum.
  rw /localIDMask /ShardShift -(Z.ones_equiv 48 : Z.ones 48 = Z.shiftl 1 48 - 1).
  rewrite -> Z.land_ones, Z.shiftr_div_pow2 by lia.
  pose proof (Z.div_mod (u64 g) (2 ^ 48) ltac:(lia)).
  pose proof (Z.mod_pos_bound (u64 g) (2 ^ 48) ltac:(lia)).
  rewrite -> (i64_small (u64 g / 2 ^ 48)), (i64_small (u64 g mod 2 ^ 48)) by (rw /is_i64; lia).
  rewrite -> (Z.mod_small (u64 g / 2 ^ 48)), (Z.mod_small (u64 g mod 2 ^ 48)) by lia.
  replace (_ * _ + _) with (u64 g) by lia. by apply i64_u64.
Qed.

Lemma Encode_Decode_witness : Encode (Decode 844424930132045).1 (Decode 844424930132045).2 = 844424930132045.
Proof. apply Encode_Decode. rw /is_i64. lia. Defined.

(** Outside the layout, ids alias: a local id of 49 bits is cut to 48. *)
Example Encode_aliases : Encode 1 (2 ^ 48 + 5) = Encode 1 5.
Proof. reflexivity. Qed.

End globalid.

Module supplier.

Definition MaxID : Z := 1000000.

Definition Validate (id : Z) : result unit :=
  if (id <=? 0) || (MaxID <? id) then Err (errorf "invalid supplier_id") else Ok tt.

(** [v] is the value of the query parameter [supplier_id], empty when absent. *)
Definition ParseQuery (v : string) : result Z :=
  if String.eqb v "" then Err (errorf "supplier_id is required") else
  match Atoi v with
  | Err _ => Err (errorf "invalid supplier_id")
  | Ok id =>
      match Validate id with
      | Err e => Err e
      | Ok _ => Ok id
      end
  end.

Lemma ParseQuery_range v id : ParseQuery v = Ok id → 1 <= id <= MaxID.
Proof.
  rw /ParseQuery /Validate => H. repeat case_hyp H; simplify_eq. unfold MaxID in *. lia.
Qed.

(** A supplier id is accepted exactly when it is in 1..1000000: each such id
    printed in decimal is read back, and nothing outside the range is returned. *)
Theorem ParseQuery_accepts id :
  (1 <= id <= MaxID → ParseQuery (Itoa id) = Ok id) ∧
  (∀ v, ParseQuery v = Ok id → 1 <= id <= MaxID).
Proof.
  split; [|intros v; apply ParseQuery_range].
  rw /ParseQuery /Validate /MaxID => H.
  destruct (String.eqb_spec (Itoa id) "") as [E|_].
  { by destruct (Itoa_nonempty id); rw E. }
  rewrite -> Atoi_Itoa by lia.
  by replace ((id <=? 0) || (1000000 <? id)) with false by lia.
Qed.

End supplier.
