(* ===== verification/Record.v ===== *)
(** * Segment records: internal/storage/record.go

    On disk a record is [magic:4][size:4][payload:size][crc32c:4], all words
    little-endian; a finished segment ends with a 32-byte footer. *)
From S2P Require Import Prelude GoLib Hash.

Definition MagicXML : Z := 0x584D4C31.
Definition MagicXMLC : Z := 0x584D4C32.
Definition MagicZIP : Z := 0x5A495031.
Definition MagicERR : Z := 0x45525231.
Definition FooterMagic : Z := 0x464F4F54.
Definition HeaderSize : Z := 8.
Definition ChecksumSize : Z := 4.
Definition FooterSize : Z := 32.
Definition RecordOverhead : Z := HeaderSize + ChecksumSize.

(** [binary.LittleEndian.Uint32(data[lo:lo+4])] and the writers. *)
Definition Uint32 (l : bytes) : Z := le_combine (take 4 l).
Definition Uint64 (l : bytes) : Z := le_combine (take 8 l).
Definition PutUint32 (v : Z) : bytes := le_split 4 v.
Definition PutUint64 (v : Z) : bytes := le_split 8 v.

Definition RecordChecksum (payload : bytes) : Z := crc32.Checksum crc32.Castagnoli payload.

Definition KnownMagic (magic : Z) : bool :=
  (magic =? MagicXML) || (magic =? MagicXMLC) || (magic =? MagicZIP) || (magic =? MagicERR).

Inductive RecordType : Set := RecordXML | RecordZIP | RecordError.
#[export] Instance RecordType_eq_dec : EqDecision RecordType.
Proof. solve_decision. Defined.

Definition Magic (t : RecordType) : Z :=
  match t with
  | RecordZIP => MagicZIP
  | RecordError => MagicERR
  | RecordXML => MagicXML
  end.

Definition IsCompressedXML (magic : Z) : bool := magic =? MagicXMLC.

Definition EncodeRecord (magic : Z) (payload : bytes) : bytes :=
  PutUint32 magic ++ PutUint32 (u32 (zlen payload)) ++ payload ++ PutUint32 (RecordChecksum payload).

Definition DecodeRecordHeader (data : bytes) : result (Z * Z) :=
  if zlen data <? HeaderSize then Err (errorf "record header too short")
  else Ok (Uint32 (slice 0 4 data), Uint32 (slice 4 8 data)).

Definition EncodeFooter (recordCount totalSize : Z) : bytes :=
  PutUint32 recordCount ++ PutUint64 totalSize ++ zeros 16 ++ PutUint32 FooterMagic.

Definition ValidateFooter (data : bytes) : option (Z * Z) :=
  if zlen data <? FooterSize then None else
  let off := zlen data - FooterSize in
  if Uint32 (slice (off + 28) (off + 32) data) =? FooterMagic
  then Some (Uint32 (slice off (off + 4) data), Uint64 (slice (off + 4) (off + 12) data))
  else None.

#[global] Arguments PutUint32 : simpl never.
#[global] Arguments PutUint64 : simpl never.

(** Arithmetic on lengths and the layout's constants. *)
Ltac sizes := unfold RecordOverhead, HeaderSize, ChecksumSize, FooterSize, zlen in *; lia.

(** ** Facts *)

Lemma RecordChecksum_range p : is_u32 (RecordChecksum p).
Proof. apply crc32.Checksum_range. rw /is_u32 /crc32.Castagnoli. lia. Qed.

Lemma Uint32_Put v : is_u32 v → Uint32 (PutUint32 v) = v.
Proof. intros H. rw /Uint32 /PutUint32 take_ge; [by rw length_le_split|]. by apply le_u32. Qed.

Lemma Uint64_Put v : is_u64 v → Uint64 (PutUint64 v) = v.
Proof.
  intros H. rw /Uint64 /PutUint64 take_ge; [by rw length_le_split|].
  rw le_u64. by apply Z.mod_small.
Qed.

Lemma Uint32_range l : is_u32 (Uint32 l).
Proof.
  rw /is_u32 /Uint32. pose proof (le_combine_bound (take 4 l)) as H.
  assert (2 ^ (8 * Z.of_nat (length (take 4 l))) <= 2 ^ 32).
  { apply Z.pow_le_mono_r; [lia|]. rw length_take. lia. }
  lia.
Qed.

Lemma DecodeRecordHeader_range data m sz :
  DecodeRecordHeader data = Ok (m, sz) → is_u32 m ∧ is_u32 sz.
Proof.
  rw /DecodeRecordHeader => H. case_hyp H; simplify_eq. split; apply Uint32_range.
Qed.

Lemma zlen_Put32 v : zlen (PutUint32 v) = 4.
Proof. apply zlen_le_split. Qed.
Lemma zlen_Put64 v : zlen (PutUint64 v) = 8.
Proof. apply zlen_le_split. Qed.

Lemma zlen_EncodeRecord m p : zlen (EncodeRecord m p) = RecordOverhead + zlen p.
Proof. rw /EncodeRecord !zlen_app !zlen_Put32 /RecordOverhead /HeaderSize /ChecksumSize. lia. Qed.

Lemma zlen_EncodeFooter n t : zlen (EncodeFooter n t) = FooterSize.
Proof. by rw /EncodeFooter !zlen_app !zlen_Put32 zlen_Put64 zlen_replicate. Qed.

#[export] Hint Rewrite zlen_Put32 zlen_Put64 zlen_EncodeRecord zlen_EncodeFooter : len.

(** The header of a record at the front of a buffer. *)
Lemma DecodeRecordHeader_enc m p rest :
  is_u32 m → is_u32 (zlen p) →
  DecodeRecordHeader (EncodeRecord m p ++ rest) = Ok (m, zlen p).
Proof.
  intros Hm Hp. rw /DecodeRecordHeader zlen_app zlen_EncodeRecord.
  replace (_ <? _) with false.
  2:{ rw /RecordOverhead /HeaderSize /ChecksumSize.
      pose proof (zlen_nonneg p). pose proof (zlen_nonneg rest). lia. }
  rw /EncodeRecord -!app_assoc.
  rewrite -> slice_app_first, slice_app_mid, !Uint32_Put, u32_small;
    rw ?u32_small ?zlen_Put32 //.
Qed.

Lemma DecodeRecordHeader_hdr m p :
  is_u32 m → is_u32 (zlen p) →
  DecodeRecordHeader (slice 0 HeaderSize (EncodeRecord m p)) = Ok (m, zlen p).
Proof.
  intros Hm Hp. rw /EncodeRecord app_assoc slice_app_l //. 
  rw slice_all; [by rw zlen_app !zlen_Put32|].
  rw /DecodeRecordHeader zlen_app !zlen_Put32.
  replace (4 + 4 <? HeaderSize) with false by done.
  rewrite -> slice_app_first, slice_app_last, !Uint32_Put, u32_small;
    rw ?u32_small ?zlen_Put32 //.
Qed.

Lemma EncodeRecord_payload m p rest :
  slice HeaderSize (HeaderSize + zlen p) (EncodeRecord m p ++ rest) = p.
Proof.
  rw /EncodeRecord -!app_assoc (app_assoc (PutUint32 m)).
  by apply slice_app_mid; rw zlen_app !zlen_Put32.
Qed.

Lemma EncodeRecord_crc m p rest :
  slice (HeaderSize + zlen p) (HeaderSize + zlen p + ChecksumSize) (EncodeRecord m p ++ rest) =
  PutUint32 (RecordChecksum p).
Proof.
  rw /EncodeRecord -!app_assoc.
  rw (app_assoc (PutUint32 m)) (app_assoc _ p).
  by apply slice_app_mid; rw !zlen_app !zlen_Put32.
Qed.

Lemma KnownMagic_u32 m : KnownMagic m = true → is_u32 m.
Proof.
  rw /KnownMagic /is_u32 /MagicXML /MagicXMLC /MagicZIP /MagicERR. lia.
Qed.

Lemma Magic_known t : KnownMagic (Magic t) = true.
Proof. by destruct t. Qed.

(** A footer written for a segment is recognised at the end of any data that
    ends with it, and gives back the record count and the size it was made from. *)
Theorem ValidateFooter_EncodeFooter pre n t :
  is_u32 n → is_u64 t → ValidateFooter (pre ++ EncodeFooter n t) = Some (n, t).
Proof.
  intros Hn Ht. rw /ValidateFooter zlen_app zlen_EncodeFooter.
  pose proof (zlen_nonneg pre).
  replace (_ <? _) with false by lia.
  replace (zlen pre + FooterSize - FooterSize) with (zlen pre) by lia.
  rw -{3}(Z.add_0_r (zlen pre)) !slice_shift //.
  assert (slice 0 4 (EncodeFooter n t) = PutUint32 n) as ->.
  { rw /EncodeFooter. by apply slice_app_first. }
  assert (slice 4 12 (EncodeFooter n t) = PutUint64 t) as ->.
  { rw /EncodeFooter. by apply slice_app_mid. }
  assert (slice 28 32 (EncodeFooter n t) = PutUint32 FooterMagic) as ->.
  { rw /EncodeFooter !app_assoc. by apply slice_app_last. }
  by rw !Uint32_Put // Uint64_Put.
Qed.

Lemma ValidateFooter_EncodeFooter_witness :
  ValidateFooter (bs "data" ++ EncodeFooter 2 340) = Some (2, 340).
Proof. apply (ValidateFooter_EncodeFooter (bs "data") 2 340); [rw /is_u32|rw /is_u64]; lia. Defined.
