(* ===== verification/FS.v ===== *)
(** * The file system the program writes to: what it uses of package os

    A directory maps names to inodes; an open file refers to an inode, so a
    handle keeps reading the file it was opened on after the name is rebound by
    a rename.  Every call can fail: [fs_faults] is the sequence of outcomes the
    environment has in store, one consumed per call (no more entries: no more
    faults), so a theorem about every [fs_faults] is about every failure
    pattern.  [i_stable] is the prefix of the data that survives a crash: a
    successful [Sync] makes it the whole file, a write or truncation below its
    end cuts it there.  Nothing of the directory itself is promised to survive. *)
From S2P Require Import Prelude GoLib.

Inductive fault : Set :=
  | FNone            (** the call succeeds *)
  | FFail            (** the call fails and does nothing *)
  | FShort (n : nat) (** a write stops after [n] bytes and fails *).

Record inode : Type := Inode { i_data : bytes; i_stable : bytes; i_mtime : Z }.

Record FS : Type := MkFS {
  fs_dir : gmap string positive;
  fs_nodes : gmap positive inode;
  fs_next : positive;
  fs_clock : Z;
  fs_faults : list fault;
}.

(** An open file: [f_pos] and [f_append] matter only to sequential writes. *)
Record File : Set := MkFile { f_ino : positive; f_open : bool; f_pos : Z; f_append : bool }.

Definition set_nodes (g : gmap positive inode → gmap positive inode) (fs : FS) : FS :=
  MkFS (fs_dir fs) (g (fs_nodes fs)) (fs_next fs) (fs_clock fs) (fs_faults fs).
Definition set_dir (g : gmap string positive → gmap string positive) (fs : FS) : FS :=
  MkFS (g (fs_dir fs)) (fs_nodes fs) (fs_next fs) (fs_clock fs) (fs_faults fs).

Definition io_error : error := errorf "input/output error".
Definition not_exist : error := Error "no such file or directory" [ErrNotExist].
Definition eof : error := Error "EOF" [ErrEOF].
Definition closed_error : error := Error "file already closed" [ErrClosed].

Module os.

(** Take the next outcome from the environment. *)
Definition outcome : M FS fault := fun fs =>
  match fs_faults fs with
  | [] => (fs, Ok FNone)
  | o :: os => (MkFS (fs_dir fs) (fs_nodes fs) (fs_next fs) (fs_clock fs) os, Ok o)
  end.

Definition guarded {A} (m : M FS A) : M FS A :=
  let! o := outcome in
  match o with FNone => m | _ => fail io_error end.

(** Data of length [off] followed by [new], over what was there: [pwrite]. *)
Definition splice (d : bytes) (off : Z) (new : bytes) : bytes :=
  take (Z.to_nat off) (d ++ replicate (Z.to_nat off - length d)%nat x00) ++
  new ++ drop (Z.to_nat off + length new)%nat d.

Definition write_inode (off : Z) (new : bytes) (now : Z) (i : inode) : inode :=
  Inode (splice (i_data i) off new) (take (Z.to_nat off) (i_stable i)) now.

Definition OpenFile (name : string) (create append : bool) : M FS File :=
  guarded (fun fs =>
    match fs_dir fs !! name with
    | Some ino => (fs, Ok (MkFile ino true 0 append))
    | None =>
        if create then
          (MkFS (<[name := fs_next fs]> (fs_dir fs))
                (<[fs_next fs := Inode [] [] (fs_clock fs)]> (fs_nodes fs))
                (Pos.succ (fs_next fs)) (fs_clock fs) (fs_faults fs),
           Ok (MkFile (fs_next fs) true 0 append))
        else (fs, Err not_exist)
    end).

Definition Open (name : string) : M FS File := OpenFile name false false.

(** The inode behind an open file. *)
Definition node_of (f : File) : M FS inode := fun fs =>
  if f_open f then
    match fs_nodes fs !! f_ino f with
    | Some i => (fs, Ok i)
    | None => (fs, Err closed_error)
    end
  else (fs, Err closed_error).

Definition FStat (f : File) : M FS (Z * Z) :=
  guarded (let! i := node_of f in mret (zlen (i_data i), i_mtime i)).

Definition Stat (name : string) : M FS (Z * Z) :=
  guarded (fun fs =>
    match fs_dir fs !! name ≫= fun ino => fs_nodes fs !! ino with
    | Some i => (fs, Ok (zlen (i_data i), i_mtime i))
    | None => (fs, Err not_exist)
    end).

(** [f.ReadAt(buf, off)] with [len(buf) = n]: all [n] bytes or an error. *)
Definition ReadAt (f : File) (n off : Z) : M FS bytes :=
  guarded (
    let! i := node_of f in
    if off <? 0 then fail (errorf "negative offset") else
    if n =? 0 then mret [] else
    if off + n <=? zlen (i_data i) then mret (slice off (off + n) (i_data i)) else fail eof).

(** [f.WriteAt(data, off)]: the number of bytes written, which is [len(data)]
    whenever the error is nil. *)
Definition WriteAt (f : File) (data : bytes) (off : Z) : M FS Z :=
  let! o := outcome in
  let! i := node_of f in
  match o with
  | FNone =>
      do! modify (fun fs => set_nodes (alter (write_inode off data (fs_clock fs)) (f_ino f)) fs);
      mret (zlen data)
  | FFail => fail io_error
  | FShort n =>
      do! modify (fun fs => set_nodes (alter (write_inode off (take n data) (fs_clock fs)) (f_ino f)) fs);
      fail io_error
  end.

Definition Sync (f : File) : M FS unit :=
  guarded (
    let! _ := node_of f in
    modify (set_nodes (alter (fun i => Inode (i_data i) (i_data i) (i_mtime i)) (f_ino f)))).

Definition Truncate (f : File) (n : Z) : M FS unit :=
  guarded (
    let! _ := node_of f in
    modify (fun fs => set_nodes (alter (fun i =>
      Inode (take (Z.to_nat n) (i_data i)) (take (Z.to_nat n) (i_stable i)) (fs_clock fs)) (f_ino f)) fs)).

(** Sequential [f.Write(data)]: at the file position, or at the end in append
    mode; the returned file has its position advanced. *)
Definition Write (f : File) (data : bytes) : M FS File :=
  let! i := node_of f in
  let off := if f_append f then zlen (i_data i) else f_pos f in
  do! WriteAt f data off;
  mret (MkFile (f_ino f) (f_open f) (off + zlen data) (f_append f)).

Definition Close (f : File) : File := MkFile (f_ino f) false (f_pos f) (f_append f).

Definition ReadFile (name : string) : M FS bytes :=
  guarded (fun fs =>
    match fs_dir fs !! name ≫= fun ino => fs_nodes fs !! ino with
    | Some i => (fs, Ok (i_data i))
    | None => (fs, Err not_exist)
    end).

(** [os.WriteFile]: open with truncation (creating the file), write, close. *)
Definition WriteFile (name : string) (data : bytes) : M FS unit :=
  let! f := OpenFile name true false in
  do! modify (fun fs => set_nodes (alter (fun i => Inode [] [] (fs_clock fs)) (f_ino f)) fs);
  do! WriteAt f data 0;
  mret tt.

Definition Rename (from to : string) : M FS unit :=
  guarded (fun fs =>
    match fs_dir fs !! from with
    | None => (fs, Err not_exist)
    | Some ino => (set_dir (fun d => <[to := ino]> (delete from d)) fs, Ok tt)
    end).

Definition Remove (name : string) : M FS unit :=
  guarded (fun fs =>
    match fs_dir fs !! name with
    | None => (fs, Err not_exist)
    | Some _ => (set_dir (delete name) fs, Ok tt)
    end).

(** [os.MkdirAll] of the directory itself, which exists or is made. *)
Definition MkdirAll : M FS unit := guarded (mret tt).

(** [os.ReadDir]: the names of the directory's files, sorted. *)
Definition name_le (a b : string) : Prop := String.leb a b = true.
#[export] Instance name_le_dec a b : Decision (name_le a b).
Proof. unfold name_le. apply _. Defined.

Definition ReadDir : M FS (list string) :=
  guarded (gets (fun fs => merge_sort name_le (map_to_list (fs_dir fs)).*1)).

End os.

(** The contents a name refers to. *)
Definition file_data (fs : FS) (name : string) : option bytes :=
  i_data <$> (fs_dir fs !! name ≫= fun ino => fs_nodes fs !! ino).

(** A crash keeps of each file its stable prefix, followed by anything.  The
    program never fsyncs a directory, so a crash may leave any entries: a creation
    lost, a rename or a removal undone.  What a restart needs of the entries is a
    hypothesis of its own, [entry_kept]. *)
Definition crash_inode (i i' : inode) : Prop :=
  ∃ junk, i_data i' = i_stable i ++ junk ∧ i_stable i' = i_stable i.
Definition crash (fs fs' : FS) : Prop :=
  (∀ name ino, fs_dir fs' !! name = Some ino → is_Some (fs_nodes fs !! ino)) ∧
  (∀ n1 n2 ino, fs_dir fs' !! n1 = Some ino → fs_dir fs' !! n2 = Some ino → n1 = n2) ∧
  fs_next fs' = fs_next fs ∧
  ∀ ino, option_Forall2 crash_inode (fs_nodes fs !! ino) (fs_nodes fs' !! ino).

(** The name refers to the file it referred to before. *)
Definition entry_kept (fs fs' : FS) (name : string) : Prop := fs_dir fs' !! name = fs_dir fs !! name.

Definition empty_fs (faults : list fault) : FS := MkFS ∅ ∅ 1%positive 0 faults.

(** Inode numbers are fresh, every name has an inode of its own, and the stable
    data of a file is a prefix of its data. *)
Record fs_wf (fs : FS) : Prop := {
  wf_next : ∀ ino, is_Some (fs_nodes fs !! ino) → (ino < fs_next fs)%positive;
  wf_dir : ∀ name ino, fs_dir fs !! name = Some ino → is_Some (fs_nodes fs !! ino);
  wf_inj : ∀ n1 n2 ino, fs_dir fs !! n1 = Some ino → fs_dir fs !! n2 = Some ino → n1 = n2;
  wf_stable : ∀ ino i, fs_nodes fs !! ino = Some i → i_stable i `prefix_of` i_data i;
}.

(** ** Facts about single calls *)

Definition fs_core (fs : FS) := (fs_dir fs, fs_nodes fs, fs_next fs, fs_clock fs).

(** The inode a file refers to, for an open file. *)
Definition opens (fs : FS) (f : File) (i : inode) : Prop :=
  f_open f = true ∧ fs_nodes fs !! f_ino f = Some i.

Lemma node_of_ok fs f i : opens fs f i → os.node_of f fs = (fs, Ok i).
Proof. intros [H1 H2]. by rw /os.node_of H1 H2. Qed.

Lemma outcome_none fs : fs_faults fs = [] → os.outcome fs = (fs, Ok FNone).
Proof. intros H. by rw /os.outcome H. Qed.

Lemma guarded_none {A} (m : M FS A) fs : fs_faults fs = [] → os.guarded m fs = m fs.
Proof. intros H. rw /os.guarded. mstep. by rw outcome_none. Qed.

Lemma guarded_inv {A} (m : M FS A) fs fs' r :
  os.guarded m fs = (fs', r) →
  ∃ fs0, fs_core fs0 = fs_core fs ∧ (m fs0 = (fs', r) ∨ (fs' = fs0 ∧ r = Err io_error)).
Proof.
  rw /os.guarded /os.outcome. mstep. intros H.
  destruct (fs_faults fs) as [|o os]; [exists fs; by split; [|left]|].
  exists (MkFS (fs_dir fs) (fs_nodes fs) (fs_next fs) (fs_clock fs) os).
  split; [done|]. munfold. destruct o; simplify_eq; eauto.
Qed.

Lemma opens_core fs fs' f i : fs_core fs' = fs_core fs → opens fs f i → opens fs' f i.
Proof. rw /fs_core /opens => H [? ?]. injection H as H1 H2 H3 H4. split; congruence. Qed.

Lemma ReadAt_ok fs f i n off :
  fs_faults fs = [] → opens fs f i → 0 <= off → 0 <= n → off + n <= zlen (i_data i) →
  os.ReadAt f n off fs = (fs, Ok (slice off (off + n) (i_data i))).
Proof.
  intros Hf Ho H0 Hn Hle. rw /os.ReadAt guarded_none //. mstep. rw (node_of_ok _ _ _ Ho).
  replace (off <? 0) with false by lia.
  destruct (n =? 0) eqn:E.
  - assert (n = 0) as -> by lia. rw Z.add_0_r /slice Z.sub_diag. by rw take_0.
  - by replace (off + n <=? zlen (i_data i)) with true by lia.
Qed.

Lemma read_core {A} (m : M FS A) fs fs' r :
  (∀ fs, (m fs).1 = fs) → os.guarded m fs = (fs', r) → fs_core fs' = fs_core fs.
Proof.
  intros Hm H. apply guarded_inv in H as (fs0 & Hc & [H|[-> _]]); [|done].
  specialize (Hm fs0). rw H in Hm. cbn in Hm. by subst.
Qed.

Lemma ReadAt_core f n off fs fs' r : os.ReadAt f n off fs = (fs', r) → fs_core fs' = fs_core fs.
Proof.
  apply read_core. intros fs0. mstep. rw /os.node_of.
  repeat case_match; simplify_eq; done.
Qed.

(** ** Writing into a file's data *)
Lemma splice_below d off new lo hi :
  0 <= lo → hi <= off → off <= zlen d → slice lo hi (os.splice d off new) = slice lo hi d.
Proof.
  intros H1 H2 H3. rw /os.splice.
  assert (length d <= length d)%nat by lia.
  replace (Z.to_nat off - length d)%nat with 0%nat by (rw /zlen in H3; lia).
  rw app_nil_r.
  destruct (decide (hi <= lo)) as [Hl|Hl].
  { rw /slice. replace (Z.to_nat (hi - lo)) with 0%nat by lia. by rw !take_0. }
  rw slice_app_l; [lia|rw /zlen length_take; rw /zlen in H3; lia|].
  rw -{2}(take_drop (Z.to_nat off) d) slice_app_l; [lia|rw /zlen length_take; rw /zlen in H3; lia|done].
Qed.

Lemma take_splice d off new :
  0 <= off <= zlen d → take (Z.to_nat off) (os.splice d off new) = take (Z.to_nat off) d.
Proof.
  intros H. rw /os.splice.
  replace (Z.to_nat off - length d)%nat with 0%nat by (rw /zlen in H; lia).
  rw app_nil_r take_app_le; [rw length_take; rw /zlen in H; lia|]. rw take_take. f_equal. lia.
Qed.

Lemma splice_at d off new :
  0 <= off <= zlen d → slice off (off + zlen new) (os.splice d off new) = new.
Proof.
  intros H. rw /os.splice.
  replace (Z.to_nat off - length d)%nat with 0%nat by (rw /zlen in H; lia).
  rw app_nil_r. apply slice_app_mid; rw /zlen length_take; rw /zlen in H; lia.
Qed.

Lemma zlen_splice d off new :
  0 <= off <= zlen d → zlen (os.splice d off new) = Z.max (zlen d) (off + zlen new).
Proof.
  intros H. rw /os.splice.
  replace (Z.to_nat off - length d)%nat with 0%nat by (rw /zlen in H; lia).
  rw app_nil_r !zlen_app. rw /zlen length_take length_drop. rw /zlen in H. lia.
Qed.

(** ** Effects of calls, under any faults *)

(** At most the inode [ino] changes, and of it the first [off] bytes stay, in
    the data and in what is stable. *)
Definition upd (ino : positive) (off : Z) (fs fs' : FS) : Prop :=
  fs_dir fs' = fs_dir fs ∧ fs_next fs' = fs_next fs ∧
  (∀ j, j ≠ ino → fs_nodes fs' !! j = fs_nodes fs !! j) ∧
  match fs_nodes fs !! ino with
  | None => fs_nodes fs' !! ino = None
  | Some i => ∃ i', fs_nodes fs' !! ino = Some i' ∧
      take (Z.to_nat off) (i_data i') = take (Z.to_nat off) (i_data i) ∧
      (i_stable i `prefix_of` i_data i →
       take (Z.to_nat off) (i_stable i) `prefix_of` i_stable i' ∧ i_stable i' `prefix_of` i_data i')
  end.

Lemma upd_core ino off fs fs' : fs_core fs' = fs_core fs → upd ino off fs fs'.
Proof.
  rw /fs_core => H. injection H as H1 H2 H3 H4. rw /upd H1 H2 H3. split_and!; [done..|].
  destruct (fs_nodes fs !! ino) as [i|]; [|done]. exists i. split_and!; [done|done|].
  intros ?. split; [|done]. exists (drop (Z.to_nat off) (i_stable i)). by rw take_drop.
Qed.

Lemma upd_alter ino off g fs :
  (∀ i, fs_nodes fs !! ino = Some i →
     take (Z.to_nat off) (i_data (g i)) = take (Z.to_nat off) (i_data i) ∧
     (i_stable i `prefix_of` i_data i →
      take (Z.to_nat off) (i_stable i) `prefix_of` i_stable (g i) ∧ i_stable (g i) `prefix_of` i_data (g i))) →
  upd ino off fs (set_nodes (alter g ino) fs).
Proof.
  intros Hg. rw /upd /set_nodes /=. split_and!; [done|done| |].
  - intros j Hj. by rw lookup_alter_ne.
  - destruct (fs_nodes fs !! ino) as [i|] eqn:E.
    + exists (g i). rw lookup_alter_eq E /=. split; [done|]. by apply Hg.
    + by rw lookup_alter_eq E.
Qed.

Lemma upd_trans ino off fs1 fs2 fs3 :
  0 <= off → upd ino off fs1 fs2 → upd ino off fs2 fs3 → upd ino off fs1 fs3.
Proof.
  unfold upd. intros Hoff (D1 & N1 & O1 & I1) (D2 & N2 & O2 & I2).
  split_and!; [congruence|congruence| |].
  { intros j Hj. by rw O2 // O1. }
  destruct (fs_nodes fs1 !! ino) as [i1|]; [|by rw I1 in I2].
  destruct I1 as (i2 & E2 & T2 & W2). rw E2 in I2.
  destruct I2 as (i3 & E3 & T3 & W3). exists i3. split_and!; [done|congruence|].
  intros Hp. destruct (W2 Hp) as [S2 Hp2]. destruct (W3 Hp2) as [S3 Hp3]. split; [|done].
  etrans; [|exact S3]. destruct S2 as [k2 ->].
  exists (take (Z.to_nat off - length (take (Z.to_nat off) (i_stable i1))) k2).
  rw take_app. f_equal. by rw take_take Nat.min_id.
Qed.

Lemma take_write_inode off new now i :
  0 <= off <= zlen (i_data i) →
  take (Z.to_nat off) (i_data (os.write_inode off new now i)) = take (Z.to_nat off) (i_data i) ∧
  (i_stable i `prefix_of` i_data i →
   take (Z.to_nat off) (i_stable i) `prefix_of` i_stable (os.write_inode off new now i) ∧
   i_stable (os.write_inode off new now i) `prefix_of` i_data (os.write_inode off new now i)).
Proof.
  intros H. rw /os.write_inode /=. split; [by apply take_splice|].
  intros [k Hk]. split; [done|]. etrans; [|exists (drop (Z.to_nat off) (os.splice (i_data i) off new)); symmetry; apply take_drop].
  rw take_splice // Hk. exists (take (Z.to_nat off - length (i_stable i)) k).
  by rw take_app.
Qed.

Lemma WriteAt_inv f data off fs fs' r i :
  os.WriteAt f data off fs = (fs', r) → opens fs f i → 0 <= off <= zlen (i_data i) →
  upd (f_ino f) off fs fs' ∧
  match r with
  | Ok n => n = zlen data ∧
            fs_nodes fs' !! f_ino f = Some (os.write_inode off data (fs_clock fs) i)
  | Err _ => True
  end.
Proof.
  rw /os.WriteAt => H [Ho Hn] Hoff.
  apply bind_inv in H as [(fs1 & o & H1 & H)|(e & H1 & ->)]; last first.
  { rw /os.outcome in H1. by destruct (fs_faults fs). }
  assert (fs_core fs1 = fs_core fs) as Hc.
  { rw /os.outcome in H1. destruct (fs_faults fs); by simplify_eq. }
  assert (opens fs1 f i) as Ho1 by (eapply opens_core; [exact Hc|done]).
  erewrite bind_ok in H by (by apply node_of_ok).
  assert (fs_clock fs1 = fs_clock fs) as Hck by (rw /fs_core in Hc; congruence).
  assert (upd (f_ino f) off fs fs1) as Hu by (by apply upd_core). clear Hc.
  destruct o as [| |k]; munfold; simplify_eq.
  - split; [eapply upd_trans; [lia|exact Hu|]|].
    + apply upd_alter. intros i' Hi'. destruct Ho1 as [_ Hi]. rw Hi in Hi'. simplify_eq.
      by apply take_write_inode.
    + split; [done|]. rw /= lookup_alter_eq. destruct Ho1 as [_ ->]. by rw Hck.
  - done.
  - split; [|done]. eapply upd_trans; [lia|exact Hu|].
    apply upd_alter. intros i' Hi'. destruct Ho1 as [_ Hi]. rw Hi in Hi'. simplify_eq.
    by apply take_write_inode.
Qed.

(** Calls on a closed file fail and change nothing. *)
Lemma node_of_closed f fs : f_open f = false → os.node_of f fs = (fs, Err closed_error).
Proof. intros H. by rw /os.node_of H. Qed.

Lemma WriteAt_closed f data off fs fs' r :
  os.WriteAt f data off fs = (fs', r) → f_open f = false → fs_core fs' = fs_core fs ∧ is_ok r = false.
Proof.
  rw /os.WriteAt => H Ho.
  apply bind_inv in H as [(fs1 & o & H1 & H)|(e & H1 & ->)]; last first.
  { rw /os.outcome in H1. by destruct (fs_faults fs). }
  erewrite bind_err in H by (by apply node_of_closed). simplify_eq.
  split; [|done]. rw /os.outcome in H1. destruct (fs_faults fs); by simplify_eq.
Qed.

Lemma Sync_inv f fs fs' r i off :
  os.Sync f fs = (fs', r) → opens fs f i → 0 <= off →
  upd (f_ino f) off fs fs' ∧
  match r with
  | Ok _ => fs_nodes fs' !! f_ino f = Some (Inode (i_data i) (i_data i) (i_mtime i))
  | Err _ => True
  end.
Proof.
  rw /os.Sync => H Ho Hoff. apply guarded_inv in H as (fs0 & Hc & [H|[-> ->]]);
    [|by split; [apply upd_core|]].
  pose proof (opens_core _ _ _ _ Hc Ho) as Ho0.
  erewrite bind_ok in H by (by apply node_of_ok). munfold. injection H as <- <-.
  assert (fs_nodes fs0 = fs_nodes fs) as K by (rw /fs_core in Hc; congruence).
  destruct Ho0 as [_ Hi]. split; [|by rw /= lookup_alter_eq Hi].
  eapply upd_trans; [|by apply upd_core|apply upd_alter]; [done|].
  intros i' Hi'. split; [done|]. intros [k Hk]. split; [|done]. cbn. rw Hk.
  etrans; [|exists k; reflexivity].
  exists (drop (Z.to_nat off) (i_stable i')). by rw take_drop.
Qed.

(** What opening a file does, to the file system and for the handle. *)
Definition opened (name : string) (create : bool) (fs fs' : FS) (f : File) : Prop :=
  f_open f = true ∧ f_pos f = 0 ∧
  match fs_dir fs !! name with
  | Some ino => fs_core fs' = fs_core fs ∧ f_ino f = ino
  | None => create = true ∧ f_ino f = fs_next fs ∧
      fs_core fs' = (<[name := fs_next fs]> (fs_dir fs),
                     <[fs_next fs := Inode [] [] (fs_clock fs)]> (fs_nodes fs),
                     Pos.succ (fs_next fs), fs_clock fs)
  end.

Lemma OpenFile_inv name create append fs fs' r :
  os.OpenFile name create append fs = (fs', r) →
  match r with
  | Ok f => opened name create fs fs' f ∧ f_append f = append
  | Err _ => fs_core fs' = fs_core fs
  end.
Proof.
  unfold os.OpenFile. intros H. apply guarded_inv in H as (fs0 & Hc & [H|[-> ->]]); [|done].
  unfold fs_core in Hc. injection Hc as Hd Hn Hx Hk. unfold opened. rw Hd in H.
  destruct (fs_dir fs !! name) as [ino|] eqn:E; simplify_eq/=.
  - split_and!; try done. unfold fs_core. congruence.
  - destruct create; simplify_eq/=; [|unfold fs_core; congruence].
    split_and!; try done. unfold fs_core. cbn. congruence.
Qed.

Lemma guarded_pure_core {A} (m : M FS A) fs fs' r :
  (∀ fs, (m fs).1 = fs) → os.guarded m fs = (fs', r) →
  fs_core fs' = fs_core fs ∧ (r = Err io_error ∨ ∃ fs0, fs_core fs0 = fs_core fs ∧ r = (m fs0).2).
Proof.
  intros Hm H. apply guarded_inv in H as (fs0 & Hc & [H|[-> ->]]); [|by eauto].
  pose proof (Hm fs0) as K. rw H in K. cbn in K. subst fs0. split; [done|right].
  exists fs'. by rw H.
Qed.

Lemma FStat_inv f fs fs' r i :
  os.FStat f fs = (fs', r) → opens fs f i →
  fs_core fs' = fs_core fs ∧ (r = Err io_error ∨ r = Ok (zlen (i_data i), i_mtime i)).
Proof.
  unfold os.FStat. intros H Ho. apply guarded_pure_core in H as [Hc Hr].
  - split; [done|]. destruct Hr as [->|(fs0 & Hc0 & ->)]; [by left|right].
    erewrite bind_ok by (apply node_of_ok; eapply opens_core; eauto). done.
  - intros fs0. munfold. unfold os.node_of. repeat case_match; simplify_eq; done.
Qed.

Lemma Truncate_inv f n fs fs' r i :
  os.Truncate f n fs = (fs', r) → opens fs f i → 0 <= n →
  upd (f_ino f) n fs fs' ∧
  match r with
  | Ok _ => fs_nodes fs' !! f_ino f =
      Some (Inode (take (Z.to_nat n) (i_data i)) (take (Z.to_nat n) (i_stable i)) (fs_clock fs))
  | Err _ => True
  end.
Proof.
  unfold os.Truncate. intros H Ho Hn. apply guarded_inv in H as (fs0 & Hc & [H|[-> ->]]);
    [|by split; [apply upd_core|]].
  pose proof (opens_core _ _ _ _ Hc Ho) as Ho0.
  erewrite bind_ok in H by (by apply node_of_ok). munfold. injection H as <- <-.
  assert (fs_clock fs0 = fs_clock fs) as Hk by (unfold fs_core in Hc; congruence).
  destruct Ho0 as [_ Hi]. split; [|by rw /= lookup_alter_eq Hi /= Hk].
  eapply upd_trans; [|by apply upd_core|apply upd_alter]; [done|].
  intros i' Hi'. cbn. rw !take_take !Nat.min_id. split; [done|].
  intros [k ->]. split; [done|]. rw take_app. by eexists.
Qed.

(** Well-formedness is kept by calls that touch one inode and by opening. *)
Lemma fs_wf_upd ino off fs fs' : upd ino off fs fs' → fs_wf fs → fs_wf fs'.
Proof.
  intros (Hd & Hx & Ho & Hi) [W1 W2 W3 W4].
  assert (∀ j, is_Some (fs_nodes fs' !! j) ↔ is_Some (fs_nodes fs !! j)) as Hdom.
  { intros j. destruct (decide (j = ino)) as [->|Hj]; [|by rw Ho].
    destruct (fs_nodes fs !! ino) as [i|].
    - destruct Hi as (i' & -> & _). split; intros _; eauto.
    - rw Hi. done. }
  split.
  - intros j Hj. rw Hx. apply W1, Hdom, Hj.
  - intros name j Hj. apply Hdom, (W2 name). by rw -Hd.
  - rw Hd. done.
  - intros j i' Hj. destruct (decide (j = ino)) as [->|Hne].
    + destruct (fs_nodes fs !! ino) as [i|] eqn:E; [|congruence].
      destruct Hi as (i2 & E2 & _ & Hp). assert (i2 = i') as -> by congruence.
      by apply Hp, (W4 ino).
    + rw Ho // in Hj. by apply (W4 j).
Qed.

Lemma fs_wf_core fs fs' : fs_core fs' = fs_core fs → fs_wf fs → fs_wf fs'.
Proof. intros H. eapply fs_wf_upd, (upd_core 1 0), H. Qed.

Lemma fs_wf_opened name create fs fs' f : opened name create fs fs' f → fs_wf fs → fs_wf fs'.
Proof.
  intros (Ho & Hp & Hm) W. destruct (fs_dir fs !! name) as [ino|] eqn:E.
  { destruct Hm as [Hc _]. by eapply fs_wf_core. }
  destruct Hm as (_ & Hi & Hc). unfold fs_core in Hc. injection Hc as Hd Hn Hx Hk.
  destruct W as [W1 W2 W3 W4].
  assert (∀ n ino, fs_dir fs !! n = Some ino → ino ≠ fs_next fs) as Hfresh.
  { intros n j Hj ->. apply W2, W1 in Hj. lia. }
  split; rw ?Hd ?Hn ?Hx.
  - intros j [i Hj]. apply lookup_insert_Some in Hj as [[<- _]|[_ Hj]]; [lia|].
    specialize (W1 j (mk_is_Some _ _ Hj)). lia.
  - intros n j Hj. apply lookup_insert_Some in Hj as [[_ <-]|[_ Hj]].
    + rw lookup_insert_eq. eauto.
    + rw lookup_insert_ne; [by apply not_eq_sym, (Hfresh n)|]. by apply (W2 n).
  - intros n1 n2 j H1 H2.
    apply lookup_insert_Some in H1 as [[<- <-]|[N1 H1]];
      apply lookup_insert_Some in H2 as [[<- E2]|[N2 H2]]; try done.
    + by apply Hfresh in H2.
    + subst. by apply Hfresh in H1.
    + by eapply W3.
  - intros j i Hj. apply lookup_insert_Some in Hj as [[<- <-]|[_ Hj]]; [done|by apply (W4 j)].
Qed.

Lemma fs_wf_empty faults : fs_wf (empty_fs faults).
Proof. split; intros *; cbn; rw ?lookup_empty; try done; by intros []. Qed.

(** ** Calls on a named file when nothing fails *)

(** The name [p] refers to inode [ino], which holds [d]; no failure is in store. *)
Record file_is (fs : FS) (p : string) (ino : positive) (d : bytes) : Prop := {
  fi_faults : fs_faults fs = [];
  fi_dir : fs_dir fs !! p = Some ino;
  fi_node : ∃ i, fs_nodes fs !! ino = Some i ∧ i_data i = d;
}.

(** The state after changing that file's data: all else is as it was. *)
Definition others_same (ino : positive) (fs fs' : FS) : Prop :=
  fs_dir fs' = fs_dir fs ∧ ∀ j, j ≠ ino → fs_nodes fs' !! j = fs_nodes fs !! j.

Lemma others_same_trans ino fs1 fs2 fs3 :
  others_same ino fs1 fs2 → others_same ino fs2 fs3 → others_same ino fs1 fs3.
Proof. intros [A1 A2] [B1 B2]. split; [congruence|]. intros j Hj. by rw B2 // A2. Qed.

Lemma OpenFile_is fs p ino d create append :
  file_is fs p ino d → os.OpenFile p create append fs = (fs, Ok (MkFile ino true 0 append)).
Proof. intros [Hf Hd _]. unfold os.OpenFile. rw guarded_none //. by rw Hd. Qed.

Lemma ReadFile_is fs p ino d : file_is fs p ino d → os.ReadFile p fs = (fs, Ok d).
Proof. intros [Hf Hd (i & Hi & <-)]. unfold os.ReadFile. rw guarded_none //. by rw Hd /= Hi. Qed.

Lemma FStat_is fs p ino d pos app : file_is fs p ino d →
  ∃ t, os.FStat (MkFile ino true pos app) fs = (fs, Ok (zlen d, t)).
Proof.
  intros [Hf Hd (i & Hi & <-)]. exists (i_mtime i). unfold os.FStat. rw guarded_none //.
  by erewrite bind_ok by (apply node_of_ok; split; [done|exact Hi]).
Qed.

Lemma alter_is fs p ino d g :
  file_is fs p ino d → ∃ i, i_data i = d ∧
  file_is (set_nodes (alter g ino) fs) p ino (i_data (g i)) ∧ others_same ino fs (set_nodes (alter g ino) fs).
Proof.
  intros [Hf Hd (i & Hi & <-)]. exists i. split; [done|]. split.
  - split; [done|done|]. exists (g i). cbn. by rw lookup_alter_eq Hi.
  - split; [done|]. intros j Hj. cbn. by rw lookup_alter_ne.
Qed.

Lemma WriteAt_is fs p ino d pos app new off :
  file_is fs p ino d → ∃ fs', os.WriteAt (MkFile ino true pos app) new off fs = (fs', Ok (zlen new)) ∧
    file_is fs' p ino (os.splice d off new) ∧ others_same ino fs fs'.
Proof.
  intros H. pose proof (fi_faults _ _ _ _ H) as Hf. destruct (fi_node _ _ _ _ H) as (i & Hi & Hdat).
  unfold os.WriteAt. erewrite bind_ok by (by apply outcome_none).
  erewrite bind_ok by (apply node_of_ok; split; [done|exact Hi]). munfold. eexists. split; [done|].
  destruct (alter_is fs p ino d (os.write_inode off new (fs_clock fs)) H) as (i' & Hi' & K1 & K2).
  cbn in K1. by rw Hi' in K1.
Qed.

Lemma Write_is fs p ino d pos (app : bool) new :
  file_is fs p ino d → let off := if app then zlen d else pos in
  ∃ fs', os.Write (MkFile ino true pos app) new fs = (fs', Ok (MkFile ino true (off + zlen new) app)) ∧
    file_is fs' p ino (os.splice d off new) ∧ others_same ino fs fs'.
Proof.
  intros H. destruct (fi_node _ _ _ _ H) as (i & Hi & Hdat). cbn.
  destruct (WriteAt_is fs p ino d pos app new (if app then zlen d else pos) H) as (fs' & Hw & K).
  exists fs'. split; [|done]. unfold os.Write.
  erewrite bind_ok by (apply node_of_ok; split; [done|exact Hi]). rw Hdat.
  cbn [f_append f_pos]. by erewrite bind_ok by exact Hw.
Qed.

Lemma Sync_is fs p ino d pos app :
  file_is fs p ino d → ∃ fs', os.Sync (MkFile ino true pos app) fs = (fs', Ok tt) ∧
    file_is fs' p ino d ∧ others_same ino fs fs'.
Proof.
  intros H. pose proof (fi_faults _ _ _ _ H) as Hf. destruct (fi_node _ _ _ _ H) as (i & Hi & Hdat).
  unfold os.Sync. rw guarded_none //. erewrite bind_ok by (apply node_of_ok; split; [done|exact Hi]).
  eexists. split; [reflexivity|].
  destruct (alter_is fs p ino d (fun i => Inode (i_data i) (i_data i) (i_mtime i)) H) as (i' & Hi' & K1 & K2).
  cbn in K1. by rw Hi' in K1.
Qed.

Lemma WriteFile_is fs p ino d new :
  file_is fs p ino d → ∃ fs', os.WriteFile p new fs = (fs', Ok tt) ∧
    file_is fs' p ino new ∧ others_same ino fs fs'.
Proof.
  intros H. unfold os.WriteFile. erewrite bind_ok by (by eapply OpenFile_is).
  unfold modify at 1. erewrite bind_ok by reflexivity. cbn [f_ino].
  destruct (alter_is fs p ino d (fun i => Inode [] [] (fs_clock fs)) H) as (i' & _ & K1 & K2). cbn in K1.
  destruct (WriteAt_is _ p ino [] 0 false new 0 K1) as (fs' & Hw & K3 & K4).
  exists fs'. erewrite bind_ok by exact Hw. split; [done|]. split; [|by eapply others_same_trans].
  unfold os.splice in K3. cbn in K3. by rw drop_nil app_nil_r in K3.
Qed.

Lemma splice_end d new : os.splice d (zlen d) new = d ++ new.
Proof.
  unfold os.splice, zlen. rw Nat2Z.id Nat.sub_diag app_nil_r take_ge // drop_ge; [lia|]. by rw app_nil_r.
Qed.

(** Creating a file under a free name. *)
Lemma OpenFile_new fs p append :
  fs_wf fs → fs_faults fs = [] → fs_dir fs !! p = None →
  ∃ fs', os.OpenFile p true append fs = (fs', Ok (MkFile (fs_next fs) true 0 append)) ∧
    file_is fs' p (fs_next fs) [] ∧
    (∀ q, q ≠ p → fs_dir fs' !! q = fs_dir fs !! q) ∧
    (∀ j, is_Some (fs_nodes fs !! j) → fs_nodes fs' !! j = fs_nodes fs !! j).
Proof.
  intros W Hf Hd. unfold os.OpenFile. rw guarded_none // Hd. eexists. split; [reflexivity|]. split; [|split].
  - split; cbn; [done|by rw lookup_insert_eq|]. rw lookup_insert_eq. by eexists.
  - intros q Hq. cbn. by rw lookup_insert_ne.
  - intros j Hj. cbn. rw lookup_insert_ne; [|done]. intros <-. apply (wf_next _ W) in Hj. lia.
Qed.
