(* ===== verification/Segment.v ===== *)
(** * The segment manager: internal/storage/segment.go

    [SegState] is the manager's fields together with the directory it writes to;
    each method is a computation on it.  The mutexes serialise whole methods, so
    a method is one step. *)
From S2P Require Import Prelude GoLib Hash Record FS.

Record Location : Set := MkLocation { SegmentID : Z; Offset : Z; Size : Z }.
#[export] Instance Location_eq_dec : EqDecision Location.
Proof. solve_decision. Defined.

Record readHandleMeta : Set := MkMeta { rm_size : Z; rm_modTime : Z }.

Record SegmentManager : Set := MkSM {
  maxSegmentSize : Z;
  verifyChecksum : bool;
  activeID : Z;
  activeFile : option File;
  activeOffset : Z;
  recordCount : Z;
  readFiles : gmap Z File;
  readMeta : gmap Z readHandleMeta;
}.

Record SegState : Type := MkSeg { sg : SegmentManager; sg_fs : FS }.

Definition on_fs {A} (m : M FS A) : M SegState A :=
  zoom sg_fs (fun fs s => MkSeg (sg s) fs) m.
Definition set_sm (g : SegmentManager → SegmentManager) : M SegState unit :=
  modify (fun s => MkSeg (g (sg s)) (sg_fs s)).

Definition with_active (id off cnt : Z) (sm : SegmentManager) : SegmentManager :=
  MkSM (maxSegmentSize sm) (verifyChecksum sm) id (activeFile sm) off cnt (readFiles sm) (readMeta sm).
Definition with_file (f : option File) (sm : SegmentManager) : SegmentManager :=
  MkSM (maxSegmentSize sm) (verifyChecksum sm) (activeID sm) f (activeOffset sm) (recordCount sm)
       (readFiles sm) (readMeta sm).
Definition with_reads (rf : gmap Z File) (rm : gmap Z readHandleMeta) (sm : SegmentManager) : SegmentManager :=
  MkSM (maxSegmentSize sm) (verifyChecksum sm) (activeID sm) (activeFile sm) (activeOffset sm)
       (recordCount sm) rf rm.

Definition segmentPath (id : Z) : string := segment_name ".dat" id.

(** ** Scanning for the valid prefix *)

(** The record that starts at [offset], if a whole valid one does: its end. *)
Definition record_at (data : bytes) (offset : Z) : option Z :=
  if zlen data - offset <? HeaderSize then None else
  match DecodeRecordHeader (drop (Z.to_nat offset) data) with
  | Err _ => None
  | Ok (magic, size) =>
      if (size =? 0) || negb (KnownMagic magic) then None else
      let recordEnd := offset + HeaderSize + size + ChecksumSize in
      if zlen data <? recordEnd then None else
      let payload := slice (offset + HeaderSize) (offset + HeaderSize + size) data in
      let storedCRC := Uint32 (slice (offset + HeaderSize + size) recordEnd data) in
      if RecordChecksum payload =? storedCRC then Some recordEnd else None
  end.

Fixpoint truncate_loop (fuel : nat) (data : bytes) (offset count : Z) : Z * Z :=
  match fuel with
  | O => (offset, count)
  | S fuel' =>
      match record_at data offset with
      | None => (offset, count)
      | Some recordEnd => truncate_loop fuel' data recordEnd (u32 (count + 1))
      end
  end.

Definition truncateToValid (data : bytes) : bytes * Z * Z :=
  let '(offset, count) := truncate_loop (S (length data)) data 0 0 in
  let offset :=
    if FooterSize <=? zlen data - offset then
      match ValidateFooter (take (Z.to_nat (offset + FooterSize)) data) with
      | Some _ => offset + FooterSize
      | None => offset
      end
    else offset in
  (take (Z.to_nat offset) data, count, offset).

(** The same on an open file, reading it piecewise. *)
Fixpoint scan_loop (fuel : nat) (f : File) (size offset count : Z) : M FS (Z * Z) :=
  match fuel with
  | O => mret (offset, count)
  | S fuel' =>
      if size - offset <? HeaderSize then mret (offset, count) else
      let! hdr := os.ReadAt f HeaderSize offset in
      match DecodeRecordHeader hdr with
      | Err _ => mret (offset, count)
      | Ok (magic, payloadSize) =>
          if (payloadSize =? 0) || negb (KnownMagic magic) then mret (offset, count) else
          let recordEnd := offset + HeaderSize + payloadSize + ChecksumSize in
          if size <? recordEnd then mret (offset, count) else
          let! payload := os.ReadAt f payloadSize (offset + HeaderSize) in
          let! crcBuf := os.ReadAt f ChecksumSize (offset + HeaderSize + payloadSize) in
          if RecordChecksum payload =? Uint32 crcBuf
          then scan_loop fuel' f size recordEnd (u32 (count + 1))
          else mret (offset, count)
      end
  end.

Definition scanValidTail (f : File) (size : Z) : M FS (Z * Z) :=
  let! oc := scan_loop (S (Z.to_nat size)) f size 0 0 in
  let '(offset, count) := oc in
  if FooterSize <=? size - offset then
    let! footer := os.ReadAt f FooterSize offset in
    if Uint32 (slice 28 32 footer) =? FooterMagic
    then mret (offset + FooterSize, count) else mret (offset, count)
  else mret (offset, count).

(** ** Opening segments *)

Definition openSegmentFile (id : Z) : M SegState unit :=
  do! set_sm (fun sm => with_file (os.Close <$> activeFile sm) sm);
  let! f := on_fs (os.OpenFile (segmentPath id) true false) in
  let! info := on_fs (os.FStat f) in
  do! set_sm (with_file (Some f));
  if info.1 =? 0 then set_sm (fun sm => with_active (activeID sm) 0 0 sm) else
  let! sc := try (on_fs (scanValidTail f info.1)) in
  match sc with
  | Err e => do! set_sm (with_file (Some (os.Close f))); fail e
  | Ok (validSize, rc) =>
      let! tr := try (if validSize <? info.1 then on_fs (os.Truncate f validSize) else mret tt) in
      match tr with
      | Err e => do! set_sm (with_file (Some (os.Close f))); fail e
      | Ok _ => set_sm (fun sm => with_active (activeID sm) validSize rc sm)
      end
  end.

Definition openSegment (id : Z) : M SegState unit :=
  do! set_sm (with_active id 0 0);
  openSegmentFile id.

(** The largest id among the directory's segment names, -1 when there is none. *)
Definition max_segment_id (names : list string) : Z :=
  fold_left (fun maxID name =>
    match Sscanf_segment ".dat" name with
    | None => maxID
    | Some id => if maxID <? id then id else maxID
    end) names (-1).

Definition recover : M SegState unit :=
  let! names := wrap_err "read segment dir: " (on_fs os.ReadDir) in
  let maxID := max_segment_id names in
  if maxID <? 0 then openSegment 0 else
  do! set_sm (fun sm => with_active maxID (activeOffset sm) (recordCount sm) sm);
  openSegmentFile maxID.

Definition zero_sm (maxSize : Z) : SegmentManager := MkSM maxSize true 0 None 0 0 ∅ ∅.

Definition NewSegmentManager (maxSize : Z) (fs : FS) : SegState * result unit :=
  (do! wrap_err "create segment dir: " (on_fs os.MkdirAll); recover) (MkSeg (zero_sm maxSize) fs).

(** ** Appending *)

Definition finalizeLocked : M SegState unit :=
  let! sm := gets sg in
  match activeFile sm with
  | None => mret tt
  | Some f =>
      if activeOffset sm =? 0 then mret tt else
      do! on_fs (os.WriteAt f (EncodeFooter (recordCount sm) (u64 (activeOffset sm))) (activeOffset sm));
      on_fs (os.Sync f)
  end.

(** The second half of [appendLocked]: write at the active offset, and fsync. *)
Definition appendActive (record : bytes) (fsync : bool) : M SegState Location :=
  let! sm := gets sg in
  let loc := MkLocation (activeID sm) (activeOffset sm) (zlen record) in
  match activeFile sm with
  | None => fail (errorf "no active segment")
  | Some f =>
      let! n := wrap_err "segment write: " (on_fs (os.WriteAt f record (activeOffset sm))) in
      if negb (n =? zlen record) then fail (errorf "short write") else
      do! (if fsync then wrap_err "segment fsync: " (on_fs (os.Sync f)) else mret tt);
      do! set_sm (fun sm =>
            with_active (activeID sm) (activeOffset sm + zlen record) (u32 (recordCount sm + 1)) sm);
      mret loc
  end.

Definition appendLocked (record : bytes) (fsync : bool) : M SegState Location :=
  let! sm := gets sg in
  match activeFile sm with
  | None => fail (errorf "no active segment")
  | Some _ =>
      let recordSize := zlen record in
      do! (if (0 <? activeOffset sm) && (maxSegmentSize sm <? activeOffset sm + recordSize + FooterSize)
           then do! finalizeLocked; openSegment (activeID sm + 1)
           else mret tt);
      appendActive record fsync
  end.

Definition appendDirect (record : bytes) : M SegState Location := appendLocked record true.

(** A queued write: the record and, once the batch ran, its outcome. *)
Record pendingWrite : Type := MkPW { pw_record : bytes; pw_loc : Location; pw_err : option error }.
Definition no_location : Location := MkLocation 0 0 0.
Definition new_pending (record : bytes) : pendingWrite := MkPW record no_location None.

(** The loop of [batchAppend]: outcomes are recorded per write, [wrote] says
    whether any succeeded. *)
Fixpoint batch_loop (batch : list pendingWrite) : M SegState (list pendingWrite * bool) :=
  match batch with
  | [] => mret ([], false)
  | pw :: batch' =>
      let! r := try (appendLocked (pw_record pw) false) in
      let! rest := batch_loop batch' in
      match r with
      | Err e => mret (MkPW (pw_record pw) (pw_loc pw) (Some e) :: rest.1, rest.2)
      | Ok loc => mret (MkPW (pw_record pw) loc (pw_err pw) :: rest.1, true)
      end
  end.

Definition fail_unfailed (e : error) (pw : pendingWrite) : pendingWrite :=
  match pw_err pw with
  | None => MkPW (pw_record pw) (pw_loc pw) (Some e)
  | Some _ => pw
  end.

Definition batchAppend (batch : list pendingWrite) : M SegState (list pendingWrite) :=
  let! res := batch_loop batch in
  let '(batch', wrote) := res in
  let! sm := gets sg in
  match activeFile sm with
  | Some f =>
      if wrote : bool then
        let! r := try (on_fs (os.Sync f)) in
        match r with
        | Err e => mret (fail_unfailed (wrapf "batch fsync: " e) <$> batch')
        | Ok _ => mret batch'
        end
      else mret batch'
  | None => mret batch'
  end.

(** ** Reading *)

(** [time.Time{}], the year 1, in nanoseconds relative to the epoch. *)
Definition zero_time : Z := -62135596800000000000.

Definition openReadHandle (segmentID : Z) : M SegState File :=
  let path := segmentPath segmentID in
  let! st := try (on_fs (os.Stat path)) in
  match st with
  | Err e =>
      do! set_sm (fun sm => with_reads (delete segmentID (readFiles sm)) (delete segmentID (readMeta sm)) sm);
      fail e
  | Ok info =>
      let! sm := gets sg in
      match readFiles sm !! segmentID with
      | Some f =>
          let meta := default (MkMeta 0 zero_time) (readMeta sm !! segmentID) in
          if (rm_size meta =? info.1) && (rm_modTime meta =? info.2) then mret f else
          do! set_sm (fun sm => with_reads (delete segmentID (readFiles sm)) (delete segmentID (readMeta sm)) sm);
          let! f := on_fs (os.Open path) in
          do! set_sm (fun sm => with_reads (<[segmentID := f]> (readFiles sm))
                                 (<[segmentID := MkMeta info.1 info.2]> (readMeta sm)) sm);
          mret f
      | None =>
          let! f := on_fs (os.Open path) in
          do! set_sm (fun sm => with_reads (<[segmentID := f]> (readFiles sm))
                                 (<[segmentID := MkMeta info.1 info.2]> (readMeta sm)) sm);
          mret f
      end
  end.

Definition ReadRecord (segmentID offset : Z) : M SegState (Z * bytes) :=
  let! f := openReadHandle segmentID in
  let! hdr := on_fs (os.ReadAt f HeaderSize offset) in
  if negb (zlen hdr =? HeaderSize) then fail (errorf "short header read") else
  let! ms := lift_result (DecodeRecordHeader hdr) in
  let '(magic, size) := ms in
  let! payload := on_fs (os.ReadAt f size (offset + HeaderSize)) in
  if negb (zlen payload =? size) then fail (errorf "short payload read") else
  let! sm := gets sg in
  if verifyChecksum sm then
    let! trailer := wrap_err "read record checksum: "
                      (on_fs (os.ReadAt f ChecksumSize (offset + HeaderSize + size))) in
    if RecordChecksum payload =? Uint32 trailer then mret (magic, payload)
    else fail (errorf ("record checksum mismatch in segment " +:+ Itoa segmentID +:+
                       " at offset " +:+ Itoa offset))
  else mret (magic, payload).

Definition Read (loc : Location) : M SegState bytes :=
  let! mp := ReadRecord (SegmentID loc) (Offset loc) in mret mp.2.

(** [TotalBytes]: the sizes of all files of the directory. *)
Definition TotalBytes : M SegState Z :=
  let! names := on_fs os.ReadDir in
  foldM (fun total name => let! info := on_fs (os.Stat name) in mret (total + info.1)) 0 names.

Definition Close : M SegState unit :=
  do! finalizeLocked;
  set_sm (fun sm => with_reads (os.Close <$> readFiles sm) (readMeta sm)
                      (with_file (os.Close <$> activeFile sm) sm)).

Definition SetVerifyChecksum (v : bool) (sm : SegmentManager) : SegmentManager :=
  MkSM (maxSegmentSize sm) v (activeID sm) (activeFile sm) (activeOffset sm) (recordCount sm)
       (readFiles sm) (readMeta sm).
