(* ===== verification/SegmentScan.v ===== *)
(** * Recovery scanning: what [truncateToValid] and [scanValidTail] keep

    Theorems on the scan that every start of the segment manager runs over the
    newest segment. *)
From S2P Require Import Prelude GoLib Hash Record FS Segment.

(** A record the scan recognises: known magic, non-empty payload, a length that
    fits the size field. *)
Record rec : Type := MkRec { r_magic : Z; r_payload : bytes }.
Definition enc (r : rec) : bytes := EncodeRecord (r_magic r) (r_payload r).
Definition encs (rs : list rec) : bytes := concat (enc <$> rs).
Definition valid_rec (r : rec) : Prop :=
  KnownMagic (r_magic r) = true ∧ r_payload r ≠ [] ∧ is_u32 (zlen (r_payload r)).

Lemma zlen_enc r : zlen (enc r) = 12 + zlen (r_payload r).
Proof. by rw /enc zlen_EncodeRecord. Qed.

Lemma encs_app rs ks : encs (rs ++ ks) = encs rs ++ encs ks.
Proof. by rw /encs fmap_app concat_app. Qed.

Lemma encs_cons r rs : encs (r :: rs) = enc r ++ encs rs.
Proof. done. Qed.

Lemma encs_snoc rs r : encs (rs ++ [r]) = encs rs ++ enc r.
Proof. by rw encs_app /encs /= app_nil_r. Qed.

#[export] Hint Rewrite zlen_enc : len.

(** [record_at] only looks at the data from its offset on. *)
Lemma record_at_shift pre data off :
  0 <= off →
  record_at (pre ++ data) (zlen pre + off) = (fun e => zlen pre + e) <$> record_at data off.
Proof.
  intros Hoff. pose proof (zlen_nonneg pre). rw /record_at zlen_app.
  replace (zlen pre + zlen data - (zlen pre + off)) with (zlen data - off) by lia.
  destruct (zlen data - off <? HeaderSize); [done|].
  replace (Z.to_nat (zlen pre + off)) with (length pre + Z.to_nat off)%nat by (rw /zlen; lia).
  rw drop_app_add'; [done|].
  destruct (DecodeRecordHeader _) as [[m sz]|] eqn:E; [|done].
  apply DecodeRecordHeader_range in E as [_ [Hsz _]].
  destruct ((sz =? 0) || negb (KnownMagic m)); [done|]. cbn zeta.
  replace (zlen pre + zlen data <? zlen pre + off + HeaderSize + sz + ChecksumSize)
    with (zlen data <? off + HeaderSize + sz + ChecksumSize) by lia.
  destruct (zlen data <? _); [done|]. unfold HeaderSize, ChecksumSize.
  rewrite <- !Z.add_assoc, !slice_shift by lia.
  by destruct (_ =? _).
Qed.

Lemma record_at_here r rest :
  valid_rec r → record_at (enc r ++ rest) 0 = Some (zlen (enc r)).
Proof.
  intros (Hm & Hp & Hlen). rw /record_at drop_0.
  pose proof (zlen_nonneg (r_payload r)). pose proof (zlen_nonneg rest).
  replace (zlen (enc r ++ rest) - 0 <? HeaderSize) with false by (rw /HeaderSize; len).
  rw DecodeRecordHeader_enc //; [by apply KnownMagic_u32|].
  replace (zlen (r_payload r) =? 0) with false.
  2:{ symmetry. apply Z.eqb_neq. by intros ?%zlen_zero_inv. }
  rw Hm. cbn [orb negb]. rw !Z.add_0_l.
  replace (zlen (enc r ++ rest) <? _) with false by (rw /HeaderSize /ChecksumSize; len).
  rw /enc EncodeRecord_payload EncodeRecord_crc Uint32_Put; [apply RecordChecksum_range|].
  rw Z.eqb_refl zlen_EncodeRecord /RecordOverhead. f_equal. lia.
Qed.

Lemma record_at_bounds data off e :
  0 <= off → record_at data off = Some e → off + 13 <= e <= zlen data.
Proof.
  rw /record_at => Hoff H. repeat case_hyp H; simplify_eq.
  apply DecodeRecordHeader_range in E0 as [_ [? _]].
  unfold HeaderSize, ChecksumSize in *. lia.
Qed.

(** A record seen in a prefix is seen in the whole. *)
Lemma record_at_extend data rest off e :
  0 <= off → record_at data off = Some e → record_at (data ++ rest) off = Some e.
Proof.
  rw /record_at => Hoff. rw zlen_app. pose proof (zlen_nonneg rest).
  destruct (zlen data - off <? HeaderSize) eqn:E1; [done|].
  assert (off <= zlen data) by (rw /HeaderSize in E1; lia).
  replace (zlen data + zlen rest - off <? HeaderSize) with false by lia.
  rw drop_app_le; [rw /zlen in H0; lia|].
  assert (DecodeRecordHeader (drop (Z.to_nat off) data ++ rest) =
          DecodeRecordHeader (drop (Z.to_nat off) data)) as ->.
  { assert (HeaderSize <= zlen (drop (Z.to_nat off) data)) as Hd.
    { rw /zlen length_drop. rw /zlen /HeaderSize in E1, H0 |- *. lia. }
    rw /DecodeRecordHeader zlen_app.
    replace (_ + _ <? _) with false by lia. replace (_ <? _) with false by lia.
    rw /HeaderSize in Hd. by rw !slice_app_l //; lia. }
  destruct (DecodeRecordHeader _) as [[m sz]|] eqn:E2; [|done].
  apply DecodeRecordHeader_range in E2 as [_ [Hsz _]].
  destruct (_ || _); [done|].
  destruct (zlen data <? _) eqn:E3; [done|].
  replace (zlen data + zlen rest <? _) with false by lia.
  unfold HeaderSize, ChecksumSize in *. rewrite -> !slice_app_l by lia. done.
Qed.

(** Running the loop from a later position of the same data. *)
Lemma truncate_loop_shift fuel pre data off c :
  0 <= off →
  truncate_loop fuel (pre ++ data) (zlen pre + off) c =
  (zlen pre + (truncate_loop fuel data off c).1, (truncate_loop fuel data off c).2).
Proof.
  revert off c; induction fuel as [|fuel IH]; intros off c Hoff; [done|]. cbn.
  rw record_at_shift //. destruct (record_at data off) as [e|] eqn:E; [|done].
  apply record_at_bounds in E; [|done]. cbn. apply IH. lia.
Qed.

(** Enough fuel is the number of bytes left: every step eats at least thirteen. *)
Lemma truncate_loop_fuel f1 f2 data off c :
  0 <= off → zlen data - off < Z.of_nat f1 → zlen data - off < Z.of_nat f2 →
  truncate_loop f1 data off c = truncate_loop f2 data off c.
Proof.
  revert f2 off c; induction f1 as [|f1 IH]; intros f2 off c Hoff H1 H2.
  - destruct f2 as [|f2]; [done|]. cbn.
    destruct (record_at data off) as [e|] eqn:E; [|done].
    apply record_at_bounds in E; lia.
  - destruct f2 as [|f2]; cbn; destruct (record_at data off) as [e|] eqn:E; try done;
      apply record_at_bounds in E; try lia. apply IH; lia.
Qed.

Lemma truncate_loop_mono fuel data off c : 0 <= off → off <= (truncate_loop fuel data off c).1.
Proof.
  revert off c; induction fuel as [|fuel IH]; intros off c Hoff; [cbn; lia|]. cbn.
  destruct (record_at data off) as [e|] eqn:E; [|cbn; lia].
  apply record_at_bounds in E; [|lia]. etrans; [|apply IH; lia]. lia.
Qed.

Lemma truncate_loop_le fuel data off c :
  0 <= off <= zlen data → (truncate_loop fuel data off c).1 <= zlen data.
Proof.
  revert off c; induction fuel as [|fuel IH]; intros off c Hoff; [cbn; lia|]. cbn.
  destruct (record_at data off) as [e|] eqn:E; [|cbn; lia].
  apply record_at_bounds in E; [|lia]. apply IH. lia.
Qed.

Definition scan (data : bytes) (c : Z) : Z * Z := truncate_loop (S (length data)) data 0 c.

Lemma scan_cons r rest c :
  valid_rec r →
  scan (enc r ++ rest) c = (zlen (enc r) + (scan rest (u32 (c + 1))).1, (scan rest (u32 (c + 1))).2).
Proof.
  intros Hr. rw {1}/scan. cbn [truncate_loop]. rw record_at_here //.
  pose proof (truncate_loop_shift (length (enc r ++ rest)) (enc r) rest 0 (u32 (c + 1))) as Hs.
  rw Z.add_0_r in Hs. rw Hs //.
  rw /scan. rewrite -> (truncate_loop_fuel _ (S (length rest)) rest); [done|lia| |rw /zlen; lia].
  rw Z.sub_0_r length_app. pose proof (zlen_enc r) as H. pose proof (zlen_nonneg (r_payload r)).
  rw /zlen in H H0 |- *. lia.
Qed.

(** The loop walks over a sequence of valid records, counting them. *)
Lemma scan_encs rs rest c :
  Forall valid_rec rs →
  scan (encs rs ++ rest) c =
  (zlen (encs rs) + (scan rest (Nat.iter (length rs) (fun c => u32 (c + 1)) c)).1,
   (scan rest (Nat.iter (length rs) (fun c => u32 (c + 1)) c)).2).
Proof.
  intros H; revert c; induction H as [|r rs Hr Hrs IH]; intros c.
  { change (encs [] ++ rest) with rest. change (zlen (encs [])) with 0.
    rw Z.add_0_l. change (Nat.iter _ _ _) with c. by destruct (scan rest c). }
  rw encs_cons -app_assoc scan_cons // IH zlen_app. cbn [length fst snd].
  rw Nat.iter_succ_r. f_equal. lia.
Qed.

Lemma iter_count n c : 0 <= c → c + Z.of_nat n < 2 ^ 32 →
  Nat.iter n (fun c => u32 (c + 1)) c = c + Z.of_nat n.
Proof.
  revert c; induction n as [|n IH]; intros c Hc Hn; [cbn; lia|].
  rw Nat.iter_succ_r u32_small; [rw /is_u32; lia|]. rw IH; lia.
Qed.

(** The tail left after the last record, and what the footer test makes of it. *)
Definition footer_len (tail : bytes) : Z :=
  if (FooterSize <=? zlen tail) && (Uint32 (slice 28 32 tail) =? FooterMagic) then FooterSize else 0.

Lemma footer_at pre tail :
  (if FooterSize <=? zlen tail then
     match ValidateFooter (take (Z.to_nat (zlen pre + FooterSize)) (pre ++ tail)) with
     | Some _ => zlen pre + FooterSize
     | None => zlen pre
     end
   else zlen pre) = zlen pre + footer_len tail.
Proof.
  rw /footer_len. destruct (FooterSize <=? zlen tail) eqn:E; [|cbn; lia].
  assert (length pre <= Z.to_nat (zlen pre + FooterSize))%nat by sizes.
  rw take_app_ge //.
  replace (Z.to_nat (zlen pre + FooterSize) - length pre)%nat with 32%nat by sizes.
  assert (zlen (take 32 tail) = 32) as Hl.
  { rw /zlen length_take. sizes. }
  rw /ValidateFooter zlen_app Hl. pose proof (zlen_nonneg pre).
  replace (zlen pre + 32 <? FooterSize) with false by (rw /FooterSize; lia).
  replace (zlen pre + 32 - FooterSize) with (zlen pre) by (rw /FooterSize; lia).
  rw slice_shift //.
  assert (slice 28 32 (take 32 tail) = slice 28 32 tail) as ->.
  { rw /slice /=. rw skipn_firstn_comm. by rw take_take. }
  destruct (_ =? FooterMagic); cbn; lia.
Qed.

(** What the scan makes of valid records followed by bytes that do not start
    with one. *)
Lemma truncateToValid_encs rs tail :
  Forall valid_rec rs → record_at tail 0 = None →
  truncateToValid (encs rs ++ tail) =
  (encs rs ++ take (Z.to_nat (footer_len tail)) tail,
   Nat.iter (length rs) (fun c => u32 (c + 1)) 0,
   zlen (encs rs) + footer_len tail).
Proof.
  intros Hrs Ht. rw /truncateToValid.
  change (truncate_loop _ _ 0 0) with (scan (encs rs ++ tail) 0).
  rw scan_encs //.
  assert (∀ c, scan tail c = (0, c)) as Hs by (intros c; by rw /scan /= Ht).
  rw !Hs. cbn [fst snd]. rw Z.add_0_r.
  replace (zlen (encs rs ++ tail) - zlen (encs rs)) with (zlen tail) by len.
  rw footer_at. do 2 f_equal.
  assert (0 <= footer_len tail) as Hf by (rw /footer_len; case_match; rw /FooterSize; lia).
  replace (Z.to_nat (zlen (encs rs) + footer_len tail))
    with (length (encs rs) + Z.to_nat (footer_len tail))%nat by (rw /zlen; lia).
  by rw take_app_add.
Qed.

Lemma record_at_nil : record_at [] 0 = None.
Proof. done. Qed.

(** A torn write: a strict prefix of a record's bytes is not a record. *)
Lemma record_at_torn r torn rest :
  valid_rec r → enc r = torn ++ rest → rest ≠ [] → record_at torn 0 = None.
Proof.
  intros Hr He Hne. destruct (record_at torn 0) as [e|] eqn:E; [exfalso|done].
  pose proof (record_at_bounds _ _ _ (Z.le_refl 0) E) as [_ Hle].
  apply (record_at_extend _ rest) in E; [|done]. rw -He in E.
  pose proof (record_at_here r [] Hr) as H. rw app_nil_r in H. rw E in H. simplify_eq.
  rw He zlen_app in Hle. destruct rest; [done|]. rw zlen_cons in Hle.
  pose proof (zlen_nonneg rest). lia.
Qed.

(** Crash recovery is exact.  A segment of complete records followed by a
    torn write (any strict prefix of a record that does not happen to carry the
    footer's magic at its bytes 28..31) is cut back to exactly the complete
    records, and all of them are counted. *)
Theorem truncateToValid_torn rs r torn rest :
  Forall valid_rec rs → zlen rs < 2 ^ 32 → valid_rec r →
  enc r = torn ++ rest → rest ≠ [] →
  (FooterSize <= zlen torn → Uint32 (slice 28 32 torn) ≠ FooterMagic) →
  truncateToValid (encs rs ++ torn) = (encs rs, zlen rs, zlen (encs rs)).
Proof.
  intros Hrs Hn Hr He Hne Hf.
  rw truncateToValid_encs //; [by eapply record_at_torn|].
  replace (footer_len torn) with 0.
  - rw take_0 app_nil_r Z.add_0_r iter_count; rw /zlen in Hn |- *; try lia. done.
  - rw /footer_len. destruct (FooterSize <=? zlen torn) eqn:E; [|done]. cbn.
    destruct (_ =? FooterMagic) eqn:E2; [|done]. apply Z.leb_le in E.
    apply Z.eqb_eq in E2. by destruct (Hf E).
Qed.

Definition xml_rec (s : string) : rec := MkRec MagicXML (bs s).
Lemma xml_rec_valid s : bs s ≠ [] → zlen (bs s) < 2 ^ 32 → valid_rec (xml_rec s).
Proof.
  intros H1 H2. split; [done|split; [done|]]. cbn. rw /is_u32.
  pose proof (zlen_nonneg (bs s)). lia.
Qed.

Lemma truncateToValid_torn_witness :
  truncateToValid (encs [xml_rec "<a/>"] ++ take 11 (enc (xml_rec "<b>1</b>"))) =
  (encs [xml_rec "<a/>"], zlen [xml_rec "<a/>"], zlen (encs [xml_rec "<a/>"])).
Proof.
  apply (truncateToValid_torn _ (xml_rec "<b>1</b>") _ (drop 11 (enc (xml_rec "<b>1</b>")))).
  - repeat constructor; done.
  - done.
  - repeat constructor; done.
  - by rw take_drop.
  - done.
  - intros H. exfalso. apply H. done.
Defined.

(** Whatever follows, the complete records at the front of a segment are never
    cut by the scan: the bytes kept start with all of them. *)
Lemma truncateToValid_keeps rs rest :
  Forall valid_rec rs →
  encs rs `prefix_of` (truncateToValid (encs rs ++ rest)).1.1 ∧
  zlen (encs rs) <= (truncateToValid (encs rs ++ rest)).2.
Proof.
  intros Hrs. rw /truncateToValid.
  change (truncate_loop _ _ 0 0) with (scan (encs rs ++ rest) 0).
  rw scan_encs //. set (c := Nat.iter _ _ _).
  destruct (scan rest c) as [o c'] eqn:E. cbn [fst snd].
  assert (0 <= o).
  { pose proof (truncate_loop_mono (S (length rest)) rest 0 c (Z.le_refl 0)) as H.
    rw /scan in E. by rw E in H. }
  match goal with |- context [if ?b then ?x else ?y] => set (off := if b then x else y) end.
  assert (zlen (encs rs) <= off) as Hoff.
  { rw /off /FooterSize. case_match; [case_match|]; lia. }
  split; [|done]. cbn. exists (take (Z.to_nat off - length (encs rs)) rest).
  apply take_app_ge. rw /zlen in Hoff. lia.
Qed.

(** The scan never looks past a footer.  Whatever was appended to a segment
    after its footer (by a process that reopened the segment) is cut off by the
    next start, however well-formed it is. *)
Theorem truncateToValid_drops_after_footer rs n t extra :
  Forall valid_rec rs → is_u32 n → KnownMagic n = false →
  (truncateToValid (encs rs ++ EncodeFooter n t ++ extra)).1.1 = encs rs ++ EncodeFooter n t.
Proof.
  intros Hrs Hn Hk.
  assert (record_at (EncodeFooter n t ++ extra) 0 = None) as Hr.
  { rw /record_at drop_0. destruct (_ <? _); [done|]. rw /DecodeRecordHeader.
    destruct (_ <? _); [done|].
    assert (slice 0 4 (EncodeFooter n t ++ extra) = PutUint32 n) as ->.
    { rw /EncodeFooter -app_assoc. by apply slice_app_first. }
    rw Uint32_Put // Hk. by rw orb_true_r. }
  rw truncateToValid_encs //. cbn.
  replace (footer_len _) with FooterSize.
  - by f_equal.
  - pose proof (zlen_nonneg extra).
    rw /footer_len zlen_app zlen_EncodeFooter. replace (_ <=? _) with true by lia.
    assert (slice 28 32 (EncodeFooter n t ++ extra) = PutUint32 FooterMagic) as ->.
    { rw slice_app_l; [lia|by rw zlen_EncodeFooter|].
      rw /EncodeFooter !app_assoc. by apply slice_app_last. }
    by rw Uint32_Put.
Qed.

Lemma truncateToValid_drops_after_footer_witness :
  (truncateToValid (encs [xml_rec "<a/>"] ++ EncodeFooter 1 16 ++ enc (xml_rec "<b/>"))).1.1 =
  encs [xml_rec "<a/>"] ++ EncodeFooter 1 16.
Proof.
  apply truncateToValid_drops_after_footer; [repeat constructor; done|rw /is_u32; lia|done].
Defined.

(** A record with an empty payload hides everything behind it.  Appending one
    succeeds, but the scan stops in front of it. *)
Theorem truncateToValid_stops_at_empty rs m extra :
  Forall valid_rec rs → is_u32 m →
  (FooterSize <= zlen (EncodeRecord m [] ++ extra) →
   Uint32 (slice 28 32 (EncodeRecord m [] ++ extra)) ≠ FooterMagic) →
  (truncateToValid (encs rs ++ EncodeRecord m [] ++ extra)).1.1 = encs rs.
Proof.
  intros Hrs Hm Hf. rw truncateToValid_encs //.
  - rw /record_at drop_0. destruct (_ <? _); [done|].
    rw DecodeRecordHeader_enc //; rw /is_u32; cbn; lia.
  - cbn. replace (footer_len _) with 0; [by rw take_0 app_nil_r|].
    rw /footer_len. destruct (FooterSize <=? _) eqn:E; [|done]. cbn.
    destruct (_ =? FooterMagic) eqn:E2; [|done]. apply Z.leb_le in E.
    apply Z.eqb_eq in E2. by destruct (Hf E).
Qed.

Lemma truncateToValid_stops_at_empty_witness :
  (truncateToValid (encs [xml_rec "<a/>"] ++ EncodeRecord MagicXML [] ++ enc (xml_rec "<b/>"))).1.1 =
  encs [xml_rec "<a/>"].
Proof.
  apply truncateToValid_stops_at_empty; [repeat constructor; done|rw /is_u32 /MagicXML; lia|].
  intros H. exfalso. apply H. done.
Defined.

(** ** The scan of a file is the scan of its bytes *)

Lemma record_at_read fs f i off :
  fs_faults fs = [] → opens fs f i → 0 <= off → HeaderSize <= zlen (i_data i) - off →
  os.ReadAt f HeaderSize off fs = (fs, Ok (slice off (off + HeaderSize) (i_data i))) ∧
  DecodeRecordHeader (slice off (off + HeaderSize) (i_data i)) =
  DecodeRecordHeader (drop (Z.to_nat off) (i_data i)).
Proof.
  intros Hf Ho H0 Hle. split; [apply ReadAt_ok => //; sizes|].
  rw /slice. replace (Z.to_nat (off + HeaderSize - off)) with 8%nat by sizes.
  set (d := drop _ _).
  assert (8 <= length d)%nat as Hd by (rw /d length_drop; sizes).
  clearbody d. rw /DecodeRecordHeader. replace (zlen (take 8 d) <? HeaderSize) with false.
  2:{ symmetry. apply Z.ltb_ge. rw /zlen length_take. sizes. }
  replace (zlen d <? HeaderSize) with false by sizes.
  assert (slice 0 4 (take 8 d) = slice 0 4 d) as -> by (rw /slice !drop_0; by rw take_take).
  assert (slice 4 8 (take 8 d) = slice 4 8 d) as -> by (rw /slice skipn_firstn_comm; by rw take_take).
  done.
Qed.

Lemma scan_loop_eq fuel fs f i off c :
  fs_faults fs = [] → opens fs f i → 0 <= off →
  scan_loop fuel f (zlen (i_data i)) off c fs =
  (fs, Ok (truncate_loop fuel (i_data i) off c)).
Proof.
  intros Hf Ho. revert off c; induction fuel as [|fuel IH]; intros off c Hoff; [done|].
  cbn [scan_loop truncate_loop]. rw /record_at.
  destruct (zlen (i_data i) - off <? HeaderSize) eqn:E1; [done|].
  destruct (record_at_read fs f i off) as [Hr Hd]; [done|done|done|lia|].
  mstep. rw Hr Hd. clear Hr Hd.
  destruct (DecodeRecordHeader (drop _ _)) as [[m sz]|] eqn:E2; [|done].
  apply DecodeRecordHeader_range in E2 as [_ [Hsz _]].
  destruct (_ || _); [done|]. destruct (zlen (i_data i) <? _) eqn:E3; [done|].
  mstep. rewrite -> (ReadAt_ok _ _ i) by (try done; sizes).
  mstep. rewrite -> (ReadAt_ok _ _ i) by (try done; sizes).
  destruct (_ =? _); [|done]. rw IH //. sizes.
Qed.

Lemma scanValidTail_eq fs f i :
  fs_faults fs = [] → opens fs f i →
  scanValidTail f (zlen (i_data i)) fs =
  (fs, Ok ((truncateToValid (i_data i)).2, (truncateToValid (i_data i)).1.2)).
Proof.
  intros Hf Ho. rw /scanValidTail.
  rewrite -> (bind_ok _ _ _ _ _ (scan_loop_eq _ _ _ i _ _ Hf Ho (Z.le_refl 0))).
  rw /truncateToValid.
  replace (Z.to_nat (zlen (i_data i))) with (length (i_data i)) by sizes.
  destruct (truncate_loop _ _ 0 0) as [off c] eqn:E.
  assert (0 <= off <= zlen (i_data i)) as Hoff.
  { pose proof (truncate_loop_mono (S (length (i_data i))) (i_data i) 0 0 (Z.le_refl 0)).
    pose proof (truncate_loop_le (S (length (i_data i))) (i_data i) 0 0).
    rw E in H, H0. cbn in H, H0. pose proof (zlen_nonneg (i_data i)). lia. }
  destruct (FooterSize <=? zlen (i_data i) - off) eqn:E2; [|done].
  erewrite bind_ok by (apply (ReadAt_ok _ _ i); try done; sizes).
  pose proof (footer_at (take (Z.to_nat off) (i_data i)) (drop (Z.to_nat off) (i_data i))) as Hfa.
  assert (zlen (take (Z.to_nat off) (i_data i)) = off) as Hp by (rw /zlen length_take; sizes).
  assert (zlen (drop (Z.to_nat off) (i_data i)) = zlen (i_data i) - off) as Hq
    by (rw /zlen length_drop; sizes).
  rw take_drop Hp Hq E2 /footer_len Hq E2 in Hfa. rw Hfa. cbn [andb fst snd].
  assert (slice 28 32 (slice off (off + FooterSize) (i_data i)) =
          slice 28 32 (drop (Z.to_nat off) (i_data i))) as ->.
  { rw /slice. replace (Z.to_nat (off + FooterSize - off)) with 32%nat by sizes.
    rw skipn_firstn_comm take_take. done. }
  destruct (_ =? _); mstep; do 3 f_equal; lia.
Qed.

(** C26: the streaming scan of an open segment file finds the same valid size and
    record count as the reference scan of the file's whole contents. *)
Theorem scanValidTail_truncateToValid fs f i :
  fs_faults fs = [] → opens fs f i →
  scanValidTail f (zlen (i_data i)) fs =
  (fs, Ok ((truncateToValid (i_data i)).2, (truncateToValid (i_data i)).1.2)).
Proof. apply scanValidTail_eq. Qed.

Definition demo_fs : FS :=
  (os.WriteFile "segment_0000.dat" (encs [xml_rec "<a/>"; xml_rec "<b/>"] ++ bs "torn") (empty_fs [])).1.

Lemma scanValidTail_truncateToValid_witness :
  ∃ i, opens demo_fs (MkFile 1 true 0 false) i ∧
  scanValidTail (MkFile 1 true 0 false) (zlen (i_data i)) demo_fs =
  (demo_fs, Ok ((truncateToValid (i_data i)).2, (truncateToValid (i_data i)).1.2)).
Proof.
  eexists. split; [split; [done|vm_compute; reflexivity]|].
  apply scanValidTail_truncateToValid; [done|split; [done|vm_compute; reflexivity]].
Defined.
