(* ===== verification/SegmentStore.v ===== *)
(** * The segment store: what appends, reads and restarts promise

    [SegInv] is the manager's invariant; [ext] says that the bytes a state has
    committed (all of a sealed segment, and the active segment up to
    [activeOffset]) are still there in a later state.  Both hold under every
    pattern of I/O failures. *)
From S2P Require Import Prelude GoLib Hash Record FS Segment SegmentScan.

(** The inode behind a segment. *)
Definition seg_node (fs : FS) (id : Z) : option inode :=
  fs_dir fs !! segmentPath id ≫= fun ino => fs_nodes fs !! ino.

Record SegInv (s : SegState) : Prop := {
  inv_wf : fs_wf (sg_fs s);
  inv_id : 0 <= activeID (sg s);
  inv_off : 0 <= activeOffset (sg s);
  inv_some : is_Some (activeFile (sg s));
  inv_last : ∀ id, activeID (sg s) < id → fs_dir (sg_fs s) !! segmentPath id = None;
  inv_active : ∀ f, activeFile (sg s) = Some f → f_open f = true →
    fs_dir (sg_fs s) !! segmentPath (activeID (sg s)) = Some (f_ino f) ∧
    ∃ i, fs_nodes (sg_fs s) !! f_ino f = Some i ∧ activeOffset (sg s) <= zlen (i_data i);
  inv_reads : ∀ id f, readFiles (sg s) !! id = Some f → 0 <= id ∧
    fs_dir (sg_fs s) !! segmentPath id = Some (f_ino f);
}.

(** The committed part of a segment's bytes. *)
Definition cut (s : SegState) (id : Z) (l : bytes) : bytes :=
  if id <? activeID (sg s) then l else take (Z.to_nat (activeOffset (sg s))) l.

Record ext (s s' : SegState) : Prop := {
  ext_id : activeID (sg s) <= activeID (sg s');
  ext_off : activeID (sg s) = activeID (sg s') → activeOffset (sg s) <= activeOffset (sg s');
  ext_node : ∀ id i, 0 <= id <= activeID (sg s) → seg_node (sg_fs s) id = Some i →
    ∃ i', seg_node (sg_fs s') id = Some i' ∧
      cut s id (i_data i) `prefix_of` i_data i' ∧ cut s id (i_stable i) `prefix_of` i_stable i';
}.

Lemma take_prefix {A} n (l : list A) : take n l `prefix_of` l.
Proof. exists (drop n l). by rw take_drop. Qed.

Lemma take_prefix_mono {A} n (l k : list A) : l `prefix_of` k → take n l `prefix_of` take n k.
Proof. intros [m ->]. rw take_app. by eexists. Qed.

Lemma take_prefix_le {A} n m (l : list A) : (n <= m)%nat → take n l `prefix_of` take m l.
Proof. intros H. replace n with (n `min` m)%nat by lia. rw -take_take. apply take_prefix. Qed.

Lemma cut_prefix s id l : cut s id l `prefix_of` l.
Proof. unfold cut. case_match; [done|apply take_prefix]. Qed.

Lemma ext_refl s : ext s s.
Proof. split; [done..|]. intros id i _ Hi. exists i. auto using cut_prefix. Qed.

Lemma cut_mono s s' id l k :
  activeID (sg s) <= activeID (sg s') →
  (activeID (sg s) = activeID (sg s') → activeOffset (sg s) <= activeOffset (sg s')) →
  id <= activeID (sg s) → cut s id l `prefix_of` k → cut s id l `prefix_of` cut s' id k.
Proof.
  unfold cut. intros Hi Ho Hid Hp.
  destruct (id <? activeID (sg s')) eqn:E'; [done|].
  destruct (id <? activeID (sg s)) eqn:E; [lia|].
  specialize (Ho ltac:(lia)).
  apply (take_prefix_mono (Z.to_nat (activeOffset (sg s)))) in Hp.
  rw take_take Nat.min_id in Hp. etrans; [exact Hp|]. apply take_prefix_le. lia.
Qed.

Lemma ext_trans s1 s2 s3 : ext s1 s2 → ext s2 s3 → ext s1 s3.
Proof.
  intros [A1 A2 A3] [B1 B2 B3]. split; [lia| |].
  { intros H. specialize (A2 ltac:(lia)). specialize (B2 ltac:(lia)). lia. }
  intros id i Hid Hi. destruct (A3 id i Hid Hi) as (i2 & E2 & D2 & S2).
  destruct (B3 id i2 ltac:(lia) E2) as (i3 & E3 & D3 & S3). exists i3. split; [done|].
  split; (etrans; [|eassumption]); apply cut_mono; (done || lia).
Qed.
#[export] Instance ext_preorder : PreOrder ext.
Proof. split; [exact ext_refl|exact ext_trans]. Qed.

(** ** Single steps *)

Lemma on_fs_inv {A} (m : M FS A) s s' r :
  on_fs m s = (s', r) → ∃ fs', m (sg_fs s) = (fs', r) ∧ s' = MkSeg (sg s) fs'.
Proof. unfold on_fs, zoom. destruct (m (sg_fs s)) as [fs' r']. intros ?. simplify_eq. eauto. Qed.

Lemma active_opens s f : SegInv s → activeFile (sg s) = Some f → f_open f = true →
  ∃ i, opens (sg_fs s) f i ∧ activeOffset (sg s) <= zlen (i_data i) ∧
       seg_node (sg_fs s) (activeID (sg s)) = Some i.
Proof.
  intros I Hf Ho. destruct (inv_active _ I f Hf Ho) as (Hd & i & Hi & Hl).
  exists i. split; [done|]. split; [done|]. unfold seg_node. by rw Hd.
Qed.

(** Paths of different segments are different. *)
Lemma segmentPath_inj a b : 0 <= a → 0 <= b → segmentPath a = segmentPath b → a = b.
Proof. apply segment_name_inj. Qed.

(** A call that changes at most the active file, beyond [activeOffset]. *)
Lemma upd_step s fs' f :
  SegInv s → activeFile (sg s) = Some f → f_open f = true →
  upd (f_ino f) (activeOffset (sg s)) (sg_fs s) fs' →
  SegInv (MkSeg (sg s) fs') ∧ ext s (MkSeg (sg s) fs').
Proof.
  intros I Hf Ho U. pose proof (inv_active _ I f Hf Ho) as (Hd & i & Hi & Hl).
  pose proof (inv_off _ I) as H0.
  pose proof (fs_wf_upd _ _ _ _ U (inv_wf _ I)) as W'.
  destruct U as (Ud & Ux & Uo & Un). rw Hi in Un. destruct Un as (i' & Hi' & Ht & Hs).
  specialize (Hs (wf_stable _ (inv_wf _ I) _ _ Hi)) as [Hs _].
  split.
  - split; cbn; rw ?Ud; try apply I; [done|].
    intros f0 Hf0 _. assert (f0 = f) as -> by congruence. split; [done|]. exists i'. split; [done|].
    apply (f_equal length) in Ht. rw !length_take in Ht. unfold zlen in *. lia.
  - split; cbn; [done|done|]. intros id j Hid Hj. unfold seg_node in *. rw Ud.
    destruct (fs_dir (sg_fs s) !! segmentPath id) as [ino|] eqn:E; [|done]. cbn in Hj |- *.
    destruct (decide (ino = f_ino f)) as [->|Hne].
    + assert (i = j) as <- by congruence. exists i'. split; [done|].
      assert (segmentPath id = segmentPath (activeID (sg s))) as Heq
        by (eapply (wf_inj _ (inv_wf _ I)); eauto).
      apply segmentPath_inj in Heq; [|lia|apply I]. subst id.
      unfold cut. rw Z.ltb_irrefl. split; [rw -Ht; apply take_prefix|done].
    + exists j. rw Uo //. auto using cut_prefix.
Qed.

Lemma core_step s fs' :
  SegInv s → fs_core fs' = fs_core (sg_fs s) →
  SegInv (MkSeg (sg s) fs') ∧ ext s (MkSeg (sg s) fs').
Proof.
  intros I Hc. pose proof (fs_wf_core _ _ Hc (inv_wf _ I)).
  unfold fs_core in Hc. injection Hc as Hd Hn Hx Hk. split.
  - split; cbn; rw ?Hd ?Hn; try apply I. done.
  - split; cbn; [done..|]. intros id i _. unfold seg_node. rw Hd Hn. intros ->.
    exists i. auto using cut_prefix.
Qed.

(** Changes to the manager's fields that keep the active position. *)
Lemma fields_step s sm' :
  SegInv s → activeID sm' = activeID (sg s) → activeOffset sm' = activeOffset (sg s) →
  is_Some (activeFile sm') →
  (∀ f, activeFile sm' = Some f → f_open f = true → activeFile (sg s) = Some f) →
  (∀ id f, readFiles sm' !! id = Some f → 0 <= id ∧
     fs_dir (sg_fs s) !! segmentPath id = Some (f_ino f)) →
  SegInv (MkSeg sm' (sg_fs s)) ∧ ext s (MkSeg sm' (sg_fs s)).
Proof.
  intros I Hi Ho Hsome Hf Hr. split.
  - split; cbn; rw ?Hi ?Ho; try apply I; [done| |done]. intros f H1 H2. apply I; auto.
  - split; cbn; rw ?Hi ?Ho; [done..|]. intros id i _ Hn. exists i. auto using cut_prefix.
Qed.

(** ** Writing the footer *)
Lemma finalizeLocked_inv s s' r :
  SegInv s → finalizeLocked s = (s', r) → SegInv s' ∧ ext s s' ∧ sg s' = sg s.
Proof.
  unfold finalizeLocked. intros I H. unfold gets in H.
  erewrite bind_ok in H by reflexivity. cbn in H.
  destruct (activeFile (sg s)) as [f|] eqn:Ef; [|by munfold; simplify_eq].
  destruct (activeOffset (sg s) =? 0); [by munfold; simplify_eq|].
  destruct (f_open f) eqn:Eo.
  - destruct (active_opens _ _ I Ef Eo) as (i & Hi & Hl & _).
    pose proof (inv_off _ I) as H0.
    apply bind_inv in H as [(s1 & n & H1 & H)|(e & H1 & ->)];
      apply on_fs_inv in H1 as (fs1 & H1 & ->);
      apply (WriteAt_inv _ _ _ _ _ _ i) in H1 as [U _]; try done.
    + destruct (upd_step _ _ _ I Ef Eo U) as [I1 X1].
      apply on_fs_inv in H as (fs2 & H & ->). cbn in H.
      destruct (active_opens _ _ I1 Ef Eo) as (i1 & Hi1 & _).
      apply (Sync_inv _ _ _ _ i1 (activeOffset (sg s))) in H as [U2 _]; try done.
      destruct (upd_step (MkSeg (sg s) fs1) _ _ I1 Ef Eo U2) as [I2 X2].
      split; [done|]. split; [by etrans|done].
    + destruct (upd_step _ _ _ I Ef Eo U) as [I1 X1]. done.
  - apply bind_inv in H as [(s1 & n & H1 & H)|(e & H1 & ->)];
      apply on_fs_inv in H1 as (fs1 & H1 & ->);
      apply WriteAt_closed in H1 as [Hc Hr]; try done.
    by destruct (core_step _ _ I Hc).
Qed.

(** ** Moving to a new segment *)

(** Changing the active position to a segment that has no file yet. *)
Lemma next_segment_step s sm' id :
  SegInv s → id = activeID (sg s) + 1 →
  activeID sm' = id → activeOffset sm' = 0 → readFiles sm' = readFiles (sg s) →
  is_Some (activeFile sm') → (∀ f, activeFile sm' = Some f → f_open f = false) →
  SegInv (MkSeg sm' (sg_fs s)) ∧ ext s (MkSeg sm' (sg_fs s)).
Proof.
  intros I -> Hi Ho Hr Hsome Hf. pose proof (inv_id _ I). split.
  - split; cbn; rw ?Hi ?Ho ?Hr; try apply I; [lia|lia|done| |].
    + intros id Hid. apply I. lia.
    + intros f E1 E2. rw Hf in E2; done.
  - split; cbn; rw ?Hi; [lia|lia|]. intros id i _ Hn. exists i. auto using cut_prefix.
Qed.

(** Creating the active segment's file. *)
Lemma opened_step s fs' f :
  SegInv s → (∀ f0, activeFile (sg s) = Some f0 → f_open f0 = false) →
  fs_dir (sg_fs s) !! segmentPath (activeID (sg s)) = None →
  opened (segmentPath (activeID (sg s))) true (sg_fs s) fs' f →
  SegInv (MkSeg (sg s) fs') ∧ ext s (MkSeg (sg s) fs') ∧
  opens fs' f (Inode [] [] (fs_clock (sg_fs s))) ∧
  fs_dir fs' !! segmentPath (activeID (sg s)) = Some (f_ino f).
Proof.
  intros I Hcl Hno Hop. pose proof (fs_wf_opened _ _ _ _ _ Hop (inv_wf _ I)) as W'.
  pose proof (inv_id _ I) as Hid0.
  destruct Hop as (Ho & _ & Hm). rw Hno in Hm. destruct Hm as (_ & Hi & Hc).
  unfold fs_core in Hc. injection Hc as Hd Hn Hx Hk.
  assert (∀ id i, 0 <= id → seg_node (sg_fs s) id = Some i → seg_node fs' id = Some i) as Hk2.
  { intros id i Hid. unfold seg_node. rw Hd Hn.
    destruct (fs_dir (sg_fs s) !! segmentPath id) as [ino|] eqn:E; [|done]. cbn. intros Hj.
    rw lookup_insert_ne; [congruence|]. rw E /= lookup_insert_ne; [|done].
    intros <-. apply (wf_dir _ (inv_wf _ I)), (wf_next _ (inv_wf _ I)) in E. lia. }
  split; [|split; [|split]].
  - split; cbn; try apply I; [done| | |].
    + intros id Hid. rw Hd lookup_insert_ne; [|by apply I].
      intros ?%segmentPath_inj; lia.
    + intros f0 H1 H2. rw Hcl in H2; done.
    + intros id f0 Hf0. destruct (inv_reads _ I id f0 Hf0) as [? K]. split; [done|].
      rw Hd lookup_insert_ne; [congruence|done].
  - split; cbn; [done..|]. intros id i Hid Hn0. exists i. split; [apply Hk2; [lia|done]|].
    auto using cut_prefix.
  - split; [done|]. by rw Hn Hi lookup_insert_eq.
  - by rw Hd Hi lookup_insert_eq.
Qed.

(** Rolling over: the new segment is empty, nothing committed is touched. *)
Lemma openSegment_next s s' r :
  SegInv s → openSegment (activeID (sg s) + 1) s = (s', r) →
  SegInv s' ∧ ext s s' ∧ activeID (sg s') = activeID (sg s) + 1 ∧ activeOffset (sg s') = 0 ∧
  maxSegmentSize (sg s') = maxSegmentSize (sg s) ∧
  (is_ok r = true → recordCount (sg s') = 0 ∧
     ∃ f i, activeFile (sg s') = Some f ∧ opens (sg_fs s') f i ∧ i_data i = []) ∧
  (is_ok r = false → ∀ f, activeFile (sg s') = Some f → f_open f = true → False).
Proof.
  intros I H. unfold openSegment, openSegmentFile, set_sm, modify in H.
  erewrite bind_ok in H by reflexivity. erewrite bind_ok in H by reflexivity. cbn [sg sg_fs] in H.
  set (sm1 := with_file _ _) in H.
  destruct (next_segment_step s sm1 (activeID (sg s) + 1)) as [I1 X1]; try done.
  { cbn. destruct (inv_some _ I) as [f ->]. by eauto. }
  { intros f Hf. cbn in Hf. apply fmap_Some in Hf as (f0 & _ & ->). done. }
  assert (∀ f, activeFile sm1 = Some f → f_open f = true → False) as Hcl.
  { intros f Hf. cbn in Hf. apply fmap_Some in Hf as (f0 & _ & ->). done. }
  apply bind_inv in H as [(s2 & f & H2 & H)|(e & H2 & ->)];
    apply on_fs_inv in H2 as (fs2 & H2 & ->); cbn [sg sg_fs] in *; apply OpenFile_inv in H2.
  2:{ destruct (core_step _ _ I1 H2) as [I2 X2]. split; [done|]. split; [by etrans|]. split_and!; done. }
  destruct H2 as [Hop _].
  destruct (opened_step (MkSeg sm1 (sg_fs s)) fs2 f I1) as (I2 & X2 & Hoi & Hdir); try done.
  { intros f0 Hf0. destruct (f_open f0) eqn:E; [|done]. exfalso. eauto. }
  { apply (inv_last _ I). cbn. lia. }
  apply bind_inv in H as [(s3 & info & H3 & H)|(e & H3 & ->)];
    apply on_fs_inv in H3 as (fs3 & H3 & ->); cbn [sg sg_fs] in *;
    apply (FStat_inv _ _ _ _ _) with (2 := Hoi) in H3 as [Hc3 Hr3].
  2:{ destruct (core_step _ _ I2 Hc3) as [I3 X3]. split; [done|].
      split; [by etrans; [exact X1|etrans]|]. split_and!; done. }
  destruct Hr3 as [?|Hr3]; [done|]. injection Hr3 as ->. cbn in H.
  munfold. injection H as <- <-. cbn [sg sg_fs].
  destruct (core_step _ _ I2 Hc3) as [I3 X3].
  assert (ext s (MkSeg sm1 fs3)) as X by (etrans; [exact X1|by etrans]).
  pose proof (opens_core _ _ _ _ Hc3 Hoi) as Hoi3.
  unfold fs_core in Hc3. injection Hc3 as Hd Hn Hx Hk.
  split; [|split; [|split_and!; try done]].
  - split; cbn; try apply I3; [by eauto|].
    intros f0 [= <-] _. rw Hd. split; [done|]. destruct Hoi3 as [_ ?]. eexists. split; [done|]. done.
  - split; try apply X; cbn; lia.
  - intros _. split; [done|]. cbn. eexists _, _. split; [done|]. by split.
Qed.

(** ** Appending *)

(** [d] is committed at [off] of segment [id], in the part of the inode that
    [view] selects: its data, or what of it a crash preserves. *)
Definition holds (view : inode → bytes) (s : SegState) (id off : Z) (d : bytes) : Prop :=
  0 <= id <= activeID (sg s) ∧ 0 <= off ∧
  (id = activeID (sg s) → off + zlen d <= activeOffset (sg s)) ∧
  ∃ i, seg_node (sg_fs s) id = Some i ∧ off + zlen d <= zlen (view i) ∧
       slice off (off + zlen d) (view i) = d.

Lemma prefix_slice {A} (l k : list A) lo hi :
  0 <= lo → hi <= zlen l → l `prefix_of` k → slice lo hi k = slice lo hi l.
Proof. intros H1 H2 [m ->]. by apply slice_app_l. Qed.

Lemma prefix_zlen {A} (l k : list A) : l `prefix_of` k → zlen l <= zlen k.
Proof. intros [m ->]. rw zlen_app. pose proof (zlen_nonneg m). lia. Qed.

Lemma zlen_take {A} n (l : list A) : zlen (take n l) = Z.min (Z.of_nat n) (zlen l).
Proof. unfold zlen. rw length_take. lia. Qed.

Lemma holds_ext_view view s s' id off d :
  activeID (sg s) <= activeID (sg s') →
  (activeID (sg s) = activeID (sg s') → activeOffset (sg s) <= activeOffset (sg s')) →
  (∀ i, seg_node (sg_fs s) id = Some i →
     ∃ i', seg_node (sg_fs s') id = Some i' ∧ cut s id (view i) `prefix_of` view i') →
  holds view s id off d → holds view s' id off d.
Proof.
  intros Hid Ho Hn (H1 & H2 & H3 & i & Hi & Hl & Hs).
  destruct (Hn i Hi) as (i' & Hi' & Hp). pose proof (zlen_nonneg d).
  split; [lia|]. split; [done|]. split; [lia|]. exists i'. split; [done|].
  assert (off + zlen d <= zlen (cut s id (view i)) ∧ slice off (off + zlen d) (cut s id (view i)) = d)
    as [Hl' Hs'].
  { unfold cut. destruct (id <? activeID (sg s)) eqn:E; [done|].
    specialize (H3 ltac:(lia)). rw zlen_take. split; [lia|]. rw -{2}Hs. symmetry.
    apply prefix_slice; [done|rw zlen_take; lia|apply take_prefix]. }
  split; [apply prefix_zlen in Hp; lia|]. rw -{2}Hs'. by apply prefix_slice.
Qed.

Lemma holds_ext s s' id off d :
  ext s s' → (holds i_data s id off d → holds i_data s' id off d) ∧
             (holds i_stable s id off d → holds i_stable s' id off d).
Proof.
  intros [X1 X2 X3].
  split; intros H; apply (holds_ext_view _ s); try done; intros i Hi;
    (destruct (X3 id i) as (i' & ? & ? & ?); [by destruct H|done|]); eauto.
Qed.

(** Advancing [activeOffset] over bytes that are in the file. *)
Lemma advance_step s sm' f i n :
  SegInv s → activeFile (sg s) = Some f → f_open f = true → opens (sg_fs s) f i →
  0 <= n → activeOffset (sg s) + n <= zlen (i_data i) →
  sm' = with_active (activeID (sg s)) (activeOffset (sg s) + n) (u32 (recordCount (sg s) + 1)) (sg s) →
  SegInv (MkSeg sm' (sg_fs s)) ∧ ext s (MkSeg sm' (sg_fs s)).
Proof.
  intros I Ef Eo [_ Hi] Hn Hl ->. pose proof (inv_off _ I). split.
  - split; cbn; try apply I; [lia|]. intros f0 Hf0 Ho0. assert (f0 = f) as -> by congruence.
    split; [by apply I|]. exists i. split; [done|]. lia.
  - split; cbn; [done|lia|]. intros id j _ Hj. exists j. auto using cut_prefix.
Qed.

(** Where an append starts: at the active offset, or at the front of a new segment. *)
Definition append_base (s0 s' : SegState) : Z :=
  if activeID (sg s') =? activeID (sg s0) then activeOffset (sg s0) else 0.

(** What a write at the active offset, with or without the fsync, leaves behind. *)
Definition append_post (record : bytes) (fsync : bool) (s0 s' : SegState) (r : result Location) : Prop :=
  SegInv s' ∧ ext s0 s' ∧ maxSegmentSize (sg s') = maxSegmentSize (sg s0) ∧
  match r with
  | Err _ => activeOffset (sg s') = append_base s0 s'
  | Ok loc =>
      SegmentID loc = activeID (sg s') ∧ Offset loc = append_base s0 s' ∧ Size loc = zlen record ∧
      Offset loc + zlen record = activeOffset (sg s') ∧
      holds i_data s' (SegmentID loc) (Offset loc) record ∧
      (fsync = true → holds i_stable s' (SegmentID loc) (Offset loc) record) ∧
      (Offset loc = 0 ∨ activeOffset (sg s') + FooterSize <= maxSegmentSize (sg s'))
  end.

Lemma appendActive_post record fsync s s' r :
  SegInv s → appendActive record fsync s = (s', r) →
  (activeOffset (sg s) = 0 ∨ activeOffset (sg s) + zlen record + FooterSize <= maxSegmentSize (sg s)) →
  append_post record fsync s s' r.
Proof.
  intros I H Hroom. unfold appendActive in H. pose proof (inv_off _ I) as H0.
  unfold append_post, append_base.
  unfold gets in H. erewrite bind_ok in H by reflexivity. cbn in H.
  destruct (activeFile (sg s)) as [f|] eqn:Ef; [|munfold; simplify_eq; rw Z.eqb_refl; by split_and!].
  destruct (f_open f) eqn:Eo; last first.
  { apply bind_inv in H as [(s1 & n & H1 & H)|(e & H1 & ->)];
      apply wrap_err_inv in H1 as ([n'|e'] & H1 & H1'); try done;
      apply on_fs_inv in H1 as (fs1 & H1 & ->); apply WriteAt_closed in H1 as [Hc Hk]; try done.
    destruct (core_step _ _ I Hc). cbn. rw Z.eqb_refl. by split_and!. }
  destruct (active_opens _ _ I Ef Eo) as (i & Hi & Hl & Hn).
  apply bind_inv in H as [(s1 & n & H1 & H)|(e & H1 & ->)];
    apply wrap_err_inv in H1 as ([n'|e'] & H1 & H1'); try done;
    apply on_fs_inv in H1 as (fs1 & H1 & ->);
    apply (WriteAt_inv _ _ _ _ _ _ i) in H1 as [U Hw]; try done;
    destruct (upd_step _ _ _ I Ef Eo U) as [I1 X1]; [|cbn; rw Z.eqb_refl; by split_and!].
  injection H1' as ->. destruct Hw as [-> Hw]. rw Z.eqb_refl /= in H.
  set (i1 := os.write_inode _ _ _ _) in Hw.
  assert (opens fs1 f i1) as Hi1 by done.
  pose proof (zlen_nonneg record) as Hz.
  assert (activeOffset (sg s) + zlen record <= zlen (i_data i1)) as Hlen1.
  { cbn. rw zlen_splice; lia. }
  apply bind_inv in H as [(s2 & u & H2 & H)|(e & H2 & ->)]; last first.
  { destruct fsync; [|done]. apply wrap_err_inv in H2 as (r2 & H2 & _).
    apply on_fs_inv in H2 as (fs2 & H2 & ->).
    apply (Sync_inv _ _ _ _ i1 (activeOffset (sg s))) in H2 as [U2 _]; try done.
    destruct (upd_step (MkSeg (sg s) fs1) _ _ I1 Ef Eo U2) as [I2 X2].
    cbn. rw Z.eqb_refl. split_and!; [done|by etrans|done|done]. }
  assert (∃ fs2 i2, s2 = MkSeg (sg s) fs2 ∧ upd (f_ino f) (activeOffset (sg s)) fs1 fs2 ∧
            opens fs2 f i2 ∧ i_data i2 = i_data i1 ∧ (fsync = true → i_stable i2 = i_data i1))
    as (fs2 & i2 & -> & U2 & Hi2 & Hd2 & Hs2).
  { destruct fsync.
    - apply wrap_err_inv in H2 as ([u'|e'] & H2 & H2'); [|done].
      apply on_fs_inv in H2 as (fs2 & H2 & ->).
      apply (Sync_inv _ _ _ _ i1 (activeOffset (sg s))) in H2 as [U2 Hn2]; try done.
      eexists fs2, _. split; [done|]. split; [done|]. split; [by split|]. done.
    - munfold. simplify_eq. exists fs1, i1. split; [done|]. split; [by apply upd_core|]. by split_and!. }
  destruct (upd_step (MkSeg (sg s) fs1) _ _ I1 Ef Eo U2) as [I2 X2].
  munfold. injection H as <- <-. cbn [sg sg_fs] in *.
  destruct (advance_step (MkSeg (sg s) fs2) _ f i2 (zlen record) I2 Ef Eo Hi2 Hz ltac:(cbn; by rw Hd2) eq_refl)
    as [I3 X3]. cbn [sg sg_fs] in *.
  assert (seg_node fs2 (activeID (sg s)) = Some i2) as Hn2.
  { unfold seg_node. destruct (inv_active _ I2 f Ef Eo) as [Hd _]. cbn in Hd. rw Hd. by destruct Hi2. }
  assert (slice (activeOffset (sg s)) (activeOffset (sg s) + zlen record) (i_data i1) = record) as Hsl.
  { apply splice_at. lia. }
  pose proof (inv_id _ I).
  split; [done|]. split; [etrans; [exact X1|by etrans]|]. split; [done|].
  cbn. rw Z.eqb_refl. do 4 (split; [done|]). split; [|split; [|lia]].
  - split; [cbn; lia|]. split; [done|]. split; [cbn; lia|]. exists i2. cbn. rw Hd2. done.
  - intros Hfs. split; [cbn; lia|]. split; [done|]. split; [cbn; lia|]. exists i2. cbn. rw Hs2 //.
Qed.

Lemma append_post_ext record fsync s0 s1 s' r :
  ext s0 s1 → activeID (sg s0) < activeID (sg s1) → maxSegmentSize (sg s1) = maxSegmentSize (sg s0) →
  activeOffset (sg s1) = 0 → append_post record fsync s1 s' r → append_post record fsync s0 s' r.
Proof.
  intros X Hid Hm H0 (I & X' & Hm' & Hr). split; [done|]. split; [by etrans|]. split; [congruence|].
  assert (append_base s1 s' = append_base s0 s') as Hb.
  { unfold append_base. apply ext_id in X'. rw H0. by destruct (_ =? activeID (sg s1)), (_ =? activeID (sg s0)) eqn:E; try lia. }
  by rw Hb in Hr.
Qed.

Lemma appendLocked_post record fsync s s' r :
  SegInv s → appendLocked record fsync s = (s', r) → append_post record fsync s s' r.
Proof.
  intros I H. unfold appendLocked in H. pose proof (inv_off _ I) as H0.
  unfold gets in H. erewrite bind_ok in H by reflexivity. cbn in H.
  destruct (activeFile (sg s)) as [f|] eqn:Ef; [|destruct (inv_some _ I); congruence].
  destruct (_ && _) eqn:Eroll; last first.
  { erewrite bind_ok in H by reflexivity. eapply appendActive_post; [done|done|lia]. }
  apply bind_inv in H as [(s2 & u & H2 & H)|(e & H2 & ->)];
    apply bind_inv in H2 as [(s1 & u1 & H1 & H2)|(e1 & H1 & E1)]; try done;
    apply finalizeLocked_inv in H1 as (I1 & X1 & Hsg); try done.
  - rw -Hsg in H2. apply openSegment_next in H2 as (I2 & X2 & Hid & Hoff & Hm & Hok & _); [|done].
    rw Hsg in Hid, Hm.
    apply (append_post_ext _ _ _ s2); [by etrans|lia|done|done|].
    eapply appendActive_post; [done|done|by left].
  - rw -Hsg in H2. apply openSegment_next in H2 as (I2 & X2 & Hid & Hoff & Hm & Hok & _); [|done].
    rw Hsg in Hid, Hm. split; [done|]. split; [by etrans|]. split; [done|].
    unfold append_base. rw Hoff. destruct (_ =? _) eqn:E; [lia|done].
  - split; [done|]. split; [done|]. unfold append_base. by rw Hsg Z.eqb_refl.
Qed.

(** ** Reading *)

Definition reads_open (s : SegState) : Prop :=
  ∀ id f, readFiles (sg s) !! id = Some f → f_open f = true.

(** What a read leaves behind: only the cache of read handles may differ. *)
Definition read_post (s s' : SegState) : Prop :=
  SegInv s' ∧ ext s s' ∧ (reads_open s → reads_open s') ∧
  fs_core (sg_fs s') = fs_core (sg_fs s) ∧ sg s' = with_reads (readFiles (sg s')) (readMeta (sg s')) (sg s).

Lemma read_post_refl s : SegInv s → read_post s s.
Proof. intros I. split_and!; try done. by destruct s as [[]]. Qed.

Lemma read_post_trans s1 s2 s3 : read_post s1 s2 → read_post s2 s3 → read_post s1 s3.
Proof.
  intros (_ & X1 & R1 & C1 & F1) (I2 & X2 & R2 & C2 & F2). split; [done|]. split; [by etrans|].
  split; [auto|]. split; [congruence|]. rw F2 F1. by destruct (sg s3).
Qed.

Lemma read_post_fs s fs' : SegInv s → fs_core fs' = fs_core (sg_fs s) → read_post s (MkSeg (sg s) fs').
Proof.
  intros I Hc. destruct (core_step _ _ I Hc). split_and!; try done. by destruct s as [[]].
Qed.

Lemma read_post_cache s rf rm :
  SegInv s → (∀ id f, rf !! id = Some f → 0 <= id ∧ fs_dir (sg_fs s) !! segmentPath id = Some (f_ino f)) →
  (reads_open s → ∀ id f, rf !! id = Some f → f_open f = true) →
  read_post s (MkSeg (with_reads rf rm (sg s)) (sg_fs s)).
Proof.
  intros I Hr Ho. destruct (fields_step s (with_reads rf rm (sg s)) I) as [I' X']; try done.
  apply I.
Qed.

Lemma Stat_inv name fs fs' r :
  os.Stat name fs = (fs', r) → fs_core fs' = fs_core fs ∧
  match r with
  | Ok st => ∃ i, fs_dir fs !! name ≫= (fun ino => fs_nodes fs !! ino) = Some i ∧ st = (zlen (i_data i), i_mtime i)
  | Err _ => True
  end.
Proof.
  unfold os.Stat. intros H. apply guarded_pure_core in H as [Hc Hr].
  - split; [done|]. destruct Hr as [->|(fs0 & Hc0 & ->)]; [done|].
    unfold fs_core in Hc0. injection Hc0 as Hd Hn _ _. rw Hd Hn. repeat case_match; simplify_eq/=; eauto.
  - intros fs0. by repeat case_match.
Qed.

Lemma cache_delete s id :
  SegInv s → read_post s (MkSeg (with_reads (delete id (readFiles (sg s))) (delete id (readMeta (sg s))) (sg s)) (sg_fs s)).
Proof.
  intros I. apply read_post_cache; [done| |].
  - intros id' f [_ H]%lookup_delete_Some. by apply I.
  - intros Hr id' f [_ H]%lookup_delete_Some. by eapply Hr.
Qed.

(** Opening a fresh handle and caching it. *)
Lemma open_and_cache s s' id meta r :
  SegInv s → 0 <= id → is_Some (fs_dir (sg_fs s) !! segmentPath id) →
  (let! f := on_fs (os.Open (segmentPath id)) in
   do! set_sm (fun sm => with_reads (<[id := f]> (readFiles sm)) (<[id := meta]> (readMeta sm)) sm);
   mret f) s = (s', r) →
  read_post s s' ∧ match r with Ok f => readFiles (sg s') !! id = Some f ∧ f_open f = true | Err _ => True end.
Proof.
  intros I Hid [ino Hd] H.
  apply bind_inv in H as [(s1 & f & H1 & H)|(e & H1 & ->)];
    apply on_fs_inv in H1 as (fs1 & H1 & ->); apply OpenFile_inv in H1; [|split; [by apply read_post_fs|done]].
  destruct H1 as [(Ho & _ & Hm) _]. rw Hd in Hm. destruct Hm as [Hc Hf].
  unfold set_sm in H. munfold. injection H as <- <-. split; [|by cbn; rw lookup_insert_eq].
  eapply read_post_trans; [by apply read_post_fs|].
  assert (fs_dir fs1 = fs_dir (sg_fs s)) as Hd1 by (unfold fs_core in Hc; congruence).
  apply (read_post_cache (MkSeg (sg s) fs1)); cbn; rw ?Hd1.
  - by apply core_step.
  - intros id' f' [[<- <-]|[_ H]]%lookup_insert_Some; [by rw Hf|by apply I].
  - intros Hr id' f' [[<- <-]|[_ H]]%lookup_insert_Some; [done|by eapply Hr].
Qed.

Lemma openReadHandle_inv s s' id r :
  SegInv s → 0 <= id → openReadHandle id s = (s', r) →
  read_post s s' ∧
  match r with
  | Ok f => readFiles (sg s') !! id = Some f
  | Err _ => True
  end.
Proof.
  intros I Hid H. unfold openReadHandle in H.
  unfold try in H. destruct (on_fs (os.Stat (segmentPath id)) s) as [s1 st] eqn:E1.
  erewrite bind_ok in H by (by rw E1). apply on_fs_inv in E1 as (fs1 & E1 & ->).
  apply Stat_inv in E1 as [Hc Hst]. pose proof (read_post_fs _ _ I Hc) as P1.
  pose proof (proj1 P1) as I1. set (s1 := MkSeg (sg s) fs1) in *.
  destruct st as [info|e]; last first.
  { unfold set_sm in H. munfold. injection H as <- <-. split; [|done].
    eapply read_post_trans; [exact P1|]. by apply (cache_delete s1). }
  destruct Hst as (i & Hi & ->). unfold gets in H. erewrite bind_ok in H by reflexivity.
  assert (is_Some (fs_dir (sg_fs s1) !! segmentPath id)) as Hsome.
  { cbn. unfold fs_core in Hc. replace (fs_dir fs1) with (fs_dir (sg_fs s)) by congruence.
    destruct (_ !! _); [by eauto|done]. }
  destruct (readFiles (sg s1) !! id) as [f|] eqn:Ef.
  - destruct (_ && _).
    + munfold. injection H as <- <-. done.
    + unfold set_sm in H at 1. unfold modify in H at 1. erewrite bind_ok in H by reflexivity.
      pose proof (cache_delete s1 id I1) as P2.
      apply open_and_cache in H as [P3 Hr]; [|apply P2|done|done].
      split; [by eapply read_post_trans; [|eapply read_post_trans]|]. by destruct r as [?|?]; [apply Hr|].
  - apply open_and_cache in H as [P3 Hr]; [|done..].
    split; [by eapply read_post_trans|]. by destruct r as [?|?]; [apply Hr|].
Qed.

Lemma read_seq {A B} (m : M SegState A) (k : A → M SegState B) s s' r :
  (∀ s s' r, SegInv s → m s = (s', r) → read_post s s') →
  (∀ a s s' r, SegInv s → k a s = (s', r) → read_post s s') →
  SegInv s → (m ≫= k) s = (s', r) → read_post s s'.
Proof.
  intros Hm Hk I H. apply bind_inv in H as [(s1 & a & H1 & H)|(e & H1 & ->)].
  - apply Hm in H1; [|done]. apply Hk in H; [|apply H1]. by eapply read_post_trans.
  - by apply Hm in H1.
Qed.

Lemma read_pure {A} (m : M SegState A) s s' r :
  (∀ s, (m s).1 = s) → SegInv s → m s = (s', r) → read_post s s'.
Proof. intros Hm I H. specialize (Hm s). rw H in Hm. cbn in Hm. subst. by apply read_post_refl. Qed.

Lemma read_ReadAt f n off s s' r : SegInv s → on_fs (os.ReadAt f n off) s = (s', r) → read_post s s'.
Proof.
  intros I H. apply on_fs_inv in H as (fs' & H & ->). apply ReadAt_core in H. by apply read_post_fs.
Qed.

Lemma read_wrap {A} pre (m : M SegState A) s s' r :
  (∀ s s' r, SegInv s → m s = (s', r) → read_post s s') →
  SegInv s → wrap_err pre m s = (s', r) → read_post s s'.
Proof. intros Hm I H. apply wrap_err_inv in H as (r' & H & _). by eapply Hm. Qed.

(** Reads change nothing but the handle cache, whatever fails. *)
Lemma ReadRecord_inv id off s s' r :
  SegInv s → 0 <= id → ReadRecord id off s = (s', r) → read_post s s'.
Proof.
  intros I Hid. revert s s' r I. unfold ReadRecord. intros s s' r I.
  apply read_seq; [by intros; eapply openReadHandle_inv| |done]. clear s s' r I. intros f s s' r I.
  apply read_seq; [apply read_ReadAt| |done]. clear s s' r I. intros hdr s s' r I.
  destruct (negb _); [by apply read_pure|].
  apply read_seq; [by intros ???; apply read_pure| |done]. clear s s' r I. intros [m size] s s' r I.
  apply read_seq; [apply read_ReadAt| |done]. clear s s' r I. intros payload s s' r I.
  destruct (negb _); [by apply read_pure|].
  apply read_seq; [by intros ???; apply read_pure| |done]. clear s s' r I. intros sm s s' r I.
  destruct (verifyChecksum sm); [|by apply read_pure].
  apply read_seq; [intros ???; apply read_wrap, read_ReadAt| |done]. clear s s' r I. intros tr s s' r I.
  destruct (_ =? _); by apply read_pure.
Qed.

(** Without failures: the handle leads to the segment's data. *)
Lemma openReadHandle_ok s id i :
  SegInv s → reads_open s → fs_faults (sg_fs s) = [] → 0 <= id → seg_node (sg_fs s) id = Some i →
  ∃ s' f, openReadHandle id s = (s', Ok f) ∧ opens (sg_fs s') f i ∧ sg_fs s' = sg_fs s ∧ read_post s s'.
Proof.
  intros I Hro Hf Hid Hn.
  assert (∃ s' f, openReadHandle id s = (s', Ok f) ∧ sg_fs s' = sg_fs s) as (s' & f & H & Hfs).
  { unfold openReadHandle.
    assert (on_fs (os.Stat (segmentPath id)) s = (s, Ok (zlen (i_data i), i_mtime i))) as Hst.
    { unfold on_fs, zoom, os.Stat. rw guarded_none //. unfold seg_node in Hn. rw Hn. by destruct s. }
    unfold try. erewrite bind_ok by (by rw Hst). cbv beta iota. unfold gets. erewrite bind_ok by reflexivity.
    assert (∀ s1, sg_fs s1 = sg_fs s → ∃ f, on_fs (os.Open (segmentPath id)) s1 = (s1, Ok f)) as Hop.
    { intros s1 E1. unfold on_fs, zoom, os.Open, os.OpenFile. rw E1 guarded_none //.
      unfold seg_node in Hn. destruct (fs_dir (sg_fs s) !! segmentPath id); [|done].
      eexists. rw -E1. by destruct s1. }
    destruct (readFiles (sg s) !! id) as [f|]; [destruct (_ && _); [by eauto|]|].
    - unfold set_sm, modify. erewrite bind_ok by reflexivity.
      edestruct Hop as [f' Hf']; [|erewrite bind_ok by exact Hf']; [done|]. by eexists _, _.
    - edestruct Hop as [f' Hf']; [|erewrite bind_ok by exact Hf']; [done|]. by eexists _, _. }
  exists s', f. split; [done|]. apply openReadHandle_inv in H as [P Hr]; [|done..].
  split; [|done]. destruct P as (I' & _ & R' & _). specialize (R' Hro).
  split; [by eapply R'|]. apply I' in Hr as [_ Hr]. rw Hfs in Hr |- *.
  unfold seg_node in Hn. by rw Hr in Hn.
Qed.

Lemma on_ReadAt_ok s f i n off :
  fs_faults (sg_fs s) = [] → opens (sg_fs s) f i → 0 <= off → 0 <= n → off + n <= zlen (i_data i) →
  on_fs (os.ReadAt f n off) s = (s, Ok (slice off (off + n) (i_data i))).
Proof. intros. unfold on_fs, zoom. erewrite ReadAt_ok by done. by destruct s. Qed.

Lemma slice_slice {A} (l : list A) lo hi a b :
  0 <= lo → 0 <= a → b <= hi - lo → slice (lo + a) (lo + b) l = slice a b (slice lo hi l).
Proof.
  intros. unfold slice. replace (Z.to_nat (lo + a)) with (Z.to_nat lo + Z.to_nat a)%nat by lia.
  rw -drop_drop skipn_firstn_comm take_take. f_equal. lia.
Qed.

Lemma ReadRecord_ok s id off m p :
  SegInv s → reads_open s → fs_faults (sg_fs s) = [] → is_u32 m → is_u32 (zlen p) →
  holds i_data s id off (EncodeRecord m p) →
  ∃ s', ReadRecord id off s = (s', Ok (m, p)) ∧ read_post s s'.
Proof.
  intros I Hro Hf Hm Hp (Hid & Hoff & _ & i & Hi & Hl & Hs).
  destruct (openReadHandle_ok s id i) as (s' & f & Ho & Hoi & Hfs & P); try done; [lia|].
  exists s'. split; [|done]. unfold ReadRecord. erewrite bind_ok by exact Ho.
  assert (fs_faults (sg_fs s') = []) as Hf' by (by rw Hfs).
  pose proof (zlen_nonneg p) as Hz. rw zlen_EncodeRecord in Hl, Hs.
  assert (∀ a b, 0 <= a <= b → b <= RecordOverhead + zlen p →
    on_fs (os.ReadAt f (b - a) (off + a)) s' = (s', Ok (slice a b (EncodeRecord m p)))) as Hread.
  { intros a b Ha Hb. erewrite on_ReadAt_ok by (done || lia).
    do 2 f_equal. rw -Hs. replace (off + a + (b - a)) with (off + b) by lia.
    apply slice_slice; lia. }
  unfold RecordOverhead, HeaderSize, ChecksumSize in *.
  erewrite bind_ok.
  2:{ specialize (Hread 0 8). rw Z.add_0_r in Hread. apply Hread; lia. }
  assert (zlen (slice 0 8 (EncodeRecord m p)) = 8) as Hl8.
  { rw zlen_slice; [lia| |done]. rw zlen_EncodeRecord /RecordOverhead /HeaderSize /ChecksumSize. lia. }
  rw Hl8. change (negb (8 =? 8)) with false. cbv iota. pose proof (DecodeRecordHeader_hdr m p Hm Hp) as Hhdr. unfold HeaderSize in Hhdr.
  erewrite bind_ok by (unfold lift_result; by rw Hhdr). cbv beta iota.
  erewrite bind_ok.
  2:{ specialize (Hread 8 (8 + zlen p)). replace (8 + zlen p - 8) with (zlen p) in Hread by lia.
      apply Hread; lia. }
  pose proof (EncodeRecord_payload m p []) as Hpay. rw app_nil_r /HeaderSize in Hpay.
  rw Hpay Z.eqb_refl. change (negb true) with false. cbv iota. unfold gets. erewrite bind_ok by reflexivity.
  destruct (verifyChecksum (sg s')); [|done].
  pose proof (EncodeRecord_crc m p []) as Hcrc. rw app_nil_r /HeaderSize /ChecksumSize in Hcrc.
  erewrite bind_ok.
  2:{ unfold wrap_err. specialize (Hread (8 + zlen p) (8 + zlen p + 4)).
      replace (8 + zlen p + 4 - (8 + zlen p)) with 4 in Hread by lia.
      rw Z.add_assoc in Hread. rw Hread; [lia..|]. by rw Hcrc. }
  rw Uint32_Put; [apply RecordChecksum_range|]. by rw Z.eqb_refl.
Qed.

(** ** Batches *)

(** A segment is made stable as a whole before the next one is started. *)
Lemma finalizeLocked_stable s s' u f :
  SegInv s → finalizeLocked s = (s', Ok u) → activeFile (sg s) = Some f → 0 < activeOffset (sg s) →
  ∃ i, seg_node (sg_fs s') (activeID (sg s)) = Some i ∧ i_stable i = i_data i.
Proof.
  unfold finalizeLocked. intros I H Ef Hpos. unfold gets in H.
  erewrite bind_ok in H by reflexivity. cbn in H. rw Ef in H.
  replace (activeOffset (sg s) =? 0) with false in H by lia.
  apply bind_inv in H as [(s1 & n & H1 & H)|(e & H1 & ?)]; [|done].
  apply on_fs_inv in H1 as (fs1 & H1 & ->).
  destruct (f_open f) eqn:Eo; [|by apply WriteAt_closed in H1 as [_ ?]].
  destruct (active_opens _ _ I Ef Eo) as (i & Hi & Hl & _).
  apply (WriteAt_inv _ _ _ _ _ _ i) in H1 as [U _]; [|done|lia].
  destruct (upd_step _ _ _ I Ef Eo U) as [I1 _].
  destruct (active_opens _ _ I1 Ef Eo) as (i1 & Hi1 & _).
  apply on_fs_inv in H as (fs2 & H & ->). cbn in H.
  apply (Sync_inv _ _ _ _ i1 (activeOffset (sg s))) in H as [U2 Hn]; [|done|lia].
  destruct (upd_step (MkSeg (sg s) fs1) _ _ I1 Ef Eo U2) as [I2 _].
  destruct (inv_active _ I2 f Ef Eo) as [Hd _]. cbn in Hd.
  eexists. unfold seg_node. cbn. rw Hd. cbn. by split; [exact Hn|].
Qed.

Lemma appendLocked_rolled record fsync s s' r :
  SegInv s → appendLocked record fsync s = (s', r) →
  activeID (sg s') = activeID (sg s) ∨
  ∃ s1 i, ext s s1 ∧ ext s1 s' ∧ sg s1 = sg s ∧
    seg_node (sg_fs s1) (activeID (sg s)) = Some i ∧ i_stable i = i_data i.
Proof.
  intros I H. unfold appendLocked, gets in H. erewrite bind_ok in H by reflexivity. cbn in H.
  assert (∀ s s' r, appendActive record fsync s = (s', r) → activeID (sg s') = activeID (sg s)) as Hact.
  { clear. intros s s' r H. unfold appendActive, gets in H. erewrite bind_ok in H by reflexivity.
    destruct (activeFile (sg s)) as [f|]; [|by munfold; simplify_eq].
    apply bind_inv in H as [(s1 & n & H1 & H)|(e & H1 & ->)];
      apply wrap_err_inv in H1 as (r1 & H1 & _); apply on_fs_inv in H1 as (fs1 & _ & ->); [|done].
    destruct (negb _); [by munfold; simplify_eq|].
    apply bind_inv in H as [(s1 & n' & H1 & H)|(e & H1 & ->)];
      (destruct fsync; [apply wrap_err_inv in H1 as (r2 & H1 & _); apply on_fs_inv in H1 as (fs2 & _ & ->)
                       |munfold; simplify_eq]); munfold; unfold set_sm, modify in *; by simplify_eq. }
  destruct (activeFile (sg s)) as [f|] eqn:Ef; [|left; by munfold; simplify_eq].
  destruct (_ && _) eqn:Eroll; last first.
  { erewrite bind_ok in H by reflexivity. left. by eapply Hact. }
  apply bind_inv in H as [(s2 & u & H2 & H)|(e & H2 & ->)];
    apply bind_inv in H2 as [(s1 & u1 & H1 & H2)|(e1 & H1 & E1)]; try done.
  - right. pose proof (finalizeLocked_stable _ _ _ _ I H1 Ef ltac:(lia)) as (i & Hi & Hs).
    apply finalizeLocked_inv in H1 as (I1 & X1 & Hsg); [|done].
    rw -Hsg in H2. apply openSegment_next in H2 as (I2 & X2 & _ & Ho & _); [|done].
    exists s1, i. split; [done|]. split; [|done]. etrans; [exact X2|].
    by destruct (appendActive_post record fsync s2 s' r) as (_ & X3 & _); [..|left|].
  - right. pose proof (finalizeLocked_stable _ _ _ _ I H1 Ef ltac:(lia)) as (i & Hi & Hs).
    apply finalizeLocked_inv in H1 as (I1 & X1 & Hsg); [|done].
    rw -Hsg in H2. apply openSegment_next in H2 as (I2 & X2 & _); [|done]. exists s1, i. done.
  - left. apply finalizeLocked_inv in H1 as (_ & _ & ->); done.
Qed.

(** A write of the running batch: in the segments, and stable unless it is in
    the active one, which the batch's fsync is still to cover. *)
Definition pending (s : SegState) (id off : Z) (d : bytes) : Prop :=
  holds i_data s id off d ∧ (id = activeID (sg s) ∨ holds i_stable s id off d).

Lemma pending_append record fsync s s' r id off d :
  SegInv s → appendLocked record fsync s = (s', r) → pending s id off d → pending s' id off d.
Proof.
  intros I H [Hd Hs]. pose proof (appendLocked_post _ _ _ _ _ I H) as (I' & X & _).
  split; [by eapply holds_ext|]. destruct Hs as [->|Hs]; [|right; by eapply holds_ext].
  apply appendLocked_rolled in H as [Hid|(s1 & i & X1 & X2 & Hsg & Hn & Hst)]; [by left|right|done].
  eapply (holds_ext s1); [done|]. eapply (holds_ext s s1) in Hd; [|done].
  destruct Hd as (K1 & K2 & K3 & j & Hj & K4). split; [done|]. split; [done|]. split; [done|].
  exists j. split; [done|]. assert (j = i) as -> by congruence. by rw Hst.
Qed.

(** After the loop: a write without an error is in the segments. *)
Definition batch_entry (P : Z → Z → bytes → Prop) (pw pw' : pendingWrite) : Prop :=
  pw_record pw' = pw_record pw ∧
  (pw_err pw' = None → P (SegmentID (pw_loc pw')) (Offset (pw_loc pw')) (pw_record pw)).

Lemma batch_loop_post batch s s' r :
  SegInv s → Forall (fun pw => pw_err pw = None) batch → batch_loop batch s = (s', r) →
  SegInv s' ∧ ext s s' ∧ (∀ id off d, pending s id off d → pending s' id off d) ∧
  ∃ batch' wrote, r = Ok (batch', wrote) ∧ Forall2 (batch_entry (pending s')) batch batch' ∧
    (wrote = false → Forall (fun pw => pw_err pw ≠ None) batch').
Proof.
  intros I Hb; revert s s' r I; induction Hb as [|pw batch Hpw Hb IH]; intros s s' r I H; cbn [batch_loop] in H.
  { munfold. simplify_eq. split; [done|]. split; [done|]. split; [done|]. by eexists [], false. }
  apply bind_inv in H as [(s1 & r1 & H1 & H)|(e & H1 & ->)]; apply try_inv in H1 as (r1' & H1 & E1); [|done].
  injection E1 as ->. pose proof (fun id off d => pending_append _ _ _ _ _ id off d I H1) as Hpend.
  apply appendLocked_post in H1 as (I1 & X1 & _ & Hr1); [|done].
  destruct (batch_loop batch s1) as [s2 r2] eqn:E2.
  destruct (IH _ _ _ I1 E2) as (I2 & X2 & P2 & b2 & w2 & -> & Hb2 & Hw2).
  erewrite bind_ok in H by exact E2. cbn in H.
  destruct r1' as [loc|e]; munfold; injection H as <- <-;
    (split; [done|]; split; [by etrans|]; split; [by auto|]; eexists _, _; split; [done|]; split).
  - constructor; [|done]. split; [done|]. cbn. intros _. apply P2.
    destruct Hr1 as (Hid & _ & _ & _ & Hh & _). split; [done|by left].
  - done.
  - constructor; [|done]. by split.
  - intros Hw. constructor; [done|auto].
Qed.

Lemma pending_synced s fs' f i id off d :
  SegInv s → activeFile (sg s) = Some f → f_open f = true → opens (sg_fs s) f i →
  fs_dir fs' = fs_dir (sg_fs s) → fs_nodes fs' !! f_ino f = Some (Inode (i_data i) (i_data i) (i_mtime i)) →
  ext s (MkSeg (sg s) fs') → pending s id off d → holds i_stable (MkSeg (sg s) fs') id off d.
Proof.
  intros I Ef Eo [_ Hi] Hd' Hn X [Hd [->|Hs]]; [|by eapply holds_ext].
  destruct (inv_active _ I f Ef Eo) as [Hdir _].
  destruct Hd as (K1 & K2 & K3 & j & Hj & K4 & K5). split; [done|]. split; [done|]. split; [done|].
  unfold seg_node in *. cbn. rw Hd' Hdir /= Hn. rw Hdir /= Hi in Hj. injection Hj as <-. by eexists.
Qed.

Lemma fail_all P Q e b b' : Forall2 (batch_entry P) b b' → Forall2 (batch_entry Q) b (fail_unfailed e <$> b').
Proof.
  intros H. apply Forall2_fmap_r. eapply Forall2_impl; [exact H|].
  intros pw pw' [K1 _]. unfold batch_entry, fail_unfailed.
  destruct (pw_err pw') eqn:E; cbn; rw ?E; done.
Qed.

(** Group commit: whatever I/O fails, a write that a batch acknowledges (its
    error is nil) is at the location it was given and survives a crash, also when
    the batch spans a change of segment; nothing committed before is disturbed. *)
Lemma batchAppend_inv batch s s' r :
  SegInv s → Forall (fun pw => pw_err pw = None) batch → batchAppend batch s = (s', r) →
  SegInv s' ∧ ext s s' ∧ ∃ batch', r = Ok batch' ∧
    Forall2 (batch_entry (fun id off d => holds i_data s' id off d ∧ holds i_stable s' id off d)) batch batch'.
Proof.
  intros I Hb H. unfold batchAppend in H.
  destruct (batch_loop batch s) as [s1 r1] eqn:E1.
  destruct (batch_loop_post _ _ _ _ I Hb E1) as (I1 & X1 & _ & b1 & w1 & -> & Hb1 & Hw1).
  erewrite bind_ok in H by exact E1. cbn in H. unfold gets in H. erewrite bind_ok in H by reflexivity.
  destruct (inv_some _ I1) as [f Ef]. rw Ef in H. destruct w1; last first.
  { munfold. injection H as <- <-. split; [done|]. split; [done|]. exists b1. split; [done|].
    specialize (Hw1 eq_refl). clear -Hb1 Hw1. induction Hb1 as [|pw pw' b b' [K1 K2] Hb IH]; [done|].
    inversion Hw1; subst. constructor; [|auto]. by split. }
  apply bind_inv in H as [(s2 & r2 & H2 & H)|(e & H2 & ->)]; apply try_inv in H2 as (r2' & H2 & E2); [|done].
  injection E2 as ->. apply on_fs_inv in H2 as (fs2 & H2 & ->).
  destruct (f_open f) eqn:Eo.
  - destruct (active_opens _ _ I1 Ef Eo) as (i & Hi & _).
    apply (Sync_inv _ _ _ _ i (activeOffset (sg s1))) in H2 as [U Hsy]; [|done|apply I1].
    destruct (upd_step _ _ _ I1 Ef Eo U) as [I2 X2].
    destruct r2' as [u|e]; munfold; injection H as <- <-;
      (split; [done|]; split; [by etrans|]; eexists; split; [done|]).
    + eapply Forall2_impl; [exact Hb1|]. intros pw pw' [K1 K2]. split; [done|]. intros K3.
      specialize (K2 K3). split; [by eapply holds_ext; [|apply K2]|].
      eapply pending_synced; [done..| |done|done|done]. apply U.
    + by eapply fail_all.
  - assert (fs_core fs2 = fs_core (sg_fs s1) ∧ is_ok r2' = false) as [Hc Hr].
    { apply guarded_inv in H2 as (fs0 & Hc & [H2|[-> ->]]); [|done].
      erewrite bind_err in H2 by (by apply node_of_closed). by injection H2 as <- <-. }
    destruct (core_step _ _ I1 Hc) as [I2 X2]. destruct r2' as [u|e]; [done|].
    munfold; injection H as <- <-. split; [done|]. split; [by etrans|]. eexists. split; [done|].
    by eapply fail_all.
Qed.
