(* ===== verification/SegmentDurable.v ===== *)
(** * Sessions of the segment store: read-back, crashes and restarts

    [seg_step] is one call on a running manager, under any I/O failures; [crash]
    keeps of every file what was fsynced, and of the directory nothing: that the
    entry of a record's segment is still there is a hypothesis. *)
From S2P Require Import Prelude GoLib Hash Record FS Segment SegmentScan SegmentStore.

(** ** Fields a computation leaves alone *)
Definition keeps {A B} (g : SegmentManager → B) (m : M SegState A) : Prop :=
  ∀ s, g (sg (m s).1) = g (sg s).

Section keeps.
Context {B : Type} (g : SegmentManager → B).

Lemma keeps_bind {A C} (m : M SegState A) (k : A → M SegState C) :
  keeps g m → (∀ a, keeps g (k a)) → keeps g (m ≫= k).
Proof.
  intros Hm Hk s. specialize (Hm s). munfold. destruct (m s) as [s1 [a|e]]; [|done].
  rw Hk. exact Hm.
Qed.
Lemma keeps_pure {A} (m : M SegState A) : (∀ s, (m s).1 = s) → keeps g m.
Proof. intros H s. by rw H. Qed.
Lemma keeps_on_fs {A} (m : M FS A) : keeps g (on_fs m).
Proof. intros s. unfold on_fs, zoom. by destruct (m (sg_fs s)). Qed.
Lemma keeps_set h : (∀ sm, g (h sm) = g sm) → keeps g (set_sm h).
Proof. intros H s. apply H. Qed.
Lemma keeps_wrap {A} pre (m : M SegState A) : keeps g m → keeps g (wrap_err pre m).
Proof. intros H s. specialize (H s). unfold wrap_err. by destruct (m s) as [s1 []]. Qed.
Lemma keeps_try {A} (m : M SegState A) : keeps g m → keeps g (try m).
Proof. intros H s. specialize (H s). unfold try. by destruct (m s). Qed.
End keeps.

#[export] Hint Resolve keeps_on_fs keeps_wrap keeps_try : lbf.
Ltac keeps :=
  repeat first
    [ apply keeps_bind; [|intros ?] | apply keeps_wrap | apply keeps_try | apply keeps_on_fs
    | apply keeps_set; intros ?; reflexivity | apply keeps_pure; intros ?; reflexivity
    | case_match ].

Lemma keeps_appendLocked record fsync : keeps readFiles (appendLocked record fsync).
Proof. unfold appendLocked, appendActive, finalizeLocked, openSegment, openSegmentFile. keeps. Qed.

Lemma keeps_batchAppend batch : keeps readFiles (batchAppend batch).
Proof.
  assert (keeps readFiles (batch_loop batch)) as H.
  { induction batch as [|pw b IH]; cbn [batch_loop]; by keeps. }
  unfold batchAppend. by keeps.
Qed.

(** ** One call on a running manager *)

(** The index files, the journal and the sidecars share the directory: writing
    them leaves the segments alone. *)
Definition same_segments (fs fs' : FS) : Prop :=
  fs_wf fs' ∧ (∀ id, 0 <= id → fs_dir fs' !! segmentPath id = fs_dir fs !! segmentPath id) ∧
  (∀ id ino, 0 <= id → fs_dir fs !! segmentPath id = Some ino → fs_nodes fs' !! ino = fs_nodes fs !! ino).

Inductive seg_step : SegState → SegState → Prop :=
  | step_append record s s' r : appendDirect record s = (s', r) → seg_step s s'
  | step_batch batch s s' r :
      Forall (fun pw => pw_err pw = None) batch → batchAppend batch s = (s', r) → seg_step s s'
  | step_read id off s s' r : 0 <= id → ReadRecord id off s = (s', r) → seg_step s s'
  | step_other s fs' : (* the failures to come change, and files other than the segments *)
      same_segments (sg_fs s) fs' → seg_step s (MkSeg (sg s) fs').

Lemma other_inv s fs' :
  SegInv s → same_segments (sg_fs s) fs' → SegInv (MkSeg (sg s) fs') ∧ ext s (MkSeg (sg s) fs').
Proof.
  intros I (W & Hd & Hn). pose proof (inv_id _ I). split.
  - split; cbn; try apply I; [done| | |].
    + intros id Hid. rw Hd; [lia|]. by apply I.
    + intros f Hf Ho. destruct (inv_active _ I f Hf Ho) as (K1 & K2). rw Hd //. split; [done|].
      by rw (Hn (activeID (sg s))).
    + intros id f Hf. destruct (inv_reads _ I id f Hf). split; [done|]. by rw Hd.
  - split; cbn; [done..|]. intros id i Hid. unfold seg_node. rw Hd; [lia|].
    destruct (fs_dir (sg_fs s) !! segmentPath id) as [ino|] eqn:E; [|done]. cbn. intros Hi.
    exists i. rw (Hn id); [lia|done|]. auto using cut_prefix.
Qed.

Lemma seg_step_inv s s' : SegInv s → seg_step s s' → SegInv s' ∧ ext s s'.
Proof.
  intros I H. destruct H as [rec s s' r H|batch s s' r Hb H|id off s s' r Hid H|s fs' Hs].
  - by destruct (appendLocked_post _ _ _ _ _ I H) as (? & ? & _).
  - destruct (batchAppend_inv _ _ _ _ I Hb H) as (? & ? & _). done.
  - by destruct (ReadRecord_inv _ _ _ _ _ I Hid H) as (? & ? & _).
  - by apply other_inv.
Qed.

Lemma seg_step_reads s s' : SegInv s → reads_open s → seg_step s s' → reads_open s'.
Proof.
  intros I Hro H. destruct H as [rec s s' r H|batch s s' r Hb H|id off s s' r Hid H|s fs' Hs].
  - pose proof (keeps_appendLocked rec true s) as K. unfold appendDirect in H. rw H in K.
    unfold reads_open. cbn in K. by rw K.
  - pose proof (keeps_batchAppend batch s) as K. rw H in K. unfold reads_open. cbn in K. by rw K.
  - destruct (ReadRecord_inv _ _ _ _ _ I Hid H) as (_ & _ & R & _). auto.
  - done.
Qed.

Lemma seg_steps_inv s s' :
  rtc seg_step s s' → SegInv s → SegInv s' ∧ ext s s' ∧ (reads_open s → reads_open s').
Proof.
  induction 1 as [s|s s1 s' H _ IH]; intros I; [done|].
  destruct (seg_step_inv _ _ I H) as [I1 X1]. destruct (IH I1) as (I2 & X2 & R2).
  split; [done|]. split; [by etrans|]. intros Hro. apply R2. exact (seg_step_reads _ _ I Hro H).
Qed.

(** Read-back.  A record whose append returned a location is returned by a
    read of that location after any further calls, whatever of them failed and
    however the segments rolled over meanwhile. *)
Theorem append_read_back s s1 s2 m p loc :
  SegInv s → reads_open s → is_u32 m → is_u32 (zlen p) →
  appendDirect (EncodeRecord m p) s = (s1, Ok loc) → rtc seg_step s1 s2 →
  fs_faults (sg_fs s2) = [] →
  (ReadRecord (SegmentID loc) (Offset loc) s2).2 = Ok (m, p) ∧ (Read loc s2).2 = Ok p.
Proof.
  intros I Hro Hm Hp Ha Hst Hf. pose proof (seg_step_reads _ _ I Hro (step_append _ _ _ _ Ha)) as Hro1.
  destruct (appendLocked_post _ _ _ _ _ I Ha) as (I1 & X1 & _ & _ & _ & _ & _ & Hh & _).
  destruct (seg_steps_inv _ _ Hst I1) as (I2 & X2 & R2).
  destruct (ReadRecord_ok s2 (SegmentID loc) (Offset loc) m p) as (s' & H & _); auto.
  { by eapply holds_ext. }
  split; [by rw H|]. unfold Read. by erewrite bind_ok by exact H.
Qed.

(** ** Restarting *)

(** The names of the directory that read as segment names are the paths of
    segments with ids of at most four digits. *)
Definition seg_dir (fs : FS) : Prop :=
  (∀ name id, is_Some (fs_dir fs !! name) → Sscanf_segment ".dat" name = Some id →
     0 <= id ∧ name = segmentPath id) ∧
  (∀ id, 0 <= id → is_Some (fs_dir fs !! segmentPath id) → id < 10000).

Lemma max_segment_id_spec names :
  (∀ n id, n ∈ names → Sscanf_segment ".dat" n = Some id → 0 <= id ∧ n = segmentPath id) →
  (∀ id, 0 <= id < 10000 → segmentPath id ∈ names → id <= max_segment_id names) ∧
  (max_segment_id names = -1 ∨
   0 <= max_segment_id names ∧ segmentPath (max_segment_id names) ∈ names).
Proof.
  unfold max_segment_id.
  set (step := fun maxID name => match Sscanf_segment ".dat" name with
    | None => maxID | Some id => if maxID <? id then id else maxID end).
  assert (∀ names acc, acc <= fold_left step names acc) as Hmono.
  { clear. intros names. induction names as [|n names IH]; intros acc; [done|]. cbn [fold_left].
    etrans; [|apply IH]. unfold step. destruct (Sscanf_segment _ n) as [id|]; [|done].
    destruct (acc <? id) eqn:E; lia. }
  assert (∀ acc, (∀ n id, n ∈ names → Sscanf_segment ".dat" n = Some id → 0 <= id ∧ n = segmentPath id) →
    (∀ id, 0 <= id < 10000 → segmentPath id ∈ names → id <= fold_left step names acc) ∧
    (fold_left step names acc = acc ∨
     0 <= fold_left step names acc ∧ segmentPath (fold_left step names acc) ∈ names)) as Hgen.
  { clear -Hmono. induction names as [|n names IH]; intros acc Hn.
    { cbn. split; [by intros ?? ?%not_elem_of_nil|by left]. }
    cbn [fold_left]. destruct (IH (step acc n)) as (K2 & K3); [intros; apply Hn; [by right|done]|].
    split.
    - intros id Hid [Heq|Hin]%elem_of_cons; [|by apply K2]. subst n. etrans; [|apply Hmono].
      unfold step, segmentPath. rw Sscanf_segment_name //. destruct (acc <? id) eqn:E; lia.
    - destruct K3 as [K3|[K3 K4]]; [|right; split; [done|by right]]. rw K3. unfold step.
      destruct (Sscanf_segment ".dat" n) as [id|] eqn:En; [|by left].
      destruct (acc <? id); [|by left]. right. destruct (Hn n id) as [? ->]; [by left|done|].
      split; [done|by left]. }
  intros Hn. by apply Hgen.
Qed.

Lemma ReadDir_ok fs : fs_faults fs = [] → ∃ names,
  os.ReadDir fs = (fs, Ok names) ∧ ∀ n, n ∈ names ↔ is_Some (fs_dir fs !! n).
Proof.
  intros Hf. unfold os.ReadDir. eexists. rw guarded_none //. split; [reflexivity|].
  intros n. rw merge_sort_Permutation. rw list_elem_of_fmap. split.
  - intros ([k v] & -> & H%elem_of_map_to_list). cbn. eauto.
  - intros [v H]. exists (n, v). split; [done|]. by apply elem_of_map_to_list.
Qed.

Lemma truncateToValid_bounds data :
  0 <= (truncateToValid data).2 <= zlen data ∧
  (truncateToValid data).1.1 = take (Z.to_nat (truncateToValid data).2) data.
Proof.
  unfold truncateToValid.
  pose proof (truncate_loop_mono (S (length data)) data 0 0 (Z.le_refl 0)) as H1.
  pose proof (truncate_loop_le (S (length data)) data 0 0) as H2.
  pose proof (zlen_nonneg data).
  destruct (truncate_loop _ data 0 0) as [o c]. cbn in H1, H2 |- *. split; [|done].
  specialize (H2 ltac:(lia)). destruct (FooterSize <=? zlen data - o) eqn:E; [|lia].
  destruct (ValidateFooter _); unfold FooterSize in *; lia.
Qed.

(** What a start makes of a directory: the last segment is cut back to its valid
    prefix and becomes the active one, the others are left alone. *)
Definition restarted (fs : FS) (s' : SegState) : Prop :=
  SegInv s' ∧ reads_open s' ∧ fs_faults (sg_fs s') = [] ∧ is_Some (fs_dir fs !! segmentPath (activeID (sg s'))) ∧
  ∀ id i, 0 <= id < 10000 → seg_node fs id = Some i →
    id <= activeID (sg s') ∧ ∃ i', seg_node (sg_fs s') id = Some i' ∧
    if id =? activeID (sg s') then
      i_data i' = (truncateToValid (i_data i)).1.1 ∧
      activeOffset (sg s') = (truncateToValid (i_data i)).2 ∧
      recordCount (sg s') = (truncateToValid (i_data i)).1.2 ∧
      take (Z.to_nat (activeOffset (sg s'))) (i_stable i) `prefix_of` i_stable i'
    else i' = i.

Lemma node_of_path fs id i : fs_wf fs → seg_node fs id = Some i →
  ∃ ino, fs_dir fs !! segmentPath id = Some ino ∧ fs_nodes fs !! ino = Some i.
Proof. intros _ H. unfold seg_node in H. destruct (fs_dir fs !! segmentPath id); [by eauto|done]. Qed.

(** Cutting a file back, or leaving it when there is nothing to cut. *)
Lemma cut_back fs f i n :
  fs_faults fs = [] → opens fs f i → 0 <= n <= zlen (i_data i) →
  ∃ fs', (if n <? zlen (i_data i) then os.Truncate f n else mret tt) fs = (fs', Ok tt) ∧
    upd (f_ino f) n fs fs' ∧ fs_faults fs' = [] ∧
    ∃ i', opens fs' f i' ∧ i_data i' = take (Z.to_nat n) (i_data i).
Proof.
  intros Hf Ho Hn. destruct (n <? zlen (i_data i)) eqn:E.
  - assert (∃ fs', os.Truncate f n fs = (fs', Ok tt) ∧ fs_faults fs' = []) as (fs' & H & Hf').
    { unfold os.Truncate. rw guarded_none //. erewrite bind_ok by (by apply node_of_ok). by eexists. }
    exists fs'. split; [done|]. apply (Truncate_inv _ _ _ _ _ i) in H as [U Hi]; [|done|lia].
    split; [done|]. split; [done|]. eexists. split; [split; [apply Ho|exact Hi]|]. done.
  - exists fs. split; [done|]. split; [by apply upd_core|]. split; [done|]. exists i. split; [done|].
    symmetry. apply take_ge. unfold zlen in *. lia.
Qed.

(** Opening an existing segment at start. *)
Lemma openSegmentFile_ok sm fs ino i :
  fs_wf fs → fs_faults fs = [] → 0 <= activeID sm → activeFile sm = None → readFiles sm = ∅ →
  (∀ id, activeID sm < id → fs_dir fs !! segmentPath id = None) →
  fs_dir fs !! segmentPath (activeID sm) = Some ino → fs_nodes fs !! ino = Some i →
  ∃ fs' i', openSegmentFile (activeID sm) (MkSeg sm fs) =
      (MkSeg (with_active (activeID sm) (truncateToValid (i_data i)).2 (truncateToValid (i_data i)).1.2
               (with_file (Some (MkFile ino true 0 false)) sm)) fs', Ok tt) ∧
    fs_faults fs' = [] ∧ upd ino (truncateToValid (i_data i)).2 fs fs' ∧
    fs_nodes fs' !! ino = Some i' ∧ i_data i' = (truncateToValid (i_data i)).1.1.
Proof.
  intros W Hf Hid Hnone Hrf Hlast Hd Hn.
  set (f := MkFile ino true 0 false). assert (opens fs f i) as Hop by done.
  unfold openSegmentFile, set_sm, modify. erewrite bind_ok by reflexivity. cbn [sg sg_fs]. rw Hnone.
  cbn [fmap option_fmap option_map].
  erewrite bind_ok.
  2:{ unfold on_fs, zoom, os.OpenFile. cbn. rw guarded_none // Hd. reflexivity. }
  erewrite bind_ok.
  2:{ unfold on_fs, zoom, os.FStat. cbn. rw guarded_none //. erewrite bind_ok by (by apply node_of_ok). reflexivity. }
  erewrite bind_ok by reflexivity. cbn [sg sg_fs fst snd].
  destruct (truncateToValid_bounds (i_data i)) as [Hb Ht].
  destruct (zlen (i_data i) =? 0) eqn:E0.
  { apply Z.eqb_eq, zlen_zero_inv in E0. exists fs, i. split; [by rw E0|]. split; [done|].
    split; [by apply upd_core|]. split; [done|]. by rw E0. }
  erewrite bind_ok.
  2:{ unfold try, on_fs, zoom. cbn [sg sg_fs]. erewrite scanValidTail_eq by done. reflexivity. }
  cbv beta iota. destruct (cut_back fs f i _ Hf Hop Hb) as (fs' & Hcut & U & Hf' & i' & [_ Hi'] & Hdat).
  exists fs', i'. split; [|by rw Ht].
  erewrite bind_ok.
  2:{ unfold try. destruct (_ <? _); unfold on_fs, zoom; cbn [sg sg_fs]; [rw Hcut; reflexivity|].
      munfold. injection Hcut as ->. reflexivity. }
  done.
Qed.

Lemma started_inv sm fs ino fs' i' off cnt :
  fs_wf fs → 0 <= activeID sm → readFiles sm = ∅ →
  (∀ id, activeID sm < id → fs_dir fs !! segmentPath id = None) →
  fs_dir fs !! segmentPath (activeID sm) = Some ino → upd ino off fs fs' →
  fs_nodes fs' !! ino = Some i' → 0 <= off <= zlen (i_data i') →
  SegInv (MkSeg (with_active (activeID sm) off cnt (with_file (Some (MkFile ino true 0 false)) sm)) fs').
Proof.
  intros W Hid Hrf Hlast Hd U Hn Hoff. pose proof (fs_wf_upd _ _ _ _ U W) as W'.
  destruct U as (Ud & _). split; cbn; rw ?Ud ?Hrf; try done; [lia|].
  intros f [= <-] _. cbn. split; [done|]. exists i'. split; [done|lia].
Qed.

Lemma NewSegmentManager_ok maxSize fs id0 :
  fs_wf fs → seg_dir fs → fs_faults fs = [] → 0 <= id0 → is_Some (fs_dir fs !! segmentPath id0) →
  ∃ s', NewSegmentManager maxSize fs = (s', Ok tt) ∧ restarted fs s'.
Proof.
  intros W Hsd Hf Hid0 Hex. unfold NewSegmentManager.
  erewrite bind_ok by (unfold wrap_err, on_fs, zoom, os.MkdirAll; cbn [sg sg_fs]; rw guarded_none //; reflexivity). unfold recover.
  destruct (ReadDir_ok fs Hf) as (names & Hrd & Hnames).
  erewrite bind_ok by (unfold wrap_err, on_fs, zoom; cbn [sg sg_fs]; rw Hrd; reflexivity).
  destruct Hsd as [Hsd Hsd4].
  destruct (max_segment_id_spec names) as [Hmax Hcase]; [by intros n id Hn%Hnames; apply Hsd|].
  assert (0 <= max_segment_id names ∧ segmentPath (max_segment_id names) ∈ names) as [Hk Hin].
  { destruct Hcase as [E|H]; [exfalso|done]. specialize (Hmax id0).
    assert (id0 <= max_segment_id names); [|lia]. apply Hmax; [split; [done|by apply Hsd4]|].
    by apply Hnames. }
  set (K := max_segment_id names) in *. replace (K <? 0) with false by lia.
  unfold set_sm, modify. erewrite bind_ok by reflexivity. cbn [sg sg_fs].
  set (sm := with_active K _ _ _).
  apply Hnames in Hin as [ino Hino]. pose proof (wf_dir _ W _ _ Hino) as [i Hi].
  assert (∀ id, K < id → fs_dir fs !! segmentPath id = None) as Hlast.
  { intros id Hlt. destruct (fs_dir fs !! segmentPath id) eqn:E; [|done]. exfalso.
    assert (id < 10000) by (apply Hsd4; [lia|by eauto]).
    assert (id <= K); [|lia]. apply Hmax; [lia|]. apply Hnames. eauto. }
  destruct (openSegmentFile_ok sm fs ino i) as (fs' & i' & H & Hf' & U & Hi' & Hd'); try done.
  eexists. split; [exact H|]. destruct (truncateToValid_bounds (i_data i)) as [Hb Ht].
  split.
  { eapply started_inv; try done. rw Hd' Ht zlen_take. lia. }
  split; [by intros ??; cbn; rw lookup_empty|]. split; [done|]. split; [by eauto|].
  intros id j Hid Hj. destruct (node_of_path _ _ _ W Hj) as (jno & Hjd & Hjn). cbn.
  split; [apply Hmax; [done|]; apply Hnames; eauto|].
  destruct U as (Ud & _ & Uo & Ui). unfold seg_node. rw Ud Hjd. cbn.
  destruct (id =? K) eqn:E.
  - assert (id = K) as -> by lia. assert (jno = ino) as -> by congruence.
    assert (j = i) as -> by congruence. eexists. split; [done|]. split_and!; try done.
    rw Hi in Ui. destruct Ui as (i2 & Hi2 & _ & Hst). assert (i2 = i') as -> by congruence. by apply Hst, (wf_stable _ W ino).
  - exists j. rw Uo; [|done]. intros ->.
    assert (segmentPath id = segmentPath K) as Heq%segmentPath_inj by (by eapply (wf_inj _ W)); lia.
Qed.

(** ** Crashes *)

Lemma fs_wf_crash fs fs' : crash fs fs' → fs_wf fs → fs_wf fs'.
Proof.
  intros (Hd & Hj & Hx & Hn) [W1 W2 W3 W4]. split; rw ?Hx; try done.
  - intros ino [i Hi]. apply W1. specialize (Hn ino). rw Hi in Hn. inversion Hn; eauto.
  - intros name ino Hi. destruct (Hd _ _ Hi) as [i Hi']. specialize (Hn ino). rw Hi' in Hn.
    inversion Hn. eauto.
  - intros ino i Hi. specialize (Hn ino). rw Hi in Hn. inversion Hn as [i0 ? (junk & E1 & E2)|]; subst.
    rw E1 E2. by eexists.
Qed.

(** Record [r] is at [off] of segment [id], behind whole records only, in the
    part of the segment that was fsynced. *)
Definition durable (s : SegState) (id off : Z) (r : rec) : Prop :=
  0 <= id <= activeID (sg s) ∧ ∃ rs i,
    Forall valid_rec (rs ++ [r]) ∧ off = zlen (encs rs) ∧ seg_node (sg_fs s) id = Some i ∧
    (id = activeID (sg s) → zlen (encs (rs ++ [r])) <= activeOffset (sg s)) ∧
    encs (rs ++ [r]) `prefix_of` i_stable i.

Lemma durable_ext s s' id off r : ext s s' → durable s id off r → durable s' id off r.
Proof.
  intros [X1 X2 X3] (Hid & rs & i & Hrs & Ho & Hn & Hl & Hp). split; [lia|].
  destruct (X3 id i Hid Hn) as (i' & Hn' & _ & Hs). exists rs, i'. do 3 (split; [done|]).
  split; [intros ->; specialize (X2 ltac:(lia)); lia|]. etrans; [|exact Hs].
  unfold cut. destruct (id <? activeID (sg s)) eqn:E; [done|].
  specialize (Hl ltac:(lia)). destruct Hp as [k ->]. rw take_app_ge; [unfold zlen in Hl; lia|].
  by eexists.
Qed.

(** The active segment holds whole, non-empty records up to [activeOffset]. *)
Definition clean (s : SegState) : Prop :=
  ∀ i, seg_node (sg_fs s) (activeID (sg s)) = Some i →
    ∃ rs, Forall valid_rec rs ∧ take (Z.to_nat (activeOffset (sg s))) (i_data i) = encs rs.

Lemma enc_nonempty r : 0 < zlen (enc r).
Proof. rw zlen_enc. pose proof (zlen_nonneg (r_payload r)). lia. Qed.

Lemma holds_active s off d :
  holds i_data s (activeID (sg s)) off d → off + zlen d = activeOffset (sg s) →
  ∃ i, seg_node (sg_fs s) (activeID (sg s)) = Some i ∧
    take (Z.to_nat (activeOffset (sg s))) (i_data i) = take (Z.to_nat off) (i_data i) ++ d.
Proof.
  intros (_ & H2 & _ & i & Hi & Hl & Hs) Ho. exists i. split; [done|]. rw -Ho.
  unfold slice in Hs. rw -{2}Hs. pose proof (zlen_nonneg d).
  replace (Z.to_nat (off + zlen d)) with (Z.to_nat off + Z.to_nat (off + zlen d - off))%nat by lia.
  by rw take_take_drop.
Qed.

Lemma prefix_take {A} (l k : list A) n : l `prefix_of` k → Z.of_nat n <= zlen l → take n k `prefix_of` l.
Proof. intros [m ->] H. rw take_app_le; [unfold zlen in H; lia|]. apply take_prefix. Qed.

(** A manager whose active handle was lost to a failed rollover refuses appends. *)
Lemma appendLocked_closed record fsync s s' r f :
  activeFile (sg s) = Some f → f_open f = false → appendLocked record fsync s = (s', r) →
  is_ok r = false ∧ sg s' = sg s ∧ fs_core (sg_fs s') = fs_core (sg_fs s).
Proof.
  intros Ef Eo H. unfold appendLocked, gets in H. erewrite bind_ok in H by reflexivity. rw Ef in H.
  destruct (_ && _) eqn:E.
  - apply bind_inv in H as [(s2 & u & H2 & H)|(e & H2 & ->)];
      apply bind_inv in H2 as [(s1 & u1 & H1 & H2)|(e1 & H1 & E1)]; try done;
      unfold finalizeLocked, gets in H1; erewrite bind_ok in H1 by reflexivity; rw Ef in H1;
      replace (activeOffset (sg s) =? 0) with false in H1 by lia;
      apply bind_inv in H1 as [(s3 & n & H3 & H1)|(e3 & H3 & E3)]; try done;
      apply on_fs_inv in H3 as (fs3 & H3 & ->); apply WriteAt_closed in H3 as [? ?]; done.
  - erewrite bind_ok in H by reflexivity. unfold appendActive, gets in H.
    erewrite bind_ok in H by reflexivity. rw Ef in H.
    apply bind_inv in H as [(s1 & n & H1 & H)|(e & H1 & ->)];
      apply wrap_err_inv in H1 as ([n'|e'] & H1 & H1'); try done;
      apply on_fs_inv in H1 as (fs1 & H1 & ->); apply WriteAt_closed in H1 as [Hc Hk]; done.
Qed.

(** The active segment's committed bytes are the same after a step that stays in it. *)
Lemma ext_active s s' f :
  SegInv s → ext s s' → activeFile (sg s) = Some f → f_open f = true →
  ∃ i i', seg_node (sg_fs s) (activeID (sg s)) = Some i ∧ seg_node (sg_fs s') (activeID (sg s)) = Some i' ∧
    take (Z.to_nat (activeOffset (sg s))) (i_data i') = take (Z.to_nat (activeOffset (sg s))) (i_data i).
Proof.
  intros I X Ef Eo. destruct (active_opens _ _ I Ef Eo) as (i & _ & Hl & Hi).
  pose proof (inv_id _ I). pose proof (inv_off _ I).
  destruct (ext_node _ _ X (activeID (sg s)) i ltac:(lia) Hi) as (i' & Hi' & [k Hk] & _). exists i, i'. do 2 (split; [done|]).
  unfold cut in Hk. rw Z.ltb_irrefl in Hk. rw Hk take_app_le; [rw length_take; unfold zlen in Hl; lia|].
  rw take_take. f_equal. lia.
Qed.

(** Appending non-empty records keeps the active segment clean, whatever fails;
    an acknowledged record is behind whole records only. *)
Lemma clean_append r fsync s s' res :
  SegInv s → clean s → valid_rec r → appendLocked (enc r) fsync s = (s', res) →
  clean s' ∧ match res with
  | Ok loc => ∃ rs i, seg_node (sg_fs s') (activeID (sg s')) = Some i ∧ Forall valid_rec (rs ++ [r]) ∧
      Offset loc = zlen (encs rs) ∧
      take (Z.to_nat (activeOffset (sg s'))) (i_data i) = encs (rs ++ [r])
  | Err _ => True
  end.
Proof.
  intros I Hc Hr H. destruct (inv_some _ I) as [f Ef]. destruct (f_open f) eqn:Eo; last first.
  { apply (appendLocked_closed _ _ _ _ _ _ Ef Eo) in H as (Hres & Hsg & Hfs).
    destruct res; [done|]. split; [|done]. unfold clean, seg_node. unfold fs_core in Hfs. injection Hfs as Hd Hn _ _.
    rw Hsg Hd Hn. exact Hc. }
  destruct (appendLocked_post _ _ _ _ _ I H) as (I' & X & _ & Hres).
  destruct (ext_active _ _ _ I X Ef Eo) as (i & i' & Hi & Hi' & Ht).
  assert (∀ j, seg_node (sg_fs s') (activeID (sg s')) = Some j →
    ∃ rs, Forall valid_rec rs ∧ take (Z.to_nat (append_base s s')) (i_data j) = encs rs) as Hbase.
  { intros j Hj. unfold append_base. destruct (_ =? _) eqn:E; [|by exists []].
    apply Z.eqb_eq in E. rw E in Hj. assert (j = i') as -> by congruence. rw Ht. by apply Hc. }
  destruct res as [loc|e]; last first.
  { split; [|done]. intros j Hj. rw Hres. by apply Hbase. }
  destruct Hres as (Hid & Hoff & _ & Hsum & Hh & _). rw Hid in Hh.
  destruct (holds_active _ _ _ Hh Hsum) as (j & Hj & Htj).
  destruct (Hbase j Hj) as (rs & Hrs & Hrt). rw Hoff Hrt -encs_snoc in Htj.
  assert (Forall valid_rec (rs ++ [r])) by (apply Forall_app; split; [done|by constructor]).
  split; [intros j' Hj'; assert (j' = j) as -> by congruence; by eauto|].
  exists rs, j. split_and!; try done. rw Hoff -Hrt zlen_take.
  destruct Hh as (_ & Hoff0 & _ & j2 & Hj2 & Hl2 & _). assert (j2 = j) as -> by congruence.
  pose proof (enc_nonempty r). rw Hoff in Hl2, Hoff0. lia.
Qed.

Lemma append_durable r s s' loc :
  SegInv s → clean s → valid_rec r → appendDirect (enc r) s = (s', Ok loc) →
  durable s' (SegmentID loc) (Offset loc) r.
Proof.
  intros I Hc Hr H. destruct (clean_append _ _ _ _ _ I Hc Hr H) as (_ & rs & i & Hi & Hrs & Ho & Ht).
  destruct (appendLocked_post _ _ _ _ _ I H) as (I' & _ & _ & Hid & _ & _ & Hsum & _ & Hst & _).
  specialize (Hst eq_refl). rw Hid. pose proof (inv_id _ I'). pose proof (inv_off _ I').
  destruct Hst as (_ & _ & _ & j & Hj & Hl & _). rw Hid in Hj. assert (j = i) as -> by congruence.
  split; [lia|]. exists rs, i. do 3 (split; [done|]). split.
  - intros _. rw -Ht zlen_take. lia.
  - rw -Ht. apply prefix_take; [|lia]. destruct (node_of_path _ _ _ (inv_wf _ I') Hi) as (ino & _ & Hn).
    by apply (wf_stable _ (inv_wf _ I') ino).
Qed.

(** What survives a crash and a restart. *)
Lemma durable_restart s fs' maxSize id off r :
  SegInv s → durable s id off r → crash (sg_fs s) fs' → entry_kept (sg_fs s) fs' (segmentPath id) → seg_dir fs' → fs_faults fs' = [] →
  ∃ s', NewSegmentManager maxSize fs' = (s', Ok tt) ∧ restarted fs' s' ∧ holds i_data s' id off (enc r).
Proof.
  intros I (Hid & rs & i & Hrs & -> & Hn & _ & Hp) Hcr Hd Hsd Hf. unfold entry_kept in Hd.
  pose proof (fs_wf_crash _ _ Hcr (inv_wf _ I)) as W. destruct Hcr as (_ & _ & _ & Hnn).
  destruct (node_of_path _ _ _ (inv_wf _ I) Hn) as (ino & Hino & Hi).
  specialize (Hnn ino). rw Hi in Hnn. inversion Hnn as [? i1 (junk & E1 & E2) EA EB|]. subst x.
  assert (seg_node fs' id = Some i1) as Hn1 by (unfold seg_node; by rw Hd Hino).
  assert (0 <= id < 10000) as Hid'.
  { split; [lia|]. apply Hsd; [lia|]. rw Hd. by eauto. }
  destruct (NewSegmentManager_ok maxSize fs' id W Hsd Hf) as (s' & Hs' & R); [lia|rw Hd; by eauto|].
  exists s'. split; [done|]. split; [done|]. destruct R as (I' & _ & _ & _ & R).
  destruct (R id i1 Hid' Hn1) as (Hle & i2 & Hn2 & Hi2).
  assert (∃ rest, i_data i1 = encs (rs ++ [r]) ++ rest) as [rest Hrest].
  { destruct Hp as [k Hk]. rw E1 Hk -app_assoc. by eexists. }
  pose proof (zlen_nonneg (encs rs)). pose proof (enc_nonempty r).
  assert (∀ d, encs (rs ++ [r]) `prefix_of` d →
    zlen (encs rs) + zlen (enc r) <= zlen d ∧ slice (zlen (encs rs)) (zlen (encs rs) + zlen (enc r)) d = enc r) as Hslice.
  { intros d [k ->]. rw encs_snoc (zlen_app _ k) (zlen_app (encs rs) (enc r)). pose proof (zlen_nonneg k). split; [lia|].
    rw -app_assoc. by apply slice_app_mid. }
  split; [lia|]. split; [done|].
  destruct (id =? activeID (sg s')) eqn:E.
  - destruct Hi2 as (Hd2 & Ho2 & _). destruct (truncateToValid_keeps (rs ++ [r]) rest Hrs) as [K1 K2].
    rw -Hrest in K1, K2. rw encs_snoc (zlen_app (encs rs) (enc r)) in K2. split; [lia|].
    exists i2. split; [done|]. apply Hslice. by rw Hd2.
  - split; [lia|]. exists i2. split; [done|]. apply Hslice. subst i2. rw Hrest. by eexists.
Qed.

(** ** The promises *)

(** A manager started on an empty directory. *)
Lemma fresh_start maxSize :
  ∃ s, NewSegmentManager maxSize (empty_fs []) = (s, Ok tt) ∧ SegInv s ∧ clean s ∧ reads_open s ∧
    fs_faults (sg_fs s) = [] ∧ maxSegmentSize (sg s) = maxSize.
Proof.
  set (fs1 := MkFS {[segmentPath 0 := 1%positive]} {[1%positive := Inode [] [] 0]} 2 0 []).
  set (sm1 := MkSM maxSize true 0 (Some (MkFile 1 true 0 false)) 0 0 ∅ ∅).
  exists (MkSeg sm1 fs1). split; [reflexivity|].
  split; [split; cbn; try done|split; [|done]].
  - split; cbn.
    + intros ino [i [<- _]%lookup_singleton_Some]. lia.
    + intros name ino [_ <-]%lookup_singleton_Some. rw lookup_singleton_eq. eauto.
    + intros n1 n2 ino [<- _]%lookup_singleton_Some [<- _]%lookup_singleton_Some. done.
    + intros ino i [_ <-]%lookup_singleton_Some. done.
  - intros id Hid. apply lookup_singleton_ne. intros ?%segmentPath_inj; lia.
  - intros f [= <-] _. rw lookup_singleton_eq. split; [done|]. eexists. by rw lookup_singleton_eq.
  - intros i. unfold seg_node. cbn. rw lookup_singleton_eq /=. rw lookup_singleton_eq. intros [= <-].
    by exists [].
Qed.

(** C6: durability.  A record with a known magic and a payload that is not empty and
    under 4 GiB, whose append was acknowledged by a manager whose active segment is
    clean (whole records up to the active offset: no footer of an earlier shutdown),
    is returned by a read of its location after any further calls, with any
    failures, a crash that loses of every file all that was not fsynced and puts
    anything in its place, and a restart in which nothing fails; provided that the
    crash has kept the directory entry of the record's segment, and that the names
    of the directory that read as segment names are those of segments below 10000. *)
Theorem append_survives_crash s s1 s2 r loc fs' maxSize :
  SegInv s → clean s → valid_rec r →
  appendDirect (enc r) s = (s1, Ok loc) → rtc seg_step s1 s2 →
  crash (sg_fs s2) fs' → entry_kept (sg_fs s2) fs' (segmentPath (SegmentID loc)) → seg_dir fs' → fs_faults fs' = [] →
  ∃ s3, NewSegmentManager maxSize fs' = (s3, Ok tt) ∧ SegInv s3 ∧ (Read loc s3).2 = Ok (r_payload r).
Proof.
  intros I Hc Hr Ha Hst Hcr Hk Hsd Hf.
  pose proof (append_durable _ _ _ _ I Hc Hr Ha) as D.
  destruct (seg_step_inv _ _ I (step_append _ _ _ _ Ha)) as [I1 _].
  destruct (seg_steps_inv _ _ Hst I1) as (I2 & X2 & _).
  apply (durable_ext _ s2) in D; [|done].
  destruct (durable_restart _ _ maxSize _ _ _ I2 D Hcr Hk Hsd Hf) as (s3 & H3 & (I3 & Hro & Hf3 & _) & Hh).
  exists s3. split; [done|]. split; [done|]. destruct Hr as (Hm & _ & Hp).
  destruct (ReadRecord_ok s3 (SegmentID loc) (Offset loc) (r_magic r) (r_payload r)) as (s' & H & _); try done.
  { by apply KnownMagic_u32. }
  unfold Read. by erewrite bind_ok by exact H.
Qed.

(** Group commit.  Whatever I/O fails, a write that a batch acknowledges (its
    error is nil) is at the location it was given, in the file and in what a crash
    preserves, also when the batch spans a change of segment; and it stays there. *)
Theorem batchAppend_durable batch s s' r s2 :
  SegInv s → Forall (fun pw => pw_err pw = None) batch → batchAppend batch s = (s', r) →
  rtc seg_step s' s2 →
  ∃ batch', r = Ok batch' ∧ Forall2 (batch_entry (fun id off d =>
    holds i_data s2 id off d ∧ holds i_stable s2 id off d)) batch batch'.
Proof.
  intros I Hb H Hst. destruct (batchAppend_inv _ _ _ _ I Hb H) as (I' & _ & b' & -> & Hb').
  destruct (seg_steps_inv _ _ Hst I') as (_ & X & _). exists b'. split; [done|].
  eapply Forall2_impl; [exact Hb'|]. intros pw pw' [K1 K2]. split; [done|]. intros K3.
  destruct (K2 K3). split; by eapply holds_ext.
Qed.

(** The size limit.  An append leaves the active segment, with the footer still
    to come, within the maximum segment size, unless the record is alone in it. *)
Theorem append_size_bound record s s' loc :
  SegInv s → appendDirect record s = (s', Ok loc) →
  SegmentID loc = activeID (sg s') ∧ Size loc = zlen record ∧
  (Offset loc = 0 ∨ Offset loc + Size loc + FooterSize <= maxSegmentSize (sg s)).
Proof.
  intros I H. destruct (appendLocked_post _ _ _ _ _ I H) as (_ & _ & Hm & Hid & _ & Hsz & Hsum & _ & _ & Hb).
  split; [done|]. split; [done|]. rw Hsz Hsum -Hm. exact Hb.
Qed.

(** Once the file of the next segment could not be opened, every later append
    fails and changes nothing, although I/O works again: the manager keeps the
    closed handle until the process restarts. *)
Theorem lost_handle_refuses record s s' r f :
  activeFile (sg s) = Some f → f_open f = false → appendDirect record s = (s', r) →
  is_ok r = false ∧ sg s' = sg s ∧ fs_core (sg_fs s') = fs_core (sg_fs s).
Proof. intros Hf Ho H. exact (appendLocked_closed _ _ _ _ _ _ Hf Ho H). Qed.

(** ** A concrete session *)
Definition fresh (maxSize : Z) : SegState := (NewSegmentManager maxSize (empty_fs [])).1.

Lemma fresh_inv maxSize :
  SegInv (fresh maxSize) ∧ clean (fresh maxSize) ∧ reads_open (fresh maxSize) ∧
  fs_faults (sg_fs (fresh maxSize)) = [].
Proof. unfold fresh. by destruct (fresh_start maxSize) as (s & -> & ? & ? & ? & ? & _). Qed.

Definition rec_a : rec := xml_rec "<a/>".
Definition rec_b : rec := xml_rec "<b>1</b>".
Lemma rec_a_valid : valid_rec rec_a.
Proof. repeat constructor; done. Qed.

(** State and outcome after appending [r]. *)
Definition run_append (r : rec) (s : SegState) : SegState := (appendDirect (enc r) s).1.
Definition session1 : SegState := run_append rec_a (fresh 1000).

Lemma session1_eq : appendDirect (enc rec_a) (fresh 1000) = (session1, Ok (MkLocation 0 0 16)).
Proof. vm_compute. reflexivity. Qed.

Lemma append_read_back_witness :
  (ReadRecord 0 0 (run_append rec_b session1)).2 = Ok (MagicXML, bs "<a/>") ∧
  (Read (MkLocation 0 0 16) (run_append rec_b session1)).2 = Ok (bs "<a/>").
Proof.
  destruct (fresh_inv 1000) as (I & _ & R & _).
  apply (append_read_back (fresh 1000) session1 (run_append rec_b session1) MagicXML (bs "<a/>") (MkLocation 0 0 16)).
  - exact I.
  - exact R.
  - by apply KnownMagic_u32.
  - by split.
  - exact session1_eq.
  - apply rtc_once. apply (step_append (enc rec_b) _ _ (appendDirect (enc rec_b) session1).2), surjective_pairing.
  - vm_compute. reflexivity.
Defined.

Lemma crash_refl fs : fs_wf fs → (∀ ino i, fs_nodes fs !! ino = Some i → i_data i = i_stable i) → crash fs fs.
Proof.
  intros [W1 W2 W3 W4] H. do 3 (split; [done|]). intros ino. destruct (fs_nodes fs !! ino) as [i|] eqn:E; [|constructor].
  constructor. exists []. rw app_nil_r. split; [by apply (H ino)|done].
Qed.

Lemma session1_fs : seg_dir (sg_fs session1) ∧ crash (sg_fs session1) (sg_fs session1).
Proof.
  split.
  - assert (fs_dir (sg_fs session1) = {[segmentPath 0 := 1%positive]}) as E by (vm_compute; reflexivity).
    unfold seg_dir. rw E. split.
    + intros name id [ino H]. apply lookup_singleton_Some in H as [<- _].
      replace (Sscanf_segment _ _) with (Some 0) by (vm_compute; reflexivity). by intros [= <-].
    + intros id Hid [ino H]. apply lookup_singleton_Some in H as [H _]. apply segmentPath_inj in H; lia.
  - apply crash_refl.
    { destruct (fresh_inv 1000) as (I & _). apply (seg_step_inv _ _ I (step_append _ _ _ _ session1_eq)). }
    intros ino i H.
    assert (fs_nodes (sg_fs session1) = {[1%positive := Inode (enc rec_a) (enc rec_a) 0]}) as E
      by (vm_compute; reflexivity).
    rw E in H. by apply lookup_singleton_Some in H as [_ <-].
Qed.

Lemma append_survives_crash_witness :
  ∃ s3, NewSegmentManager 1000 (sg_fs session1) = (s3, Ok tt) ∧ SegInv s3 ∧
        (Read (MkLocation 0 0 16) s3).2 = Ok (bs "<a/>").
Proof.
  destruct (fresh_inv 1000) as (I & C & R & _). destruct session1_fs as [D K].
  apply (append_survives_crash (fresh 1000) session1 session1 rec_a (MkLocation 0 0 16)).
  - exact I.
  - exact C.
  - exact rec_a_valid.
  - exact session1_eq.
  - apply rtc_refl.
  - exact K.
  - reflexivity.
  - exact D.
  - vm_compute. reflexivity.
Defined.

Definition batch_ab : list pendingWrite := [new_pending (enc rec_a); new_pending (enc rec_b)].
Lemma batchAppend_durable_witness :
  ∃ batch', (batchAppend batch_ab (fresh 1000)).2 = Ok batch' ∧ Forall2 (batch_entry (fun id off d =>
    holds i_data (batchAppend batch_ab (fresh 1000)).1 id off d ∧
    holds i_stable (batchAppend batch_ab (fresh 1000)).1 id off d)) batch_ab batch' ∧
  (pw_err <$> batch') = [None; None].
Proof.
  destruct (fresh_inv 1000) as (I & _).
  destruct (batchAppend_durable batch_ab (fresh 1000) (batchAppend batch_ab (fresh 1000)).1
    (batchAppend batch_ab (fresh 1000)).2 (batchAppend batch_ab (fresh 1000)).1) as (b' & E & H).
  - exact I.
  - repeat constructor.
  - apply surjective_pairing.
  - apply rtc_refl.
  - exists b'. split; [exact E|]. split; [exact H|].
    assert ((batchAppend batch_ab (fresh 1000)).2 =
      Ok [MkPW (enc rec_a) (MkLocation 0 0 16) None; MkPW (enc rec_b) (MkLocation 0 16 20) None]) as E2
      by (vm_compute; reflexivity).
    rw E2 in E. by injection E as <-.
Defined.

Lemma append_size_bound_witness :
  SegmentID (MkLocation 1 0 20) = activeID (sg (run_append rec_b (run_append rec_a (fresh 64)))) ∧
  Size (MkLocation 1 0 20) = zlen (enc rec_b) ∧
  (Offset (MkLocation 1 0 20) = 0 ∨
   Offset (MkLocation 1 0 20) + Size (MkLocation 1 0 20) + FooterSize <=
   maxSegmentSize (sg (run_append rec_a (fresh 64)))).
Proof.
  destruct (fresh_inv 64) as (I & _).
  apply (append_size_bound (enc rec_b) (run_append rec_a (fresh 64))).
  - refine (proj1 (seg_step_inv _ _ I (step_append (enc rec_a) _ _ (Ok (MkLocation 0 0 16)) _))).
    vm_compute. reflexivity.
  - vm_compute. reflexivity.
Defined.

(** The rollover of [append_size_bound_witness], with the open of segment 1 failing. *)
Definition lost : SegState :=
  (appendDirect (enc rec_b)
    (let s := run_append rec_a (fresh 64) in
     MkSeg (sg s) (MkFS (fs_dir (sg_fs s)) (fs_nodes (sg_fs s)) (fs_next (sg_fs s)) 0 [FNone; FNone; FFail]))).1.

Lemma lost_handle_refuses_witness :
  fs_faults (sg_fs lost) = [] ∧ is_ok (appendDirect (enc rec_a) lost).2 = false ∧
  sg (appendDirect (enc rec_a) lost).1 = sg lost.
Proof.
  split; [vm_compute; reflexivity|].
  destruct (lost_handle_refuses (enc rec_a) lost (appendDirect (enc rec_a) lost).1 (appendDirect (enc rec_a) lost).2
    (MkFile 1 false 0 false)) as (H1 & H2 & _).
  - vm_compute. reflexivity.
  - reflexivity.
  - apply surjective_pairing.
  - by split.
Defined.
