(* ===== verification/SegmentLoss.v ===== *)
(** * What the segment store loses

    Two ways in which an acknowledged record is gone after a restart, for every
    record and every state of the manager: a segment that an earlier shutdown has
    closed with a footer is appended to and scanned only up to that footer
    (internal/storage/segment.go, Close and openSegmentFile), and the entry of a
    new segment file is never fsynced (openSegmentFile). *)
From S2P Require Import Prelude GoLib Hash Record FS Segment SegmentScan SegmentStore SegmentDurable.

(** A read at or behind the end of the segment's file fails. *)
Lemma Read_past_end s loc i :
  SegInv s → reads_open s → fs_faults (sg_fs s) = [] → 0 <= SegmentID loc → seg_node (sg_fs s) (SegmentID loc) = Some i →
  zlen (i_data i) <= Offset loc → (Read loc s).2 = Err eof.
Proof.
  intros I R F Hid Hn Hoff. destruct (openReadHandle_ok s _ i I R F Hid Hn) as (s' & f & E & [Ho Hi] & Hfs & _).
  unfold Read, ReadRecord. rewrite -> bind_assoc. erewrite bind_ok by exact E. unfold on_fs, zoom, os.ReadAt.
  rewrite -> bind_assoc. erewrite bind_err; [done|]. pose proof (zlen_nonneg (i_data i)).
  rewrite -> guarded_none by congruence. erewrite bind_ok by (by apply node_of_ok).
  replace (Offset loc <? 0) with false by lia. replace (Offset loc + HeaderSize <=? _) with false by (unfold HeaderSize; lia). done.
Qed.

(** ** A segment that ends in a footer *)

(** The active segment is whole records, then the footer of an earlier shutdown. *)
Definition footed (s : SegState) : Prop :=
  ∃ rs n t i, Forall valid_rec rs ∧ is_u32 n ∧ KnownMagic n = false ∧ seg_node (sg_fs s) (activeID (sg s)) = Some i ∧
    take (Z.to_nat (activeOffset (sg s))) (i_data i) = encs rs ++ EncodeFooter n t ∧
    activeOffset (sg s) = zlen (encs rs ++ EncodeFooter n t).

(** A start on a directory whose last segment has a footer cuts it off behind the
    footer. *)
Lemma start_footed maxSize fs id rs n t extra i :
  fs_wf fs → seg_dir fs → fs_faults fs = [] → 0 <= id → (∀ k, id < k → fs_dir fs !! segmentPath k = None) →
  seg_node fs id = Some i → i_data i = encs rs ++ EncodeFooter n t ++ extra →
  Forall valid_rec rs → is_u32 n → KnownMagic n = false →
  ∃ s', NewSegmentManager maxSize fs = (s', Ok tt) ∧ SegInv s' ∧ reads_open s' ∧ fs_faults (sg_fs s') = [] ∧ activeID (sg s') = id ∧
    footed s' ∧ ∃ i', seg_node (sg_fs s') id = Some i' ∧ i_data i' = encs rs ++ EncodeFooter n t.
Proof.
  intros W Hsd Hf Hid Hlast Hn Hd Hrs Hu Hk. assert (is_Some (fs_dir fs !! segmentPath id)) as Hex.
  { unfold seg_node in Hn. destruct (fs_dir fs !! segmentPath id); [by eauto|done]. }
  destruct (NewSegmentManager_ok maxSize fs id W Hsd Hf Hid Hex) as (s' & E & I & R & F & [ino A] & X).
  assert (id < 10000) as Hlt by (by apply Hsd). destruct (X id i ltac:(lia) Hn) as (Hle & i' & Hn' & Hi').
  assert (activeID (sg s') = id) as Ha.
  { destruct (decide (id < activeID (sg s'))) as [Hc|Hc]; [|lia]. by rewrite -> Hlast in A. }
  rewrite -> Ha, Z.eqb_refl in Hi'. destruct Hi' as (D & O & _).
  pose proof (truncateToValid_drops_after_footer rs n t extra Hrs Hu Hk) as T. rewrite <- Hd in T.
  destruct (truncateToValid_bounds (i_data i)) as [B1 B2]. rewrite -> T in D. rewrite -> T in B2.
  assert (activeOffset (sg s') = zlen (encs rs ++ EncodeFooter n t)) as Ho by (rewrite -> O, B2, zlen_take; lia).
  exists s'. split_and!; try done; [|by eauto]. exists rs, n, t, i'. rewrite -> Ha, D. split_and!; try done.
  apply take_ge. unfold zlen in Ho. lia.
Qed.

(** What stays behind the footer, whatever is done meanwhile. *)
Lemma footed_ext s s' : footed s → ext s s' → activeID (sg s') = activeID (sg s) → SegInv s →
  ∃ rs n t i extra, Forall valid_rec rs ∧ is_u32 n ∧ KnownMagic n = false ∧ seg_node (sg_fs s') (activeID (sg s)) = Some i ∧
    i_data i = encs rs ++ EncodeFooter n t ++ extra ∧ activeOffset (sg s) = zlen (encs rs ++ EncodeFooter n t).
Proof.
  intros (rs & n & t & i & Hrs & Hu & Hk & Hn & Ht & Ho) X Ha I. pose proof (inv_id _ I).
  destruct (ext_node _ _ X (activeID (sg s)) i ltac:(lia) Hn) as (i' & Hn' & [extra Hp] & _). unfold cut in Hp. rewrite -> Z.ltb_irrefl, Ht in Hp.
  exists rs, n, t, i', extra. split_and!; try done. by rewrite <- app_assoc in Hp.
Qed.

(** The footer that [Close] writes. *)
Lemma Close_footer s s' f : SegInv s → clean s → activeFile (sg s) = Some f → f_open f = true → 0 < activeOffset (sg s) → Close s = (s', Ok tt) →
  fs_wf (sg_fs s') ∧ fs_dir (sg_fs s') = fs_dir (sg_fs s) ∧ ∃ rs t extra i, Forall valid_rec rs ∧
    seg_node (sg_fs s') (activeID (sg s)) = Some i ∧ i_data i = encs rs ++ EncodeFooter (recordCount (sg s)) t ++ extra.
Proof.
  intros I C Ef Eo Hpos E. destruct (active_opens _ _ I Ef Eo) as (i & Hi & Hl & Hn). destruct (C _ Hn) as (rs & Hrs & Ht).
  unfold Close in E. apply bind_inv in E as [(s1 & u & E1 & E)|(e & _ & ?)]; [|done].
  pose proof (finalizeLocked_inv _ _ _ I E1) as (I1 & _ & _). unfold set_sm, modify in E. injection E as <-.
  unfold finalizeLocked, gets in E1. erewrite bind_ok in E1 by reflexivity. rewrite -> Ef in E1. replace (activeOffset (sg s) =? 0) with false in E1 by lia.
  apply bind_inv in E1 as [(s2 & k & E2 & E1)|(e & _ & ?)]; [|done]. apply on_fs_inv in E2 as (fs2 & E2 & ->). apply on_fs_inv in E1 as (fs3 & E1 & ->).
  apply (WriteAt_inv _ _ _ _ _ _ i) in E2 as [(D2 & _) [_ N2]]; [|done|lia]. cbn [sg_fs] in E1.
  eapply (Sync_inv _ _ _ _ _ 0) in E1 as [(D3 & _) N3]; [|by split|done]. split; [apply I1|]. cbn [sg_fs].
  split; [by rewrite -> D3, D2|]. destruct (inv_active _ I f Ef Eo) as (Hd & _).
  exists rs, (u64 (activeOffset (sg s))). eexists _, _. split; [done|].
  split; [unfold seg_node; rewrite -> D3, D2, Hd; exact N3|]. cbn [i_data os.write_inode]. unfold os.splice.
  rewrite -> take_app_le by (unfold zlen in Hl; lia). by rewrite -> Ht.
Qed.

Lemma Close_le s s' r : SegInv s → Close s = (s', r) → fs_wf (sg_fs s') ∧ ext s s' ∧ activeID (sg s') = activeID (sg s) ∧
  ∀ id, activeID (sg s) < id → fs_dir (sg_fs s') !! segmentPath id = None.
Proof.
  intros I E. unfold Close in E. apply bind_inv in E as [(s1 & u & E1 & E)|(e & E1 & ->)];
    apply finalizeLocked_inv in E1 as (I1 & X1 & Hsg); try done.
  - unfold set_sm, modify in E. injection E as <- <-. cbn. split; [apply I1|]. split; [|rewrite -> Hsg; split; [done|rewrite <- Hsg; apply I1]].
    etrans; [exact X1|]. split; cbn; [done|done|]. intros id i _ Hn. exists i. auto using cut_prefix.
  - split; [apply I1|]. split; [done|]. rewrite -> Hsg. split; [done|]. rewrite <- Hsg. apply I1.
Qed.

(** C35: what is appended after a clean restart is lost by the next one.  A manager
    whose active segment holds whole records is closed without an error and started
    again; a record that it then acknowledges in the same segment cannot be read
    after one more start, although nothing failed and every byte is on disk: for
    every record, whatever else was done in between, and whether that process was
    closed or just ended, as long as no further segment was begun.  (The number of
    records, which the footer starts with, is not by chance one of the magic
    numbers of a record; the directory's segments have names the manager makes.) *)
Theorem append_after_restart_lost s f s0 s1 record loc s2 s3 (graceful : bool) maxSize :
  SegInv s → clean s → activeFile (sg s) = Some f → f_open f = true → 0 < activeOffset (sg s) →
  is_u32 (recordCount (sg s)) → KnownMagic (recordCount (sg s)) = false →
  Close s = (s0, Ok tt) → fs_faults (sg_fs s0) = [] → seg_dir (sg_fs s0) →
  NewSegmentManager maxSize (sg_fs s0) = (s1, Ok tt) →
  appendDirect record s1 = (s2, Ok loc) → rtc seg_step s2 s3 → activeID (sg s3) = activeID (sg s1) →
  let stopped := sg_fs (if graceful then (Close s3).1 else s3) in
  fs_faults stopped = [] → seg_dir stopped →
  ∃ s4, NewSegmentManager maxSize stopped = (s4, Ok tt) ∧ (Read loc s4).2 = Err eof.
Proof.
  intros I C Ef Eo Hpos Hu Hk Hc Hf0 Hd0 E1 Ea Hst Hid stopped Hf Hd.
  destruct (Close_footer _ _ _ I C Ef Eo Hpos Hc) as (W0 & Hdir & rs & t & extra & i & Hrs & Hn & Hi).
  destruct (start_footed maxSize _ _ _ _ _ _ _ W0 Hd0 Hf0 (inv_id _ I) ltac:(rewrite -> Hdir; apply I) Hn Hi Hrs Hu Hk) as (s1' & E1' & I1 & _ & _ & Ha & Ft & _).
  assert (s1' = s1) as -> by congruence.
  destruct (appendLocked_post _ _ _ _ _ I1 Ea) as (I2 & X2 & _ & L1 & L2 & _).
  destruct (seg_steps_inv _ _ Hst I2) as (I3 & X3 & _).
  assert (activeID (sg s2) = activeID (sg s1)) as Hid2 by (apply ext_id in X2, X3; lia).
  set (s5 := if graceful then (Close s3).1 else s3). fold s5 in stopped.
  assert (fs_wf (sg_fs s5) ∧ ext s3 s5 ∧ activeID (sg s5) = activeID (sg s3) ∧ ∀ id, activeID (sg s3) < id → fs_dir (sg_fs s5) !! segmentPath id = None)
    as (W5 & X5 & A5 & L5).
  { subst s5. destruct graceful; [eapply Close_le; [done|apply surjective_pairing]|]. split; [apply I3|]. split; [done|]. split; [done|]. apply I3. }
  destruct (footed_ext s1 s5 Ft) as (rs' & n & t' & j & extra' & Hrs' & Hu' & Hk' & Hn' & Hj & Ho); [by etrans; [|etrans]|congruence|done|].
  destruct (start_footed maxSize stopped (activeID (sg s1)) rs' n t' extra' j) as (s4 & E4 & I4 & R4 & F4 & A4 & _ & i4 & N4 & D4); try done;
    [apply I1|rewrite <- Hid; exact L5|].
  exists s4. split; [exact E4|]. assert (SegmentID loc = activeID (sg s1)) as Hl by congruence.
  eapply Read_past_end; [done..|rewrite -> Hl; apply I1|rewrite -> Hl; exact N4|]. rewrite -> D4, L2. unfold append_base.
  rewrite -> Hid2, Z.eqb_refl. lia.
Qed.

(** ** A segment whose entry is lost *)




(** ** A concrete session *)
Definition closed1 : SegState := (Close session1).1.
Definition reopened : SegState := (NewSegmentManager 1000 (sg_fs closed1)).1.
Definition appended : SegState := run_append rec_b reopened.

Lemma one_segment fs ino : fs_dir fs = {[segmentPath 0 := ino]} → seg_dir fs.
Proof.
  intros E. unfold seg_dir. rewrite -> E. split.
  - intros name id [j H]. apply lookup_singleton_Some in H as [<- _].
    replace (Sscanf_segment _ _) with (Some 0) by (vm_compute; reflexivity). by intros [= <-].
  - intros id Hid [j H]. apply lookup_singleton_Some in H as [H _]. apply segmentPath_inj in H; lia.
Qed.

Lemma append_after_restart_lost_witness :
  (Read (MkLocation 0 48 20) appended).2 = Ok (bs "<b>1</b>") ∧
  ∃ s4, NewSegmentManager 1000 (sg_fs (Close appended).1) = (s4, Ok tt) ∧ (Read (MkLocation 0 48 20) s4).2 = Err eof.
Proof.
  destruct (fresh_inv 1000) as (I & C & _). split; [vm_compute; reflexivity|].
  apply (append_after_restart_lost session1 (MkFile 1 true 0 false) closed1 reopened (enc rec_b) (MkLocation 0 48 20) appended appended true 1000).
  - apply (seg_step_inv _ _ I (step_append _ _ _ _ session1_eq)).
  - apply (clean_append rec_a true _ _ _ I C rec_a_valid session1_eq).
  - vm_compute. reflexivity.
  - reflexivity.
  - vm_compute. reflexivity.
  - vm_compute. by split.
  - vm_compute. reflexivity.
  - vm_compute. reflexivity.
  - vm_compute. reflexivity.
  - apply (one_segment _ 1). vm_compute. reflexivity.
  - vm_compute. reflexivity.
  - vm_compute. reflexivity.
  - apply rtc_refl.
  - vm_compute. reflexivity.
  - vm_compute. reflexivity.
  - apply (one_segment _ 1). vm_compute. reflexivity.
Defined.

