(* ===== verification/WriteBuffer.v ===== *)
(** * The write buffer: internal/storage/write_buffer.go

    Callers enqueue records and wait; a flusher (the ticker, a caller that filled
    the buffer, or [Close]) takes everything that is pending and hands it to the
    segment manager, then tells each waiter its outcome.  The critical sections
    under [wb.mu] and the call of [batchAppend] are the atomic steps; flushers
    interleave freely between them. *)
From S2P Require Import Prelude GoLib Hash Record FS Segment SegmentScan SegmentStore SegmentDurable.

(** How a [batchAppend] ends: it returns with the outcomes recorded on the
    writes, or it panics with whatever it had recorded so far. *)
Inductive batch_outcome : Type :=
  | Returned (batch : list pendingWrite)
  | Panicked (batch : list pendingWrite) (reason : string).

(** The interface [batchAppender], and what the buffer relies on: a call keeps
    one entry per write, keeps what was stored, and a write it leaves without an
    error when it returns is stored. *)
Class batchAppender (S : Type) := {
  ba_run : list pendingWrite → S → S * batch_outcome;
  ba_inv : S → Prop;
  ba_stored : S → Location → bytes → Prop;
}.

Definition outcome_batch (o : batch_outcome) : list pendingWrite :=
  match o with Returned b => b | Panicked b _ => b end.

Definition fresh_write (pw : pendingWrite) : Prop := pw_err pw = None.

Class batchAppenderLaws (S : Type) `{batchAppender S} := {
  ba_shape : ∀ batch s s' o, ba_inv s → Forall fresh_write batch → ba_run batch s = (s', o) →
    ba_inv s' ∧ Forall2 (fun pw pw' => pw_record pw' = pw_record pw) batch (outcome_batch o);
  ba_keeps : ∀ batch s s' o loc d, ba_inv s → Forall fresh_write batch → ba_run batch s = (s', o) →
    ba_stored s loc d → ba_stored s' loc d;
  ba_acks : ∀ batch s s' batch' pw, ba_inv s → Forall fresh_write batch →
    ba_run batch s = (s', Returned batch') → pw ∈ batch' → pw_err pw = None →
    ba_stored s' (pw_loc pw) (pw_record pw);
}.

(** Waiters are numbered in the order their [Append] enqueued. *)
Record entry : Type := MkEntry { e_id : nat; e_pw : pendingWrite }.

Record WriteBuffer (S : Type) : Type := MkWB {
  wb_maxSize : Z;
  wb_pending : list entry;
  wb_bufSize : Z;
  wb_flight : list (list entry);      (** batches taken by flushers, not yet run *)
  wb_done : gmap nat pendingWrite;    (** what was sent on each [done] channel *)
  wb_log : list bytes;                (** the record of every waiter *)
  wb_stopped : bool;                  (** [stop] is closed: [flushLoop] is gone *)
  wb_sm : S;
}.
Arguments MkWB {S}. Arguments wb_maxSize {S}. Arguments wb_pending {S}. Arguments wb_bufSize {S}.
Arguments wb_flight {S}. Arguments wb_done {S}. Arguments wb_log {S}. Arguments wb_stopped {S}. Arguments wb_sm {S}.

Section WriteBuffer.
Context {S : Type} `{BA : batchAppender S}.

Definition NewWriteBuffer (sm : S) (maxSize : Z) : WriteBuffer S := MkWB maxSize [] 0 [] ∅ [] false sm.

(** The first critical section of [Append]; the flag says that the caller is to
    flush. *)
Definition enqueue (record : bytes) (wb : WriteBuffer S) : WriteBuffer S * bool :=
  let wb' := MkWB (wb_maxSize wb)
    (wb_pending wb ++ [MkEntry (length (wb_log wb)) (new_pending record)])
    (wb_bufSize wb + zlen record) (wb_flight wb) (wb_done wb) (wb_log wb ++ [record]) (wb_stopped wb) (wb_sm wb) in
  (wb', wb_maxSize wb <=? wb_bufSize wb').

(** The critical section of [Flush]: take everything, or nothing when empty. *)
Definition take_pending (wb : WriteBuffer S) : WriteBuffer S :=
  match wb_pending wb with
  | [] => wb
  | batch => MkWB (wb_maxSize wb) [] 0 (wb_flight wb ++ [batch]) (wb_done wb) (wb_log wb) (wb_stopped wb) (wb_sm wb)
  end.

(** The outcomes that are sent on the [done] channels: after a panic the writes
    without an error get the panic's. *)
Definition delivered (o : batch_outcome) : list pendingWrite :=
  match o with
  | Returned batch => batch
  | Panicked batch reason => fail_unfailed (errorf ("write buffer flush panic: " +:+ reason)) <$> batch
  end.

Definition send (ids : list nat) (pws : list pendingWrite) (done : gmap nat pendingWrite) : gmap nat pendingWrite :=
  list_to_map (zip ids pws) ∪ done.

(** The rest of [Flush], for the batch at position [k] of the ones in flight. *)
Definition run_batch (k : nat) (wb : WriteBuffer S) : WriteBuffer S :=
  match wb_flight wb !! k with
  | None => wb
  | Some batch =>
      let '(sm, o) := ba_run (e_pw <$> batch) (wb_sm wb) in
      MkWB (wb_maxSize wb) (wb_pending wb) (wb_bufSize wb) (delete k (wb_flight wb))
        (send (e_id <$> batch) (delivered o) (wb_done wb)) (wb_log wb) (wb_stopped wb) sm
  end.

(** [Flush] by a single flusher; [flushLoop] when its ticker fires, unless it has
    returned; and [Close]: stop the loop, then flush. *)
Definition Flush (wb : WriteBuffer S) : WriteBuffer S :=
  match wb_pending wb with
  | [] => wb
  | _ => run_batch (length (wb_flight wb)) (take_pending wb)
  end.
Definition flushLoop_tick (wb : WriteBuffer S) : WriteBuffer S := if wb_stopped wb then wb else Flush wb.
Definition close_stop (wb : WriteBuffer S) : WriteBuffer S :=
  MkWB (wb_maxSize wb) (wb_pending wb) (wb_bufSize wb) (wb_flight wb) (wb_done wb) (wb_log wb) true (wb_sm wb).
Definition wb_Close (wb : WriteBuffer S) : WriteBuffer S := Flush (close_stop wb).

(** What a waiter gets back: its location or its error; or, once its context has
    ended, possibly the context's error instead. *)
Inductive returns (wb : WriteBuffer S) (id : nat) : result Location → Prop :=
  | ret_done pw : wb_done wb !! id = Some pw →
      returns wb id (match pw_err pw with Some e => Err e | None => Ok (pw_loc pw) end)
  | ret_canceled : returns wb id (Err (Error "context canceled" [ErrCanceled])).

(** [Append] as one caller sees it when nobody else flushes. *)
Definition Append (record : bytes) (wb : WriteBuffer S) : WriteBuffer S * nat :=
  let '(wb', shouldFlush) := enqueue record wb in
  (if shouldFlush then Flush wb' else wb', length (wb_log wb)).

(** The interleavings: [flushLoop]'s tick, a full buffer and [Close] all take the
    pending writes; each taken batch is run at some later point. *)
Inductive wb_step : WriteBuffer S → WriteBuffer S → Prop :=
  | wb_enqueue record wb : wb_step wb (enqueue record wb).1
  | wb_take wb : wb_step wb (take_pending wb)
  | wb_run k wb : wb_step wb (run_batch k wb)
  | wb_stop wb : wb_step wb (close_stop wb).

(** ** The invariant *)
Context {LAWS : batchAppenderLaws S}.

Definition open_entries (wb : WriteBuffer S) : list entry := wb_pending wb ++ concat (wb_flight wb).

Definition size_of (es : list entry) : Z := fold_right (fun e n => zlen (pw_record (e_pw e)) + n) 0 es.

(** Every waiter is either open, in exactly one place, or has been told its
    outcome; a write reported without an error is stored. *)
Record wb_ok (wb : WriteBuffer S) : Prop := {
  ok_size : wb_bufSize wb = size_of (wb_pending wb);
  ok_open : ∀ e, e ∈ open_entries wb →
    fresh_write (e_pw e) ∧ wb_log wb !! e_id e = Some (pw_record (e_pw e));
  ok_nodup : NoDup (e_id <$> open_entries wb);
  ok_part : ∀ id, id ∈ e_id <$> open_entries wb ↔ (id < length (wb_log wb))%nat ∧ wb_done wb !! id = None;
  ok_done : ∀ id pw, wb_done wb !! id = Some pw → wb_log wb !! id = Some (pw_record pw) ∧
    (pw_err pw = None → ba_stored (wb_sm wb) (pw_loc pw) (pw_record pw));
  ok_sm : ba_inv (wb_sm wb);
}.

Lemma new_ok sm maxSize : ba_inv sm → wb_ok (NewWriteBuffer sm maxSize).
Proof.
  intros I. split; cbn; try done.
  - intros e H. by apply not_elem_of_nil in H.
  - constructor.
  - intros id. split; [intros H; by apply not_elem_of_nil in H|by intros [H%Nat.nlt_0_r _]].
Qed.

Lemma size_of_app es fs : size_of (es ++ fs) = size_of es + size_of fs.
Proof. unfold size_of. induction es as [|e es IH]; cbn; lia. Qed.

Lemma enqueue_ok record wb : wb_ok wb → wb_ok (enqueue record wb).1.
Proof.
  intros [H1 H2 H3 H4 H5 H6]. unfold enqueue. cbn.
  set (e := MkEntry (length (wb_log wb)) (new_pending record)).
  assert (open_entries (MkWB (wb_maxSize wb) (wb_pending wb ++ [e]) (wb_bufSize wb + zlen record)
    (wb_flight wb) (wb_done wb) (wb_log wb ++ [record]) (wb_stopped wb) (wb_sm wb)) ≡ₚ e :: open_entries wb) as Hp.
  { unfold open_entries. cbn. rw -app_assoc. symmetry. apply Permutation_middle. }
  assert (∀ id d, wb_log wb !! id = Some d → (wb_log wb ++ [record]) !! id = Some d) as Hlog.
  { intros id d H. by apply lookup_app_l_Some. }
  split; cbn [wb_bufSize wb_pending wb_log wb_done wb_sm]; try done.
  - rw size_of_app H1 /=. lia.
  - intros e' He'. rw Hp in He'. apply elem_of_cons in He' as [->|He'].
    + split; [done|]. cbn. by rw lookup_app_r ?Nat.sub_diag.
    + destruct (H2 e' He'). eauto.
  - rw Hp. cbn. constructor; [|done]. intros [K _]%H4. lia.
  - intros id. rw Hp. cbn. rw elem_of_cons H4 length_app /=. split.
    + intros [->|[K1 K2]]; [|split; [lia|done]]. split; [lia|].
      destruct (wb_done wb !! length (wb_log wb)) as [pw|] eqn:E; [|done].
      apply H5 in E as [E _]. apply lookup_lt_Some in E. lia.
    + intros [K1 K2]. destruct (decide (id = length (wb_log wb))); [by left|right]. split; [lia|done].
  - intros id pw Hd. destruct (H5 id pw Hd). split; [|done]. eauto.
Qed.

Lemma take_pending_ok wb : wb_ok wb → wb_ok (take_pending wb).
Proof.
  intros [H1 H2 H3 H4 H5 H6]. unfold take_pending.
  destruct (wb_pending wb) as [|e0 es] eqn:E; [by split; rw ?E|].
  set (wb' := MkWB _ _ _ _ _ _ _ _).
  assert (open_entries wb' ≡ₚ open_entries wb) as Hp.
  { unfold open_entries, wb'. cbn [wb_pending wb_flight]. rw E concat_app. cbn [concat].
    rw app_nil_r app_nil_l. apply Permutation_app_comm. }
  split; cbn [wb_bufSize wb_pending wb_log wb_done wb_sm wb']; try done.
  - intros e. rw Hp. apply H2.
  - by rw Hp.
  - intros id. rw Hp. apply H4.
Qed.

Lemma lookup_send ids pws done id :
  NoDup ids → length ids = length pws →
  send ids pws done !! id = match list_to_map (M := gmap nat pendingWrite) (zip ids pws) !! id with
    | Some pw => Some pw | None => done !! id end ∧
  (id ∈ ids ↔ is_Some (list_to_map (M := gmap nat pendingWrite) (zip ids pws) !! id)).
Proof.
  intros Hnd Hlen. unfold send. rw lookup_union. split.
  { by destruct (list_to_map (M := gmap nat pendingWrite) (zip ids pws) !! id), (done !! id). }
  assert ((zip ids pws).*1 = ids) as Hf by (apply fst_zip; lia). split.
  - intros Hin. apply not_eq_None_Some. rw -not_elem_of_list_to_map Hf. tauto.
  - intros [pw Hpw%elem_of_list_to_map_2]. rw -Hf. apply list_elem_of_fmap. by exists (id, pw).
Qed.

(** Running a batch of fresh writes: what its waiters are told. *)
Lemma delivered_ok batch s s' o :
  ba_inv s → Forall fresh_write batch → ba_run batch s = (s', o) →
  ba_inv s' ∧ (∀ loc d, ba_stored s loc d → ba_stored s' loc d) ∧
  Forall2 (fun pw pw' => pw_record pw' = pw_record pw ∧
    (pw_err pw' = None → ba_stored s' (pw_loc pw') (pw_record pw'))) batch (delivered o).
Proof.
  intros I Hf H. destruct (ba_shape _ _ _ _ I Hf H) as [I' Hs]. split; [done|].
  split; [intros loc d; by eapply ba_keeps|]. destruct o as [b'|b' reason]; cbn in Hs |- *.
  - assert (∀ pw, pw ∈ b' → pw_err pw = None → ba_stored s' (pw_loc pw) (pw_record pw)) as Hack
      by (intros pw Hin He; exact (ba_acks _ _ _ _ pw I Hf H Hin He)).
    clear -Hs Hack. induction Hs as [|pw pw' b b' Hr Hs IH]; constructor.
    + split; [done|]. apply Hack. by left.
    + apply IH. intros. apply Hack; [by right|done].
  - apply Forall2_fmap_r. eapply Forall2_impl; [exact Hs|]. intros pw pw' Hr.
    unfold fail_unfailed. destruct (pw_err pw') eqn:E; cbn; rw ?E; done.
Qed.

Lemma run_batch_ok k wb : wb_ok wb → wb_ok (run_batch k wb).
Proof.
  intros W. unfold run_batch. destruct (wb_flight wb !! k) as [batch|] eqn:Ek; [|done].
  destruct W as [H1 H2 H3 H4 H5 H6].
  assert (open_entries wb ≡ₚ batch ++ wb_pending wb ++ concat (delete k (wb_flight wb))) as Hp.
  { unfold open_entries. rewrite <- (take_drop_middle _ _ _ Ek) at 1. rw delete_take_drop !concat_app.
    cbn [concat]. solve_Permutation. }
  set (rest := wb_pending wb ++ concat (delete k (wb_flight wb))) in Hp.
  assert (Forall fresh_write (e_pw <$> batch)) as Hfresh.
  { apply Forall_fmap, Forall_forall. intros e He. apply H2. rw Hp. by apply elem_of_app; left. }
  destruct (ba_run (e_pw <$> batch) (wb_sm wb)) as [sm o] eqn:Er.
  destruct (delivered_ok _ _ _ _ H6 Hfresh Er) as (I' & Hk & Hd).
  assert (NoDup (e_id <$> batch) ∧ (∀ id, id ∈ e_id <$> batch → id ∉ e_id <$> rest) ∧ NoDup (e_id <$> rest))
    as (Hnb & Hdisj & Hnr) by (apply NoDup_app; rw -fmap_app -Hp; done).
  assert (length (e_id <$> batch) = length (delivered o)) as Hlen.
  { apply Forall2_length in Hd. by rw !length_fmap in Hd |- *. }
  pose proof (fun id => lookup_send (e_id <$> batch) (delivered o) (wb_done wb) id Hnb Hlen) as Hsend.
  split; cbn [wb_bufSize wb_pending wb_log wb_done wb_sm]; try done; unfold open_entries; cbn [wb_pending wb_flight]; fold rest.
  - intros e He. apply H2. rw Hp. by apply elem_of_app; right.
  - intros id. destruct (Hsend id) as [-> Hin]. specialize (H4 id).
    rw Hp fmap_app elem_of_app in H4. specialize (Hdisj id).
    destruct (list_to_map (zip _ _) !! id) as [pw|].
    + assert (id ∈ e_id <$> batch) by (apply Hin; eauto). split; [tauto|]. intros [_ ?]. done.
    + assert (id ∉ e_id <$> batch) by (intros [? ?]%Hin; done). tauto.
  - intros id pw. destruct (Hsend id) as [-> _].
    destruct (list_to_map (zip _ _) !! id) as [pw'|] eqn:E; intros Hpw; last first.
    { destruct (H5 id pw Hpw). auto. }
    injection Hpw as ->. apply elem_of_list_to_map_2, elem_of_lookup_zip_with in E as (i & e & pw' & E & Hi & Hpw').
    injection E as -> ->. apply list_lookup_fmap_Some in Hi as (en & -> & Hen).
    destruct (Forall2_lookup_r _ _ _ _ _ Hd Hpw') as (pw0 & Hpw0 & Hr & Hst).
    apply list_lookup_fmap_Some in Hpw0 as (en' & -> & Hen'). assert (en' = en) as -> by congruence.
    split; [|done]. rw Hr. apply H2. rw Hp. apply elem_of_app. left. by eapply list_elem_of_lookup_2.
Qed.

Lemma close_stop_ok wb : wb_ok wb → wb_ok (close_stop wb).
Proof. by intros [H1 H2 H3 H4 H5 H6]. Qed.

Lemma wb_step_ok wb wb' : wb_ok wb → wb_step wb wb' → wb_ok wb'.
Proof.
  intros W H. destruct H; [by apply enqueue_ok|by apply take_pending_ok|by apply run_batch_ok|by apply close_stop_ok].
Qed.

Lemma wb_steps_ok wb wb' : rtc wb_step wb wb' → wb_ok wb → wb_ok wb'.
Proof. induction 1; eauto using wb_step_ok. Qed.

(** What the steps keep: everything stored, and who asked for what. *)
Lemma wb_step_keeps wb wb' : wb_ok wb → wb_step wb wb' →
  wb_log wb `prefix_of` wb_log wb' ∧ ∀ loc d, ba_stored (wb_sm wb) loc d → ba_stored (wb_sm wb') loc d.
Proof.
  intros W H. destruct H as [record wb|wb|k wb|wb]; [..|done].
  - cbn. split; [by eexists|done].
  - unfold take_pending. by destruct (wb_pending wb).
  - unfold run_batch. destruct (wb_flight wb !! k) as [batch|] eqn:Ek; [|done].
    destruct (ba_run _ _) as [sm o] eqn:Er. cbn. split; [done|]. intros loc d. eapply ba_keeps; [apply W| |exact Er].
    apply Forall_fmap, Forall_forall. intros e He. apply (ok_open _ W). unfold open_entries. apply elem_of_app. right.
    rewrite <- (take_drop_middle _ _ _ Ek), concat_app. cbn [concat]. set_solver.
Qed.

Lemma wb_steps_keeps wb wb' : rtc wb_step wb wb' → wb_ok wb →
  wb_ok wb' ∧ wb_log wb `prefix_of` wb_log wb' ∧ ∀ loc d, ba_stored (wb_sm wb) loc d → ba_stored (wb_sm wb') loc d.
Proof.
  induction 1 as [wb|wb wb1 wb' St _ IH]; intros W; [done|]. destruct (wb_step_keeps _ _ W St) as [L K].
  destruct (IH (wb_step_ok _ _ W St)) as (W' & L' & K'). split; [done|]. split; [by etrans|]. auto.
Qed.

Lemma flush_steps wb : rtc wb_step wb (Flush wb).
Proof.
  unfold Flush. destruct (wb_pending wb); [done|]. eapply rtc_l; [apply wb_take|]. apply rtc_once, wb_run.
Qed.

Lemma tick_steps wb : rtc wb_step wb (flushLoop_tick wb).
Proof. unfold flushLoop_tick. destruct (wb_stopped wb); [done|apply flush_steps]. Qed.
Lemma close_steps wb : rtc wb_step wb (wb_Close wb).
Proof. eapply rtc_l; [apply wb_stop|apply flush_steps]. Qed.

Lemma flush_answers wb id :
  wb_ok wb → (id < length (wb_log wb))%nat → id ∉ e_id <$> concat (wb_flight wb) →
  is_Some (wb_done (Flush wb) !! id) ∧ wb_pending (Flush wb) = [] ∧ wb_bufSize (Flush wb) = 0.
Proof.
  intros W Hid Hnf. unfold Flush. destruct (wb_pending wb) as [|e es] eqn:Ep.
  - split; [|split; [done|]; by rw (ok_size _ W) Ep].
    apply not_eq_None_Some. intros E. apply Hnf.
    assert (id ∈ e_id <$> open_entries wb) as Hin by (by apply (ok_part _ W)).
    unfold open_entries in Hin. by rw Ep in Hin.
  - set (wb1 := take_pending wb).
    assert (wb_flight wb1 !! length (wb_flight wb) = Some (e :: es) ∧ wb_pending wb1 = [] ∧ wb_bufSize wb1 = 0 ∧
            wb_log wb1 = wb_log wb ∧ wb_flight wb1 = wb_flight wb ++ [e :: es]) as (Hk & Hp1 & Hb1 & Hl1 & Hf1).
    { unfold wb1, take_pending. rw Ep. cbn. split; [|done]. by rw lookup_app_r // Nat.sub_diag. }
    pose proof (run_batch_ok (length (wb_flight wb)) wb1 (take_pending_ok wb W)) as W2.
    assert (wb_pending (run_batch (length (wb_flight wb)) wb1) = [] ∧
            wb_bufSize (run_batch (length (wb_flight wb)) wb1) = 0 ∧
            wb_log (run_batch (length (wb_flight wb)) wb1) = wb_log wb ∧
            wb_flight (run_batch (length (wb_flight wb)) wb1) = wb_flight wb) as (K1 & K2 & K3 & K4).
    { unfold run_batch. rw Hk. destruct (ba_run _ _) as [sm o]. cbn. split_and!; try done.
      rw Hf1 delete_take_drop take_app_length drop_ge ?app_nil_r //. rw length_app /=. lia. }
    split; [|done]. apply not_eq_None_Some. intros E. apply Hnf.
    assert (id ∈ e_id <$> open_entries (run_batch (length (wb_flight wb)) wb1)) as Hin.
    { apply (ok_part _ W2). by rw K3. }
    unfold open_entries in Hin. by rw K1 K4 in Hin.
Qed.

End WriteBuffer.

(** ** The segment manager behind the buffer *)
#[export] Instance seg_appender : batchAppender SegState := {
  ba_run batch s :=
    match batchAppend batch s with
    | (s', Ok batch') => (s', Returned batch')
    | (s', Err e) => (s', Panicked batch (err_msg e))
    end;
  ba_inv := SegInv;
  ba_stored s loc d := holds i_data s (SegmentID loc) (Offset loc) d ∧
                       holds i_stable s (SegmentID loc) (Offset loc) d;
}.

#[export] Instance seg_appender_laws : batchAppenderLaws SegState.
Proof.
  split; cbn.
  - intros batch s s' o I Hf H. destruct (batchAppend batch s) as [s1 r] eqn:E.
    destruct (batchAppend_inv _ _ _ _ I Hf E) as (I' & _ & b' & -> & Hb). injection H as <- <-.
    split; [done|]. eapply Forall2_impl; [exact Hb|]. by intros ?? [? _].
  - intros batch s s' o loc d I Hf H [K1 K2]. destruct (batchAppend batch s) as [s1 r] eqn:E.
    destruct (batchAppend_inv _ _ _ _ I Hf E) as (I' & X & b' & -> & Hb). injection H as <- <-.
    split; by eapply holds_ext.
  - intros batch s s' batch' pw I Hf H Hin He. destruct (batchAppend batch s) as [s1 r] eqn:E.
    destruct (batchAppend_inv _ _ _ _ I Hf E) as (I' & _ & b' & -> & Hb). injection H as <- <-.
    apply list_elem_of_lookup in Hin as [k Hk]. destruct (Forall2_lookup_r _ _ _ _ _ Hb Hk) as (pw0 & _ & K1 & K2).
    rw K1. by apply K2.
Qed.

(** No acknowledged write is lost.  Whatever the interleaving of callers and
    flushers, a caller of [Append] that gets a location back finds its own record
    stored there, in the file and in what a crash preserves. *)
Theorem Append_ack_stored sm maxSize (wb : WriteBuffer SegState) id loc :
  SegInv sm → rtc wb_step (NewWriteBuffer sm maxSize) wb → returns wb id (Ok loc) →
  ∃ record, wb_log wb !! id = Some record ∧
    holds i_data (wb_sm wb) (SegmentID loc) (Offset loc) record ∧
    holds i_stable (wb_sm wb) (SegmentID loc) (Offset loc) record.
Proof.
  intros I Hst Hret. pose proof (wb_steps_ok _ _ Hst (new_ok sm maxSize I)) as W.
  inversion Hret as [pw Hpw Hr|]. destruct (pw_err pw) eqn:E; [done|]. injection Hr as <-.
  destruct (ok_done _ W id pw Hpw) as [Hl Hs]. exists (pw_record pw). split; [done|]. by apply Hs.
Qed.

(** C28: every waiter is answered, once.  In every interleaving a waiter is in
    exactly one place (pending, in one batch in flight, or answered), the byte
    count is that of the pending records, and closing the buffer answers everyone
    who is not in another flusher's batch. *)
Theorem buffer_answers_all {S} `{batchAppenderLaws S} (sm : S) maxSize wb :
  ba_inv sm → rtc wb_step (NewWriteBuffer sm maxSize) wb →
  wb_bufSize wb = size_of (wb_pending wb) ∧
  NoDup (e_id <$> open_entries wb) ∧
  (∀ id, (id < length (wb_log wb))%nat → id ∈ e_id <$> open_entries wb ↔ wb_done wb !! id = None) ∧
  (∀ id, (id < length (wb_log wb))%nat → id ∉ e_id <$> concat (wb_flight wb) →
     is_Some (wb_done (wb_Close wb) !! id)).
Proof.
  intros I Hst. pose proof (wb_steps_ok _ _ Hst (new_ok sm maxSize I)) as W.
  split; [apply W|]. split; [apply W|]. split.
  - intros id Hid. rw (ok_part _ W). tauto.
  - intros id Hid Hnf. apply flush_answers; [by apply close_stop_ok|done..].
Qed.

(** Two callers; the first flush takes both writes. *)
Definition buffer_demo : WriteBuffer SegState :=
  run_batch 0 (take_pending (enqueue (enc rec_b) (enqueue (enc rec_a) (NewWriteBuffer (fresh 1000) 4096)).1).1).

Lemma buffer_demo_reachable : rtc wb_step (NewWriteBuffer (fresh 1000) 4096) buffer_demo.
Proof.
  eapply rtc_l; [apply (wb_enqueue (enc rec_a))|]. eapply rtc_l; [apply (wb_enqueue (enc rec_b))|].
  eapply rtc_l; [apply wb_take|]. apply rtc_once, wb_run.
Qed.

Lemma Append_ack_stored_witness :
  ∃ record, wb_log buffer_demo !! 1%nat = Some record ∧
    holds i_data (wb_sm buffer_demo) 0 16 record ∧ holds i_stable (wb_sm buffer_demo) 0 16 record.
Proof.
  apply (Append_ack_stored (fresh 1000) 4096 buffer_demo 1%nat (MkLocation 0 16 20)).
  - apply fresh_inv.
  - exact buffer_demo_reachable.
  - change (returns buffer_demo 1 (match pw_err (MkPW (enc rec_b) (MkLocation 0 16 20) None) with
      Some e => Err e | None => Ok (pw_loc (MkPW (enc rec_b) (MkLocation 0 16 20) None)) end)).
    apply ret_done. vm_compute. reflexivity.
Defined.

Lemma buffer_answers_all_witness :
  wb_bufSize buffer_demo = size_of (wb_pending buffer_demo) ∧
  NoDup (e_id <$> open_entries buffer_demo) ∧
  (∀ id, (id < 2)%nat → id ∈ e_id <$> open_entries buffer_demo ↔ wb_done buffer_demo !! id = None) ∧
  (∀ id, (id < 2)%nat → id ∉ e_id <$> concat (wb_flight buffer_demo) →
     is_Some (wb_done (wb_Close buffer_demo) !! id)).
Proof.
  apply (buffer_answers_all (fresh 1000) 4096 buffer_demo); [apply fresh_inv|exact buffer_demo_reachable].
Defined.
