(* ===== verification/SegmentIndex.v ===== *)
(** * The segment index: internal/storage/segment_index.go

    One [.idx] file per segment: fixed-size entries and a footer with their
    number and checksum.  Adding an entry rewrites the file without its footer,
    appends the entry and a new footer. *)
From S2P Require Import Prelude GoLib Hash Record FS.

Definition IndexMagic : Z := 0x49445846.
Definition IndexVersion : Z := 1.
Definition IndexEntrySize : Z := 60.
Definition IndexFooterSize : Z := 32.

Record IndexEntry : Type := MkIndexEntry {
  ie_Offset : Z;
  ie_StoredSize : Z;
  ie_LogicalSize : Z;
  ie_Magic : Z;
  ie_Hash : bytes;
  ie_SupplierID : Z;
  ie_DictID : Z;
}.
#[export] Instance IndexEntry_eq_dec : EqDecision IndexEntry.
Proof. solve_decision. Defined.

Record SegmentIndex : Type := MkSI { si_files : gmap Z File; si_fs : FS }.

Definition on_idx {A} (m : M FS A) : M SegmentIndex A :=
  zoom si_fs (fun fs s => MkSI (si_files s) fs) m.
Definition set_files (g : gmap Z File → gmap Z File) : M SegmentIndex unit :=
  modify (fun s => MkSI (g (si_files s)) (si_fs s)).

Definition NewSegmentIndex (fs : FS) : SegmentIndex := MkSI ∅ fs.

Definition indexPath (segmentID : Z) : string := segment_name ".idx" segmentID.

Definition EncodeIndexEntry (e : IndexEntry) : bytes :=
  PutUint64 (u64 (ie_Offset e)) ++ PutUint32 (ie_StoredSize e) ++ PutUint32 (ie_LogicalSize e) ++
  PutUint32 (ie_Magic e) ++ ie_Hash e ++ PutUint32 (ie_SupplierID e) ++ PutUint32 (ie_DictID e).

Definition DecodeIndexEntry (buf : bytes) : result IndexEntry :=
  if zlen buf <? IndexEntrySize then Err (errorf "index entry too short") else
  Ok (MkIndexEntry (i64 (Uint64 (slice 0 8 buf))) (Uint32 (slice 8 12 buf)) (Uint32 (slice 12 16 buf))
        (Uint32 (slice 16 20 buf)) (slice 20 52 buf) (Uint32 (slice 52 56 buf)) (Uint32 (slice 56 60 buf))).

Definition encodeIndexFooter (recordCount lastOffset entriesCRC : Z) : bytes :=
  PutUint32 IndexVersion ++ PutUint64 recordCount ++ PutUint64 (u64 lastOffset) ++ PutUint32 entriesCRC ++
  zeros 4 ++ PutUint32 IndexMagic.

Definition decodeIndexFooter (data : bytes) : option (Z * Z * Z) :=
  if zlen data <? IndexFooterSize then None else
  let off := zlen data - IndexFooterSize in
  if negb (Uint32 (slice (off + 28) (off + 32) data) =? IndexMagic) then None else
  if negb (Uint32 (slice off (off + 4) data) =? IndexVersion) then None else
  Some (Uint64 (slice (off + 4) (off + 12) data), i64 (Uint64 (slice (off + 12) (off + 20) data)),
        Uint32 (slice (off + 20) (off + 24) data)).

(** The entries part of a file: without the footer, when there is one. *)
Definition strip_footer (data : bytes) : bytes :=
  match decodeIndexFooter data with
  | Some _ => take (Z.to_nat (zlen data - IndexFooterSize)) data
  | None => data
  end.

Definition openAppend (segmentID : Z) : M SegmentIndex File :=
  let! s := get in
  match si_files s !! segmentID with
  | Some f => mret f
  | None =>
      let path := indexPath segmentID in
      let! f := on_idx (os.OpenFile path true false) in
      let! info := on_idx (os.FStat f) in
      let! f :=
        if IndexFooterSize <=? info.1 then
          let! data := on_idx (os.ReadFile path) in
          match decodeIndexFooter data with
          | Some _ =>
              do! on_idx (os.WriteFile path (take (Z.to_nat (zlen data - IndexFooterSize)) data));
              on_idx (os.OpenFile path false true)
          | None => mret f
          end
        else mret f in
      do! set_files (<[segmentID := f]>);
      mret f
  end.

Definition Append (segmentID : Z) (e : IndexEntry) : M SegmentIndex unit :=
  do! set_files (delete segmentID);
  let! f := openAppend segmentID in
  let! f := wrap_err "write index entry: " (on_idx (os.Write f (EncodeIndexEntry e))) in
  let! data := on_idx (os.ReadFile (indexPath segmentID)) in
  let entries := if IndexFooterSize <=? zlen data then strip_footer data else data in
  let footer := encodeIndexFooter (zlen entries / IndexEntrySize) (ie_Offset e)
                  (crc32.Checksum crc32.IEEE entries) in
  let! f := wrap_err "write index footer: " (on_idx (os.Write f footer)) in
  on_idx (os.Sync f).

Fixpoint decode_entries (n : nat) (data : bytes) : result (list IndexEntry) :=
  match n with
  | O => Ok []
  | S n' =>
      match DecodeIndexEntry (take (Z.to_nat IndexEntrySize) data) with
      | Err e => Err e
      | Ok e =>
          match decode_entries n' (drop (Z.to_nat IndexEntrySize) data) with
          | Err e' => Err e'
          | Ok es => Ok (e :: es)
          end
      end
  end.

Definition parse_index (path : string) (data : bytes) : result (list IndexEntry) :=
  if zlen data =? 0 then Ok [] else
  let '(entriesData, recordCount, entriesCRC) :=
    if IndexFooterSize <=? zlen data then
      match decodeIndexFooter data with
      | Some (recordCount, _, entriesCRC) =>
          (take (Z.to_nat (zlen data - IndexFooterSize)) data, recordCount, entriesCRC)
      | None => (data, 0, 0)
      end
    else (data, 0, 0) in
  if negb (zlen entriesData mod IndexEntrySize =? 0) then Err (errorf ("corrupt index file " +:+ path)) else
  if negb (entriesCRC =? 0) && negb (crc32.Checksum crc32.IEEE entriesData =? entriesCRC) then
    Err (errorf ("index CRC mismatch in " +:+ path)) else
  let n := zlen entriesData / IndexEntrySize in
  if negb (recordCount =? 0) && negb (n =? recordCount) then
    Err (errorf ("index record count mismatch in " +:+ path)) else
  decode_entries (Z.to_nat n) entriesData.

Definition ReadIndexFile (path : string) : M FS (list IndexEntry) :=
  let! r := try (os.ReadFile path) in
  match r with
  | Err e => if error_is e ErrNotExist then mret [] else fail e
  | Ok data => lift_result (parse_index path data)
  end.

Definition ListIndexFiles : M FS (list string) :=
  let! names := os.ReadDir in
  mret (filter (fun n => is_Some (Sscanf_segment ".idx" n)) names).

Definition si_Close : M SegmentIndex unit := set_files (fun _ => ∅).

(** ** Round trips *)

Record wf_entry (e : IndexEntry) : Prop := {
  we_off : is_i64 (ie_Offset e);
  we_stored : is_u32 (ie_StoredSize e);
  we_logical : is_u32 (ie_LogicalSize e);
  we_magic : is_u32 (ie_Magic e);
  we_hash : length (ie_Hash e) = 32%nat;
  we_supplier : is_u32 (ie_SupplierID e);
  we_dict : is_u32 (ie_DictID e);
  we_not_footer : ie_DictID e ≠ IndexMagic; (** or the entry could end like a footer *)
}.

Lemma zlen_EncodeIndexEntry e : wf_entry e → zlen (EncodeIndexEntry e) = 60.
Proof.
  intros W. unfold EncodeIndexEntry. rw !zlen_app !zlen_Put32 zlen_Put64 /zlen (we_hash _ W). lia.
Qed.

Lemma zlen_encodeIndexFooter n l c : zlen (encodeIndexFooter n l c) = 32.
Proof. by rw /encodeIndexFooter !zlen_app !zlen_Put32 !zlen_Put64 zlen_replicate. Qed.

(** Words of a concatenation, by position. *)
Lemma slice_at {A} (p m q : list A) lo hi :
  zlen p = lo → zlen p + zlen m = hi → slice lo hi (p ++ m ++ q) = m.
Proof. intros <- <-. by apply slice_app_mid. Qed.

Lemma slice_at_end {A} (p m : list A) lo hi :
  zlen p = lo → zlen p + zlen m = hi → slice lo hi (p ++ m) = m.
Proof. intros <- <-. by apply slice_app_last. Qed.

Lemma DecodeIndexEntry_enc e : wf_entry e → DecodeIndexEntry (EncodeIndexEntry e) = Ok e.
Proof.
  intros W. unfold DecodeIndexEntry. rw zlen_EncodeIndexEntry //=.
  assert (zlen (ie_Hash e) = 32) as Hh by (rw /zlen (we_hash _ W); lia).
  unfold EncodeIndexEntry.
  set (o := PutUint64 _). set (a := PutUint32 (ie_StoredSize e)). set (b := PutUint32 (ie_LogicalSize e)).
  set (c := PutUint32 (ie_Magic e)). set (d := PutUint32 (ie_SupplierID e)). set (f := PutUint32 (ie_DictID e)).
  assert (zlen o = 8) by apply zlen_Put64.
  assert (zlen a = 4 ∧ zlen b = 4 ∧ zlen c = 4 ∧ zlen d = 4 ∧ zlen f = 4) as (? & ? & ? & ? & ?)
    by (split_and!; apply zlen_Put32).
  rewrite -> (slice_app_first o) by lia.
  rewrite -> (slice_at o a) by lia.
  rewrite -> (app_assoc o a), (slice_at (o ++ a) b) by (rw zlen_app; lia).
  rewrite -> (app_assoc (o ++ a) b), (slice_at ((o ++ a) ++ b) c) by (rw !zlen_app; lia).
  rewrite -> (app_assoc ((o ++ a) ++ b) c), (slice_at (((o ++ a) ++ b) ++ c) (ie_Hash e)) by (rw !zlen_app; lia).
  rewrite -> (app_assoc (((o ++ a) ++ b) ++ c)), (slice_at ((((o ++ a) ++ b) ++ c) ++ ie_Hash e) d) by (rw !zlen_app; lia).
  rewrite -> (app_assoc _ d), (slice_at_end (((((o ++ a) ++ b) ++ c) ++ ie_Hash e) ++ d) f) by (rw !zlen_app; lia).
  unfold o, a, b, c, d, f. destruct W. rewrite -> !Uint32_Put by done.
  rewrite -> Uint64_Put by apply u64_range. rewrite -> i64_u64 by done. by destruct e.
Qed.

Lemma decodeIndexFooter_enc pre n l c :
  is_u64 n → is_i64 l → is_u32 c →
  decodeIndexFooter (pre ++ encodeIndexFooter n l c) = Some (n, l, c).
Proof.
  intros Hn Hl Hc. unfold decodeIndexFooter. rw zlen_app zlen_encodeIndexFooter /IndexFooterSize.
  pose proof (zlen_nonneg pre). replace (zlen pre + 32 <? 32) with false by lia.
  replace (zlen pre + 32 - 32) with (zlen pre) by lia.
  assert (∀ lo hi, 0 <= lo → slice (zlen pre + lo) (zlen pre + hi) (pre ++ encodeIndexFooter n l c) =
            slice lo hi (encodeIndexFooter n l c)) as Hsh by (intros; by apply slice_shift).
  rewrite -> !Hsh by lia. pose proof (Hsh 0 4 (Z.le_refl 0)) as H0. rw Z.add_0_r in H0. rw H0.
  unfold encodeIndexFooter.
  set (v := PutUint32 IndexVersion). set (a := PutUint64 n). set (b := PutUint64 (u64 l)).
  set (d := PutUint32 c). set (z := zeros 4). set (m := PutUint32 IndexMagic).
  assert (zlen a = 8 ∧ zlen b = 8) as (? & ?) by (split; apply zlen_Put64).
  assert (zlen v = 4 ∧ zlen d = 4 ∧ zlen m = 4) as (? & ? & ?) by (split_and!; apply zlen_Put32).
  assert (zlen z = 4) by apply zlen_replicate.
  set (all := v ++ a ++ b ++ d ++ z ++ m).
  assert (slice 0 4 all = v) as -> by (apply slice_app_first; lia).
  assert (slice 4 12 all = a) as -> by (apply slice_at; lia).
  assert (slice 12 20 all = b) as -> by (unfold all; rw (app_assoc v a); apply slice_at; rw zlen_app; lia).
  assert (slice 20 24 all = d) as ->
    by (unfold all; rw (app_assoc v a) (app_assoc _ b); apply slice_at; rw !zlen_app; lia).
  assert (slice 28 32 all = m) as ->
    by (unfold all; rw !app_assoc; apply slice_at_end; rw !zlen_app; lia).
  unfold v, m, a, b, d. rewrite -> !Uint32_Put by (done || by split). cbn.
  rewrite -> !Uint64_Put by (done || apply u64_range). by rewrite -> i64_u64.
Qed.

(** The entries of an index, and an index file as [Append] leaves it. *)
Definition enc_entries (es : list IndexEntry) : bytes := concat (EncodeIndexEntry <$> es).
Definition last_offset (es : list IndexEntry) : Z := default 0 (ie_Offset <$> last es).
Definition idx_file (es : list IndexEntry) : bytes :=
  enc_entries es ++ encodeIndexFooter (zlen es) (last_offset es) (crc32.Checksum crc32.IEEE (enc_entries es)).

Definition wf_entries (es : list IndexEntry) : Prop := Forall wf_entry es ∧ zlen es < 2 ^ 32.

Lemma enc_entries_snoc es e : enc_entries (es ++ [e]) = enc_entries es ++ EncodeIndexEntry e.
Proof. by rw /enc_entries fmap_app concat_app /= app_nil_r. Qed.

Lemma zlen_enc_entries es : Forall wf_entry es → zlen (enc_entries es) = 60 * zlen es.
Proof.
  induction 1 as [|e es He Hes IH]; [done|].
  change (enc_entries (e :: es)) with (EncodeIndexEntry e ++ enc_entries es).
  rw zlen_app IH zlen_EncodeIndexEntry // zlen_cons. lia.
Qed.

Lemma decode_entries_enc es rest :
  Forall wf_entry es → decode_entries (length es) (enc_entries es ++ rest) = Ok es.
Proof.
  induction 1 as [|e es He Hes IH]; [done|].
  change (enc_entries (e :: es)) with (EncodeIndexEntry e ++ enc_entries es). rw -app_assoc.
  pose proof (zlen_EncodeIndexEntry e He) as Hl. unfold zlen in Hl. cbn [length decode_entries].
  rewrite -> (take_app_length' _ _ (Z.to_nat IndexEntrySize)) by (unfold IndexEntrySize; lia).
  rewrite -> (drop_app_length' _ _ (Z.to_nat IndexEntrySize)) by (unfold IndexEntrySize; lia).
  by rw DecodeIndexEntry_enc // IH.
Qed.

(** Entries alone do not look like a file with a footer. *)
Lemma decodeIndexFooter_entries es e :
  Forall wf_entry es → wf_entry e → decodeIndexFooter (enc_entries es ++ EncodeIndexEntry e) = None.
Proof.
  intros Hes He. unfold decodeIndexFooter. rw zlen_app zlen_EncodeIndexEntry //.
  pose proof (zlen_nonneg (enc_entries es)). unfold IndexFooterSize.
  replace (_ <? 32) with false by lia.
  assert (slice (zlen (enc_entries es) + 60 - 32 + 28) (zlen (enc_entries es) + 60 - 32 + 32)
    (enc_entries es ++ EncodeIndexEntry e) = PutUint32 (ie_DictID e)) as ->.
  { unfold EncodeIndexEntry. rw !app_assoc. apply slice_at_end; rw !zlen_app !zlen_Put32 zlen_Put64;
      assert (zlen (ie_Hash e) = 32) by (rw /zlen (we_hash _ He); lia); lia. }
  rewrite -> Uint32_Put by apply He. destruct (Z.eqb_spec (ie_DictID e) IndexMagic) as [E|E]; [|done].
  by apply He in E.
Qed.

Lemma idx_file_size es : 32 <= zlen (idx_file es) ∧
  take (Z.to_nat (zlen (idx_file es) - IndexFooterSize)) (idx_file es) = enc_entries es.
Proof.
  unfold idx_file. rw zlen_app zlen_encodeIndexFooter. pose proof (zlen_nonneg (enc_entries es)).
  split; [lia|]. apply take_app_length'. unfold IndexFooterSize, zlen. lia.
Qed.

Lemma last_offset_range es : Forall wf_entry es → is_i64 (last_offset es).
Proof.
  intros H. unfold last_offset. destruct (last es) as [e|] eqn:E; [|by split].
  apply last_Some_elem_of in E. cbn. by apply (proj1 (Forall_forall _ _) H) in E as [].
Qed.

Lemma IEEE_range d : is_u32 (crc32.Checksum crc32.IEEE d).
Proof. apply crc32.Checksum_range. rw /is_u32 /crc32.IEEE. lia. Qed.

Lemma decode_idx_file es : wf_entries es →
  decodeIndexFooter (idx_file es) = Some (zlen es, last_offset es, crc32.Checksum crc32.IEEE (enc_entries es)).
Proof.
  intros [H1 H2]. apply decodeIndexFooter_enc; [|by apply last_offset_range|apply IEEE_range].
  pose proof (zlen_nonneg es). unfold is_u64. lia.
Qed.

Lemma parse_index_file path es : wf_entries es → parse_index path (idx_file es) = Ok es.
Proof.
  intros W. destruct (idx_file_size es) as [Hs Ht]. unfold parse_index.
  replace (zlen (idx_file es) =? 0) with false by lia.
  replace (IndexFooterSize <=? zlen (idx_file es)) with true by (unfold IndexFooterSize; lia).
  rw decode_idx_file // Ht zlen_enc_entries; [by destruct W|].
  unfold IndexEntrySize. rewrite -> Z.mul_comm, Z_mod_mult, Z.div_mul, !Z.eqb_refl by done. cbn.
  rw !andb_false_r. unfold zlen. rw Nat2Z.id -(app_nil_r (enc_entries es)).
  apply decode_entries_enc, W.
Qed.

(** The index file of segment [id] holds [es]; with no entries yet there is none. *)
Definition index_holds (fs : FS) (id : Z) (es : list IndexEntry) : Prop :=
  match es with
  | [] => fs_wf fs ∧ fs_faults fs = [] ∧ fs_dir fs !! indexPath id = None
  | _ => ∃ ino, file_is fs (indexPath id) ino (idx_file es)
  end.

Lemma ReadIndexFile_holds fs id es :
  wf_entries es → index_holds fs id es → ReadIndexFile (indexPath id) fs = (fs, Ok es).
Proof.
  intros W H. unfold ReadIndexFile, try. destruct es as [|e es].
  - destruct H as (_ & Hf & Hd). erewrite bind_ok; [|unfold os.ReadFile; rw guarded_none // Hd; reflexivity]. done.
  - destruct H as (ino & H). erewrite bind_ok by (by rw (ReadFile_is _ _ _ _ H)).
    unfold lift_result. by rw parse_index_file.
Qed.

Lemma on_idx_ok {A} (m : M FS A) s fs' r : m (si_fs s) = (fs', r) → on_idx m s = (MkSI (si_files s) fs', r).
Proof. intros H. unfold on_idx, zoom. by rw H. Qed.

(** Opening for append: the file without its footer, positioned at its end. *)
Lemma openAppend_ok s id es :
  si_files s !! id = None → wf_entries es → index_holds (si_fs s) id es →
  ∃ s' ino app, openAppend id s = (s', Ok (MkFile ino true 0 app)) ∧
    file_is (si_fs s') (indexPath id) ino (enc_entries es) ∧ (app = false → es = []).
Proof.
  intros Hnc W H. unfold openAppend, get. erewrite bind_ok by reflexivity. rw Hnc.
  destruct es as [|e es].
  - destruct H as (Hw & Hf & Hd). destruct (OpenFile_new _ _ false Hw Hf Hd) as (fs1 & Ho & Hi & _).
    erewrite bind_ok by (by apply on_idx_ok). destruct (FStat_is _ _ _ _ 0 false Hi) as [t Hst].
    erewrite bind_ok by (by apply on_idx_ok). cbn [fst zlen length]. change (IndexFooterSize <=? Z.of_nat 0) with false.
    cbv iota. erewrite bind_ok by reflexivity. eexists _, _, _. split; [reflexivity|]. by split.
  - destruct H as (ino & H). set (E := e :: es) in *. destruct (idx_file_size E) as [Hs Ht].
    erewrite bind_ok by (apply on_idx_ok; by apply (OpenFile_is _ _ _ _ _ _ H)).
    destruct (FStat_is _ _ _ _ 0 false H) as [t Hst]. erewrite bind_ok by (by apply on_idx_ok). cbn [fst].
    replace (IndexFooterSize <=? zlen (idx_file E)) with true by (unfold IndexFooterSize; lia).
    destruct (WriteFile_is _ _ _ _ (enc_entries E) H) as (fs1 & Hw & H1 & _).
    erewrite bind_ok.
    2:{ erewrite bind_ok by (apply on_idx_ok; by apply (ReadFile_is _ _ _ _ H)).
        rw decode_idx_file // Ht.
        erewrite bind_ok by (by apply on_idx_ok). apply on_idx_ok. by apply (OpenFile_is _ _ _ _ _ _ H1). }
    eexists _, _, true. split; [reflexivity|]. by split.
Qed.

Lemma index_append_step s id es e :
  wf_entries (es ++ [e]) → index_holds (si_fs s) id es →
  ∃ s', Append id e s = (s', Ok tt) ∧ index_holds (si_fs s') id (es ++ [e]).
Proof.
  intros W H. assert (wf_entries es ∧ wf_entry e) as [Wes We].
  { destruct W as [W1 W2]. apply Forall_app in W1 as [W1 W3]. rw zlen_app in W2.
    split; [split; [done|]|by inversion W3]. pose proof (zlen_nonneg [e]). lia. }
  unfold Append, set_files, modify. erewrite bind_ok by reflexivity.
  destruct (openAppend_ok (MkSI (delete id (si_files s)) (si_fs s)) id es) as (s1 & ino & app & Ho & Hi & Happ);
    [by rw lookup_delete_eq|done|done|].
  erewrite bind_ok by exact Ho.
  pose proof (zlen_enc_entries es (proj1 Wes)) as Hlen. pose proof (zlen_nonneg es) as Hz.
  assert ((if app then zlen (enc_entries es) else 0) = zlen (enc_entries es)) as Hoff.
  { destruct app; [done|]. by rw Happ. }
  destruct (Write_is _ _ _ _ 0 app (EncodeIndexEntry e) Hi) as (fs2 & Hw2 & H2 & _). rw Hoff splice_end in H2.
  rw Hoff in Hw2. erewrite bind_ok by (by apply wrap_ok, on_idx_ok).
  rw -enc_entries_snoc in H2. set (E := es ++ [e]) in *.
  erewrite bind_ok by (apply on_idx_ok; by apply (ReadFile_is _ _ _ _ H2)).
  assert (zlen (enc_entries E) = 60 * zlen E) as HlenE by apply zlen_enc_entries, W.
  assert (zlen E = zlen es + 1) as HzE by (unfold E; rw zlen_app; done).
  replace (IndexFooterSize <=? zlen (enc_entries E)) with true by (unfold IndexFooterSize; lia).
  unfold strip_footer. unfold E at 1. rw enc_entries_snoc decodeIndexFooter_entries //; [by destruct Wes|].
  rw -enc_entries_snoc. fold E.
  assert (zlen (enc_entries E) / IndexEntrySize = zlen E) as ->.
  { rw HlenE /IndexEntrySize Z.mul_comm. by apply Z.div_mul. }
  assert (ie_Offset e = last_offset E) as Hlast by (unfold last_offset, E; by rw last_snoc).
  set (footer := encodeIndexFooter _ _ _).
  destruct (Write_is _ _ _ _ (zlen (enc_entries es) + zlen (EncodeIndexEntry e)) app footer H2) as (fs3 & Hw3 & H3 & _).
  assert ((if app then zlen (enc_entries E) else zlen (enc_entries es) + zlen (EncodeIndexEntry e)) = zlen (enc_entries E))
    as Hoff3 by (destruct app; [done|]; unfold E; by rw enc_entries_snoc zlen_app).
  rw Hoff3 in Hw3, H3. rw splice_end in H3.
  erewrite bind_ok by (by apply wrap_ok, on_idx_ok).
  destruct (Sync_is _ _ _ _ (zlen (enc_entries E) + zlen footer) app H3) as (fs4 & Hs & H4 & _).
  eexists. split; [by apply on_idx_ok|]. cbn [si_fs]. unfold footer in H4. rw Hlast in H4.
  unfold index_holds. destruct E eqn:EE; [by destruct es|]. by exists ino.
Qed.

(** Appending a list of entries, one by one. *)
Definition append_all (id : Z) (es : list IndexEntry) : M SegmentIndex unit := forM_ es (Append id).

Lemma append_all_holds id es s done :
  wf_entries (done ++ es) → index_holds (si_fs s) id done →
  ∃ s', append_all id es s = (s', Ok tt) ∧ index_holds (si_fs s') id (done ++ es).
Proof.
  revert s done; induction es as [|e es IH]; intros s done W H.
  { exists s. by rw app_nil_r. }
  rw (cons_middle e) app_assoc in W. unfold append_all in *. cbn [forM_].
  destruct (index_append_step s id done e) as (s1 & H1 & K1); [|done|].
  { destruct W as [W1 W2]. apply Forall_app in W1 as [W1 _]. split; [done|]. rw zlen_app in W2.
    pose proof (zlen_nonneg es). lia. }
  erewrite bind_ok by exact H1. rw (cons_middle e) app_assoc. by apply IH.
Qed.

(** What the index file is once there is an entry: the entries' encodings, and a footer
    with their number, the offset of the last and the checksum of the encodings. *)
Definition index_file_for (es : list IndexEntry) (data : option bytes) : Prop :=
  match es with
  | [] => data = None
  | _ => ∃ d, data = Some d ∧ zlen d = IndexEntrySize * zlen es + IndexFooterSize ∧
      take (Z.to_nat (zlen d - IndexFooterSize)) d = enc_entries es ∧
      decodeIndexFooter d = Some (zlen es, last_offset es, crc32.Checksum crc32.IEEE (enc_entries es))
  end.

Lemma index_holds_file fs id es : wf_entries es → index_holds fs id es → index_file_for es (file_data fs (indexPath id)).
Proof.
  intros W H. unfold index_file_for, file_data. destruct es as [|e es]; [by destruct H as (_ & _ & ->)|].
  destruct H as (ino & [_ -> (i & Hi & Hd)]). cbn. rewrite -> Hi. cbn. rewrite -> Hd. exists (idx_file (e :: es)).
  destruct (idx_file_size (e :: es)) as [_ Ht]. split; [done|]. split; [|split; [exact Ht|by apply decode_idx_file]].
  unfold idx_file. rw zlen_app zlen_encodeIndexFooter zlen_enc_entries; [apply W|done].
Qed.

(** C32: the index round trip.  When a segment has no index file yet and nothing fails,
    entries with fields in range appended to its index, each call rewriting the
    file's footer, are read back in order; and the file is their encodings followed
    by a footer with their number, the last offset and the encodings' checksum. *)
Theorem index_append_read id es fs :
  fs_wf fs → fs_faults fs = [] → fs_dir fs !! indexPath id = None → wf_entries es →
  ∃ s', append_all id es (NewSegmentIndex fs) = (s', Ok tt) ∧
    ReadIndexFile (indexPath id) (si_fs s') = (si_fs s', Ok es) ∧
    index_file_for es (file_data (si_fs s') (indexPath id)).
Proof.
  intros Hw Hf Hd W. destruct (append_all_holds id es (NewSegmentIndex fs) []) as (s' & H & K); [done|done|].
  exists s'. split; [done|]. split; [by apply ReadIndexFile_holds|by apply index_holds_file].
Qed.

Definition demo_entry (off : Z) : IndexEntry :=
  MkIndexEntry off 16 4 MagicXML (zeros 32) 7 0.

Lemma demo_entry_wf off : is_i64 off → wf_entry (demo_entry off).
Proof. intros H. split; try done; unfold is_u32; cbn; unfold MagicXML; lia. Qed.

Lemma index_append_read_witness :
  ∃ s', append_all 3 [demo_entry 0; demo_entry 16] (NewSegmentIndex (empty_fs [])) = (s', Ok tt) ∧
    ReadIndexFile (indexPath 3) (si_fs s') = (si_fs s', Ok [demo_entry 0; demo_entry 16]) ∧
    index_file_for [demo_entry 0; demo_entry 16] (file_data (si_fs s') (indexPath 3)).
Proof.
  apply (index_append_read 3 [demo_entry 0; demo_entry 16] (empty_fs [])).
  - apply fs_wf_empty.
  - reflexivity.
  - apply lookup_empty.
  - split; [repeat constructor; try done; unfold is_u32, is_i64; cbn; unfold MagicXML; lia|done].
Defined.

(** A crash between the entry and its footer loses the index.  The write of
    the second footer fails; the next append finds no footer, opens the file at
    position 0 and overwrites the first entries.  Reading the index then succeeds,
    with the two entries gone and a bogus one made of the footer's bytes. *)
Theorem index_overwrite_after_torn_append :
  let s1 := (Append 0 (demo_entry 0) (NewSegmentIndex (empty_fs []))).1 in
  (* the last write of the second append, that of its footer, fails *)
  let s2 := (Append 0 (demo_entry 16)
    (NewSegmentIndex (MkFS (fs_dir (si_fs s1)) (fs_nodes (si_fs s1)) (fs_next (si_fs s1)) 0
       [FNone; FNone; FNone; FNone; FNone; FNone; FNone; FNone; FFail]))).1 in
  let '(s3, r3) := Append 0 (demo_entry 32) (NewSegmentIndex (si_fs s2)) in
  (ReadIndexFile (indexPath 0) (si_fs s2)).2 = Ok [demo_entry 0; demo_entry 16] ∧ r3 = Ok tt ∧
  ∃ es, (ReadIndexFile (indexPath 0) (si_fs s3)).2 = Ok es ∧ ie_Offset <$> es = [32; 8589934593].
Proof. vm_compute. split; [done|]. split; [done|]. by eexists. Qed.
