(* ===== verification/Metadata.v ===== *)
(** * The metadata store: internal/metadata (models.go, repo.go)

    The PostgreSQL tables of migrations/ as they are visible to one session,
    with the constraints the schema declares.  Each method is the statement it
    sends: a statement can fail ([db_faults] is the environment's choice, one
    outcome per statement); inside a transaction a failed statement aborts the
    transaction, later statements fail, and the rollback restores every table
    but not the id sequences.  What text a column accepts is the server's
    business and a parameter. *)
From S2P Require Import Prelude GoLib.

(** ** Tables with an integer key, in key order *)
Definition table (A : Type) := list (Z * A).

Fixpoint tget {A} (id : Z) (t : table A) : option A :=
  match t with
  | [] => None
  | (k, a) :: t' => if k =? id then Some a else tget id t'
  end.

(** Insert, or replace the row with the same key. *)
Fixpoint tput {A} (id : Z) (a : A) (t : table A) : table A :=
  match t with
  | [] => [(id, a)]
  | (k, b) :: t' =>
      if id <? k then (id, a) :: t else
      if k =? id then (id, a) :: t' else (k, b) :: tput id a t'
  end.

(** [UPDATE ... WHERE id = $1]. *)
Definition tmap {A} (id : Z) (g : A → A) (t : table A) : table A :=
  (fun ka => if ka.1 =? id then (ka.1, g ka.2) else ka) <$> t.

Definition tmax {A} (t : table A) : option Z :=
  fold_left (fun m ka => Some (match m with None => ka.1 | Some x => Z.max x ka.1 end)) t None.

(** ** Rows *)
Record ContentBlob : Type := MkBlob {
  ContentHash : bytes;
  cb_Size : Z;
  StoredSize : Z;
  cb_SegmentID : Z;
  cb_Offset : Z;
  RefCount : Z;
  FirstSeenAt : Z;
}.

(** A row of package_files; [Size] is the joined blob's, filled in by reads. *)
Record PackageFile : Type := MkFileRow {
  pf_ID : Z;
  PackageID : Z;
  BlobHash : bytes;
  Role : string;
  pf_OriginalFilename : option string;
  SequenceNumber : option Z;
  pf_Size : Z;
}.

Record Package : Type := MkPackage {
  p_ID : Z;
  SupplierID : Z;
  ReceivedAt : Z;
  p_PackageHash : bytes;
  PayloadType : string;
  StorageMode : string;
  OriginalFilename : option string;
  CanonicalPackageID : option Z;
  FileCount : Z;
  UnpackError : option string;
  Files : list PackageFile;
}.

Record CreatePackageInput : Type := MkCreatePackage {
  cp_SupplierID : Z;
  cp_PackageHash : bytes;
  cp_PayloadType : string;
  cp_StorageMode : string;
  cp_OriginalFilename : option string;
  cp_CanonicalPackageID : option Z;
  cp_FileCount : Z;
  cp_UnpackError : option string;
}.

Record CreateFileInput : Type := MkCreateFile {
  cf_BlobHash : bytes;
  cf_Role : string;
  cf_OriginalFilename : option string;
  cf_SequenceNumber : option Z;
}.

Record SupplierStats : Type := MkStats {
  ss_SupplierID : Z;
  TotalPackages : Z;
  TotalRefs : Z;
  DuplicateRefs : Z;
  LastActivity : Z;
}.

(** [DedupRatio] as the exact fraction the float approximates. *)
Definition DedupRatio (s : SupplierStats) : Z * Z :=
  if TotalRefs s =? 0 then (0, 1) else (DuplicateRefs s, TotalRefs s).

Record BlobByteTotals : Set := MkTotals {
  LogicalBytes : Z; StoredBytes : Z; ReferencedLogicalBytes : Z }.

Record Tables : Type := MkTables {
  content_blobs : gmap bytes ContentBlob;
  packages : table Package;
  package_files : table PackageFile;
  supplier_stats : gmap Z SupplierStats;
  compression_dictionary : list (bytes * Z);
}.

Record DB : Type := MkDB {
  db_tables : Tables;
  packages_seq : Z;        (** the next id *)
  files_seq : Z;
  db_clock : Z;            (** what [NOW()] returns *)
  in_tx : bool;
  aborted : bool;
  db_faults : list bool;   (** [true]: that statement fails *)
}.

Definition db_error : error := errorf "connection to server lost".
Definition tx_aborted : error := errorf "current transaction is aborted".
Definition unique_violation (what : string) : error :=
  errorf ("duplicate key value violates unique constraint " +:+ what).
Definition fk_violation (what : string) : error :=
  errorf ("violates foreign key constraint " +:+ what).
Definition text_error : error := errorf "value not accepted for column".

Definition set_tables (g : Tables → Tables) (db : DB) : DB :=
  MkDB (g (db_tables db)) (packages_seq db) (files_seq db) (db_clock db) (in_tx db) (aborted db) (db_faults db).
Definition set_blobs (g : gmap bytes ContentBlob → gmap bytes ContentBlob) (t : Tables) : Tables :=
  MkTables (g (content_blobs t)) (packages t) (package_files t) (supplier_stats t) (compression_dictionary t).
Definition set_packages (g : table Package → table Package) (t : Tables) : Tables :=
  MkTables (content_blobs t) (g (packages t)) (package_files t) (supplier_stats t) (compression_dictionary t).
Definition set_files (g : table PackageFile → table PackageFile) (t : Tables) : Tables :=
  MkTables (content_blobs t) (packages t) (g (package_files t)) (supplier_stats t) (compression_dictionary t).
Definition set_stats (g : gmap Z SupplierStats → gmap Z SupplierStats) (t : Tables) : Tables :=
  MkTables (content_blobs t) (packages t) (package_files t) (g (supplier_stats t)) (compression_dictionary t).
Definition set_dict (g : list (bytes * Z) → list (bytes * Z)) (t : Tables) : Tables :=
  MkTables (content_blobs t) (packages t) (package_files t) (supplier_stats t) (g (compression_dictionary t)).
Definition set_seqs (p f : Z) (db : DB) : DB :=
  MkDB (db_tables db) p f (db_clock db) (in_tx db) (aborted db) (db_faults db).
Definition set_tx (it ab : bool) (db : DB) : DB :=
  MkDB (db_tables db) (packages_seq db) (files_seq db) (db_clock db) it ab (db_faults db).

(** One statement: refused in an aborted transaction; a failure, of the
    connection or of a constraint, aborts the transaction it is in. *)
Definition stmt {A} (m : M DB A) : M DB A := fun db =>
  if aborted db then (db, Err tx_aborted) else
  let '(fault, rest) := match db_faults db with [] => (false, []) | f :: fs => (f, fs) end in
  let db1 := MkDB (db_tables db) (packages_seq db) (files_seq db) (db_clock db) (in_tx db) (aborted db) rest in
  if fault : bool then (set_tx (in_tx db1) (in_tx db1) db1, Err db_error) else
  match m db1 with
  | (db2, Ok a) => (db2, Ok a)
  | (db2, Err e) => (set_tx (in_tx db2) (in_tx db2) db2, Err e)
  end.

(** Whether a text column takes the value: length limit and encoding. *)
Class PG := { text_ok : option Z → string → bool }.
Definition text_opt_ok `{PG} (limit : option Z) (s : option string) : bool :=
  match s with None => true | Some s => text_ok limit s end.

(** The arguments of INT columns: the driver refuses a number that does not fit
    before it sends the statement, which leaves the transaction as it was. *)
Definition int4 (z : Z) : bool := (- 2 ^ 31 <=? z) && (z <? 2 ^ 31).
Definition int_error : error := errorf "is greater than maximum value for int4".
Definition int4_args {A} (zs : list Z) (m : M DB A) : M DB A :=
  if forallb int4 zs then m else fail int_error.

Section Statements.
Context `{PG}.

Definition tables : M DB Tables := gets db_tables.
Definition upd_tables (g : Tables → Tables) : M DB unit := modify (set_tables g).

(** ** Methods of pgTx *)

Definition GetBlob (hash : bytes) : M DB (option ContentBlob) :=
  stmt (let! t := tables in mret (content_blobs t !! hash)).
Definition GetBlobByHash := GetBlob.

(** A blob's INT columns. *)
Definition blob_ints (b : ContentBlob) : list Z := [cb_Size b; StoredSize b; cb_SegmentID b].

Definition InsertBlob (blob : ContentBlob) : M DB unit :=
  int4_args (blob_ints blob) (stmt (
    let! t := tables in
    match content_blobs t !! ContentHash blob with
    | Some _ => fail (unique_violation "content_blobs_pkey")
    | None => upd_tables (set_blobs (<[ContentHash blob := blob]>))
    end)).

Definition incr (b : ContentBlob) : ContentBlob :=
  MkBlob (ContentHash b) (cb_Size b) (StoredSize b) (cb_SegmentID b) (cb_Offset b) (RefCount b + 1) (FirstSeenAt b).

Definition InsertBlobOrIncrement (blob : ContentBlob) : M DB bool :=
  int4_args (blob_ints blob) (stmt (
    let! t := tables in
    match content_blobs t !! ContentHash blob with
    | Some _ => do! upd_tables (set_blobs (alter incr (ContentHash blob))); mret false
    | None => do! upd_tables (set_blobs (<[ContentHash blob := blob]>)); mret true
    end)).

Definition IncrementRefCount (hash : bytes) : M DB unit :=
  stmt (upd_tables (set_blobs (alter incr hash))).

Definition IncrementRefCountIfExists (hash : bytes) : M DB bool :=
  stmt (
    let! t := tables in
    do! upd_tables (set_blobs (alter incr hash));
    mret (bool_decide (is_Some (content_blobs t !! hash)))).

Definition IncrementRefCounts (hashes : list bytes) : M DB unit := forM_ hashes IncrementRefCount.

Definition CreatePackage (i : CreatePackageInput) : M DB Z :=
  int4_args [cp_SupplierID i; cp_FileCount i] (stmt (
    let! db := get in
    let id := packages_seq db in
    do! modify (fun db => set_seqs (packages_seq db + 1) (files_seq db) db);
    if negb (text_ok (Some 10) (cp_PayloadType i) && text_ok (Some 20) (cp_StorageMode i) &&
             text_opt_ok (Some 255) (cp_OriginalFilename i) && text_opt_ok None (cp_UnpackError i))
    then fail text_error else
    let t := packages (db_tables db) in
    if negb (match cp_CanonicalPackageID i with None => true | Some c => bool_decide (is_Some (tget c t)) end)
    then fail (fk_violation "packages_canonical_package_id_fkey") else
    if bool_decide (is_Some (tget id t)) then fail (unique_violation "packages_pkey") else
    do! upd_tables (set_packages (tput id
          (MkPackage id (cp_SupplierID i) (db_clock db) (cp_PackageHash i) (cp_PayloadType i)
             (cp_StorageMode i) (cp_OriginalFilename i) (cp_CanonicalPackageID i) (cp_FileCount i)
             (cp_UnpackError i) [])));
    mret id)).

Definition is_role (r : string) (f : PackageFile) : bool := (Role f =? r)%string.

(** The partial unique indexes of package_files: one original and one
    unpack_error per package, members by sequence number (a NULL is distinct
    from every other). *)
Definition file_conflict (f g : PackageFile) : bool :=
  (PackageID f =? PackageID g) &&
  ((is_role "original" f && is_role "original" g) ||
   (is_role "unpack_error" f && is_role "unpack_error" g) ||
   (is_role "member" f && is_role "member" g &&
    match SequenceNumber f, SequenceNumber g with
    | Some a, Some b => a =? b
    | _, _ => false
    end)).

(** The checks a row of package_files has to pass against the other rows. *)
Definition check_file (t : Tables) (f : PackageFile) : result unit :=
  if negb (text_ok (Some 15) (Role f) && text_opt_ok (Some 255) (pf_OriginalFilename f)) then Err text_error else
  if negb (bool_decide (is_Some (tget (PackageID f) (packages t)))) then
    Err (fk_violation "package_files_package_id_fkey") else
  if negb (bool_decide (is_Some (content_blobs t !! BlobHash f))) then
    Err (fk_violation "package_files_blob_hash_fkey") else
  if existsb (fun kg => negb (kg.1 =? pf_ID f) && file_conflict f kg.2) (package_files t) then
    Err (unique_violation "idx_package_files") else Ok tt.

Definition CreatePackageFile (packageID : Z) (i : CreateFileInput) : M DB Z :=
  int4_args (option_list (cf_SequenceNumber i)) (stmt (
    let! db := get in
    let id := files_seq db in
    do! modify (fun db => set_seqs (packages_seq db) (files_seq db + 1) db);
    let f := MkFileRow id packageID (cf_BlobHash i) (cf_Role i) (cf_OriginalFilename i) (cf_SequenceNumber i) 0 in
    do! lift_result (check_file (db_tables db) f);
    if bool_decide (is_Some (tget id (package_files (db_tables db)))) then
      fail (unique_violation "package_files_pkey") else
    do! upd_tables (set_files (tput id f));
    mret id)).

Definition GetPackageForUpdate (packageID : Z) : M DB (option Package) :=
  stmt (let! t := tables in mret (tget packageID (packages t))).

Definition after_unpack (mode : string) (count : Z) (err : option string) (p : Package) : Package :=
  MkPackage (p_ID p) (SupplierID p) (ReceivedAt p) (p_PackageHash p) (PayloadType p) mode
    (OriginalFilename p) (CanonicalPackageID p) count err (Files p).

Definition UpdatePackageAfterUnpack (packageID : Z) (storageMode : string) (fileCount : Z)
    (unpackError : option string) : M DB bool :=
  int4_args [fileCount] (stmt (
    let! t := tables in
    match tget packageID (packages t) with
    | Some p =>
        if (StorageMode p =? "raw_large")%string then
          if negb (text_ok (Some 20) storageMode && text_opt_ok None unpackError) then fail text_error else
          do! upd_tables (set_packages (tmap packageID (after_unpack storageMode fileCount unpackError)));
          mret true
        else mret false
    | None => mret false
    end)).

(** [WithTx]: a failure of [fn] rolls the tables back; the sequences keep what was
    drawn from them.  A commit that fails was either not done, or was done and only
    its answer is lost: the next of [db_faults] says which.  The commit of an aborted
    transaction rolls back. *)
Definition begin_tx : M DB unit := stmt (modify (set_tx true false)).
Definition rollback (t0 : Tables) (db : DB) : DB :=
  MkDB t0 (packages_seq db) (files_seq db) (db_clock db) false false (db_faults db).
Definition commit_tx (t0 : Tables) : M DB unit := fun db =>
  match stmt (mret tt) db with
  | (db', Ok _) => (set_tx false false db', Ok tt)
  | (db', Err e) =>
      if aborted db then (rollback t0 db', Err e) else
      let '(done, rest) := match db_faults db' with [] => (false, []) | f :: fs => (f, fs) end in
      (MkDB (if done : bool then db_tables db' else t0) (packages_seq db') (files_seq db') (db_clock db') false false rest, Err e)
  end.

(** Run [fn], a computation on a state that contains the database, as a
    transaction: what it changed elsewhere stays changed. *)
Definition WithTx {W A} (pr : W → DB) (up : DB → W → W) (fn : M W A) : M W A := fun w =>
  match begin_tx (pr w) with
  | (db, Err e) => (up db w, Err e)
  | (db, Ok _) =>
      let t0 := db_tables db in
      match fn (up db w) with
      | (w', Err e) => (up (rollback t0 (pr w')) w', Err e)
      | (w', Ok a) =>
          match commit_tx t0 (pr w') with
          | (db', Err e) => (up db' w', Err e)
          | (db', Ok _) => (up db' w', Ok a)
          end
      end
  end.

(** ** Methods of PostgresRepository *)

(** The pool runs the statement outside a transaction. *)
Definition RepoGetBlob (hash : bytes) : M DB (option ContentBlob) :=
  stmt (let! t := tables in mret (content_blobs t !! hash)).

Definition FindCanonicalPackageID (packageHash : bytes) : M DB (option Z) :=
  stmt (let! t := tables in
        mret (fst <$> head (filter (fun kp => p_PackageHash kp.2 = packageHash) (packages t)))).

Definition ListClonePackageIDs (canonicalID : Z) : M DB (list Z) :=
  stmt (let! t := tables in
        mret (filter (fun kp => CanonicalPackageID kp.2 = Some canonicalID) (packages t)).*1).

Definition ListPendingLargePackages : M DB (list Z) :=
  stmt (let! t := tables in
        mret (filter (fun kp => StorageMode kp.2 = "raw_large"%string ∧ CanonicalPackageID kp.2 = None)
                (packages t)).*1).

(** The join with content_blobs: rows without a blob drop out. *)
Definition with_size (t : Tables) (f : PackageFile) : option PackageFile :=
  b ← content_blobs t !! BlobHash f;
  Some (MkFileRow (pf_ID f) (PackageID f) (BlobHash f) (Role f) (pf_OriginalFilename f) (SequenceNumber f) (cb_Size b)).

Definition files_of (t : Tables) (packageID : Z) : list PackageFile :=
  omap (with_size t) (filter (fun f => PackageID f = packageID) (package_files t).*2).

Definition ListPackageFiles (packageID : Z) : M DB (list PackageFile) :=
  stmt (let! t := tables in mret (files_of t packageID)).

Definition with_files (fs : list PackageFile) (p : Package) : Package :=
  MkPackage (p_ID p) (SupplierID p) (ReceivedAt p) (p_PackageHash p) (PayloadType p) (StorageMode p)
    (OriginalFilename p) (CanonicalPackageID p) (FileCount p) (UnpackError p) fs.

Definition GetPackage (id : Z) : M DB (option Package) :=
  let! p := stmt (let! t := tables in mret (tget id (packages t))) in
  match p with
  | None => mret None
  | Some p => let! fs := ListPackageFiles id in mret (Some (with_files fs p))
  end.

Definition GetPackageFile (packageID fileID : Z) : M DB (option PackageFile) :=
  stmt (let! t := tables in
        mret (head (filter (fun f => pf_ID f = fileID) (files_of t packageID)))).

Definition GetOriginalFile (packageID : Z) : M DB (option PackageFile) :=
  stmt (let! t := tables in
        mret (head (filter (fun f => Role f = "original"%string) (files_of t packageID)))).

Definition CountContentBlobs : M DB Z :=
  stmt (let! t := tables in mret (Z.of_nat (size (content_blobs t)))).

Definition GetLatestDictionary : M DB (option (bytes * Z)) :=
  stmt (let! t := tables in mret (last (compression_dictionary t))).

Definition SaveDictionary (dict : bytes) (entryCount : Z) : M DB unit :=
  int4_args [entryCount] (stmt (upd_tables (set_dict (fun l => l ++ [(dict, entryCount)])))).

(** Ordered by first_seen_at; rows of the same time in no particular order. *)
Definition seen_before (a b : ContentBlob) : Prop := FirstSeenAt a <= FirstSeenAt b.
#[export] Instance seen_before_dec a b : Decision (seen_before a b).
Proof. unfold seen_before. apply _. Defined.
Definition ListContentBlobs : M DB (list ContentBlob) :=
  stmt (let! t := tables in mret (merge_sort seen_before (map_to_list (content_blobs t)).*2)).

Definition UpsertContentBlob (blob : ContentBlob) : M DB unit :=
  let stored := if StoredSize blob =? 0 then cb_Size blob else StoredSize blob in
  int4_args [cb_Size blob; stored; cb_SegmentID blob] (stmt (upd_tables (set_blobs (partial_alter (fun old => Some (match old with
    | None => MkBlob (ContentHash blob) (cb_Size blob) stored (cb_SegmentID blob) (cb_Offset blob)
                (RefCount blob) (FirstSeenAt blob)
    | Some b => MkBlob (ContentHash b) (cb_Size blob) stored (cb_SegmentID blob) (cb_Offset blob)
                  (RefCount b) (FirstSeenAt b)
    end)) (ContentHash blob))))).

Definition RestorePackage (p : Package) : M DB unit :=
  int4_args [SupplierID p; FileCount p] (stmt (
    let! t := tables in
    if negb (text_ok (Some 10) (PayloadType p) && text_ok (Some 20) (StorageMode p) &&
             text_opt_ok (Some 255) (OriginalFilename p) && text_opt_ok None (UnpackError p))
    then fail text_error else
    if negb (match CanonicalPackageID p with
             | None => true
             | Some c => (c =? p_ID p) || bool_decide (is_Some (tget c (packages t)))
             end)
    then fail (fk_violation "packages_canonical_package_id_fkey") else
    upd_tables (set_packages (tput (p_ID p) (with_files [] p))))).

Definition RestorePackageFile (f : PackageFile) : M DB unit :=
  int4_args (option_list (SequenceNumber f)) (stmt (
    let! t := tables in
    do! lift_result (check_file t f);
    upd_tables (set_files (tput (pf_ID f)
      (MkFileRow (pf_ID f) (PackageID f) (BlobHash f) (Role f) (pf_OriginalFilename f) (SequenceNumber f) 0))))).

Definition TruncateRecoveryTables : M DB unit :=
  stmt (do! upd_tables (fun t => MkTables ∅ [] [] ∅ (compression_dictionary t)); modify (set_seqs 1 1)).

Definition ref_total (h : bytes) (t : Tables) : Z :=
  zlen (filter (fun f => BlobHash f = h) (package_files t).*2).

Definition RecomputeRefCounts : M DB unit :=
  stmt (upd_tables (fun t => set_blobs (map_imap (fun h b => Some
    (MkBlob (ContentHash b) (cb_Size b) (StoredSize b) (cb_SegmentID b) (cb_Offset b) (ref_total h t) (FirstSeenAt b)))) t)).

(** [setval(seq, max)]: the next id is one more; on an empty table it is 2. *)
Definition ResetIDSequences : M DB unit :=
  do! stmt (modify (fun db => set_seqs (default 1 (tmax (packages (db_tables db))) + 1) (files_seq db) db));
  stmt (modify (fun db => set_seqs (packages_seq db) (default 1 (tmax (package_files (db_tables db))) + 1) db)).

Definition sum_blobs (g : ContentBlob → Z) (t : Tables) : Z :=
  map_fold (fun _ b n => g b + n) 0 (content_blobs t).

Definition GetBlobByteTotals : M DB BlobByteTotals :=
  stmt (let! t := tables in
        mret (MkTotals (sum_blobs cb_Size t)
                (sum_blobs (fun b => if 0 <? StoredSize b then StoredSize b else cb_Size b) t)
                (sum_blobs (fun b => cb_Size b * RefCount b) t))).

Definition RecordSupplierIngest (supplierID fileCount newBlobs duplicateRefs : Z) : M DB unit :=
  let dup := if duplicateRefs <? 0 then 0 else duplicateRefs in
  int4_args [supplierID] (stmt (
    let! db := get in
    upd_tables (set_stats (partial_alter (fun old => Some (match old with
      | None => MkStats supplierID 1 fileCount dup (db_clock db)
      | Some s => MkStats supplierID (TotalPackages s + 1) (TotalRefs s + fileCount)
                    (DuplicateRefs s + dup) (db_clock db)
      end)) supplierID)))).

Definition GetSupplierStats (supplierID : Z) : M DB (option SupplierStats) :=
  int4_args [supplierID] (stmt (let! t := tables in mret (supplier_stats t !! supplierID))).

End Statements.

(** ** Facts about tables *)
Section table.
Context {A : Type}.
Implicit Types t : table A.

Lemma tget_tput_eq id a t : tget id (tput id a t) = Some a.
Proof.
  induction t as [|[k b] t IH]; cbn; [by rw Z.eqb_refl|].
  destruct (id <? k) eqn:E1; cbn; [by rw Z.eqb_refl|].
  destruct (k =? id) eqn:E2; cbn; [by rw Z.eqb_refl|]. by rw E2.
Qed.

Lemma tget_tput_ne id id' a t : id ≠ id' → tget id' (tput id a t) = tget id' t.
Proof.
  intros Hne. induction t as [|[k b] t IH]; cbn.
  { by replace (id =? id') with false by lia. }
  destruct (id <? k) eqn:E1; cbn; [by replace (id =? id') with false by lia|].
  destruct (k =? id) eqn:E2; cbn.
  - replace (id =? id') with false by lia. by replace (k =? id') with false by lia.
  - by destruct (k =? id').
Qed.

Lemma tget_tmap id id' g t : tget id' (tmap id g t) = if id' =? id then g <$> tget id' t else tget id' t.
Proof.
  induction t as [|[k b] t IH]; cbn; [by destruct (_ =? _)|].
  destruct (k =? id) eqn:E1; cbn; destruct (k =? id') eqn:E2; cbn; try exact IH.
  - by replace (id' =? id) with true by lia.
  - by replace (id' =? id) with false by lia.
Qed.

Lemma tput_fresh id a t : tget id t = None → tput id a t ≡ₚ (id, a) :: t.
Proof.
  induction t as [|[k b] t IH]; cbn; [done|]. intros H.
  destruct (id <? k) eqn:E1; [done|]. destruct (k =? id) eqn:E2; [done|].
  rw (IH H). apply perm_swap.
Qed.

Lemma tput_last id a t : Forall (fun ka => ka.1 < id) t → tput id a t = t ++ [(id, a)].
Proof.
  induction 1 as [|[k b] t Hk Ht IH]; cbn; [done|]. cbn in Hk.
  replace (id <? k) with false by lia. replace (k =? id) with false by lia. by rw IH.
Qed.

Lemma tget_None id t : (∀ ka, ka ∈ t → ka.1 ≠ id) → tget id t = None.
Proof.
  induction t as [|[k b] t IH]; [done|]. intros H. cbn.
  replace (k =? id) with false by (symmetry; apply Z.eqb_neq, (H (k, b)); by left).
  apply IH. intros ka Hka. apply H. by right.
Qed.

Lemma tget_Some_elem id a t : tget id t = Some a → (id, a) ∈ t.
Proof.
  induction t as [|[k b] t IH]; [done|]. cbn. destruct (k =? id) eqn:E; intros H.
  - injection H as ->. apply Z.eqb_eq in E as ->. by left.
  - right. auto.
Qed.

Lemma in_tput id a t k b : (k, b) ∈ tput id a t → (k, b) = (id, a) ∨ (k, b) ∈ t.
Proof.
  induction t as [|[k' b'] t IH]; cbn.
  - intros H. left. by apply list_elem_of_singleton in H.
  - destruct (id <? k'); [intros [->|H]%elem_of_cons; [by left|by right]|].
    destruct (k' =? id); [intros [->|H]%elem_of_cons; [by left|right; by right]|].
    intros [->|H]%elem_of_cons; [right; by left|]. destruct (IH H) as [->|K]; [by left|right; by right].
Qed.

Lemma tput_sorted id a t : StronglySorted Z.lt t.*1 → StronglySorted Z.lt (tput id a t).*1.
Proof.
  induction t as [|[k b] t IH]; cbn; intros Hs; [by repeat constructor|]. apply StronglySorted_inv in Hs as [Hs Hk].
  destruct (id <? k) eqn:E1; cbn.
  { constructor; [by constructor|]. constructor; [lia|]. eapply Forall_impl; [exact Hk|]. intros; lia. }
  destruct (k =? id) eqn:E2; cbn; [apply Z.eqb_eq in E2 as ->; by constructor|].
  constructor; [by apply IH|]. apply Forall_forall. intros x Hx. apply list_elem_of_fmap in Hx as ([x' c] & -> & Hx).
  apply in_tput in Hx as [Hx|Hx]; cbn; [injection Hx as -> _; lia|].
  rw Forall_forall in Hk. apply Hk, list_elem_of_fmap. by exists (x', c).
Qed.

Lemma sorted_nodup (l : list Z) : StronglySorted Z.lt l → NoDup l.
Proof.
  induction 1 as [|x l Hs IH Hx]; constructor; [|done]. intros Hin. rw Forall_forall in Hx. specialize (Hx x Hin). lia.
Qed.

Lemma tget_tput_some id a t k : is_Some (tget k t) → is_Some (tget k (tput id a t)).
Proof. intros Hk. destruct (decide (id = k)) as [->|Hne]; [by rw tget_tput_eq|by rw tget_tput_ne]. Qed.

Lemma tmax_le d t k a : (k, a) ∈ t → k <= default d (tmax t).
Proof.
  unfold tmax. intros Hin.
  assert (∀ (l : table A) m, (∀ x, m = Some x → x <= default d (fold_left (fun m ka => Some (match m with None => ka.1 | Some x => Z.max x ka.1 end)) l m)) ∧
    ∀ ka, ka ∈ l → ka.1 <= default d (fold_left (fun m ka => Some (match m with None => ka.1 | Some x => Z.max x ka.1 end)) l m)) as Hf.
  { induction l as [|[k0 a0] l IH]; intros m; cbn.
    - split; [intros x ->; cbn; lia|]. by intros ka ?%not_elem_of_nil.
    - destruct (IH (Some (match m with None => k0 | Some x => Z.max x k0 end))) as [I1 I2].
      specialize (I1 _ eq_refl). split.
      + intros x ->. lia.
      + intros ka [->|Hka]%elem_of_cons; [|by apply I2]. cbn. destruct m; lia. }
  apply (proj2 (Hf t None) (k, a) Hin).
Qed.

Lemma tget_elem id a t : NoDup t.*1 → (id, a) ∈ t → tget id t = Some a.
Proof.
  induction t as [|[k b] t IH]; [by intros _ ?%not_elem_of_nil|]. cbn. intros [Hk Hn]%NoDup_cons [E|Hin]%elem_of_cons.
  - injection E as <- <-. by rw Z.eqb_refl.
  - destruct (Z.eqb_spec k id) as [->|]; [|by apply IH]. exfalso. apply Hk. apply list_elem_of_fmap. by exists (id, a).
Qed.

Lemma tmap_keys id g t : (tmap id g t).*1 = t.*1.
Proof. unfold tmap. rw -list_fmap_compose. apply list_fmap_ext. intros ? [k a] _. cbn. by destruct (k =? id). Qed.
End table.

(** ** What statements do, whatever fails *)

Definition same_but_faults (db db' : DB) : Prop :=
  db_tables db' = db_tables db ∧ packages_seq db' = packages_seq db ∧ files_seq db' = files_seq db ∧
  db_clock db' = db_clock db ∧ in_tx db' = in_tx db.

(** A statement that fails leaves the state it was given, or the state its body
    failed in; one that succeeds ran on a state that differs in the faults only. *)
Lemma stmt_inv {A} (m : M DB A) db db' r :
  stmt m db = (db', r) →
  match r with
  | Ok a => ∃ db1, same_but_faults db db1 ∧ m db1 = (db', Ok a)
  | Err e => same_but_faults db db' ∨
      ∃ db1 db2, same_but_faults db db1 ∧ m db1 = (db2, Err e) ∧ same_but_faults db2 db'
  end.
Proof.
  unfold stmt. destruct (aborted db); [intros [= <- <-]; by left|].
  set (fr := match db_faults db with [] => _ | _ => _ end). destruct fr as [fault rest].
  set (db1 := MkDB _ _ _ _ _ _ _).
  destruct fault; [intros [= <- <-]; by left|].
  destruct (m db1) as [db2 [a|e]] eqn:E; intros [= <- <-].
  - by exists db1.
  - right. by exists db1, db2.
Qed.

(** A statement that only reads. *)
Lemma stmt_read {A} (g : Tables → A) db db' r :
  stmt (let! t := tables in mret (g t)) db = (db', r) →
  same_but_faults db db' ∧ match r with Ok a => a = g (db_tables db) | Err _ => True end.
Proof.
  intros H. apply stmt_inv in H. destruct r as [a|e].
  - destruct H as (db1 & H1 & H). munfold. injection H as <- <-. split; [done|]. by destruct H1 as (-> & _).
  - destruct H as [H|(db1 & db2 & H1 & H & H2)]; [done|]. munfold. done.
Qed.

Lemma int4_args_inv {A} zs (m : M DB A) db db' r :
  int4_args zs m db = (db', r) →
  (forallb int4 zs = true ∧ m db = (db', r)) ∨ (db' = db ∧ r = Err int_error).
Proof. unfold int4_args. destruct (forallb int4 zs); [by left|]. intros [= <- <-]. by right. Qed.

Definition empty_db (clock : Z) (faults : list bool) : DB :=
  MkDB (MkTables ∅ [] [] ∅ []) 1 1 clock false false faults.
