(* ===== verification/MetadataInv.v ===== *)
(** * Reference counts: the invariant of the metadata tables

    [db_inv t pseq fseq debt] says that every blob's ref_count is the number of
    package_files rows that point at it, plus [debt]: references taken but not
    yet written as a row (positive) or rows not yet counted (negative), which a
    transaction builds up and pays back.  Between transactions the debt is 0. *)
From S2P Require Import Prelude GoLib Metadata.

Record db_inv (t : Tables) (pseq fseq : Z) (debt : bytes → Z) : Prop := {
  ri_blob : ∀ h b, content_blobs t !! h = Some b → ContentHash b = h ∧ RefCount b = ref_total h t + debt h;
  ri_none : ∀ h, content_blobs t !! h = None → debt h = 0;
  ri_file : ∀ id f, (id, f) ∈ package_files t → pf_ID f = id ∧ id < fseq ∧
    is_Some (content_blobs t !! BlobHash f) ∧ is_Some (tget (PackageID f) (packages t));
  ri_pkg : ∀ id p, (id, p) ∈ packages t → p_ID p = id ∧ id < pseq;
  ri_keys : NoDup (packages t).*1;
  ri_fkeys : NoDup (package_files t).*1;
}.

Definition no_debt : bytes → Z := fun _ => 0.
Definition owe (h : bytes) (n : Z) (debt : bytes → Z) : bytes → Z :=
  fun h' => if decide (h' = h) then debt h' + n else debt h'.

(** The state between transactions: nothing owed, no transaction open. *)
Definition db_ok (db : DB) : Prop :=
  db_inv (db_tables db) (packages_seq db) (files_seq db) no_debt ∧ in_tx db = false ∧ aborted db = false.

Lemma db_inv_debt t p f d d' : (∀ h, d h = d' h) → db_inv t p f d → db_inv t p f d'.
Proof.
  intros Hd [H1 H2 H3 H4 H5 H6]. split; [|intros h Hh; rw -Hd; by apply H2|done..].
  intros h b Hb. rw -Hd. by apply H1.
Qed.

Lemma db_inv_seqs t p f d p' f' : p <= p' → f <= f' → db_inv t p f d → db_inv t p' f' d.
Proof.
  intros Hp Hf [H1 H2 H3 H4 H5 H6]. split; [done|done| | |done|done].
  - intros id x Hx. destruct (H3 id x Hx) as (? & ? & ? & ?). split_and!; try done. lia.
  - intros id x Hx. destruct (H4 id x Hx). split; [done|lia].
Qed.

Lemma empty_db_ok clock faults : db_ok (empty_db clock faults).
Proof.
  split; [|done]. split; cbn.
  - intros h b. by rw lookup_empty.
  - done.
  - intros id f H. by apply not_elem_of_nil in H.
  - intros id p H. by apply not_elem_of_nil in H.
  - constructor.
  - constructor.
Qed.

(** ** Counting references *)
Lemma ref_total_perm h t t' : package_files t ≡ₚ package_files t' → ref_total h t = ref_total h t'.
Proof. intros Hp. unfold ref_total, zlen. by rw Hp. Qed.

Lemma ref_total_put h t id f :
  tget id (package_files t) = None →
  ref_total h (set_files (tput id f) t) = ref_total h t + (if decide (BlobHash f = h) then 1 else 0).
Proof.
  intros Hn. unfold ref_total, zlen. cbn [set_files package_files].
  rw (tput_fresh id f _ Hn) fmap_cons filter_cons. cbn [snd].
  destruct (decide (BlobHash f = h)); cbn [length]; lia.
Qed.

Lemma ref_total_absent t p fs d h : db_inv t p fs d → content_blobs t !! h = None → ref_total h t = 0.
Proof.
  intros I Hn. unfold ref_total, zlen.
  destruct (filter _ _) as [|f l] eqn:E; [done|]. exfalso.
  assert (f ∈ filter (fun f => BlobHash f = h) (package_files t).*2) as Hin by (rw E; by left).
  apply list_elem_of_filter in Hin as [Hh Hin]. apply list_elem_of_fmap in Hin as ([id f'] & -> & Hin).
  destruct (ri_file _ _ _ _ I id f' Hin) as (_ & _ & [b Hb] & _). cbn in Hh. congruence.
Qed.

Lemma tget_fresh_seq t p fs d : db_inv t p fs d → tget fs (package_files t) = None.
Proof.
  intros I. apply tget_None. intros [k f] Hk. cbn. destruct (ri_file _ _ _ _ I k f Hk) as (_ & ? & _). lia.
Qed.

(** ** What the statements do to it *)

Lemma db_inv_put_file t p fs d f :
  db_inv t p fs d → pf_ID f = fs → is_Some (content_blobs t !! BlobHash f) →
  is_Some (tget (PackageID f) (packages t)) →
  db_inv (set_files (tput fs f) t) p (fs + 1) (owe (BlobHash f) (-1) d).
Proof.
  intros I Hid Hb Hp. split; cbn.
  - intros h b Hh. destruct (ri_blob _ _ _ _ I h b Hh) as [? Hr]. split; [done|].
    rw ref_total_put; [by eapply tget_fresh_seq|]. rw Hr. unfold owe.
    destruct (decide (BlobHash f = h)), (decide (h = BlobHash f)); (congruence || lia).
  - intros h Hh. unfold owe. destruct (decide _) as [->|]; [by destruct Hb; congruence|by apply I].
  - intros id g [E|Hin]%in_tput.
    + injection E as -> ->. split_and!; try done. lia.
    + destruct (ri_file _ _ _ _ I id g Hin) as (? & ? & ? & ?). split_and!; try done. lia.
  - apply I.
  - apply I.
  - rw tput_fresh; [by eapply tget_fresh_seq|].
    cbn. apply NoDup_cons. split; [|apply I]. intros ([k g] & E & Hk)%list_elem_of_fmap. cbn in E. subst k.
    destruct (ri_file _ _ _ _ I _ g Hk) as (_ & ? & _). lia.
Qed.

Lemma ref_total_blobs h g t : ref_total h (set_blobs g t) = ref_total h t.
Proof. done. Qed.

Lemma db_inv_incr t p fs d h :
  db_inv t p fs d → is_Some (content_blobs t !! h) → db_inv (set_blobs (alter incr h) t) p fs (owe h 1 d).
Proof.
  intros I [b0 Hb0]. split; cbn.
  - intros h' b. unfold owe. rw ref_total_blobs. destruct (decide (h' = h)) as [->|Hne].
    + rw lookup_alter_eq. intros (b1 & Hb1 & ->)%fmap_Some. destruct (ri_blob _ _ _ _ I h b1 Hb1) as [? Hr].
      split; [done|]. cbn. lia.
    + rw lookup_alter_ne //. apply I.
  - intros h' Hn. unfold owe. destruct (decide (h' = h)) as [->|Hne].
    + rw lookup_alter_eq Hb0 in Hn. done.
    + rw lookup_alter_ne // in Hn. by apply I.
  - intros id f Hin. destruct (ri_file _ _ _ _ I id f Hin) as (? & ? & ? & ?). split_and!; try done.
    by apply lookup_alter_is_Some.
  - apply I.
  - apply I.
  - apply I.
Qed.

Lemma db_inv_insert t p fs d b :
  db_inv t p fs d → content_blobs t !! ContentHash b = None → RefCount b = 1 →
  db_inv (set_blobs (<[ContentHash b := b]>) t) p fs (owe (ContentHash b) 1 d).
Proof.
  intros I Hn Hr. pose proof (ref_total_absent _ _ _ _ _ I Hn) as Hz.
  pose proof (ri_none _ _ _ _ I _ Hn) as Hd. split; cbn.
  - intros h b'. unfold owe. rw ref_total_blobs. destruct (decide (h = ContentHash b)) as [->|Hne].
    + rw lookup_insert_eq. intros [= <-]. split; [done|]. lia.
    + rw lookup_insert_ne //. apply I.
  - intros h Hh. unfold owe. destruct (decide (h = ContentHash b)) as [->|Hne].
    + by rw lookup_insert_eq in Hh.
    + rw lookup_insert_ne // in Hh. by apply I.
  - intros id f Hin. destruct (ri_file _ _ _ _ I id f Hin) as (? & ? & ? & ?). split_and!; try done.
    destruct (decide (BlobHash f = ContentHash b)) as [->|]; [by rw lookup_insert_eq|by rw lookup_insert_ne].
  - apply I.
  - apply I.
  - apply I.
Qed.

Lemma db_inv_put_package t ps fs d p :
  db_inv t ps fs d → p_ID p = ps → db_inv (set_packages (tput ps p) t) (ps + 1) fs d.
Proof.
  intros I Hid. split; cbn; try apply I.
  - intros id f Hin. destruct (ri_file _ _ _ _ I id f Hin) as (? & ? & ? & ?). split_and!; try done.
    destruct (decide (ps = PackageID f)) as [->|Hne]; [by rw tget_tput_eq|by rw tget_tput_ne].
  - intros id q [E|Hin]%in_tput.
    + injection E as -> ->. split; [done|lia].
    + destruct (ri_pkg _ _ _ _ I id q Hin). split; [done|lia].
  - rw tput_fresh; [apply tget_None; intros [k q] Hk; cbn; destruct (ri_pkg _ _ _ _ I k q Hk); lia|].
    cbn. apply NoDup_cons. split; [|apply I]. intros ([k q] & E & Hk)%list_elem_of_fmap. cbn in E. subst k.
    destruct (ri_pkg _ _ _ _ I _ q Hk). lia.
Qed.

Lemma db_inv_tmap t ps fs d id g :
  db_inv t ps fs d → (∀ p, p_ID (g p) = p_ID p) → db_inv (set_packages (tmap id g) t) ps fs d.
Proof.
  intros I Hg. split; cbn; try apply I.
  - intros k f Hin. destruct (ri_file _ _ _ _ I k f Hin) as (? & ? & ? & ?). split_and!; try done.
    rw tget_tmap. destruct (_ =? _); [by apply fmap_is_Some|done].
  - intros k q Hin. apply list_elem_of_fmap in Hin as ([k' q'] & E & Hin).
    destruct (ri_pkg _ _ _ _ I k' q' Hin) as [? ?]. cbn in E. destruct (k' =? id); injection E as -> ->; [|done].
    split; [by rw Hg|done].
  - rw tmap_keys. apply I.
Qed.

(** ** Statements, whatever fails *)

(** What no statement changes, and the sequences only grow. *)
Definition db_step (db db' : DB) : Prop :=
  packages_seq db <= packages_seq db' ∧ files_seq db <= files_seq db' ∧
  in_tx db' = in_tx db ∧ db_clock db' = db_clock db.

Lemma db_step_refl db : db_step db db.
Proof. by repeat split. Qed.

Lemma db_step_trans db1 db2 db3 : db_step db1 db2 → db_step db2 db3 → db_step db1 db3.
Proof. unfold db_step. intros (? & ? & ? & ?) (? & ? & ? & ?). split_and!; (lia || congruence). Qed.
#[export] Instance db_step_preorder : PreOrder db_step.
Proof. split; [exact db_step_refl|exact db_step_trans]. Qed.

Lemma same_step db db' : same_but_faults db db' → db_step db db' ∧ db_tables db' = db_tables db.
Proof. intros (? & ? & ? & ? & ?). split; [|done]. unfold db_step. split_and!; (lia || congruence). Qed.

(** A failed statement changes no table. *)
Definition err_keeps {A} (db db' : DB) (r : result A) : Prop :=
  is_ok r = false → db_tables db' = db_tables db.

(** Statements of the shape: read, check, then write. *)
Lemma stmt_cases {A} (m : M DB A) db db' r :
  stmt m db = (db', r) →
  (∀ db1 db2 e, same_but_faults db db1 → m db1 = (db2, Err e) → db_step db1 db2 ∧ db_tables db2 = db_tables db1) →
  (is_ok r = false ∧ db_step db db' ∧ db_tables db' = db_tables db) ∨
  ∃ a db1, r = Ok a ∧ same_but_faults db db1 ∧ m db1 = (db', Ok a).
Proof.
  intros H Hf. apply stmt_inv in H. destruct r as [a|e].
  - right. destruct H as (db1 & H1 & H). by exists a, db1.
  - left. split; [done|]. destruct H as [H|(db1 & db2 & H1 & H & H2)].
    + by destruct (same_step _ _ H).
    + destruct (Hf _ _ _ H1 H) as [K1 K2]. destruct (same_step _ _ H1) as [K3 K4].
      destruct (same_step _ _ H2) as [K5 K6]. split; [by etrans; [|etrans]|congruence].
Qed.

Section Statements.
Context `{PG}.

Lemma GetBlob_inv h db db' r :
  GetBlob h db = (db', r) → db_step db db' ∧ db_tables db' = db_tables db ∧
  match r with Ok o => o = content_blobs (db_tables db) !! h | Err _ => True end.
Proof. intros E. apply stmt_read in E as [E1 E2]. destruct (same_step _ _ E1). done. Qed.

Lemma InsertBlobOrIncrement_inv blob db db' r :
  InsertBlobOrIncrement blob db = (db', r) → db_step db db' ∧
  match r with
  | Err _ => db_tables db' = db_tables db
  | Ok inserted => forallb int4 (blob_ints blob) = true ∧
      match content_blobs (db_tables db) !! ContentHash blob with
      | None => inserted = true ∧ db_tables db' = set_blobs (<[ContentHash blob := blob]>) (db_tables db)
      | Some _ => inserted = false ∧ db_tables db' = set_blobs (alter incr (ContentHash blob)) (db_tables db)
      end
  end.
Proof.
  intros E. apply int4_args_inv in E as [[Hi E]|[-> ->]]; [|by split].
  apply stmt_cases in E as [(Hr & Hs & Ht)|(a & db1 & -> & (T & P & F & C & X) & E)].
  - split; [done|]. by destruct r.
  - unfold tables, upd_tables in E. munfold. rw T in E.
    destruct (content_blobs (db_tables db) !! ContentHash blob); injection E as <- <-;
      (split; [unfold db_step; cbn; split_and!; (lia || congruence)|]); cbn; by rw T.
  - intros db1 db2 e _ E2. unfold tables, upd_tables in E2. munfold.
    destruct (content_blobs (db_tables db1) !! ContentHash blob); done.
Qed.

Lemma IncrementRefCountIfExists_inv h db db' r :
  IncrementRefCountIfExists h db = (db', r) → db_step db db' ∧
  match r with
  | Err _ => db_tables db' = db_tables db
  | Ok updated => updated = bool_decide (is_Some (content_blobs (db_tables db) !! h)) ∧
      db_tables db' = set_blobs (alter incr h) (db_tables db)
  end.
Proof.
  intros E. apply stmt_cases in E as [(Hr & Hs & Ht)|(a & db1 & -> & (T & P & F & C & X) & E)].
  - split; [done|]. by destruct r.
  - unfold tables, upd_tables in E. munfold. rw T in E. injection E as <- <-.
    split; [unfold db_step; cbn; split_and!; (lia || congruence)|]. cbn. by rw T.
  - done.
Qed.

Lemma IncrementRefCount_inv h db db' r :
  IncrementRefCount h db = (db', r) → db_step db db' ∧
  db_tables db' = if is_ok r then set_blobs (alter incr h) (db_tables db) else db_tables db.
Proof.
  intros E. apply stmt_cases in E as [(Hr & Hs & Ht)|(a & db1 & -> & (T & P & F & C & X) & E)].
  - split; [done|]. by rw Hr.
  - unfold upd_tables in E. munfold. injection E as <- <-.
    split; [unfold db_step; cbn; split_and!; (lia || congruence)|]. cbn. by rw T.
  - done.
Qed.

Lemma check_file_ok t f : check_file t f = Ok tt →
  is_Some (tget (PackageID f) (packages t)) ∧ is_Some (content_blobs t !! BlobHash f).
Proof.
  unfold check_file. destruct (negb _); [done|].
  case_bool_decide; [|done]. case_bool_decide; [|done]. done.
Qed.

Lemma CreatePackageFile_inv pid i db db' r :
  CreatePackageFile pid i db = (db', r) → db_step db db' ∧
  match r with
  | Err _ => db_tables db' = db_tables db
  | Ok id =>
      let f := MkFileRow id pid (cf_BlobHash i) (cf_Role i) (cf_OriginalFilename i) (cf_SequenceNumber i) 0 in
      id = files_seq db ∧ files_seq db' = id + 1 ∧ check_file (db_tables db) f = Ok tt ∧
      db_tables db' = set_files (tput id f) (db_tables db)
  end.
Proof.
  intros E. apply int4_args_inv in E as [[Hi E]|[-> ->]]; [|by split].
  apply stmt_cases in E as [(Hr & Hs & Ht)|(a & db1 & -> & (T & P & F & C & X) & E)].
  - split; [done|]. by destruct r.
  - unfold get, modify, lift_result, upd_tables in E. munfold. rw T F in E.
    set (f := MkFileRow (files_seq db) _ _ _ _ _ _) in E.
    destruct (check_file (db_tables db) f) as [[]|e] eqn:Ec; [|done].
    case_bool_decide; [done|]. injection E as <- <-. split.
    + unfold db_step. cbn. split_and!; (lia || congruence).
    + cbn. rw ?F ?T. by split_and!.
  - intros db1 db2 e _ E2. unfold get, modify, lift_result, upd_tables in E2. munfold.
    destruct (check_file _ _) as [[]|e']; [case_bool_decide|]; try done; injection E2 as <- <-;
      (split; [|done]); unfold db_step; cbn; split_and!; (lia || done).
Qed.

Lemma CreatePackage_inv i db db' r :
  CreatePackage i db = (db', r) → db_step db db' ∧
  match r with
  | Err _ => db_tables db' = db_tables db
  | Ok id =>
      id = packages_seq db ∧ packages_seq db' = id + 1 ∧
      db_tables db' = set_packages (tput id
        (MkPackage id (cp_SupplierID i) (db_clock db) (cp_PackageHash i) (cp_PayloadType i)
           (cp_StorageMode i) (cp_OriginalFilename i) (cp_CanonicalPackageID i) (cp_FileCount i)
           (cp_UnpackError i) [])) (db_tables db)
  end.
Proof.
  intros E. apply int4_args_inv in E as [[Hi E]|[-> ->]]; [|by split].
  apply stmt_cases in E as [(Hr & Hs & Ht)|(a & db1 & -> & (T & P & F & C & X) & E)].
  - split; [done|]. by destruct r.
  - unfold get, modify, upd_tables in E. munfold.
    destruct (negb _); [done|]. destruct (negb _); [done|]. case_bool_decide; [done|]. injection E as <- <-.
    split; [unfold db_step; cbn; split_and!; (lia || congruence)|]. cbn. rw P T C. done.
  - intros db1 db2 e _ E2. unfold get, modify, upd_tables in E2. munfold.
    destruct (negb _); [|destruct (negb _); [|case_bool_decide]]; try done; injection E2 as <- <-;
      (split; [|done]); unfold db_step; cbn; split_and!; (lia || done).
Qed.

Lemma UpdatePackageAfterUnpack_inv id mode count err db db' r :
  UpdatePackageAfterUnpack id mode count err db = (db', r) → db_step db db' ∧
  match r with
  | Err _ => db_tables db' = db_tables db
  | Ok true => (∃ p, tget id (packages (db_tables db)) = Some p ∧ StorageMode p = "raw_large"%string) ∧
      db_tables db' = set_packages (tmap id (after_unpack mode count err)) (db_tables db)
  | Ok false => db_tables db' = db_tables db
  end.
Proof.
  intros E. apply int4_args_inv in E as [[Hi E]|[-> ->]]; [|by split].
  apply stmt_cases in E as [(Hr & Hs & Ht)|(a & db1 & -> & (T & P & F & C & X) & E)].
  - split; [done|]. by destruct r.
  - unfold tables, upd_tables in E. munfold. rw T in E.
    destruct (tget id (packages (db_tables db))) as [p|] eqn:Ep.
    + destruct (String.eqb_spec (StorageMode p) "raw_large") as [Em|Em].
      * destruct (negb _); [done|]. injection E as <- <-.
        split; [unfold db_step; cbn; split_and!; (lia || congruence)|]. cbn. rw T. eauto.
      * injection E as <- <-. split; [unfold db_step; split_and!; (lia || congruence)|done].
    + injection E as <- <-. split; [unfold db_step; split_and!; (lia || congruence)|done].
  - intros db1 db2 e _ E2. unfold tables, upd_tables in E2. munfold.
    destruct (tget _ _); [|done]. destruct (_ =? _)%string; [|done]. destruct (negb _); [|done].
    by injection E2 as <- <-.
Qed.

Lemma GetPackageForUpdate_inv id db db' r :
  GetPackageForUpdate id db = (db', r) → db_step db db' ∧ db_tables db' = db_tables db ∧
  match r with Ok o => o = tget id (packages (db_tables db)) | Err _ => True end.
Proof. intros E. apply stmt_read in E as [E1 E2]. destruct (same_step _ _ E1). done. Qed.

Lemma FindCanonicalPackageID_inv h db db' r :
  FindCanonicalPackageID h db = (db', r) → db_step db db' ∧ db_tables db' = db_tables db ∧
  match r with
  | Ok o => o = fst <$> head (filter (fun kp => p_PackageHash kp.2 = h) (packages (db_tables db)))
  | Err _ => True
  end.
Proof. intros E. apply stmt_read in E as [E1 E2]. destruct (same_step _ _ E1). done. Qed.

Lemma GetPackage_inv id db db' r :
  GetPackage id db = (db', r) → db_step db db' ∧ db_tables db' = db_tables db ∧
  match r with
  | Ok o => o = with_files (files_of (db_tables db) id) <$> tget id (packages (db_tables db))
  | Err _ => True
  end.
Proof.
  unfold GetPackage. intros E. apply bind_inv in E as [(db1 & o & E1 & E)|(e & E1 & ->)];
    apply stmt_read in E1 as [E1 E2]; destruct (same_step _ _ E1) as [S1 T1]; [|done].
  rw E2 in E. destruct (tget id (packages (db_tables db))) as [p|]; [|munfold; by injection E as <- <-].
  apply bind_inv in E as [(db2 & fs & E3 & E)|(e & E3 & ->)];
    apply stmt_read in E3 as [E3 E4]; destruct (same_step _ _ E3) as [S3 T3].
  - munfold. injection E as <- <-. split; [by etrans|]. split; [congruence|]. by rw E4 T1.
  - split; [by etrans|]. split; [congruence|done].
Qed.

Lemma GetOriginalFile_inv id db db' r :
  GetOriginalFile id db = (db', r) → db_step db db' ∧ db_tables db' = db_tables db ∧
  match r with
  | Ok o => o = head (filter (fun f => Role f = "original"%string) (files_of (db_tables db) id))
  | Err _ => True
  end.
Proof. intros E. apply stmt_read in E as [E1 E2]. destruct (same_step _ _ E1). done. Qed.

End Statements.
