(* ===== verification/Clone.v ===== *)
(** * PostgresRepository.ClonePackageRefs: internal/metadata (repo.go)

    The method reads the canonical package's file rows and, while they are being
    read, inserts copies of them on the same connection.  What becomes of a
    statement that is sent while the rows of another are open is the driver's: a
    parameter.  pgx refuses it, since a connection serves one statement at a time. *)
From S2P Require Import Prelude GoLib Metadata.

Class Rows := { while_open {A} : M DB A → M DB A }.
Definition conn_busy : error := errorf "conn busy".

Section Clone.
Context `{PG} `{Rows}.

Definition with_unpack_error (e : option string) (p : Package) : Package :=
  MkPackage (p_ID p) (SupplierID p) (ReceivedAt p) (p_PackageHash p) (PayloadType p) (StorageMode p)
    (OriginalFilename p) (CanonicalPackageID p) (FileCount p) e (Files p).

Definition file_input (f : PackageFile) : CreateFileInput :=
  MkCreateFile (BlobHash f) (Role f) (pf_OriginalFilename f) (SequenceNumber f).

(** The loop over the rows: it gives the hashes of the copied files. *)
Fixpoint clone_rows (newPackageID : Z) (rows : list PackageFile) : M DB (list bytes) :=
  match rows with
  | [] => mret []
  | f :: rows =>
      do! while_open (CreatePackageFile newPackageID (file_input f));
      let! hashes := clone_rows newPackageID rows in
      mret (BlobHash f :: hashes)
  end.

Definition clone_body (canonicalID newPackageID : Z) : M DB unit :=
  let! canonical := stmt (let! t := tables in mret (tget canonicalID (packages t))) in
  do! match canonical ≫= UnpackError with
      | Some e => stmt (upd_tables (set_packages (tmap newPackageID (with_unpack_error (Some e)))))
      | None => mret tt
      end;
  let! rows := stmt (let! t := tables in mret (filter (fun f => PackageID f = canonicalID) (package_files t).*2)) in
  let! hashes := clone_rows newPackageID rows in
  IncrementRefCounts hashes.

Definition ClonePackageRefs (canonicalID newPackageID : Z) : M DB unit :=
  WithTx id (fun db _ => db) (clone_body canonicalID newPackageID).

(** A transaction whose body fails changes no table. *)
Lemma WithTx_fails (fn : M DB unit) db db' r :
  (∀ db1 db2 r, db_tables db1 = db_tables db → fn db1 = (db2, r) → is_ok r = false) →
  WithTx id (fun db _ => db) fn db = (db', r) → is_ok r = false ∧ db_tables db' = db_tables db.
Proof.
  intros Hfn E. unfold WithTx in E. cbn in E. destruct (begin_tx db) as [db1 r1] eqn:E1.
  assert (db_tables db1 = db_tables db) as Ht.
  { apply stmt_inv in E1. destruct r1 as [[]|e].
    - destruct E1 as (db0 & (Ht & _) & [= <-]). done.
    - destruct E1 as [(Ht & _)|(db0 & db2 & _ & [=] & _)]. done. }
  destruct r1 as [[]|e]; [|by injection E as <- <-].
  destruct (fn db1) as [db2 [[]|e]] eqn:E2; [by specialize (Hfn _ _ _ Ht E2)|]. by injection E as <- <-.
Qed.

(** Both statements before the loop leave the file rows alone. *)
Lemma clone_update_files o new db db' u :
  match o with
  | Some e => stmt (upd_tables (set_packages (tmap new (with_unpack_error (Some e)))))
  | None => mret tt
  end db = (db', Ok u) → package_files (db_tables db') = package_files (db_tables db).
Proof.
  destruct o; [|by intros [= <- <-]]. intros (db1 & (Ht & _) & [= <- <-])%stmt_inv. cbn. by rewrite -> Ht.
Qed.

(** [ClonePackageRefs] cannot clone a package that has files: with a driver that
    refuses a statement while the rows of another are open, the first insertion
    fails, whatever else happens, and the transaction is rolled back. *)
Theorem ClonePackageRefs_fails canonicalID newPackageID k f db db' r :
  (∀ A (m : M DB A) db, while_open m db = (db, Err conn_busy)) →
  (k, f) ∈ package_files (db_tables db) → PackageID f = canonicalID →
  ClonePackageRefs canonicalID newPackageID db = (db', r) → is_ok r = false ∧ db_tables db' = db_tables db.
Proof.
  intros Hbusy Hf Hp. apply WithTx_fails. intros d1 d2 r1 Ht E.
  apply bind_inv in E as [(d3 & o & E3 & E)|(? & _ & ->)]; [|done]. apply stmt_read in E3 as [(T3 & _) _].
  apply bind_inv in E as [(d4 & u & E4 & E)|(? & _ & ->)]; [|done]. apply clone_update_files in E4 as T4.
  apply bind_inv in E as [(d5 & rows & E5 & E)|(? & _ & ->)]; [|done]. apply stmt_read in E5 as [_ ->].
  rewrite -> T4, T3, Ht in E. assert (f ∈ filter (fun f => PackageID f = canonicalID) (package_files (db_tables db)).*2) as Hin.
  { apply list_elem_of_filter. split; [done|]. apply list_elem_of_fmap. by exists (k, f). }
  destruct (filter _ _) as [|g rows]; [by apply not_elem_of_nil in Hin|].
  apply bind_inv in E as [(d6 & hs & E6 & _)|(? & _ & ->)]; [|done]. cbn [clone_rows] in E6.
  unfold mbind, M_bind in E6. by rewrite -> Hbusy in E6.
Qed.
End Clone.

(** The driver's refusal, and a package with one file. *)
Section Demo.
#[local] Instance busy_rows : Rows := {| while_open _ _ := fail conn_busy |}.
#[local] Instance any_text : PG := {| text_ok _ _ := true |}.
Definition cloned_db : DB :=
  let file := MkFileRow 1 1 (bs "h") "original" None None 0 in
  MkDB (MkTables ∅ [] [(1, file)] ∅ []) 3 2 0 false false [].

Lemma ClonePackageRefs_fails_witness : is_ok (ClonePackageRefs 1 2 cloned_db).2 = false.
Proof.
  apply (ClonePackageRefs_fails 1 2 1 (MkFileRow 1 1 (bs "h") "original" None None 0) cloned_db (ClonePackageRefs 1 2 cloned_db).1);
    [done|by left|done|apply surjective_pairing].
Defined.
End Demo.
