(* ===== verification/Disk.v ===== *)
(** * The data directory: segments and their indexes over one file system

    [DiskOps] is what the blob store uses of internal/storage: appending to and
    reading from segments, and adding index entries; [DiskLaws] is what it relies
    on.  The instance shares one directory between the segment manager and the
    segment index, as the server does, and discharges the laws from theirs. *)
From S2P Require Import Prelude GoLib Hash Record FS Segment SegmentStore SegmentDurable SegmentIndex.

Class DiskOps (S : Type) := {
  dk_append : bytes → M S Location;
  dk_read : Z → Z → M S (Z * bytes);
  dk_index : Z → IndexEntry → M S unit;
  dk_inv : S → Prop;
  dk_readable : S → Prop;                 (** reads are not going to fail *)
  dk_stored : S → Z → Z → bytes → Prop;   (** these bytes are at this segment and offset *)
}.

Section laws.
Context {S : Type} `{DiskOps S}.

(** What a call keeps, whether it succeeds or not. *)
Definition dk_le (s s' : S) : Prop :=
  dk_inv s' ∧ ∀ id off d, dk_stored s id off d → dk_stored s' id off d.

Lemma dk_le_refl s : dk_inv s → dk_le s s.
Proof. by split. Qed.

Lemma dk_le_trans s1 s2 s3 : dk_le s1 s2 → dk_le s2 s3 → dk_le s1 s3.
Proof. intros [_ K1] [I K2]. split; auto. Qed.
End laws.

Class DiskLaws (S : Type) `{DiskOps S} := {
  dk_append_law : ∀ r s s' res, dk_inv s → dk_append r s = (s', res) →
    dk_le s s' ∧ match res with Ok loc => dk_stored s' (SegmentID loc) (Offset loc) r | Err _ => True end;
  dk_index_law : ∀ id e s s' res, dk_inv s → dk_index id e s = (s', res) → dk_le s s';
  dk_read_law : ∀ id off s s' res, dk_inv s → 0 <= id → dk_read id off s = (s', res) → dk_le s s';
  dk_read_ok : ∀ id off s m p, dk_inv s → dk_readable s → is_u32 m → is_u32 (zlen p) →
    dk_stored s id off (EncodeRecord m p) → (dk_read id off s).2 = Ok (m, p);
  dk_stored_id : ∀ s id off d, dk_stored s id off d → 0 <= id;
}.

(** ** The shared directory *)
Record Disk : Type := MkDisk { d_sm : SegmentManager; d_idx : gmap Z File; d_fs : FS }.

Definition on_segments {A} (m : M SegState A) : M Disk A :=
  zoom (fun d => MkSeg (d_sm d) (d_fs d)) (fun s d => MkDisk (sg s) (d_idx d) (sg_fs s)) m.
Definition on_index {A} (m : M SegmentIndex A) : M Disk A :=
  zoom (fun d => MkSI (d_idx d) (d_fs d)) (fun s d => MkDisk (d_sm d) (si_files s) (si_fs s)) m.

Definition seg_of (d : Disk) : SegState := MkSeg (d_sm d) (d_fs d).

#[export] Instance disk_ops : DiskOps Disk := {
  dk_append r := on_segments (appendDirect r);
  dk_read id off := on_segments (ReadRecord id off);
  dk_index id e := on_index (Append id e);
  dk_inv d := SegInv (seg_of d);
  dk_readable d := reads_open (seg_of d) ∧ fs_faults (d_fs d) = [];
  dk_stored d id off r := holds i_data (seg_of d) id off r ∧ holds i_stable (seg_of d) id off r;
}.

(** ** Writing an index file leaves the rest of the directory alone *)

(** At most the file named [p] changes. *)
Definition only (p : string) (fs fs' : FS) : Prop :=
  fs_wf fs' ∧ (∀ q, q ≠ p → fs_dir fs' !! q = fs_dir fs !! q) ∧
  (∀ q ino, q ≠ p → fs_dir fs !! q = Some ino → fs_nodes fs' !! ino = fs_nodes fs !! ino) ∧
  (∀ ino, fs_dir fs !! p = Some ino → fs_dir fs' !! p = Some ino).

Lemma only_trans p fs1 fs2 fs3 : only p fs1 fs2 → only p fs2 fs3 → only p fs1 fs3.
Proof.
  intros (W1 & D1 & N1 & P1) (W2 & D2 & N2 & P2). split; [done|]. split.
  { intros q Hq. by rw D2 // D1. } split; [|auto].
  intros q ino Hq Hi. rw (N2 q) //; [by rw D1|]. by apply (N1 q).
Qed.

Lemma only_core p fs fs' : fs_wf fs → fs_core fs' = fs_core fs → only p fs fs'.
Proof.
  intros W Hc. pose proof (fs_wf_core _ _ Hc W) as W'. unfold fs_core in Hc. injection Hc as Hd Hn Hx Hk.
  split; [done|]. rw Hd Hn. done.
Qed.

Lemma only_opened p c fs fs' f : fs_wf fs → opened p c fs fs' f → only p fs fs' ∧ fs_dir fs' !! p = Some (f_ino f).
Proof.
  intros W Hop. pose proof (fs_wf_opened _ _ _ _ _ Hop W) as W'. destruct Hop as (_ & _ & Hm).
  destruct (fs_dir fs !! p) as [ino|] eqn:E.
  - destruct Hm as [Hc ->]. split; [by apply only_core|]. unfold fs_core in Hc. injection Hc as Hd _ _ _. by rw Hd.
  - destruct Hm as (_ & Hf & Hc). unfold fs_core in Hc. injection Hc as Hd Hn Hx Hk.
    split; [|by rw Hd Hf lookup_insert_eq]. split; [done|]. rw Hd Hn. split; [|split; [|by rw E]].
    + intros q Hq. by rw lookup_insert_ne.
    + intros q ino Hq Hi. rw lookup_insert_ne; [|done]. intros <-.
      apply (wf_dir _ W), (wf_next _ W) in Hi. lia.
Qed.

(** A change to the inode of the file named [p] that keeps the stable prefix. *)
Lemma only_alter p ino g fs :
  fs_wf fs → fs_dir fs !! p = Some ino →
  (∀ i, i_stable i `prefix_of` i_data i → i_stable (g i) `prefix_of` i_data (g i)) →
  only p fs (set_nodes (alter g ino) fs).
Proof.
  intros [W1 W2 W3 W4] Hp Hg. split; [split|split; [done|split; [|done]]]; cbn; try done.
  - intros j Hj. apply W1. by apply lookup_alter_is_Some in Hj.
  - intros n j Hj. apply lookup_alter_is_Some. by eapply W2.
  - intros j i Hi. destruct (decide (j = ino)) as [->|Hne].
    + rw lookup_alter_eq in Hi. apply fmap_Some in Hi as (i0 & Hi0 & ->). by apply Hg, (W4 ino).
    + rw lookup_alter_ne // in Hi. by apply (W4 j).
  - intros q j Hq Hj. rw lookup_alter_ne; [|done]. intros ->. apply Hq. by eapply W3.
Qed.

Lemma only_guarded {A} p (m : M FS A) fs fs' r :
  fs_wf fs → (∀ fs0 fs1 r1, fs_wf fs0 → fs_dir fs0 = fs_dir fs → m fs0 = (fs1, r1) → only p fs0 fs1) →
  os.guarded m fs = (fs', r) → only p fs fs'.
Proof.
  intros W Hm H. apply guarded_inv in H as (fs0 & Hc & [H|[-> _]]); [|by apply only_core].
  pose proof (only_core p _ _ W Hc) as O1. eapply only_trans; [exact O1|].
  eapply Hm; [by eapply fs_wf_core| |exact H]. unfold fs_core in Hc. congruence.
Qed.

Lemma write_inode_stable off new now i :
  i_stable i `prefix_of` i_data i →
  i_stable (os.write_inode off new now i) `prefix_of` i_data (os.write_inode off new now i).
Proof.
  intros Hp. unfold os.write_inode, os.splice. cbn.
  etrans; [|apply prefix_app_r; reflexivity]. apply take_prefix_mono. by apply prefix_app_r.
Qed.

Lemma only_WriteAt p f new off fs fs' r :
  fs_wf fs → fs_dir fs !! p = Some (f_ino f) → os.WriteAt f new off fs = (fs', r) → only p fs fs'.
Proof.
  intros W Hp H. unfold os.WriteAt in H.
  apply bind_inv in H as [(fs1 & o & H1 & H)|(e & H1 & ->)]; last first.
  { unfold os.outcome in H1. by destruct (fs_faults fs). }
  assert (fs_core fs1 = fs_core fs) as Hc.
  { unfold os.outcome in H1. destruct (fs_faults fs); by injection H1 as <- <-. }
  pose proof (only_core p _ _ W Hc) as O1. eapply only_trans; [exact O1|].
  destruct O1 as (W1 & _ & _ & P1). apply P1 in Hp.
  apply bind_inv in H as [(fs2 & i & H2 & H)|(e & H2 & ->)]; unfold os.node_of in H2;
    repeat case_match; simplify_eq; try (by apply only_core); munfold; simplify_eq;
    try (by apply only_core); apply only_alter; try done; intros; by apply write_inode_stable.
Qed.

Lemma node_of_state f fs fs' r : os.node_of f fs = (fs', r) → fs' = fs.
Proof. unfold os.node_of. repeat case_match; congruence. Qed.

Lemma only_Write p f new fs fs' r :
  fs_wf fs → fs_dir fs !! p = Some (f_ino f) → os.Write f new fs = (fs', r) →
  only p fs fs' ∧ match r with Ok f' => f_ino f' = f_ino f | Err _ => True end.
Proof.
  intros W Hp H. unfold os.Write in H.
  apply bind_inv in H as [(fs1 & i & K1 & H)|(e & K1 & ->)]; apply node_of_state in K1; subst;
    [|split; [by apply only_core|done]].
  apply bind_inv in H as [(fs2 & n & K2 & H)|(e & K2 & ->)]; apply (only_WriteAt p) in K2; try done.
  munfold. by injection H as <- <-.
Qed.

Lemma only_Sync p f fs fs' r :
  fs_wf fs → fs_dir fs !! p = Some (f_ino f) → os.Sync f fs = (fs', r) → only p fs fs'.
Proof.
  intros W Hp. unfold os.Sync. apply only_guarded; [done|]. intros fs0 fs1 r1 W0 Hd H.
  apply bind_inv in H as [(fs2 & i & K2 & H)|(e & K2 & ->)]; apply node_of_state in K2; subst;
    [|by apply only_core].
  munfold. injection H as <- <-. apply only_alter; [done|by rw Hd|done].
Qed.

Lemma only_read {A} p (m : M FS A) fs fs' r :
  fs_wf fs → (∀ fs, (m fs).1 = fs) → os.guarded m fs = (fs', r) → only p fs fs'.
Proof. intros W Hm H. apply only_core; [done|]. by eapply read_core. Qed.

Lemma only_ReadFile p q fs fs' r : fs_wf fs → os.ReadFile q fs = (fs', r) → only p fs fs'.
Proof. intros W. apply only_read; [done|]. intros fs0. by case_match. Qed.

Lemma only_FStat p f fs fs' r : fs_wf fs → os.FStat f fs = (fs', r) → only p fs fs'.
Proof.
  intros W. apply only_read; [done|]. intros fs0. munfold. unfold os.node_of. repeat case_match; by simplify_eq.
Qed.

Lemma only_WriteFile p new fs fs' r : fs_wf fs → os.WriteFile p new fs = (fs', r) → only p fs fs'.
Proof.
  intros W H. unfold os.WriteFile in H.
  apply bind_inv in H as [(fs1 & f & H1 & H)|(e & H1 & ->)]; apply OpenFile_inv in H1; [|by apply only_core].
  destruct H1 as [Hop _]. destruct (only_opened _ _ _ _ _ W Hop) as [O1 P1].
  eapply only_trans; [exact O1|]. unfold modify in H. erewrite bind_ok in H by reflexivity.
  pose proof (only_alter p (f_ino f) (fun i => Inode [] [] (fs_clock fs1)) fs1 (proj1 O1) P1 ltac:(done)) as O2.
  eapply only_trans; [exact O2|].
  apply bind_inv in H as [(fs3 & n & H3 & H)|(e & H3 & ->)]; apply (only_WriteAt p) in H3; try apply O2; try done.
  munfold. by simplify_eq.
Qed.

Lemma on_idx_inv {A} (m : M FS A) s s' r :
  on_idx m s = (s', r) → ∃ fs', m (si_fs s) = (fs', r) ∧ s' = MkSI (si_files s) fs'.
Proof. unfold on_idx, zoom. destruct (m (si_fs s)) as [fs' r']. intros ?. simplify_eq. eauto. Qed.

Lemma openAppend_only id s s' r :
  fs_wf (si_fs s) → si_files s !! id = None → openAppend id s = (s', r) →
  only (indexPath id) (si_fs s) (si_fs s') ∧
  match r with Ok f => fs_dir (si_fs s') !! indexPath id = Some (f_ino f) | Err _ => True end.
Proof.
  intros W Hn H. unfold openAppend, get in H. erewrite bind_ok in H by reflexivity. rw Hn in H.
  set (p := indexPath id) in *.
  apply bind_inv in H as [(s1 & f & H1 & H)|(e & H1 & ->)]; apply on_idx_inv in H1 as (fs1 & H1 & ->);
    apply OpenFile_inv in H1; [|split; [by apply only_core|done]].
  destruct H1 as [Hop _]. destruct (only_opened _ _ _ _ _ W Hop) as [O1 P1].
  apply bind_inv in H as [(s2 & info & H2 & H)|(e & H2 & ->)]; apply on_idx_inv in H2 as (fs2 & H2 & ->);
    apply (only_FStat p) in H2; try apply O1; cbn [si_fs] in *; pose proof (only_trans _ _ _ _ O1 H2) as O2; [|done].
  assert (fs_dir fs2 !! p = Some (f_ino f)) as P2 by (by apply H2).
  set (m := if IndexFooterSize <=? info.1 then _ else _) in H.
  assert (∀ s3 r3, m (MkSI (si_files s) fs2) = (s3, r3) → only p (si_fs s) (si_fs s3) ∧
    match r3 with Ok f => fs_dir (si_fs s3) !! p = Some (f_ino f) | Err _ => True end) as Hm.
  { intros s3 r3 H3. unfold m in H3. destruct (IndexFooterSize <=? info.1); [|munfold; by injection H3 as <- <-].
    apply bind_inv in H3 as [(s4 & d & H4 & H3)|(e & H4 & ->)]; apply on_idx_inv in H4 as (fs4 & H4 & ->);
      apply (only_ReadFile p) in H4; try apply H2; cbn [si_fs] in *; pose proof (only_trans _ _ _ _ O2 H4) as O4; [|done].
    assert (fs_dir fs4 !! p = Some (f_ino f)) as P4 by (by apply H4).
    destruct (decodeIndexFooter d) as [foot|]; [|munfold; by injection H3 as <- <-].
    apply bind_inv in H3 as [(s5 & u & H5 & H3)|(e & H5 & ->)]; apply on_idx_inv in H5 as (fs5 & H5 & ->);
      apply only_WriteFile in H5; try apply H4; cbn [si_fs] in *; pose proof (only_trans _ _ _ _ O4 H5) as O5; [|done].
    apply on_idx_inv in H3 as (fs6 & H6 & ->). apply OpenFile_inv in H6. cbn [si_fs] in *.
    destruct r3 as [f6|e]; [|split; [|done]; eapply only_trans; [exact O5|]; apply only_core; [apply O5|done]].
    destruct H6 as [Hop6 _]. destruct (only_opened _ _ _ _ _ (proj1 O5) Hop6) as [O6 P6].
    split; [by eapply only_trans|done]. }
  apply bind_inv in H as [(s3 & f3 & H3 & H)|(e & H3 & ->)]; [|by apply Hm in H3].
  unfold SegmentIndex.set_files, modify in H. munfold. injection H as <- <-. by apply Hm in H3.
Qed.

(** An index append, whatever fails, changes the index file only. *)
Lemma index_append_only id e s s' r :
  fs_wf (si_fs s) → Append id e s = (s', r) → only (indexPath id) (si_fs s) (si_fs s').
Proof.
  intros W H. unfold Append, SegmentIndex.set_files, modify in H. erewrite bind_ok in H by reflexivity.
  set (s0 := MkSI (delete id (si_files s)) (si_fs s)) in H.
  set (p := indexPath id). change (si_fs s) with (si_fs s0) in W |- *.
  assert (∀ s1 f, only p (si_fs s0) (si_fs s1) → fs_dir (si_fs s1) !! p = Some (f_ino f) →
    ∀ s2 r2, (let! f := wrap_err "write index entry: " (on_idx (os.Write f (EncodeIndexEntry e))) in
       let! data := on_idx (os.ReadFile (indexPath id)) in
       let! f := wrap_err "write index footer: " (on_idx (os.Write f (encodeIndexFooter
          (zlen (if IndexFooterSize <=? zlen data then strip_footer data else data) / IndexEntrySize) (ie_Offset e)
          (crc32.Checksum crc32.IEEE (if IndexFooterSize <=? zlen data then strip_footer data else data))))) in
       on_idx (os.Sync f)) s1 = (s2, r2) → only p (si_fs s0) (si_fs s2)) as Hrest.
  { intros s1 f O1 Hf s2 r2 H2.
    apply bind_inv in H2 as [(s3 & f3 & H3 & H2)|(e3 & H3 & ->)];
      apply wrap_err_inv in H3 as ([f3'|e3'] & H3 & E3); try done; apply on_idx_inv in H3 as (fs3 & H3 & ->);
      apply (only_Write p _ _ _ _ _ (proj1 O1) Hf) in H3 as [O3 Hf3]; cbn [si_fs] in *;
      pose proof (only_trans _ _ _ _ O1 O3) as O13; [|done].
    injection E3 as ->.
    assert (fs_dir fs3 !! p = Some (f_ino f3')) as Hp3 by (rw Hf3; by apply O3).
    apply bind_inv in H2 as [(s4 & d & H4 & H2)|(e4 & H4 & ->)]; apply on_idx_inv in H4 as (fs4 & H4 & ->);
      apply (only_ReadFile p _ _ _ _ (proj1 O3)) in H4; cbn [si_fs] in *;
      pose proof (only_trans _ _ _ _ O13 H4) as O14; [|done].
    assert (fs_dir fs4 !! p = Some (f_ino f3')) as Hp4 by (by apply H4).
    apply bind_inv in H2 as [(s5 & f5 & H5 & H2)|(e5 & H5 & ->)];
      apply wrap_err_inv in H5 as ([f5'|e5'] & H5 & E5); try done; apply on_idx_inv in H5 as (fs5 & H5 & ->);
      apply (only_Write p _ _ _ _ _ (proj1 H4) Hp4) in H5 as [O5 Hf5]; cbn [si_fs] in *;
      pose proof (only_trans _ _ _ _ O14 O5) as O15; [|done].
    injection E5 as ->. apply on_idx_inv in H2 as (fs6 & H2 & ->).
    apply (only_Sync p _ _ _ _ (proj1 O5)) in H2; [|rw Hf5; by apply O5].
    exact (only_trans _ _ _ _ O15 H2). }
  apply bind_inv in H as [(s1 & f & H1 & H)|(e1 & H1 & ->)].
  - destruct (openAppend_only id s0 s1 (Ok f)) as [O1 Hf]; try done; [by cbn; rw lookup_delete_eq|]. by eapply Hrest.
  - destruct (openAppend_only id s0 s' (Err e1)) as [O1 _]; try done. by cbn; rw lookup_delete_eq.
Qed.

Lemma indexPath_segment id id' : indexPath id ≠ segmentPath id'.
Proof.
  unfold indexPath, segmentPath, segment_name. intros H. apply (f_equal bs) in H. rw !bs_app !app_assoc in H.
  by apply app_inj_2 in H as [_ H].
Qed.

Lemma only_same_segments id fs fs' : only (indexPath id) fs fs' → same_segments fs fs'.
Proof.
  intros (W & D & N & _). split; [done|].
  split; [intros i _; apply D|intros i ino _; apply N]; apply not_eq_sym, indexPath_segment.
Qed.

#[export] Instance disk_laws : DiskLaws Disk.
Proof.
  assert (∀ d s', SegInv s' → ext (seg_of d) s' → dk_le d (MkDisk (sg s') (d_idx d) (sg_fs s'))) as Hle.
  { intros d [sm fs] I X. split; [done|]. intros id off r [H1 H2]. split; by eapply holds_ext. }
  split; cbn.
  - intros r d d' res I H. unfold on_segments, zoom in H.
    destruct (appendDirect r (MkSeg (d_sm d) (d_fs d))) as [s1 r1] eqn:E. injection H as <- <-.
    destruct (appendLocked_post _ _ _ _ _ I E) as (I1 & X1 & _ & Hr). split; [by apply Hle|].
    destruct r1 as [loc|e]; [|done]. destruct s1. destruct Hr as (_ & _ & _ & _ & K1 & K2 & _).
    split; [exact K1|by apply K2].
  - intros id e d d' res I H. unfold on_index, zoom in H.
    destruct (Append id e (MkSI (d_idx d) (d_fs d))) as [s1 r1] eqn:E. injection H as <- <-.
    apply index_append_only in E; [|apply I]. apply only_same_segments in E.
    destruct (other_inv (seg_of d) (si_fs s1) I E) as [I1 X1].
    split; [exact I1|]. intros i off r [H1 H2]. split; by eapply holds_ext.
  - intros id off d d' res I Hid H. unfold on_segments, zoom in H.
    destruct (ReadRecord id off (MkSeg (d_sm d) (d_fs d))) as [s1 r1] eqn:E. injection H as <- <-.
    destruct (ReadRecord_inv _ _ _ _ _ I Hid E) as (I1 & X1 & _). by apply Hle.
  - intros id off d m p I [Hr Hf] Hm Hp [K _]. destruct (ReadRecord_ok (seg_of d) id off m p) as (s' & H & _); try done.
    unfold on_segments, zoom. unfold seg_of in H. by rw H.
  - intros d id off r [(H & _) _]. lia.
Qed.
