(* ===== verification/Ledger.v ===== *)
(** * The data directory with a ledger of its records

    Recovery keeps whole, non-empty records only, so what survives a crash depends
    on what was appended before.  [Logged] is the data directory of Disk.v with a
    ledger, a history variable that no operation reads: the records handed to the
    segment manager since it was started, and whether it was started on a segment
    of whole records.  While the ledger is of whole records the active segment is
    [clean] and everything stored is [durable], through single appends and group
    commits alike; a crash and a start keep everything durable. *)
From S2P Require Import Prelude GoLib Hash Record FS Segment SegmentScan SegmentStore SegmentDurable WriteBuffer SegmentIndex Disk.

(** ** What a scan accepts is whole records *)
Lemma Put_Uint32 l : zlen l = 4 → PutUint32 (Uint32 l) = l.
Proof.
  intros H. unfold Uint32, PutUint32. rewrite -> take_ge by (unfold zlen in H; lia).
  replace 4%nat with (length l) by (unfold zlen in H; lia). apply split_le_combine.
Qed.

Lemma slice_glue {A} (l : list A) a b c : 0 <= a <= b → b <= c → slice a b l ++ slice b c l = slice a c l.
Proof.
  intros H1 H2. unfold slice. replace (Z.to_nat b) with (Z.to_nat a + Z.to_nat (b - a))%nat by lia.
  rewrite <- drop_drop. replace (Z.to_nat (c - a)) with (Z.to_nat (b - a) + Z.to_nat (c - b))%nat by lia.
  apply take_take_drop.
Qed.

Lemma record_at_record data off e :
  0 <= off → record_at data off = Some e → ∃ r, valid_rec r ∧ slice off e data = enc r.
Proof.
  intros H0 H. pose proof (record_at_bounds _ _ _ H0 H) as [Hlo Hhi]. unfold record_at in H.
  destruct (zlen data - off <? HeaderSize) eqn:Eh; [done|]. unfold DecodeRecordHeader in H.
  destruct (zlen (drop (Z.to_nat off) data) <? HeaderSize) eqn:Ed; [done|].
  set (magic := Uint32 (slice 0 4 (drop (Z.to_nat off) data))) in H. set (size := Uint32 (slice 4 8 (drop (Z.to_nat off) data))) in H.
  destruct ((size =? 0) || negb (KnownMagic magic)) eqn:Ek; [done|].
  destruct (zlen data <? off + HeaderSize + size + ChecksumSize) eqn:El; [done|].
  set (payload := slice (off + HeaderSize) (off + HeaderSize + size) data) in H. destruct (RecordChecksum payload =? _) eqn:Ec; [|done]. injection H as <-.
  apply orb_false_iff in Ek as [Es Em]. apply negb_false_iff in Em. apply Z.eqb_eq in Ec.
  assert (is_u32 size) as Hsz by apply Uint32_range. destruct Hsz as [Hsz0 Hsz1].
  assert (∀ a b, 0 <= a <= b → off + b <= zlen data → zlen (slice (off + a) (off + b) data) = b - a) as Hlen.
  { intros a b ? ?. rw zlen_slice; lia. }
  assert (∀ a b, 0 <= a <= b → slice a b (drop (Z.to_nat off) data) = slice (off + a) (off + b) data) as Hdrop.
  { intros a b ?. unfold slice. rewrite -> drop_drop. replace (Z.to_nat off + Z.to_nat a)%nat with (Z.to_nat (off + a)) by lia.
    f_equal. lia. }
  unfold HeaderSize, ChecksumSize in *.
  assert (zlen payload = size) as Hp by (unfold payload; rw zlen_slice; lia).
  exists (MkRec magic payload). split.
  { split; [done|]. cbn. split; [|by rw /is_u32 Hp]. intros Hn. rewrite -> Hn in Hp. change (0 = size) in Hp. lia. }
  unfold enc, EncodeRecord. cbn [r_magic r_payload]. rewrite -> Hp, u32_small, Ec by done.
  assert (magic = Uint32 (slice off (off + 4) data)) as -> by (unfold magic; rewrite -> Hdrop by lia; by rewrite -> Z.add_0_r).
  assert (PutUint32 size = slice (off + 4) (off + 8) data) as -> by (unfold size; rewrite -> Hdrop, Put_Uint32 by (lia || rw Hlen; lia); done).
  rewrite -> !Put_Uint32 by (rw zlen_slice; lia).
  unfold payload. rewrite -> !slice_glue by lia. done.
Qed.

Lemma scan_records fuel data off c : 0 <= off →
  ∃ rs, Forall valid_rec rs ∧ slice off (truncate_loop fuel data off c).1 data = encs rs.
Proof.
  revert off c; induction fuel as [|fuel IH]; intros off c H0; cbn [truncate_loop].
  { exists []. split; [done|]. unfold slice. cbn. by rewrite -> Z.sub_diag. }
  destruct (record_at data off) as [e|] eqn:E; last first.
  { exists []. split; [done|]. unfold slice. cbn. by rewrite -> Z.sub_diag. }
  pose proof (record_at_bounds _ _ _ H0 E). destruct (record_at_record _ _ _ H0 E) as (r & Hr & Hs).
  destruct (IH e (u32 (c + 1)) ltac:(lia)) as (rs & Hrs & Hss). exists (r :: rs). split; [by constructor|].
  rewrite -> encs_cons, <- Hs, <- Hss. symmetry. apply slice_glue; [lia|]. apply truncate_loop_mono. lia.
Qed.

(** Recovery on any file: the whole records at its front, up to the first byte at
    which no whole record starts, and a footer if one follows. *)
Lemma truncateToValid_spec data :
  ∃ rs tail, data = encs rs ++ tail ∧ Forall valid_rec rs ∧ record_at tail 0 = None ∧
    truncateToValid data = (encs rs ++ take (Z.to_nat (footer_len tail)) tail,
      Nat.iter (length rs) (fun c => u32 (c + 1)) 0, zlen (encs rs) + footer_len tail).
Proof.
  destruct (scan_records (S (length data)) data 0 0 ltac:(lia)) as (rs & Hrs & Hs).
  set (n := (truncate_loop _ data 0 0).1) in Hs. pose proof (zlen_nonneg data).
  pose proof (truncate_loop_mono (S (length data)) data 0 0 ltac:(lia)) as H0. fold n in H0.
  pose proof (truncate_loop_le (S (length data)) data 0 0 ltac:(lia)) as Hle. fold n in Hle.
  assert (data = encs rs ++ drop (Z.to_nat n) data) as Hd.
  { rewrite <- Hs. unfold slice. rewrite -> drop_0, Z.sub_0_r. symmetry. apply take_drop. }
  exists rs, (drop (Z.to_nat n) data). split; [done|]. split; [done|].
  assert (record_at (drop (Z.to_nat n) data) 0 = None) as Hn.
  { assert (n = zlen (encs rs) + (scan (drop (Z.to_nat n) data) (Nat.iter (length rs) (fun c => u32 (c + 1)) 0)).1) as E.
    { unfold n at 1. fold (scan data 0). rewrite -> Hd at 1. rewrite -> scan_encs by done. done. }
    assert (zlen (encs rs) = n) as El by (rewrite <- Hs; rewrite -> zlen_slice by lia; lia).
    unfold scan in E. cbn [truncate_loop] in E. destruct (record_at (drop (Z.to_nat n) data) 0) as [e|] eqn:Ee; [|done].
    apply record_at_bounds in Ee; [|lia].
    pose proof (truncate_loop_mono (length (drop (Z.to_nat n) data)) (drop (Z.to_nat n) data) e
      (u32 (Nat.iter (length rs) (fun c => u32 (c + 1)) 0 + 1)) ltac:(lia)). lia. }
  split; [done|]. rewrite -> Hd at 1. by apply truncateToValid_encs.
Qed.

(** ** Records behind whole records *)

(** As [durable], in the data of the segment. *)
Definition placed (s : SegState) (id off : Z) (r : rec) : Prop :=
  0 <= id <= activeID (sg s) ∧ ∃ rs i,
    Forall valid_rec (rs ++ [r]) ∧ off = zlen (encs rs) ∧ seg_node (sg_fs s) id = Some i ∧
    (id = activeID (sg s) → zlen (encs (rs ++ [r])) <= activeOffset (sg s)) ∧
    encs (rs ++ [r]) `prefix_of` i_data i.

Lemma placed_ext s s' id off r : ext s s' → placed s id off r → placed s' id off r.
Proof.
  intros [X1 X2 X3] (Hid & rs & i & Hrs & Ho & Hn & Hl & Hp). split; [lia|].
  destruct (X3 id i Hid Hn) as (i' & Hn' & Hs & _). exists rs, i'. do 3 (split; [done|]).
  split; [intros ->; specialize (X2 ltac:(lia)); lia|]. etrans; [|exact Hs].
  unfold cut. destruct (id <? activeID (sg s)) eqn:E; [done|].
  specialize (Hl ltac:(lia)). destruct Hp as [k ->]. rw take_app_ge; [unfold zlen in Hl; lia|].
  by eexists.
Qed.

(** A placed record that is stable is durable: what is stable is a prefix. *)
Lemma placed_durable s id off r : SegInv s → placed s id off r → holds i_stable s id off (enc r) → durable s id off r.
Proof.
  intros I (Hid & rs & i & Hrs & -> & Hn & Hl & Hp) (_ & _ & _ & j & Hj & Hlen & _). assert (j = i) as -> by congruence.
  split; [done|]. exists rs, i. do 4 (split; [done|]).
  destruct (node_of_path _ _ _ (inv_wf _ I) Hn) as (ino & _ & Hi).
  pose proof (wf_stable _ (inv_wf _ I) _ _ Hi) as Hst.
  rewrite -> encs_snoc in Hp |- *. destruct (prefix_weak_total _ _ _ Hp Hst) as [?|[k Hk]]; [done|].
  pose proof (f_equal zlen Hk) as Hz. rewrite -> !zlen_app in Hz.
  assert (k = []) as -> by (apply zlen_zero_inv; pose proof (zlen_nonneg k); lia). rewrite -> Hk, app_nil_r. done.
Qed.

Definition whole (b : bytes) : Prop := ∃ r, valid_rec r ∧ b = enc r.

(** Appending a whole record keeps the active segment clean and puts the record
    behind whole records. *)
Lemma append_placed b fsync s s' res :
  SegInv s → clean s → whole b → appendLocked b fsync s = (s', res) →
  clean s' ∧ match res with Ok loc => ∃ r, b = enc r ∧ placed s' (SegmentID loc) (Offset loc) r | Err _ => True end.
Proof.
  intros I Hc (r & Hr & ->) H. destruct (clean_append _ _ _ _ _ I Hc Hr H) as [Hc' Hres]. split; [done|].
  destruct (appendLocked_post _ _ _ _ _ I H) as (I' & _ & _ & Hp). destruct res as [loc|e]; [|done].
  destruct Hres as (rs & i & Hi & Hrs & Ho & Ht). destruct Hp as (Hid & _ & _ & Hsum & _).
  exists r. split; [done|]. rw Hid. pose proof (inv_id _ I'). pose proof (inv_off _ I'). split; [lia|]. exists rs, i. do 3 (split; [done|]). split.
  - intros _. rw -Ht zlen_take. lia.
  - rw -Ht. apply take_prefix.
Qed.

Lemma batch_placed batch s s' batch' wrote :
  SegInv s → clean s → Forall (fun pw => pw_err pw = None) batch → Forall whole (pw_record <$> batch) →
  batch_loop batch s = (s', Ok (batch', wrote)) →
  clean s' ∧ ∀ pw, pw ∈ batch' → pw_err pw = None →
    ∃ r, pw_record pw = enc r ∧ placed s' (SegmentID (pw_loc pw)) (Offset (pw_loc pw)) r.
Proof.
  revert s s' batch' wrote. induction batch as [|pw batch IH]; intros s s' batch' wrote I Hc Hf Hw H; cbn [batch_loop] in H.
  { munfold. injection H as <- <- _. split; [done|]. intros pw Hpw. by apply not_elem_of_nil in Hpw. }
  apply Forall_cons in Hf as [Hf1 Hf]. cbn in Hw. apply Forall_cons in Hw as [Hw1 Hw].
  apply bind_inv in H as [(s1 & r1 & H1 & H)|(e & H1 & ?)]; [|done]. apply try_inv in H1 as (r1' & H1 & E1). injection E1 as ->.
  destruct (append_placed _ _ _ _ _ I Hc Hw1 H1) as [Hc1 Hr1].
  pose proof (proj1 (appendLocked_post _ _ _ _ _ I H1)) as I1.
  destruct (batch_loop batch s1) as [s2 r2] eqn:E2. destruct (batch_loop_post _ _ _ _ I1 Hf E2) as (_ & X2 & _ & b2 & w2 & -> & _).
  destruct (IH _ _ _ _ I1 Hc1 Hf Hw E2) as [Hc2 Hb2]. erewrite bind_ok in H by exact E2. cbn [fst snd] in H.
  destruct r1' as [loc|e]; munfold; injection H as <- <- _; (split; [done|]); intros p Hp He; apply elem_of_cons in Hp as [->|Hp]; auto; [|done].
  destruct Hr1 as (r & Er & Hpl). exists r. split; [done|]. by eapply placed_ext.
Qed.

(** Group commit of whole records: what is acknowledged is durable. *)
Lemma batch_clean batch s s' batch' :
  SegInv s → clean s → Forall (fun pw => pw_err pw = None) batch → Forall whole (pw_record <$> batch) →
  batchAppend batch s = (s', Ok batch') →
  clean s' ∧ ∀ pw, pw ∈ batch' → pw_err pw = None →
    ∃ r, pw_record pw = enc r ∧ durable s' (SegmentID (pw_loc pw)) (Offset (pw_loc pw)) r.
Proof.
  intros I Hc Hf Hw H. destruct (batchAppend_inv _ _ _ _ I Hf H) as (I' & _ & b' & [= <-] & Hb').
  unfold batchAppend in H. destruct (batch_loop batch s) as [s1 r1] eqn:E1.
  destruct (batch_loop_post _ _ _ _ I Hf E1) as (I1 & _ & _ & b1 & w1 & -> & _).
  destruct (batch_placed _ _ _ _ _ I Hc Hf Hw E1) as [Hc1 Hp1]. erewrite bind_ok in H by exact E1. cbn in H.
  unfold gets in H. erewrite bind_ok in H by reflexivity. destruct (inv_some _ I1) as [f Ef]. rw Ef in H.
  assert (∀ pw, pw ∈ batch' → pw_err pw = None → ext s1 s' → pw ∈ b1 →
    ∃ r, pw_record pw = enc r ∧ durable s' (SegmentID (pw_loc pw)) (Offset (pw_loc pw)) r) as Hfin.
  { intros pw Hin He X Hin1. destruct (Hp1 pw Hin1 He) as (r & Er & Hpl). exists r. split; [done|].
    apply placed_durable; [done|by eapply placed_ext|]. rewrite <- Er.
    apply list_elem_of_lookup in Hin as [k Hk]. destruct (Forall2_lookup_r _ _ _ _ _ Hb' Hk) as (pw0 & _ & K1 & K2).
    rewrite -> K1. by apply K2. }
  destruct w1; last first.
  { munfold. injection H as -> ->. split; [done|]. intros pw Hin He. by apply Hfin. }
  apply bind_inv in H as [(s2 & r2 & H2 & H)|(e & H2 & ?)]; [|done]. apply try_inv in H2 as (r2' & H2 & E2).
  injection E2 as ->. apply on_fs_inv in H2 as (fs2 & H2 & ->).
  assert (ext s1 (MkSeg (sg s1) fs2) ∧ clean (MkSeg (sg s1) fs2)) as [X2 Hc2].
  { destruct (f_open f) eqn:Eo.
    - destruct (active_opens _ _ I1 Ef Eo) as (i & Hi & Hl & Hn).
      apply (Sync_inv _ _ _ _ i (activeOffset (sg s1))) in H2 as [U _]; [|done|apply I1].
      destruct (upd_step _ _ _ I1 Ef Eo U) as [I2 X2]. split; [done|].
      destruct (ext_active _ _ _ I1 X2 Ef Eo) as (j & j' & Hj & Hj' & Ht). intros k Hk. cbn in Hk, Hj'.
      assert (j' = k) as -> by congruence. destruct (Hc1 j Hj) as (rs & Hrs & Et). exists rs. split; [done|]. cbn. by rw Ht.
    - assert (fs_core fs2 = fs_core (sg_fs s1)) as Hcore.
      { apply guarded_inv in H2 as (fs0 & Hcc & [H2|[-> ->]]); [|done].
        erewrite bind_err in H2 by (by apply node_of_closed). by injection H2 as <- <-. }
      destruct (core_step _ _ I1 Hcore) as [_ X2]. split; [done|]. unfold fs_core in Hcore. injection Hcore as Hd Hn _ _.
      unfold clean, seg_node. cbn. rw Hd Hn. exact Hc1. }
  destruct r2' as [u|e]; munfold; injection H as <- <-; (split; [done|]); intros pw Hin He; [by apply Hfin|].
  apply list_elem_of_fmap in Hin as (pw0 & -> & _). unfold fail_unfailed in He. by destruct (pw_err pw0) eqn:Ep; rw ?Ep in He.
Qed.

(** ** Across a crash *)
Lemma durable_holds s id off r : SegInv s → durable s id off r →
  holds i_data s id off (enc r) ∧ holds i_stable s id off (enc r).
Proof.
  intros I (Hid & rs & i & _ & -> & Hn & Hl & Hp). rewrite -> encs_snoc in Hl, Hp. rewrite -> zlen_app in Hl.
  pose proof (zlen_nonneg (encs rs)). pose proof (zlen_nonneg (enc r)).
  destruct (node_of_path _ _ _ (inv_wf _ I) Hn) as (ino & _ & Hi). pose proof (wf_stable _ (inv_wf _ I) _ _ Hi) as Hst.
  assert (∀ l, encs rs ++ enc r `prefix_of` l → zlen (encs rs) + zlen (enc r) <= zlen l ∧
    slice (zlen (encs rs)) (zlen (encs rs) + zlen (enc r)) l = enc r) as Hsl.
  { intros l [k ->]. rewrite -> !zlen_app. pose proof (zlen_nonneg k). split; [lia|]. rewrite <- app_assoc. by apply slice_app_mid. }
  split; (split; [done|]; split; [done|]; split; [done|]; exists i; split; [done|]; apply Hsl); [by etrans|done].
Qed.

Lemma durable_restarted s fs' maxSize id off r :
  SegInv s → durable s id off r → crash (sg_fs s) fs' → entry_kept (sg_fs s) fs' (segmentPath id) → seg_dir fs' → fs_faults fs' = [] →
  ∃ s', NewSegmentManager maxSize fs' = (s', Ok tt) ∧ restarted fs' s' ∧ durable s' id off r.
Proof.
  intros I D Hcr Hd Hsd Hf. destruct (durable_restart s fs' maxSize id off r I D Hcr Hd Hsd Hf) as (s' & Hs' & R & Hh).
  exists s'. split; [done|]. split; [done|]. destruct D as (Hid & rs & i & Hrs & -> & Hn & _ & Hp).
  unfold entry_kept in Hd. destruct Hcr as (_ & _ & _ & Hnn). destruct (node_of_path _ _ _ (inv_wf _ I) Hn) as (ino & Hino & Hi).
  specialize (Hnn ino). rw Hi in Hnn. inversion Hnn as [? i1 (junk & E1 & E2) EA EB|]. subst x.
  assert (seg_node fs' id = Some i1) as Hn1 by (unfold seg_node; by rw Hd Hino).
  assert (0 <= id < 10000) as Hid' by (split; [lia|]; apply Hsd; [lia|]; rw Hd; by eauto).
  destruct R as (_ & _ & _ & _ & R). destruct (R id i1 Hid' Hn1) as (Hle & i2 & Hn2 & Hi2).
  split; [lia|]. exists rs, i2. do 3 (split; [done|]). rw -E2 in Hp.
  destruct (Z.eqb_spec id (activeID (sg s'))) as [->|Hne]; [|subst i2; by split].
  destruct Hh as (_ & _ & Hoff & _). specialize (Hoff eq_refl). rw encs_snoc (zlen_app (encs rs)).
  split; [done|]. rw -encs_snoc. destruct Hi2 as (_ & _ & _ & D3). etrans; [|exact D3].
  assert (zlen (encs (rs ++ [r])) <= activeOffset (sg s')) by (rw encs_snoc (zlen_app (encs rs)); done).
  destruct Hp as [k ->]. rewrite -> take_app_ge by (unfold zlen in *; lia). by eexists.
Qed.

(** The directory entries of the segments have survived. *)
Definition segments_kept (fs fs' : FS) : Prop := ∀ id, 0 <= id → entry_kept fs fs' (segmentPath id).

(** A crash and a start keep everything durable. *)
Lemma restart_durable s fs' maxSize id0 :
  SegInv s → 0 <= id0 → is_Some (fs_dir (sg_fs s) !! segmentPath id0) →
  crash (sg_fs s) fs' → segments_kept (sg_fs s) fs' → seg_dir fs' → fs_faults fs' = [] →
  ∃ s', NewSegmentManager maxSize fs' = (s', Ok tt) ∧ restarted fs' s' ∧ ∀ id off r, durable s id off r → durable s' id off r.
Proof.
  intros I H0 Hex Hcr Hd Hsd Hf. pose proof (fs_wf_crash _ _ Hcr (inv_wf _ I)) as W.
  destruct (NewSegmentManager_ok maxSize fs' id0 W Hsd Hf H0) as (s' & E & R); [by rw (Hd id0 H0)|].
  exists s'. split; [done|]. split; [done|]. intros id off r D.
  destruct (durable_restarted s fs' maxSize id off r I D Hcr (Hd id ltac:(destruct D; lia)) Hsd Hf) as (s2 & E2 & _ & D2). congruence.
Qed.

(** The active segment is whole records up to the active offset: no footer. *)
Definition whole_segment (s : SegState) : bool :=
  match seg_node (sg_fs s) (activeID (sg s)) with
  | None => true
  | Some i =>
      let d := take (Z.to_nat (activeOffset (sg s))) (i_data i) in
      (truncate_loop (S (length d)) d 0 0).1 =? zlen d
  end.

Lemma whole_segment_clean s : whole_segment s = true → clean s.
Proof.
  unfold whole_segment. intros H i Hi. rewrite -> Hi in H. apply Z.eqb_eq in H. set (d := take _ _) in H |- *.
  destruct (scan_records (S (length d)) d 0 0 ltac:(lia)) as (rs & Hrs & Hs). exists rs. split; [done|].
  rewrite <- Hs, H. unfold slice. rewrite -> drop_0, Z.sub_0_r. symmetry. apply take_ge. unfold zlen. lia.
Qed.

(** ** The directory and its ledger *)
Record Logged : Type := MkLogged { lg_disk : Disk; lg_whole : bool; lg_log : list bytes }.
Definition lg_seg (l : Logged) : SegState := seg_of (lg_disk l).
Definition lg_ok (l : Logged) : Prop := lg_whole l = true ∧ Forall whole (lg_log l).

Definition on_disk {A} (m : M Disk A) : M Logged A := zoom lg_disk (fun d l => MkLogged d (lg_whole l) (lg_log l)) m.
Definition note (records : list bytes) : M Logged unit := modify (fun l => MkLogged (lg_disk l) (lg_whole l) (lg_log l ++ records)).

Definition lg_stored (l : Logged) (id off : Z) (b : bytes) : Prop :=
  dk_stored (lg_disk l) id off b ∧ (lg_ok l → ∃ r, b = enc r ∧ durable (lg_seg l) id off r).

#[export] Instance logged_ops : DiskOps Logged := {
  dk_append b := do! note [b]; on_disk (dk_append b);
  dk_read id off := on_disk (dk_read id off);
  dk_index id e := on_disk (dk_index id e);
  dk_inv l := dk_inv (lg_disk l) ∧ (lg_ok l → clean (lg_seg l));
  dk_readable l := dk_readable (lg_disk l);
  dk_stored := lg_stored;
}.

#[export] Instance logged_appender : batchAppender Logged := {
  ba_run batch l :=
    match on_segments (batchAppend batch) (lg_disk l) with
    | (d, r) => (MkLogged d (lg_whole l) (lg_log l ++ (pw_record <$> batch)),
        match r with Ok batch' => Returned batch' | Err e => Panicked batch (err_msg e) end)
    end;
  ba_inv := dk_inv;
  ba_stored l loc := lg_stored l (SegmentID loc) (Offset loc);
}.

(** What a step of the segments that only adds leaves of the ledger's promises. *)
Lemma lg_stored_ext l l' id off b :
  lg_stored l id off b → ext (lg_seg l) (lg_seg l') → (lg_ok l' → lg_ok l) → lg_stored l' id off b.
Proof.
  intros [[H1 H2] H3] X Hok. split; [split; by eapply holds_ext|]. intros O. destruct (H3 (Hok O)) as (r & -> & D).
  exists r. split; [done|]. by eapply durable_ext.
Qed.

Lemma lg_ok_more d d' w log more : lg_ok (MkLogged d w (log ++ more)) → lg_ok (MkLogged d' w log) ∧ Forall whole more.
Proof. intros [Hw Hl]. cbn in Hl. apply Forall_app in Hl as [? ?]. done. Qed.

Lemma append_logged b l d r : dk_inv l → on_segments (appendDirect b) (lg_disk l) = (d, r) →
  let l' := MkLogged d (lg_whole l) (lg_log l ++ [b]) in
  dk_le l l' ∧ match r with Ok loc => lg_stored l' (SegmentID loc) (Offset loc) b | Err _ => True end.
Proof.
  intros [I Hc] H l'. unfold on_segments, zoom in H. destruct (appendDirect b _) as [s1 r1] eqn:E. injection H as <- <-.
  destruct (appendLocked_post _ _ _ _ _ I E) as (I1 & X1 & _ & Hr).
  assert (lg_seg l' = s1) as Hs1 by (by destruct s1). assert (lg_ok l' → lg_ok l) as Hmore by (intros [O _]%(lg_ok_more _ (lg_disk l)); done).
  assert (lg_ok l' → clean s1 ∧ match r1 with Ok loc => ∃ r, b = enc r ∧ placed s1 (SegmentID loc) (Offset loc) r | Err _ => True end) as Hpl.
  { intros O. apply (lg_ok_more _ (lg_disk l)) in O as [O Hb]. apply Forall_cons in Hb as [Hb _].
    eapply append_placed; [exact I|by apply Hc|exact Hb|exact E]. }
  split; [split|].
  - split; [by destruct s1|]. rewrite -> Hs1. intros O. by apply Hpl.
  - intros id off x Hx. eapply lg_stored_ext; [exact Hx| |done]. by rewrite -> Hs1.
  - destruct r1 as [loc|e]; [|done]. destruct Hr as (_ & _ & _ & _ & K1 & K2 & _).
    split; [destruct s1; split; [exact K1|by apply K2]|]. rewrite -> Hs1. intros O. destruct (Hpl O) as (_ & r & -> & P).
    exists r. split; [done|]. apply placed_durable; [done..|by apply K2].
Qed.

(** Calls that keep the segments as they are. *)
Lemma clean_same s s' : sg s' = with_reads (readFiles (sg s')) (readMeta (sg s')) (sg s) →
  seg_node (sg_fs s') (activeID (sg s)) = seg_node (sg_fs s) (activeID (sg s)) → clean s → clean s'.
Proof.
  intros Hsg Hn Hc i Hi. assert (activeID (sg s') = activeID (sg s) ∧ activeOffset (sg s') = activeOffset (sg s)) as [Ea Eo] by (by rewrite -> Hsg).
  rewrite -> Ea, Hn in Hi. rewrite -> Eo. by apply Hc.
Qed.

Lemma seg_node_core fs fs' id : fs_core fs' = fs_core fs → seg_node fs' id = seg_node fs id.
Proof. unfold fs_core, seg_node. intros [= -> -> _ _]. done. Qed.

Lemma kept_logged l d : dk_inv l → dk_inv d → ext (lg_seg l) (seg_of d) →
  sg (seg_of d) = with_reads (readFiles (d_sm d)) (readMeta (d_sm d)) (sg (lg_seg l)) →
  seg_node (d_fs d) (activeID (sg (lg_seg l))) = seg_node (sg_fs (lg_seg l)) (activeID (sg (lg_seg l))) →
  dk_le l (MkLogged d (lg_whole l) (lg_log l)).
Proof.
  intros [I Hc] Id X Hsg Hn. split; [split; [done|]|].
  - intros O. eapply clean_same; [exact Hsg|exact Hn|]. by apply Hc.
  - intros id off x Hx. by eapply lg_stored_ext.
Qed.

#[export] Instance logged_laws : DiskLaws Logged.
Proof.
  split.
  - intros b l l' r I H. cbn in H. unfold note, modify, on_disk, zoom in H. erewrite bind_ok in H by reflexivity. cbn [lg_disk lg_whole lg_log] in H.
    destruct (on_segments (appendDirect b) (lg_disk l)) as [d r1] eqn:E. cbn in E. injection H as <- <-. by apply append_logged.
  - intros id e l l' r I H. cbn in H. unfold on_disk, zoom, on_index, zoom in H.
    destruct (Append id e _) as [s1 r1] eqn:E. injection H as <- <-.
    apply index_append_only in E; [|apply I]. apply only_same_segments in E. pose proof (inv_id _ (proj1 I)) as H0.
    destruct (other_inv (lg_seg l) (si_fs s1) (proj1 I) E) as [I1 X1]. apply kept_logged; try done; [cbn; unfold with_reads; by destruct (d_sm (lg_disk l))|].
    unfold seg_node. cbn. destruct E as (_ & Ed & En). rewrite -> Ed by done. cbn in *.
    destruct (fs_dir _ !! _) as [ino|] eqn:Ei; [|done]. cbn. by eapply En.
  - intros id off l l' r I Hid H. cbn in H. unfold on_disk, zoom, on_segments, zoom in H.
    destruct (ReadRecord id off _) as [s1 r1] eqn:E. injection H as <- <-.
    destruct (ReadRecord_inv _ _ _ _ _ (proj1 I) Hid E) as (I1 & X1 & _ & Hcore & Hsg). destruct s1 as [sm fs].
    apply kept_logged; try done. by apply seg_node_core.
  - intros id off l m p I Hr Hm Hp [Hst _]. cbn. unfold on_disk, zoom.
    pose proof (dk_read_ok id off (lg_disk l) m p (proj1 I) Hr Hm Hp Hst) as E. cbn in E.
    by destruct (on_segments _ _).
  - intros l id off b [Hst _]. by eapply dk_stored_id.
Qed.

#[export] Instance logged_appender_laws : batchAppenderLaws Logged.
Proof.
  assert (∀ batch l l' o, dk_inv l → Forall fresh_write batch → ba_run batch l = (l', o) →
    ∃ b', o = Returned b' ∧ dk_le l l' ∧ Forall2 (fun pw pw' => pw_record pw' = pw_record pw) batch b' ∧
      ∀ pw, pw ∈ b' → pw_err pw = None → lg_stored l' (SegmentID (pw_loc pw)) (Offset (pw_loc pw)) (pw_record pw)) as Hrun.
  { intros batch l l' o [I Hc] Hf H. cbn in H. unfold on_segments, zoom in H. destruct (batchAppend batch _) as [s1 r] eqn:E.
    injection H as <- <-. destruct (batchAppend_inv _ _ _ _ I Hf E) as (I1 & X1 & b' & -> & Hb). exists b'. split; [done|].
    set (l' := MkLogged _ _ _). assert (lg_seg l' = s1) as Hs1 by (by destruct s1).
    assert (lg_ok l' → lg_ok l) as Hmore by (intros [O _]%(lg_ok_more _ (lg_disk l)); done).
    assert (lg_ok l' → clean s1 ∧ ∀ pw, pw ∈ b' → pw_err pw = None →
      ∃ r, pw_record pw = enc r ∧ durable s1 (SegmentID (pw_loc pw)) (Offset (pw_loc pw)) r) as Hpl.
    { intros O. apply (lg_ok_more _ (lg_disk l)) in O as [O Hb']. eapply batch_clean; [exact I|by apply Hc|done..]. }
    split; [split|split].
    - split; [by destruct s1|]. rewrite -> Hs1. intros O. by apply Hpl.
    - intros id off x Hx. eapply lg_stored_ext; [exact Hx| |done]. by rewrite -> Hs1.
    - eapply Forall2_impl; [exact Hb|]. by intros ?? [? _].
    - intros pw Hin He. split.
      + apply list_elem_of_lookup in Hin as [k Hk]. destruct (Forall2_lookup_r _ _ _ _ _ Hb Hk) as (pw0 & _ & K1 & K2).
        rw K1. destruct s1. by apply K2.
      + rewrite -> Hs1. intros O. by apply Hpl. }
  split.
  - intros batch l l' o I Hf H. destruct (Hrun _ _ _ _ I Hf H) as (b' & -> & Hle & Hb & _). split; [apply Hle|done].
  - intros batch l l' o loc d I Hf H. destruct (Hrun _ _ _ _ I Hf H) as (b' & -> & Hle & _). apply Hle.
  - intros batch l l' b' pw I Hf H. destruct (Hrun _ _ _ _ I Hf H) as (b'' & [= <-] & _ & _ & Hst). by apply Hst.
Qed.
