(* ===== verification/Compress.v ===== *)
(** * Compression: internal/compress (encoder.go, sidecar.go, bootstrap.go)

    The Zstandard codec is a parameter, with the two facts about frames that the
    code relies on; so is the JSON codec for the sidecar's metadata.  Bootstrap.v has
    the training samples. *)
From S2P Require Import Prelude GoLib Hash FS Metadata MetadataInv.

Class Zstd := {
  zstd_dict_ok : bytes → bool;                   (** the dictionary is accepted *)
  EncodeAll : bytes → bytes → bytes;             (** by dictionary ([[]]: none) *)
  DecodeAll : bytes → bytes → result bytes;
  BuildDict : list bytes → result bytes;
}.

Definition isZstdFrame (data : bytes) : bool :=
  match data with
  | a :: b :: c :: d :: _ => Byte.eqb a x28 && Byte.eqb b xb5 && Byte.eqb c x2f && Byte.eqb d xfd
  | _ => false
  end.

Class ZstdLaws `{Zstd} := {
  zstd_round_trip : ∀ dict data, (dict = [] ∨ zstd_dict_ok dict = true) → data ≠ [] →
    DecodeAll dict (EncodeAll dict data) = Ok data;
  zstd_frame : ∀ dict data, data ≠ [] → isZstdFrame (EncodeAll dict data) = true;
}.

Definition DefaultDictSize : Z := 32 * 1024.

(** [e_open]: the codec objects exist ([Close] drops them). *)
Record Encoder : Type := MkEncoder {
  dictID : Z;
  minSize : Z;
  e_dict : bytes;
  e_open : bool;
}.

Section Encoder.
Context `{Zstd}.

Definition NewEncoder (dict : bytes) (min : Z) : result Encoder :=
  let min := if min <=? 0 then 64 else min in
  if (zlen dict =? 0) || zstd_dict_ok dict then Ok (MkEncoder 0 min dict true)
  else Err (errorf "invalid dictionary").

Definition SetDictID (id : Z) (e : Encoder) : Encoder := MkEncoder id (minSize e) (e_dict e) (e_open e).

Definition ShouldCompress (e : Encoder) (size : Z) : bool := minSize e <=? size.

Definition Compress (e : Encoder) (data : bytes) : result bytes :=
  if negb (e_open e) then Ok data else
  let out := EncodeAll (e_dict e) data in
  if zlen data <=? zlen out then Ok data else Ok out.

Definition Decompress (e : Encoder) (data : bytes) : result bytes :=
  if (zlen data <? 4) || negb (isZstdFrame data) then Ok data else
  if negb (e_open e) then Ok data else DecodeAll (e_dict e) data.

Definition enc_Close (e : Encoder) : Encoder := MkEncoder (dictID e) (minSize e) (e_dict e) false.

Definition TrainDictionary (samples : list bytes) (dictSize : Z) : result bytes :=
  match samples with
  | [] => Ok []
  | _ =>
      match BuildDict samples with
      | Err e => if strings.Contains (err_msg e) "dictionary of size" then Ok [] else Err e
      | Ok dict => if zlen dict <? 8 then Ok [] else Ok dict
      end
  end.

(** An encoder as [NewEncoder] makes it. *)
Definition enc_ok (e : Encoder) : Prop :=
  e_open e = true ∧ 0 < minSize e ∧ (e_dict e = [] ∨ zstd_dict_ok (e_dict e) = true).

Lemma isZstdFrame_len d : isZstdFrame d = true → 4 <= zlen d.
Proof. do 4 (destruct d as [|? d]; [done|]). rw !zlen_cons. pose proof (zlen_nonneg d). lia. Qed.

Lemma NewEncoder_ok dict min e : NewEncoder dict min = Ok e → enc_ok e.
Proof.
  unfold NewEncoder. destruct (_ || _) eqn:E; [|done]. intros [= <-]. split; [done|]. cbn.
  split; [destruct (min <=? 0) eqn:Em; lia|].
  apply orb_true_iff in E as [E|E]; [left|by right]. by apply zlen_zero_inv, Z.eqb_eq.
Qed.

(** What is stored compressed decompresses to what was given. *)
Lemma Decompress_Compress `{!ZstdLaws} e data c :
  enc_ok e → Compress e data = Ok c → zlen c < zlen data → Decompress e c = Ok data.
Proof.
  intros (Ho & Hm & Hd) Hc Hlt. unfold Compress in Hc. rw Ho /= in Hc.
  destruct (zlen data <=? zlen (EncodeAll (e_dict e) data)) eqn:E; injection Hc as <-; [lia|].
  assert (data ≠ []) as Hne.
  { intros ->. rw zlen_nil in Hlt. pose proof (zlen_nonneg (EncodeAll (e_dict e) [])). lia. }
  unfold Decompress. rw (zstd_frame _ _ Hne) Ho.
  pose proof (isZstdFrame_len _ (zstd_frame (e_dict e) _ Hne)) as Hlen.
  replace (_ <? 4) with false by lia. cbn. by apply zstd_round_trip.
Qed.
End Encoder.

(** ** The dictionary's sidecar files *)
Record currentMeta : Set := MkMetaFile { cm_DictID : Z; cm_SHA256 : string; cm_Filename : string }.
Class MetaJSON := {
  marshal_meta : currentMeta → bytes;
  unmarshal_meta : bytes → result currentMeta;
}.
Class MetaJSONLaws `{MetaJSON} := {
  meta_round_trip : ∀ m, unmarshal_meta (marshal_meta m) = Ok m;
}.

Definition dictFilename (dictID : Z) (sha : string) : string :=
  "dict_" +:+ fmt_04d dictID +:+ "_" +:+ (if 16 <? Z.of_nat (String.length sha) then String.substring 0 16 sha else sha) +:+ ".zdict".

Section Sidecar.
Context `{MetaJSON}.

Definition Save (dictID : Z) (dict : bytes) : M FS unit :=
  if zlen dict =? 0 then mret tt else
  do! os.MkdirAll;
  let sha := EncodeToString (sha256.Sum256 dict) in
  let name := dictFilename dictID sha in
  let tmp := name +:+ ".tmp" in
  let! f := os.OpenFile tmp true false in
  do! modify (fun fs => set_nodes (alter (fun i => Inode [] [] (fs_clock fs)) (f_ino f)) fs);
  let! w := try (os.Write f dict) in
  match w with
  | Err e => do! ignore (os.Remove tmp); fail e
  | Ok f =>
      let! s := try (os.Sync f) in
      match s with
      | Err e => do! ignore (os.Remove tmp); fail e
      | Ok _ =>
          do! os.Rename tmp name;
          do! os.WriteFile "current.json.tmp" (marshal_meta (MkMetaFile dictID sha name));
          os.Rename "current.json.tmp" "current.json"
      end
  end.

Definition LoadCurrent : M FS (Z * bytes) :=
  let! r := try (os.ReadFile "current.json") in
  match r with
  | Err e => if error_is e ErrNotExist then mret (0, []) else fail e
  | Ok mb =>
      let! meta := lift_result (unmarshal_meta mb) in
      let! dict := os.ReadFile (cm_Filename meta) in
      if (EncodeToString (sha256.Sum256 dict) =? cm_SHA256 meta)%string then mret (cm_DictID meta, dict)
      else fail (errorf "dictionary checksum mismatch")
  end.
End Sidecar.

(** ** Bootstrapping *)

(** The sidecar's directory and the metadata store. *)
Record Boot : Type := MkBoot { bt_fs : FS; bt_db : DB }.
Definition boot_fs {A} (m : M FS A) : M Boot A := zoom bt_fs (fun fs s => MkBoot fs (bt_db s)) m.
Definition boot_db {A} (m : M DB A) : M Boot A := zoom bt_db (fun db s => MkBoot (bt_fs s) db) m.

Section Bootstrap.
Context `{Zstd} `{MetaJSON}.

(** [samples]: what [LoadSamplesFromExamples] returns, an error giving no more
    than a warning. *)
Definition BootstrapEncoder (enabled : bool) (samples : list bytes) (min : Z) : M Boot (option Encoder) :=
  if negb enabled then mret None else
  let! ld := boot_fs LoadCurrent in
  let '(dictID, dict) := ld in
  let! dd :=
    if zlen dict =? 0 then
      let! latest := boot_db GetLatestDictionary in
      let dict := default [] (fst <$> latest) in
      if 0 <? zlen dict then do! ignore (boot_fs (Save 1 dict)); mret (1, dict) else mret (dictID, dict)
    else mret (dictID, dict) in
  let '(dictID, dict) := dd in
  let! dd :=
    if (zlen dict =? 0) && (0 <? zlen samples) then
      let! dict := lift_result (TrainDictionary samples DefaultDictSize) in
      if 0 <? zlen dict then
        do! boot_db (SaveDictionary dict (zlen samples));
        do! boot_fs (Save 1 dict);
        mret (1, dict)
      else mret (dictID, dict)
    else mret (dictID, dict) in
  let '(dictID, dict) := dd in
  let! enc := lift_result (NewEncoder dict min) in
  mret (Some (SetDictID (if (dictID <=? 0) && (0 <? zlen dict) then 1 else dictID) enc)).
End Bootstrap.
