(* ===== verification/Dedup.v ===== *)
(** * The dedup hot index: internal/dedup

    A Bloom filter in front of a key-value store of blob locations.  The filter
    library is a parameter; the store is an interface with the in-memory
    implementation as an instance. *)
From S2P Require Import Prelude GoLib Record Metadata.

(** ** entry.go *)
Record Entry : Set := MkHotEntry { he_SegmentID : Z; he_Offset : Z; he_Size : Z }.

Definition encodeEntry (e : Entry) : bytes :=
  PutUint32 (u32 (he_SegmentID e)) ++ PutUint64 (u64 (he_Offset e)) ++ PutUint32 (u32 (he_Size e)).

Definition decodeEntry (data : bytes) : result Entry :=
  if zlen data <? 16 then Err (errorf "entry value too short") else
  Ok (MkHotEntry (Uint32 (slice 0 4 data)) (i64 (Uint64 (slice 4 12 data))) (Uint32 (slice 12 16 data))).

(** ** bloom.go: the filter of bits-and-blooms *)
Class Bloom := {
  bloom_state : Type;
  bloom_new : Z → bloom_state;               (** for an expected number of items *)
  bloom_add : bytes → bloom_state → bloom_state;
  bloom_test : bloom_state → bytes → bool;
}.
(** A filter never forgets: this is what makes it usable. *)
Class BloomLaws `{Bloom} := {
  bloom_added : ∀ h b, bloom_test (bloom_add h b) h = true;
  bloom_mono : ∀ h h' b, bloom_test b h = true → bloom_test (bloom_add h' b) h = true;
}.

(** ** store.go: the key-value store behind the filter *)
Class kvStore (K : Type) := {
  kv_get : bytes → M K (option Entry);
  kv_put : bytes → Entry → M K unit;
  kv_clear : M K unit;
  kv_close : M K unit;
  kv_len : M K Z;
}.

(** store_memory.go *)
#[export] Instance memoryStore : kvStore (gmap bytes Entry) := {
  kv_get h := gets (fun m => m !! h);
  kv_put h e := modify (<[h := e]>);
  kv_clear := modify (fun _ => ∅);
  kv_close := mret tt;
  kv_len := gets (fun m => Z.of_nat (size m));
}.

(** store_rocksdb.go, over what it uses of RocksDB. *)
Class RocksDB (R : Type) := {
  GetBytes : bytes → M R (option bytes);
  PutBytes : bytes → bytes → M R unit;
  iterate_keys : M R (list bytes);
  write_deletes : list bytes → M R unit;
  CloseDb : M R unit;
}.

#[export] Instance rocksDBStore {R} `{RocksDB R} : kvStore R := {
  kv_get hash :=
    let! val := GetBytes hash in
    match val with
    | None => mret None
    | Some val => let! e := lift_result (decodeEntry val) in mret (Some e)
    end;
  kv_put hash entry := PutBytes hash (encodeEntry entry);
  kv_clear := let! keys := iterate_keys in write_deletes keys;
  kv_close := do! ignore CloseDb; mret tt;
  kv_len := let! keys := iterate_keys in mret (zlen keys);
}.

Section HotIndex.
Context `{Bloom} {K : Type} `{kvStore K}.

Record bloomFilter : Type := MkBloomFilter { bf_f : bloom_state; bf_cap : Z }.
Record HotIndex : Type := MkHot { hi_bloom : bloomFilter; hi_store : K }.

Definition newBloom (expectedItems : Z) : bloomFilter :=
  let n := if expectedItems =? 0 then 1000000 else expectedItems in
  MkBloomFilter (bloom_new n) n.

Definition bloom_Reset (expectedItems : Z) (b : bloomFilter) : bloomFilter :=
  let n := if expectedItems =? 0 then bf_cap b else expectedItems in
  MkBloomFilter (bloom_new n) n.

(** The index of the server; [None] is the "postgres" backend: no hot index. *)
Definition Hot : Type := option HotIndex.

Definition MightContain (hash : bytes) : M Hot bool :=
  gets (fun h => match h with None => true | Some idx => bloom_test (bf_f (hi_bloom idx)) hash end).

(** [Lookup]: an error of the store counts as absent. *)
Definition Lookup (hash : bytes) : M Hot (option Entry) := fun h =>
  match h with
  | None => (h, Ok None)
  | Some idx =>
      match kv_get hash (hi_store idx) with
      | (st, Ok e) => (Some (MkHot (hi_bloom idx) st), Ok e)
      | (st, Err _) => (Some (MkHot (hi_bloom idx) st), Ok None)
      end
  end.

Definition Put (hash : bytes) (entry : Entry) : M Hot unit := fun h =>
  match h with
  | None => (h, Ok tt)
  | Some idx =>
      match kv_put hash entry (hi_store idx) with
      | (st, Err e) => (Some (MkHot (hi_bloom idx) st), Err e)
      | (st, Ok _) =>
          (Some (MkHot (MkBloomFilter (bloom_add hash (bf_f (hi_bloom idx))) (bf_cap (hi_bloom idx))) st), Ok tt)
      end
  end.

Definition on_kv {A} (none : A) (m : M K A) : M Hot A := fun h =>
  match h with
  | None => (h, Ok none)
  | Some idx => let '(st, r) := m (hi_store idx) in (Some (MkHot (hi_bloom idx) st), r)
  end.
Definition hot_Close : M Hot unit := on_kv tt kv_close.
Definition hot_Len : M Hot Z := on_kv 0 kv_len.

Definition entry_of (b : ContentBlob) : Entry := MkHotEntry (cb_SegmentID b) (cb_Offset b) (cb_Size b).

(** [RebuildFromPG], given the blobs the repository listed. *)
Definition RebuildFromPG (blobs : list ContentBlob) (expectedItems : Z) : M Hot unit := fun h =>
  match h with
  | None => (h, Ok tt)
  | Some idx =>
      match kv_clear (hi_store idx) with
      | (st, Err e) => (Some (MkHot (hi_bloom idx) st), Err e)
      | (st, Ok _) =>
          let n := if expectedItems <? zlen blobs then zlen blobs else expectedItems in
          forM_ blobs (fun b => Put (ContentHash b) (entry_of b))
            (Some (MkHot (bloom_Reset n (hi_bloom idx)) st))
      end
  end.
End HotIndex.
Arguments HotIndex {_} K. Arguments Hot {_} K.

(** ** Facts *)

Lemma decodeEntry_encodeEntry e :
  is_u32 (he_SegmentID e) → is_i64 (he_Offset e) → is_u32 (he_Size e) →
  decodeEntry (encodeEntry e) = Ok e.
Proof.
  intros H1 H2 H3. unfold decodeEntry, encodeEntry. rw !zlen_app !zlen_Put32 zlen_Put64. cbn [Z.ltb Z.compare].
  change (4 + (8 + 4) <? 16) with false. cbv iota. rw !u32_small //.
  set (a := PutUint32 _). set (b := PutUint64 _). set (c := PutUint32 _).
  assert (zlen a = 4 ∧ zlen c = 4 ∧ zlen b = 8) as (? & ? & ?)
    by (split_and!; [apply zlen_Put32|apply zlen_Put32|apply zlen_Put64]).
  assert (slice 0 4 (a ++ b ++ c) = a) as -> by (apply slice_app_first; lia).
  assert (slice 4 12 (a ++ b ++ c) = b) as -> by (apply slice_app_mid; lia).
  assert (slice 12 16 (a ++ b ++ c) = c) as -> by (rw app_assoc; apply slice_app_last; rw zlen_app; lia).
  unfold a, b, c. rw !Uint32_Put // Uint64_Put; [apply u64_range|]. rw i64_u64 //. by destruct e.
Qed.

Section facts.
Context `{Bloom} {K : Type} `{kvStore K} `{!BloomLaws}.

(** Every listed hash passes the filter. *)
Definition covers (h : Hot K) (hashes : list bytes) : Prop :=
  ∀ hash, hash ∈ hashes → (MightContain hash h).2 = Ok true.

Lemma Put_covers hash e h h' l :
  Put hash e h = (h', Ok tt) → covers h l → covers h' (hash :: l).
Proof.
  destruct h as [idx|]; cbn; [|by intros [= <-]].
  destruct (kv_put hash e (hi_store idx)) as [st [u|er]]; [|done]. intros [= <-] Hc x Hx. cbn. f_equal.
  apply elem_of_cons in Hx as [->|Hx]; [apply bloom_added|]. apply bloom_mono.
  specialize (Hc x Hx). cbn in Hc. by injection Hc as ->.
Qed.

Lemma puts_cover blobs h h' l :
  forM_ blobs (fun b => Put (ContentHash b) (entry_of b)) h = (h', Ok tt) →
  covers h l → covers h' ((ContentHash <$> blobs) ++ l).
Proof.
  revert h l; induction blobs as [|b blobs IH]; intros h l E1 Hc; cbn [forM_] in E1.
  { munfold. by injection E1 as <-. }
  apply bind_inv in E1 as [(h1 & [] & E2 & E1)|(e & E2 & ?)]; [|done].
  apply Put_covers with (l := l) in E2; [|done]. apply (IH _ _ E1) in E2.
  intros x Hx. apply E2. cbn in Hx. rw elem_of_app elem_of_cons.
  apply elem_of_cons in Hx as [->|Hx]; [right; by left|]. apply elem_of_app in Hx as [Hx|Hx]; auto.
Qed.

(** No false negatives after a rebuild.  When rebuilding the hot index from
    the blob table succeeds, the filter passes every hash of the table, so a blob
    that exists is never taken for new because of the filter. *)
Theorem RebuildFromPG_covers blobs n idx h' :
  RebuildFromPG (K := K) blobs n (Some idx) = (h', Ok tt) → covers h' (ContentHash <$> blobs).
Proof.
  cbn. destruct (kv_clear (hi_store idx)) as [st [u|e]]; [|done]. intros E1.
  apply (puts_cover _ _ _ []) in E1; [|by intros x Hx%not_elem_of_nil]. by rw app_nil_r in E1.
Qed.
End facts.

(** A filter that remembers everything. *)
#[export] Instance set_bloom : Bloom :=
  {| bloom_state := list bytes; bloom_new _ := []; bloom_add h b := h :: b;
     bloom_test b h := bool_decide (h ∈ b) |}.
#[export] Instance set_bloom_laws : BloomLaws.
Proof.
  split; cbn.
  - intros h b. apply bool_decide_eq_true_2. by left.
  - intros h h' b Hb%bool_decide_eq_true_1. apply bool_decide_eq_true_2. by right.
Qed.

Lemma RebuildFromPG_covers_witness :
  let blobs := [MkBlob (bs "h1") 4 16 0 0 1 0; MkBlob (bs "h2") 4 16 0 16 1 0] in
  let idx := MkHot (newBloom 0) (∅ : gmap bytes Entry) in
  covers (RebuildFromPG blobs 10 (Some idx)).1 [bs "h1"; bs "h2"].
Proof.
  apply (RebuildFromPG_covers [MkBlob (bs "h1") 4 16 0 0 1 0; MkBlob (bs "h2") 4 16 0 16 1 0] 10
    (MkHot (newBloom 0) (∅ : gmap bytes Entry))).
  reflexivity.
Defined.
