(* ===== verification/BlobStore.v ===== *)
(** * The blob store: internal/storage/blob_store.go

    Content-addressed storage over the data directory, the metadata transaction
    and the dedup hot index.  Only the metadata part of its state is
    transactional: what was appended to segments and put in the hot index stays
    when the transaction is rolled back. *)
From S2P Require Import Prelude GoLib Hash Record FS Segment SegmentIndex Metadata MetadataInv Disk Compress Dedup.

Definition Sum256 (data : bytes) : bytes := sha256.Sum256 data.

Section BlobStore.
Context {S : Type} `{DiskOps S} {K : Type} `{kvStore K} `{Bloom} `{Zstd} `{PG}.

(** The encoder and whether a segment index is kept are fixed at start. *)
Context (encoder : option Encoder) (withIndex : bool).

Record Store : Type := MkStore { b_disk : S; b_hot : Hot K; b_db : DB }.

Definition on_disk {A} (m : M S A) : M Store A := zoom b_disk (fun d s => MkStore d (b_hot s) (b_db s)) m.
Definition on_hot {A} (m : M (Hot K) A) : M Store A := zoom b_hot (fun h s => MkStore (b_disk s) h (b_db s)) m.
Definition on_db {A} (m : M DB A) : M Store A := zoom b_db (fun db s => MkStore (b_disk s) (b_hot s) db) m.

Definition ContentHashOf (data : bytes) : bytes := Sum256 data.
Definition PackageHash (data : bytes) : bytes := ContentHashOf data.

Definition encodeRecord (data : bytes) (recordType : RecordType) : bytes :=
  let plain := EncodeRecord (Magic recordType) data in
  match encoder with
  | Some e =>
      if bool_decide (recordType = RecordXML) && ShouldCompress e (zlen data) then
        match Compress e data with
        | Ok compressed =>
            if zlen compressed <? zlen data then EncodeRecord MagicXMLC compressed else plain
        | Err _ => plain
        end
      else plain
  | None => plain
  end.

Definition indexPut (hash : bytes) (blob : ContentBlob) : M Store unit := on_hot (Put hash (entry_of blob)).

Definition storeNew (hash data : bytes) (recordType : RecordType) (supplierID : Z) : M Store (bytes * bool) :=
  let record := encodeRecord data recordType in
  let! loc := on_disk (dk_append record) in
  let! now := gets (fun s => db_clock (b_db s)) in
  let blob := MkBlob hash (zlen data) (zlen record) (SegmentID loc) (Offset loc) 1 now in
  let! inserted := wrap_err "insert blob: " (on_db (InsertBlobOrIncrement blob)) in
  if negb inserted then mret (hash, false) else
  let magic := match DecodeRecordHeader record with Ok (m, _) => m | Err _ => 0 end in
  let dict := match encoder with
              | Some e => if IsCompressedXML magic then u32 (dictID e) else 0
              | None => 0
              end in
  do! (if withIndex then
         on_disk (dk_index (SegmentID loc)
           (MkIndexEntry (Offset loc) (u32 (zlen record)) (u32 (zlen data)) magic hash (u32 supplierID) dict))
       else mret tt);
  do! indexPut hash blob;
  mret (hash, true).

Definition StoreOrRef (data : bytes) (recordType : RecordType) (supplierID : Z) : M Store (bytes * bool) :=
  let hash := ContentHashOf data in
  let! might := on_hot (MightContain hash) in
  if negb might then storeNew hash data recordType supplierID else
  let! hit := on_hot (Lookup hash) in
  let! done := match hit with
    | Some _ => on_db (IncrementRefCountIfExists hash)
    | None => mret false
    end in
  if done : bool then mret (hash, false) else
  let! existing := on_db (GetBlob hash) in
  match existing with
  | Some blob =>
      do! on_db (IncrementRefCount hash);
      do! indexPut hash blob;
      mret (hash, false)
  | None => storeNew hash data recordType supplierID
  end.

Definition ReadBlob (blob : ContentBlob) : M Store bytes :=
  let! mp := on_disk (dk_read (cb_SegmentID blob) (cb_Offset blob)) in
  let '(magic, payload) := mp in
  if IsCompressedXML magic then
    match encoder with
    | None => fail (errorf "compressed blob but no encoder configured")
    | Some e => lift_result (Decompress e payload)
    end
  else mret payload.

(** ** What a blob row promises *)

(** What reading a record of this magic and payload gives. *)
Definition decode (magic : Z) (payload : bytes) : result bytes :=
  if IsCompressedXML magic then
    match encoder with
    | None => Err (errorf "compressed blob but no encoder configured")
    | Some e => Decompress e payload
    end
  else Ok payload.

(** The row's location holds a record that decodes to content with the row's
    hash and size. *)
Definition blob_ok (d : S) (b : ContentBlob) : Prop :=
  ∃ data magic payload, ContentHash b = Sum256 data ∧ cb_Size b = zlen data ∧
    dk_stored d (cb_SegmentID b) (cb_Offset b) (EncodeRecord magic payload) ∧
    is_u32 magic ∧ is_u32 (zlen payload) ∧ decode magic payload = Ok data.

Definition blobs_ok (d : S) (t : Tables) : Prop :=
  ∀ h b, content_blobs t !! h = Some b → blob_ok d b.

(** Rows stay, with their content; only ref_count moves. *)
Definition same_blob (b b' : ContentBlob) : Prop :=
  ContentHash b' = ContentHash b ∧ cb_Size b' = cb_Size b ∧
  cb_SegmentID b' = cb_SegmentID b ∧ cb_Offset b' = cb_Offset b.

Definition blobs_le (t t' : Tables) : Prop :=
  ∀ h b, content_blobs t !! h = Some b → ∃ b', content_blobs t' !! h = Some b' ∧ same_blob b b'.

Lemma blobs_le_refl t : blobs_le t t.
Proof. intros h b Hb. exists b. by repeat split. Qed.

Lemma blobs_le_trans t1 t2 t3 : blobs_le t1 t2 → blobs_le t2 t3 → blobs_le t1 t3.
Proof.
  intros L1 L2 h b Hb. destruct (L1 h b Hb) as (b2 & Hb2 & A1 & A2 & A3 & A4).
  destruct (L2 h b2 Hb2) as (b3 & Hb3 & B1 & B2 & B3 & B4). exists b3. split; [done|].
  split_and!; congruence.
Qed.

Lemma blobs_le_incr h t : blobs_le t (set_blobs (alter incr h) t).
Proof.
  intros h' b Hb. cbn. destruct (decide (h' = h)) as [->|Hne].
  - exists (incr b). rw lookup_alter_eq Hb. by repeat split.
  - exists b. by rw lookup_alter_ne.
Qed.

Lemma blob_ok_le `{!DiskLaws S} d d' b : dk_le d d' → blob_ok d b → blob_ok d' b.
Proof.
  intros [_ L] (data & m & p & E1 & E2 & E3 & E4). exists data, m, p. do 2 (split; [done|]).
  split; [by apply L|done].
Qed.

Lemma blob_ok_same d b b' : same_blob b b' → blob_ok d b → blob_ok d b'.
Proof.
  intros (A1 & A2 & A3 & A4) (data & m & p & E). exists data, m, p. by rw A1 A2 A3 A4.
Qed.

Lemma blobs_ok_incr d h t : blobs_ok d t → blobs_ok d (set_blobs (alter incr h) t).
Proof.
  intros B h' b. cbn. destruct (decide (h' = h)) as [->|Hne].
  - rw lookup_alter_eq. intros (b0 & Hb0 & ->)%fmap_Some. eapply (blob_ok_same _ b0); [by repeat split|]. by eapply B.
  - rw lookup_alter_ne //. apply B.
Qed.

(** ** Encoding *)
Lemma encodeRecord_ok `{!ZstdLaws} data rt :
  (∀ e, encoder = Some e → enc_ok e) → is_u32 (zlen data) →
  ∃ magic payload, encodeRecord data rt = EncodeRecord magic payload ∧ is_u32 magic ∧
    is_u32 (zlen payload) ∧ decode magic payload = Ok data.
Proof.
  intros He Hlen.
  assert (∃ magic payload, EncodeRecord (Magic rt) data = EncodeRecord magic payload ∧ is_u32 magic ∧
    is_u32 (zlen payload) ∧ decode magic payload = Ok data) as Hplain.
  { exists (Magic rt), data. split; [done|]. split; [by apply KnownMagic_u32, Magic_known|]. split; [done|].
    unfold decode. by destruct rt. }
  unfold encodeRecord. destruct encoder as [e|] eqn:Ee; [|done].
  destruct (_ && _); [|done]. destruct (Compress e data) as [c|er] eqn:Ec; [|done].
  destruct (zlen c <? zlen data) eqn:El; [|done].
  exists MagicXMLC, c. split; [done|]. split; [by apply KnownMagic_u32|]. pose proof (zlen_nonneg c).
  split; [unfold is_u32 in *; lia|]. unfold decode. cbn. rw Ee.
  apply Decompress_Compress; [by apply He|done|lia].
Qed.

(** ** The invariant and what the operations do to it *)

(** The store's invariant, with references owed by the running transaction. *)
Record store_inv (debt : bytes → Z) (s : Store) : Prop := {
  si_disk : dk_inv (b_disk s);
  si_db : db_inv (db_tables (b_db s)) (packages_seq (b_db s)) (files_seq (b_db s)) debt;
  si_blobs : blobs_ok (b_disk s) (db_tables (b_db s));
}.

(** What an operation leaves alone: packages and files, and every blob's content. *)
Record store_le (s s' : Store) : Prop := {
  sl_disk : dk_le (b_disk s) (b_disk s');
  sl_db : db_step (b_db s) (b_db s');
  sl_blobs : blobs_le (db_tables (b_db s)) (db_tables (b_db s'));
  sl_packages : packages (db_tables (b_db s')) = packages (db_tables (b_db s));
  sl_files : package_files (db_tables (b_db s')) = package_files (db_tables (b_db s));
}.

Lemma store_le_refl debt s : store_inv debt s → store_le s s.
Proof. intros I. split; [by apply dk_le_refl, I|done|apply blobs_le_refl|done|done]. Qed.

Lemma store_le_trans s1 s2 s3 : store_le s1 s2 → store_le s2 s3 → store_le s1 s3.
Proof.
  intros [A1 A2 A3 A4 A5] [B1 B2 B3 B4 B5].
  split; [by eapply dk_le_trans|by etrans|by eapply blobs_le_trans|congruence|congruence].
Qed.

Context `{!DiskLaws S} `{!ZstdLaws}.

(** Steps on one component. *)
Lemma on_disk_step {A} (m : M S A) debt s s' r :
  store_inv debt s → on_disk m s = (s', r) →
  (∀ d' r', m (b_disk s) = (d', r') → dk_le (b_disk s) d') →
  store_inv debt s' ∧ store_le s s' ∧ b_db s' = b_db s ∧ b_hot s' = b_hot s ∧ m (b_disk s) = (b_disk s', r).
Proof.
  intros [I1 I2 I3] E Hm. unfold on_disk, zoom in E. destruct (m (b_disk s)) as [d' r'] eqn:Em.
  injection E as <- <-. specialize (Hm _ _ eq_refl). cbn. split; [|split; [|done]].
  - split; cbn; [apply Hm|done|]. intros h b Hb. eapply blob_ok_le; [done|by eapply I3].
  - split; cbn; [done|done|apply blobs_le_refl|done|done].
Qed.

Lemma on_hot_step {A} (m : M (Hot K) A) debt s s' r :
  store_inv debt s → on_hot m s = (s', r) →
  store_inv debt s' ∧ store_le s s' ∧ b_db s' = b_db s ∧ b_disk s' = b_disk s.
Proof.
  intros [I1 I2 I3] E. unfold on_hot, zoom in E. destruct (m (b_hot s)) as [h' r'] eqn:Em.
  injection E as <- <-. cbn. split; [by split|]. split; [|done].
  split; cbn; [by apply dk_le_refl|done|apply blobs_le_refl|done|done].
Qed.

Lemma on_db_inv {A} (m : M DB A) s s' r :
  on_db m s = (s', r) → ∃ db', m (b_db s) = (db', r) ∧ s' = MkStore (b_disk s) (b_hot s) db'.
Proof. unfold on_db, zoom. destruct (m (b_db s)) as [db' r']. intros [= <- <-]. eauto. Qed.

(** A statement that left the tables alone. *)
Lemma db_same_step debt s db' :
  store_inv debt s → db_step (b_db s) db' → db_tables db' = db_tables (b_db s) →
  store_inv debt (MkStore (b_disk s) (b_hot s) db') ∧ store_le s (MkStore (b_disk s) (b_hot s) db').
Proof.
  intros [I1 I2 I3] Hs Ht. split.
  - split; cbn; rw ?Ht; try done. destruct Hs as (? & ? & _). by eapply db_inv_seqs.
  - split; cbn; rw ?Ht; first [done|by apply dk_le_refl|apply blobs_le_refl].
Qed.

(** A statement that took one more reference to an existing blob. *)
Lemma db_incr_step debt s db' h :
  store_inv debt s → db_step (b_db s) db' →
  db_tables db' = set_blobs (alter incr h) (db_tables (b_db s)) → is_Some (content_blobs (db_tables (b_db s)) !! h) →
  store_inv (owe h 1 debt) (MkStore (b_disk s) (b_hot s) db') ∧ store_le s (MkStore (b_disk s) (b_hot s) db').
Proof.
  intros [I1 I2 I3] Hs Ht Hh. split.
  - split; cbn; rw ?Ht; [done| |by apply blobs_ok_incr].
    destruct Hs as (? & ? & _). eapply db_inv_seqs; [done|done|]. by apply db_inv_incr.
  - split; cbn; rw ?Ht; first [done|by apply dk_le_refl|apply blobs_le_incr].
Qed.

(** The outcome of [StoreOrRef]: a reference is taken, and owed; on an error one
    may have been taken without being reported. *)
Definition stored_post (data : bytes) (debt : bytes → Z) (s s' : Store) (r : result (bytes * bool)) : Prop :=
  store_le s s' ∧
  match r with
  | Ok (h, created) => h = Sum256 data ∧ store_inv (owe h 1 debt) s' ∧
      is_Some (content_blobs (db_tables (b_db s')) !! h) ∧
      created = bool_decide (content_blobs (db_tables (b_db s)) !! h = None)
  | Err _ => store_inv debt s' ∨ store_inv (owe (Sum256 data) 1 debt) s'
  end.

Lemma stored_post_pre data debt s s0 s' r :
  store_le s s0 → db_tables (b_db s0) = db_tables (b_db s) →
  stored_post data debt s0 s' r → stored_post data debt s s' r.
Proof.
  intros L T [L' Hr]. split; [by eapply store_le_trans|]. destruct r as [[h c]|e]; [|done]. by rw -T.
Qed.

Lemma bind_step {A B} (m : M Store A) (k : A → M Store B) s s' r :
  (m ≫= k) s = (s', r) → ∃ s1 r1, m s = (s1, r1) ∧
    match r1 with Ok a => k a s1 = (s', r) | Err e => s' = s1 ∧ r = Err e end.
Proof.
  intros E. apply bind_inv in E as [(s1 & a & E1 & E)|(e & E1 & ->)].
  - by exists s1, (Ok a).
  - by exists s', (Err e).
Qed.

Context (Henc : ∀ e, encoder = Some e → enc_ok e).

Lemma storeNew_post debt data rt sup s s' r :
  store_inv debt s → storeNew (Sum256 data) data rt sup s = (s', r) → stored_post data debt s s' r.
Proof.
  intros I E. unfold storeNew in E. set (h := Sum256 data) in *. set (rec := encodeRecord data rt) in *.
  apply bind_step in E as (s1 & r1 & E1 & E).
  apply on_disk_step with (debt := debt) in E1 as (I1 & L1 & D1 & _ & E1); [|done|intros; by eapply dk_append_law; [apply I|]].
  destruct (dk_append_law _ _ _ _ (si_disk _ _ I) E1) as [_ Hst].
  destruct r1 as [loc|e]; [|destruct E as [-> ->]; split; [done|by left]].
  unfold gets in E. erewrite bind_ok in E by reflexivity.
  set (blob := MkBlob h _ _ _ _ _ _) in E.
  apply bind_step in E as (s2 & r2 & E2 & E). apply wrap_err_inv in E2 as (r2' & E2 & E2').
  apply on_db_inv in E2 as (db2 & E2 & ->). apply InsertBlobOrIncrement_inv in E2 as [S2 T2].
  destruct r2' as [ins|e2]; last first.
  { destruct r2 as [?|e2']; [done|]. destruct E as [-> ->].
    destruct (db_same_step debt s1 db2 I1 S2 T2) as [I2 L2]. split; [by eapply store_le_trans|by left]. }
  subst r2. destruct T2 as [Hint T2]. cbn [ContentHash blob] in T2. rw D1 in T2.
  assert (is_u32 (zlen data)) as Hlen.
  { unfold blob_ints, int4 in Hint. cbn in Hint. pose proof (zlen_nonneg data). unfold is_u32. lia. }
  destruct (encodeRecord_ok data rt Henc Hlen) as (m & p & Hrec & Hm & Hp & Hdec).
  destruct (content_blobs (db_tables (b_db s)) !! h) as [b0|] eqn:Eb; destruct T2 as [-> T2].
  { rw -D1 in T2. assert (is_Some (content_blobs (db_tables (b_db s1)) !! h)) as Hsome by (rw D1 Eb; eauto).
    destruct (db_incr_step debt s1 db2 h I1 S2 T2 Hsome) as [I2 L2]. munfold. injection E as <- <-.
    split; [by eapply store_le_trans|]. split; [done|]. split; [done|]. split.
    - cbn. rw T2. by apply lookup_alter_is_Some.
    - by rw Eb. }
  set (s2 := MkStore (b_disk s1) (b_hot s1) db2) in *.
  assert (store_inv (owe h 1 debt) s2 ∧ store_le s1 s2) as [I2 L2].
  { split.
    - split; cbn; rw ?T2; [apply I1| |].
      + destruct S2 as (? & ? & _). eapply db_inv_seqs; [done|done|]. pose proof (si_db _ _ I1) as X. rw D1 in X |- *.
        by apply (db_inv_insert _ _ _ _ blob X).
      + intros h' b. cbn. destruct (decide (h' = h)) as [->|Hne].
        * rw lookup_insert_eq. intros [= <-]. exists data, m, p. cbn. rw -Hrec. split_and!; try done; by destruct Hp.
        * rw lookup_insert_ne //. rw -D1. apply I1.
    - split; cbn; rw ?T2; [apply dk_le_refl, I1|done| |by rw D1|by rw D1].
      intros h' b Hb. rw D1 in Hb. cbn. rw lookup_insert_ne; [congruence|]. exists b. by rw Hb. }
  assert (is_Some (content_blobs (db_tables db2) !! h)) as Hsome by (rw T2 /= lookup_insert_eq; eauto).
  pose proof (store_le_trans _ _ _ L1 L2) as L12.
  apply bind_step in E as (s3 & r3 & E3 & E).
  assert (store_inv (owe h 1 debt) s3 ∧ store_le s2 s3 ∧ b_db s3 = db2) as (I3 & L3 & D3).
  { destruct withIndex; [|munfold; injection E3 as <- <-; pose proof (store_le_refl _ _ I2); done].
    apply on_disk_step with (debt := owe h 1 debt) in E3 as (? & ? & ? & _); [done|done|].
    intros d' r' Ed. eapply dk_index_law; [apply I2|exact Ed]. }
  pose proof (store_le_trans _ _ _ L12 L3) as L13.
  destruct r3 as [u|e]; [|destruct E as [-> ->]; split; [done|by right]].
  apply bind_step in E as (s4 & r4 & E4 & E). apply on_hot_step with (debt := owe h 1 debt) in E4 as (I4 & L4 & D4 & _); [|done].
  pose proof (store_le_trans _ _ _ L13 L4) as L14.
  destruct r4 as [u'|e]; [|destruct E as [-> ->]; split; [done|by right]].
  munfold. injection E as <- <-. split; [done|]. split; [done|]. split; [done|]. by rw D4 D3 Eb.
Qed.

(** [StoreOrRef] takes exactly one reference, to content with the data's hash,
    whatever the hot index says. *)
Lemma StoreOrRef_post debt data rt sup s s' r :
  store_inv debt s → StoreOrRef data rt sup s = (s', r) → stored_post data debt s s' r.
Proof.
  intros I E. unfold StoreOrRef in E. set (h := ContentHashOf data) in *.
  apply bind_step in E as (s1 & r1 & E1 & E). apply on_hot_step with (debt := debt) in E1 as (I1 & L1 & D1 & _); [|done].
  destruct r1 as [might|e]; [|destruct E as [-> ->]; split; [done|by left]].
  destruct might; cbn [negb] in E; last first.
  { eapply (stored_post_pre _ _ _ s1); [done|by rw D1|]. by eapply storeNew_post. }
  apply bind_step in E as (s2 & r2 & E2 & E). apply on_hot_step with (debt := debt) in E2 as (I2 & L2 & D2 & _); [|done].
  pose proof (store_le_trans _ _ _ L1 L2) as L12.
  destruct r2 as [hit|e]; [|destruct E as [-> ->]; split; [done|by left]].
  apply bind_step in E as (s3 & r3 & E3 & E).
  assert ((store_inv debt s3 ∧ store_le s2 s3 ∧ db_tables (b_db s3) = db_tables (b_db s) ∧ r3 ≠ Ok true) ∨
    (r3 = Ok true ∧ store_inv (owe h 1 debt) s3 ∧ store_le s2 s3 ∧
     is_Some (content_blobs (db_tables (b_db s)) !! h) ∧
     is_Some (content_blobs (db_tables (b_db s3)) !! h))) as [(I3 & L3 & T3 & Hr3)|(-> & I3 & L3 & Hold & Hnew)].
  { destruct hit as [en|]; [|left; munfold; injection E3 as <- <-; pose proof (store_le_refl _ _ I2); by rw D2 D1].
    apply on_db_inv in E3 as (db3 & E3 & ->). apply IncrementRefCountIfExists_inv in E3 as [S3 T3].
    destruct r3 as [upd|e]; last first.
    { left. destruct (db_same_step debt s2 db3 I2 S3 T3). cbn. by rw T3 D2 D1. }
    destruct T3 as [-> T3]. case_bool_decide as Hx.
    - right. destruct (db_incr_step debt s2 db3 h I2 S3 T3 Hx). cbn. rw T3 /=. rw D2 D1 in Hx |- *.
      split_and!; try done. by apply lookup_alter_is_Some.
    - left. assert (db_tables db3 = db_tables (b_db s2)) as T3'.
      { rw T3. destruct (db_tables (b_db s2)) as [cb ? ? ? ?]. unfold set_blobs. cbn in *. f_equal.
        apply map_eq. intros k. destruct (decide (k = h)) as [->|]; [|by rw lookup_alter_ne].
        rw lookup_alter_eq. destruct (cb !! h) eqn:Eh; [|done]. exfalso. apply Hx. eauto. }
      destruct (db_same_step debt s2 db3 I2 S3 T3'). cbn. by rw T3' D2 D1. }
  2:{ munfold. injection E as <- <-. split; [by eapply store_le_trans|]. split; [done|]. split; [done|].
      split; [done|]. symmetry. apply bool_decide_eq_false_2. destruct Hold. congruence. }
  pose proof (store_le_trans _ _ _ L12 L3) as L13.
  destruct r3 as [[]|e]; [done| |destruct E as [-> ->]; split; [done|by left]].
  apply bind_step in E as (s4 & r4 & E4 & E). apply on_db_inv in E4 as (db4 & E4 & ->).
  apply GetBlob_inv in E4 as (S4 & T4 & R4). destruct (db_same_step debt s3 db4 I3 S4 T4) as [I4 L4].
  set (s4 := MkStore (b_disk s3) (b_hot s3) db4) in *. pose proof (store_le_trans _ _ _ L13 L4) as L14.
  destruct r4 as [existing|e]; [|destruct E as [-> ->]; split; [done|by left]].
  rw T3 in R4. destruct existing as [blob|]; last first.
  { eapply (stored_post_pre _ _ _ s4); [done|cbn; congruence|]. by eapply storeNew_post. }
  assert (is_Some (content_blobs (db_tables (b_db s4)) !! h)) as Hs4 by (cbn; rw T4 T3 -R4; eauto).
  apply bind_step in E as (s5 & r5 & E5 & E). apply on_db_inv in E5 as (db5 & E5 & ->).
  apply IncrementRefCount_inv in E5 as [S5 T5].
  destruct r5 as [u|e]; cbn [is_ok] in T5; last first.
  { destruct E as [-> ->]. destruct (db_same_step debt s4 db5 I4 S5 T5) as [I5 L5].
    split; [by eapply store_le_trans|by left]. }
  destruct (db_incr_step debt s4 db5 h I4 S5 T5 Hs4) as [I5 L5].
  pose proof (store_le_trans _ _ _ L14 L5) as L15.
  apply bind_step in E as (s6 & r6 & E6 & E). apply on_hot_step with (debt := owe h 1 debt) in E6 as (I6 & L6 & D6 & _); [|done].
  pose proof (store_le_trans _ _ _ L15 L6) as L16.
  destruct r6 as [u'|e]; [|destruct E as [-> ->]; split; [done|by right]].
  munfold. injection E as <- <-. split; [done|]. split; [done|]. split; [done|]. split.
  - rw D6. cbn [b_db]. rw T5. by apply lookup_alter_is_Some.
  - by rw -R4.
Qed.

End BlobStore.
Arguments Store S K {_}.

Section Claims.
Context {S : Type} `{DiskLaws S} {K : Type} `{kvStore K} `{Bloom} `{ZstdLaws} `{PG}.
Context (encoder : option Encoder) (withIndex : bool).

(** Reading a row of the table gives content with the row's hash and size. *)
Lemma ReadBlob_ok debt (s : Store S K) h b :
  store_inv encoder debt s → dk_readable (b_disk s) → content_blobs (db_tables (b_db s)) !! h = Some b →
  ∃ data, (ReadBlob encoder b s).2 = Ok data ∧ Sum256 data = h ∧ zlen data = cb_Size b.
Proof.
  intros I Hr Hb. destruct (si_blobs _ _ _ I h b Hb) as (data & m & p & E1 & E2 & E3 & E4 & E5 & E6).
  exists data. pose proof (dk_read_ok _ _ _ m p (si_disk _ _ _ I) Hr E4 E5 E3) as Hread.
  destruct (ri_blob _ _ _ _ (si_db _ _ _ I) h b Hb) as [Hh _]. split; [|by rw -E1].
  unfold ReadBlob, on_disk. munfold. destruct (dk_read (cb_SegmentID b) (cb_Offset b) (b_disk s)) as [d r] eqn:Ed.
  cbn in Hread. subst r. unfold decode in E6. destruct (IsCompressedXML m); [|by injection E6 as ->].
  destruct encoder; [|done]. by rw E6.
Qed.

(** C7: content addressing.  Whatever the hot index holds and whatever fails on
    the way, storing data either fails or yields the data's SHA-256 with one
    reference taken; the row of every hash, old or new, reads back as content with
    exactly that hash. *)
Theorem StoreOrRef_content debt data rt sup (s s' : Store S K) r :
  (∀ e, encoder = Some e → enc_ok e) → store_inv encoder debt s →
  StoreOrRef encoder withIndex data rt sup s = (s', r) → dk_readable (b_disk s') →
  (∀ h b, content_blobs (db_tables (b_db s')) !! h = Some b →
     ∃ d, (ReadBlob encoder b s').2 = Ok d ∧ Sum256 d = h) ∧
  match r with
  | Ok (h, created) => h = Sum256 data ∧ is_Some (content_blobs (db_tables (b_db s')) !! h) ∧
      created = bool_decide (content_blobs (db_tables (b_db s)) !! h = None) ∧
      db_inv (db_tables (b_db s')) (packages_seq (b_db s')) (files_seq (b_db s')) (owe h 1 debt)
  | Err _ => True
  end.
Proof.
  intros He I E Hr. destruct (StoreOrRef_post encoder withIndex He debt data rt sup s s' r I E) as [L Hp].
  split.
  - intros h b Hb.
    assert (∃ debt', store_inv encoder debt' s') as [debt' I'].
    { destruct r as [[h' c]|e]; [destruct Hp as (_ & ? & _); by eauto|]. destruct Hp; eauto. }
    destruct (ReadBlob_ok debt' s' h b I' Hr Hb) as (d & E1 & E2 & _). eauto.
  - destruct r as [[h c]|e]; [|done]. destruct Hp as (-> & I' & Hs & Hc). split_and!; try done. by apply I'.
Qed.
End Claims.

(** ** Concrete parameters *)

(** Frames that hold the data as it is. *)
#[export] Instance stored_zstd : Zstd := {|
  zstd_dict_ok _ := true;
  EncodeAll _ data := [x28; xb5; x2f; xfd] ++ data;
  DecodeAll _ frame := Ok (drop 4 frame);
  BuildDict _ := Ok [];
|}.
#[export] Instance stored_zstd_laws : ZstdLaws.
Proof. by split. Qed.

(** A server that takes every text. *)
#[export] Instance any_text : PG := {| text_ok _ _ := true |}.

Definition demo_encoder : option Encoder := Some (MkEncoder 1 64 [] true).
Lemma demo_encoder_ok e : demo_encoder = Some e → enc_ok e.
Proof. intros [= <-]. split; [done|]. split; [done|]. by left. Qed.

Definition demo_disk : Disk := MkDisk (sg (SegmentDurable.fresh 1000)) ∅ (sg_fs (SegmentDurable.fresh 1000)).
Lemma demo_disk_ok : dk_inv demo_disk ∧ dk_readable demo_disk.
Proof.
  destruct (SegmentDurable.fresh_inv 1000) as (I & _ & R & F). change (seg_of demo_disk) with (SegmentDurable.fresh 1000).
  split; [exact I|]. split; [exact R|exact F].
Qed.

Definition demo_store : Store Disk (gmap bytes Entry) :=
  MkStore demo_disk (Some (MkHot (newBloom 0) ∅)) (empty_db 0 []).
Lemma demo_store_inv : store_inv demo_encoder no_debt demo_store.
Proof.
  split; [apply demo_disk_ok|apply (empty_db_ok 0 [])|]. intros h b Hb. cbn in Hb. by rw lookup_empty in Hb.
Qed.

Definition demo_xml : bytes := bs "<a/>".

Lemma StoreOrRef_content_witness :
  let res := StoreOrRef demo_encoder true demo_xml RecordXML 7 demo_store in
  (∀ h b, content_blobs (db_tables (b_db res.1)) !! h = Some b →
     ∃ d, (ReadBlob demo_encoder b res.1).2 = Ok d ∧ Sum256 d = h) ∧
  match res.2 with
  | Ok (h, created) => h = Sum256 demo_xml ∧ is_Some (content_blobs (db_tables (b_db res.1)) !! h) ∧
      created = bool_decide (content_blobs (db_tables (b_db demo_store)) !! h = None) ∧
      db_inv (db_tables (b_db res.1)) (packages_seq (b_db res.1)) (files_seq (b_db res.1)) (owe h 1 no_debt)
  | Err _ => True
  end.
Proof.
  apply (StoreOrRef_content demo_encoder true no_debt demo_xml RecordXML 7 demo_store).
  - exact demo_encoder_ok.
  - exact demo_store_inv.
  - apply surjective_pairing.
  - split; [|vm_compute; reflexivity]. intros id f Hf.
    assert (readFiles (d_sm (b_disk (StoreOrRef demo_encoder true demo_xml RecordXML 7 demo_store).1)) = ∅) as E
      by (vm_compute; reflexivity).
    unfold seg_of in Hf. cbn [sg] in Hf. by rw E lookup_empty in Hf.
Defined.
