(* ===== verification/Detect.v ===== *)
(** * Payload detection and ZIP unpacking: internal/ingestion/detect.go

    What archive/zip makes of a body is a parameter: the list of its entries,
    each with its name, its declared size and the bytes its reader yields, with
    the error the reader may end in. *)
From S2P Require Import Prelude GoLib.

Inductive PayloadType : Set := PayloadZIP | PayloadXML.
#[export] Instance PayloadType_eq_dec : EqDecision PayloadType.
Proof. solve_decision. Defined.
Definition payload_string (t : PayloadType) : string :=
  match t with PayloadZIP => "zip" | PayloadXML => "xml" end.

Record zip_file : Type := MkZipFile {
  zf_Name : string;
  zf_IsDir : bool;
  UncompressedSize64 : Z;              (** as declared, an unsigned 64-bit number *)
  zf_open : result unit;
  zf_stream : bytes;                   (** what the reader yields *)
  zf_end : option error;               (** the error it ends in, if not EOF *)
}.

Class ZipLib := { zipReader : bytes → result (list zip_file) }.

Definition DefaultMaxUnpackedZipBytes : Z := 512 * 1024 * 1024.
Definition effectiveMaxUnpackedZipBytes (maxUnpacked : Z) : Z :=
  if 0 <? maxUnpacked then maxUnpacked else DefaultMaxUnpackedZipBytes.

Definition DetectPayload (data : bytes) : result PayloadType :=
  match data with
  | a :: b :: _ :: _ :: _ =>
      if Byte.eqb a x50 && Byte.eqb b x4b then Ok PayloadZIP else
      let trimmed := strings.TrimSpace (str data) in
      if strings.HasPrefix trimmed "<?xml" || strings.HasPrefix trimmed "<" then Ok PayloadXML
      else Err (errorf "unsupported payload type")
  | _ => Err (errorf "payload too small")
  end.

Definition IsZip (data : bytes) : bool :=
  match DetectPayload data with Ok PayloadZIP => true | _ => false end.

Definition shouldSkipZipEntry (name : string) (isDir : bool) : bool := isDir || strings.Contains name "..".
Definition skipped (f : zip_file) : bool := shouldSkipZipEntry (zf_Name f) (zf_IsDir f).

Definition zip_too_large (maxUnpacked : Z) : error :=
  Error ("zip unpacked size exceeds limit: limit " +:+ Itoa maxUnpacked) [ErrZipTooLarge].

(** [io.ReadAll(io.LimitReader(rc, n))]: an error past the limit is not seen. *)
Definition read_limited (n : Z) (f : zip_file) : result bytes :=
  if n <=? zlen (zf_stream f) then Ok (take (Z.to_nat n) (zf_stream f)) else
  match zf_end f with Some e => Err e | None => Ok (zf_stream f) end.

Section Zip.
Context `{ZipLib}.

(** [remaining + 1] wraps for the largest limit; [remaining] and the running total, both
    between 0 and the limit, do not. *)
Fixpoint each_member {W} (files : list zip_file) (maxUnpacked total : Z)
    (fn : string → bytes → M W unit) : M W unit :=
  match files with
  | [] => mret tt
  | f :: files' =>
      if skipped f then each_member files' maxUnpacked total fn else
      let uncompressed := i64 (UncompressedSize64 f) in
      if (maxUnpacked <? uncompressed) || (maxUnpacked <? i64 (total + uncompressed))
      then fail (zip_too_large maxUnpacked) else
      do! lift_result (zf_open f);
      let remaining := maxUnpacked - total in
      let! body := lift_result (read_limited (i64 (remaining + 1)) f) in
      if remaining <? zlen body then fail (zip_too_large maxUnpacked) else
      do! fn (zf_Name f) body;
      each_member files' maxUnpacked (total + zlen body) fn
  end.

Definition ForEachZipMember {W} (data : bytes) (maxUnpacked : Z) (fn : string → bytes → M W unit) : M W unit :=
  let maxUnpacked := effectiveMaxUnpackedZipBytes maxUnpacked in
  let! files := lift_result (zipReader data) in
  each_member files maxUnpacked 0 fn.

Record ZipMember : Type := MkZipMember { Filename : string; Data : bytes }.

(** The members delivered, and the error, if any, that stopped the delivery. *)
Definition UnpackZipWithLimit (data : bytes) (maxUnpacked : Z) : list ZipMember * result unit :=
  ForEachZipMember data maxUnpacked (fun name body => modify (fun ms => ms ++ [MkZipMember name body])) [].

Definition UnpackZip (data : bytes) := UnpackZipWithLimit data DefaultMaxUnpackedZipBytes.

Definition CountZipEntries (data : bytes) : result Z :=
  files ← zipReader data;
  mret (zlen (filter (fun f => skipped f = false) files)).

Fixpoint check_sizes (files : list zip_file) (maxUnpacked total : Z) : result unit :=
  match files with
  | [] => Ok tt
  | f :: files' =>
      if skipped f then check_sizes files' maxUnpacked total else
      let size := i64 (UncompressedSize64 f) in
      if (maxUnpacked <? size) || (maxUnpacked <? i64 (total + size)) then Err (zip_too_large maxUnpacked)
      else check_sizes files' maxUnpacked (i64 (total + size))
  end.

Definition CheckZipUncompressedLimit (data : bytes) (maxUnpacked : Z) : result unit :=
  files ← zipReader data;
  check_sizes files (effectiveMaxUnpackedZipBytes maxUnpacked) 0.

(** ** Unpacking is bounded *)

Definition total_size (ms : list ZipMember) : Z := fold_right (fun m n => zlen (Data m) + n) 0 ms.

Lemma total_size_app a b : total_size (a ++ b) = total_size a + total_size b.
Proof. unfold total_size. induction a as [|m a IH]; cbn; lia. Qed.

(** What the callback keeps, the whole delivery keeps; [E] is what holds when it
    stops with an error. *)
Lemma each_member_rule {W} (I E : W → Prop) fn files max total s s' r :
  (∀ name body s s' r, I s → fn name body s = (s', r) → if is_ok r then I s' else E s') → (∀ s, I s → E s) →
  I s → each_member files max total fn s = (s', r) → if is_ok r then I s' else E s'.
Proof.
  intros Hfn HE. revert total s; induction files as [|f files IH]; intros total s Hs H1; cbn [each_member] in H1.
  { munfold. by injection H1 as <- <-. }
  destruct (skipped f); [by eapply IH|].
  destruct (_ || _); [munfold; injection H1 as <- <-; by apply HE|].
  apply bind_inv in H1 as [(s1 & u & E1 & H1)|(e & E1 & ->)]; unfold lift_result in E1; injection E1 as <- E1; [|by apply HE].
  apply bind_inv in H1 as [(s2 & body & E2 & H1)|(e & E2 & ->)]; unfold lift_result in E2; injection E2 as <- E2; [|by apply HE].
  destruct (_ <? _); [munfold; injection H1 as <- <-; by apply HE|].
  apply bind_inv in H1 as [(s3 & u3 & E3 & H1)|(e & E3 & ->)]; apply Hfn in E3; try done. by eapply IH; [exact E3|].
Qed.

Lemma ForEachZipMember_rule {W} (I E : W → Prop) fn data max s s' r :
  (∀ name body s s' r, I s → fn name body s = (s', r) → if is_ok r then I s' else E s') → (∀ s, I s → E s) →
  I s → ForEachZipMember data max fn s = (s', r) → if is_ok r then I s' else E s'.
Proof.
  intros Hfn HE Hs H1. unfold ForEachZipMember in H1.
  apply bind_inv in H1 as [(s1 & fs & E1 & H1)|(e & E1 & ->)]; unfold lift_result in E1; injection E1 as <- E1; [|by apply HE].
  by eapply each_member_rule.
Qed.

Lemma effective_pos max : 0 < effectiveMaxUnpackedZipBytes max.
Proof.
  unfold effectiveMaxUnpackedZipBytes, DefaultMaxUnpackedZipBytes. destruct (0 <? max) eqn:E; lia.
Qed.

Lemma each_member_bounded files max total ms ms' r :
  total_size ms = total → 0 <= total <= max →
  each_member files max total (fun name body => modify (fun ms => ms ++ [MkZipMember name body])) ms = (ms', r) →
  total_size ms' <= max ∧
  (Forall (fun m => strings.Contains (Filename m) ".." = false) ms →
   Forall (fun m => strings.Contains (Filename m) ".." = false) ms') ∧
  (r = Ok tt → zlen ms' = zlen ms + zlen (filter (fun f => skipped f = false) files)).
Proof.
  revert total ms; induction files as [|f files IH]; intros total ms Ht Hr E; cbn [each_member] in E.
  { munfold. injection E as <- <-. split; [lia|]. split; [done|]. intros _. rw filter_nil zlen_nil. lia. }
  destruct (skipped f) eqn:Es.
  { destruct (IH _ _ Ht Hr E) as (K1 & K2 & K3). split; [done|]. split; [done|]. intros Hok. rw K3 //.
    by rw filter_cons_False // Es. }
  destruct (_ || _); [munfold; injection E as <- <-; split; [lia|done]|].
  apply bind_inv in E as [(s1 & u & E1 & E)|(e & E1 & ->)];
    unfold lift_result in E1; injection E1 as <- E1; [|split; [lia|done]].
  apply bind_inv in E as [(s2 & body & E2 & E)|(e & E2 & ->)];
    unfold lift_result in E2; injection E2 as <- E2; [|split; [lia|done]].
  destruct (_ <? zlen body) eqn:El; [munfold; injection E as <- <-; split; [lia|done]|].
  unfold modify in E. erewrite bind_ok in E by reflexivity.
  pose proof (zlen_nonneg body). destruct (IH (total + zlen body) (ms ++ [MkZipMember (zf_Name f) body])) as (K1 & K2 & K3).
  - rw total_size_app Ht /=. lia.
  - lia.
  - exact E.
  - split; [done|]. split.
    + intros Hms. apply K2, Forall_app. split; [done|]. constructor; [|done]. cbn.
      unfold skipped, shouldSkipZipEntry in Es. by apply orb_false_iff in Es as [_ ?].
    + intros Hok. rw K3 // zlen_app filter_cons_True // !zlen_cons zlen_nil. lia.
Qed.

End Zip.

(** C34: unpacking a ZIP is bounded, whatever its headers declare: the members
    delivered, also when unpacking then fails, hold at most the configured number
    of bytes, no delivered name contains "..", and when unpacking succeeds there
    are as many members as [CountZipEntries] counts. *)
Theorem UnpackZip_bounded `{ZipLib} data max ms r :
  UnpackZipWithLimit data max = (ms, r) →
  total_size ms <= effectiveMaxUnpackedZipBytes max ∧
  Forall (fun m => strings.Contains (Filename m) ".." = false) ms ∧
  (r = Ok tt → CountZipEntries data = Ok (zlen ms)).
Proof.
  unfold UnpackZipWithLimit, ForEachZipMember, CountZipEntries. pose proof (effective_pos max).
  intros E. apply bind_inv in E as [(s1 & files & E1 & E)|(e & E1 & ->)];
    unfold lift_result in E1; injection E1 as <- E1.
  - apply each_member_bounded in E as (K1 & K2 & K3); [|done|lia]. split; [done|]. split; [by apply K2|].
    intros Hok. rw E1. cbn. rw K3 //.
  - split; [cbn; lia|]. by split.
Qed.

(** An archive of two small files and one that lies about its size. *)
Definition demo_zip (data : bytes) : result (list zip_file) :=
  Ok [MkZipFile "a.xml" false 4 (Ok tt) (bs "<a/>") None;
      MkZipFile "../b" false 4 (Ok tt) (bs "evil") None;
      MkZipFile "bomb.xml" false 1 (Ok tt) (bs "0123456789") None].

Lemma UnpackZip_bounded_witness :
  let _ := {| zipReader := demo_zip |} in
  UnpackZipWithLimit [] 10 = ([MkZipMember "a.xml" (bs "<a/>")], Err (zip_too_large 10)) ∧
  total_size [MkZipMember "a.xml" (bs "<a/>")] <= effectiveMaxUnpackedZipBytes 10.
Proof.
  intros Z. assert (UnpackZipWithLimit [] 10 = ([MkZipMember "a.xml" (bs "<a/>")], Err (zip_too_large 10))) as E
    by (vm_compute; reflexivity).
  split; [exact E|]. by apply (UnpackZip_bounded (H := Z) [] 10 _ _ E).
Defined.
