(* ===== verification/Journal.v ===== *)
(** * The ingest journal: internal/recovery (journal.go, journal_record.go)

    One JSON document per line, appended and fsynced.  The JSON codec of an entry
    and the RFC 3339 printing and parsing of times are parameters; what is relied
    on of the codec is that it round-trips and that a document holds no newline. *)
From S2P Require Import Prelude GoLib FS Metadata.

Definition journalVersion : Z := 1.
Definition JournalFile : string := "ingest_journal.ndjson".

Record FileRef : Type := MkFileRef {
  FileID : Z;
  fr_BlobHash : string;
  fr_Role : string;
  fr_OriginalFilename : option string;
  fr_SequenceNumber : option Z;
}.

Record JournalEntry : Type := MkJournalEntry {
  Version : Z;
  je_PackageID : Z;
  je_SupplierID : Z;
  je_ReceivedAt : string;
  je_PackageHash : string;
  je_PayloadType : string;
  je_StorageMode : string;
  je_CanonicalPackageID : option Z;
  je_OriginalFilename : option string;
  je_FileCount : Z;
  je_UnpackError : option string;
  je_Files : list FileRef;
}.

Class Times := {
  FormatTimeUTC : Z → string;
  parse_time : string → result Z;          (** RFC3339Nano, then RFC3339 *)
}.
Class TimesLaws `{Times} := { time_round_trip : ∀ t, parse_time (FormatTimeUTC t) = Ok t }.

Class EntryJSON := {
  marshal : JournalEntry → bytes;
  unmarshal : bytes → result JournalEntry;
  valid_utf8 : string → bool;             (** other bytes are replaced when marshalled *)
}.
Definition newline : byte := x0a.

Definition utf8_opt `{EntryJSON} (s : option string) : bool :=
  match s with None => true | Some s => valid_utf8 s end.
Definition utf8_file `{EntryJSON} (f : FileRef) : bool :=
  valid_utf8 (fr_BlobHash f) && valid_utf8 (fr_Role f) && utf8_opt (fr_OriginalFilename f).
Definition utf8_entry `{EntryJSON} (e : JournalEntry) : bool :=
  valid_utf8 (je_ReceivedAt e) && valid_utf8 (je_PackageHash e) && valid_utf8 (je_PayloadType e) &&
  valid_utf8 (je_StorageMode e) && utf8_opt (je_OriginalFilename e) && utf8_opt (je_UnpackError e) &&
  forallb utf8_file (je_Files e).

Class EntryJSONLaws `{EntryJSON} := {
  entry_round_trip : ∀ e, utf8_entry e = true → unmarshal (marshal e) = Ok e;
  entry_one_line : ∀ e, newline ∉ marshal e;
  entry_object : ∀ e, last (marshal e) = Some x7d; (** an object ends in a brace *)
}.

Definition EntryFromPackage `{Times} (pkg : Package) : JournalEntry :=
  MkJournalEntry 0 (p_ID pkg) (SupplierID pkg) (FormatTimeUTC (ReceivedAt pkg))
    (EncodeToString (p_PackageHash pkg)) (PayloadType pkg) (StorageMode pkg) (CanonicalPackageID pkg)
    (OriginalFilename pkg) (FileCount pkg) (UnpackError pkg)
    ((fun f => MkFileRef (pf_ID f) (EncodeToString (BlobHash f)) (Role f) (pf_OriginalFilename f)
                 (SequenceNumber f)) <$> Files pkg).

Definition with_version (v : Z) (e : JournalEntry) : JournalEntry :=
  MkJournalEntry v (je_PackageID e) (je_SupplierID e) (je_ReceivedAt e) (je_PackageHash e) (je_PayloadType e)
    (je_StorageMode e) (je_CanonicalPackageID e) (je_OriginalFilename e) (je_FileCount e) (je_UnpackError e) (je_Files e).
Definition versioned (e : JournalEntry) : JournalEntry :=
  if Version e =? 0 then with_version journalVersion e else e.

(** [f] is [None] once closed. *)
Record Journal : Type := MkJournal { j_f : option File; j_fs : FS }.
Definition on_jfs {A} (m : M FS A) : M Journal A := zoom j_fs (fun fs j => MkJournal (j_f j) fs) m.

Section Journal.
Context `{EntryJSON}.

Definition NewJournal (fs : FS) : Journal * result unit :=
  match (do! os.MkdirAll; wrap_err "open journal: " (os.OpenFile JournalFile true true)) fs with
  | (fs', Ok f) => (MkJournal (Some f) fs', Ok tt)
  | (fs', Err e) => (MkJournal None fs', Err e)
  end.

Definition JAppend (e : JournalEntry) : M Journal unit :=
  let line := marshal (versioned e) in
  let! j := get in
  match j_f j with
  | None => fail (errorf "invalid argument")
  | Some f =>
      let! f := on_jfs (os.Write f line) in
      let! f := on_jfs (os.Write f [newline]) in
      on_jfs (os.Sync f)
  end.

Definition JClose : M Journal unit := modify (fun j => MkJournal None (j_fs j)).

(** [bufio.Scanner]: the lines, without their newlines; a last line need not end
    in one. *)
Fixpoint split_lines (cur : bytes) (l : bytes) : list bytes :=
  match l with
  | [] => match cur with [] => [] | _ => [rev cur] end
  | b :: l' => if Byte.eqb b newline then rev cur :: split_lines [] l' else split_lines (b :: cur) l'
  end.
(** [ScanLines] drops a trailing carriage return. *)
Definition drop_cr (l : bytes) : bytes :=
  match rev l with x0d :: r => rev r | _ => l end.

(** The largest line the scanner's buffer takes. *)
Definition max_line : Z := 4 * 1024 * 1024.
Definition too_long : error := errorf "bufio.Scanner: token too long".

Fixpoint parse_lines (lines : list bytes) : result (list JournalEntry) :=
  match lines with
  | [] => Ok []
  | line :: rest =>
      if max_line <=? zlen line then Err too_long else
      match drop_cr line with
      | [] => parse_lines rest
      | doc =>
          match unmarshal doc with
          | Err e =>
              (* a bad last line is ignored *)
              match rest with
              | [] => Ok []
              | next :: _ => if max_line <=? zlen next then Err too_long
                             else Err (wrapf "parse journal line: " e)
              end
          | Ok e =>
              match parse_lines rest with Ok es => Ok (e :: es) | Err er => Err er end
          end
      end
  end.

Definition ReadJournal (path : string) : M FS (list JournalEntry) :=
  let! r := try (os.ReadFile path) in
  match r with
  | Err e => if error_is e ErrNotExist then mret [] else fail e
  | Ok data => lift_result (parse_lines (split_lines [] data))
  end.
End Journal.

(** ** Round trip *)
Section RoundTrip.
Context `{EntryJSONLaws}.

Definition line_of (e : JournalEntry) : bytes := marshal (versioned e) ++ [newline].
Definition journal_file (es : list JournalEntry) : bytes := concat (line_of <$> es).
(** An entry the reader can take: its line fits the scanner's buffer and its
    strings are text. *)
Definition short (e : JournalEntry) : Prop :=
  zlen (marshal (versioned e)) < max_line ∧ utf8_entry e = true.

Lemma utf8_versioned e : utf8_entry (versioned e) = utf8_entry e.
Proof. unfold versioned. by case_match. Qed.

Lemma split_lines_line cur l rest :
  newline ∉ l → split_lines cur (l ++ newline :: rest) = (rev cur ++ l) :: split_lines [] rest.
Proof.
  revert cur; induction l as [|b l IH]; intros cur Hn; cbn.
  { by rw app_nil_r. }
  apply not_elem_of_cons in Hn as [Hb Hn].
  destruct (Byte.eqb b newline) eqn:E; [by apply byte_eqb_eq in E|].
  rw IH //. cbn. by rw -app_assoc.
Qed.

Lemma split_lines_tail cur l : newline ∉ l → split_lines cur l = match rev cur ++ l with [] => [] | t => [t] end.
Proof.
  revert cur; induction l as [|b l IH]; intros cur Hn; cbn.
  { rw app_nil_r. destruct cur as [|c cur]; [done|]. cbn. by destruct (rev cur). }
  apply not_elem_of_cons in Hn as [Hb Hn].
  destruct (Byte.eqb b newline) eqn:E; [by apply byte_eqb_eq in E|].
  rw IH //. cbn. by rw -app_assoc.
Qed.

Lemma split_entries es rest :
  split_lines [] (journal_file es ++ rest) = ((marshal ∘ versioned) <$> es) ++ split_lines [] rest.
Proof.
  induction es as [|e es IH]; [done|].
  change (journal_file (e :: es)) with ((marshal (versioned e) ++ [newline]) ++ journal_file es).
  rw -!app_assoc. cbn. rw split_lines_line; [apply entry_one_line|]. by rw IH.
Qed.

Lemma split_journal es tail :
  newline ∉ tail →
  split_lines [] (journal_file es ++ tail) =
  ((marshal ∘ versioned) <$> es) ++ match tail with [] => [] | t => [t] end.
Proof. intros Ht. rw split_entries (split_lines_tail [] tail Ht). by destruct tail. Qed.

Lemma drop_cr_marshal e : drop_cr (marshal e) = marshal e.
Proof.
  unfold drop_cr. pose proof (entry_object e) as Ho. apply last_Some in Ho as [l ->].
  by rw rev_app_distr.
Qed.

Lemma parse_lines_entries es rest :
  Forall short es →
  parse_lines (((marshal ∘ versioned) <$> es) ++ rest) =
  match parse_lines rest with Ok r => Ok ((versioned <$> es) ++ r) | Err e => Err e end.
Proof.
  induction 1 as [|e es He Hes IH]; [by cbn; destruct (parse_lines rest)|]. cbn.
  replace (max_line <=? zlen (marshal (versioned e))) with false by (destruct He; lia).
  rw drop_cr_marshal. destruct (marshal (versioned e)) as [|b l] eqn:E.
  { pose proof (entry_object (versioned e)) as Ho. by rw E in Ho. }
  rw -E entry_round_trip; [rw utf8_versioned; apply He|]. rw IH. by destruct (parse_lines rest).
Qed.

(** The file as a journal opened on it leaves it. *)
Definition journal_open (j : Journal) (d : bytes) : Prop :=
  ∃ ino pos, j_f j = Some (MkFile ino true pos true) ∧ file_is (j_fs j) JournalFile ino d.

Lemma JAppend_ok e j d : journal_open j d →
  ∃ j', JAppend e j = (j', Ok tt) ∧ journal_open j' (d ++ line_of e).
Proof.
  intros (ino & pos & Hf & Hd). unfold JAppend, get. erewrite bind_ok by reflexivity. rw Hf.
  destruct (Write_is _ _ _ _ pos true (marshal (versioned e)) Hd) as (fs1 & W1 & D1 & _). rw splice_end in D1.
  assert (∀ A (m : M FS A) fs' a, m (j_fs j) = (fs', a) → on_jfs m j = (MkJournal (j_f j) fs', a)) as Hon.
  { intros A m fs' a E. unfold on_jfs, zoom. by rw E. }
  erewrite bind_ok by (by apply Hon).
  set (p1 := zlen d + zlen (marshal (versioned e))).
  destruct (Write_is _ _ _ _ p1 true [newline] D1) as (fs2 & W2 & D2 & _). rw splice_end in D2.
  erewrite bind_ok by (unfold on_jfs, zoom; cbn [j_fs]; by rw W2). cbn [j_f].
  set (p2 := zlen (d ++ marshal (versioned e)) + zlen [newline]).
  destruct (Sync_is _ _ _ _ p2 true D2) as (fs3 & W3 & D3 & _).
  unfold on_jfs, zoom. cbn [j_fs]. rw W3. eexists. split; [done|].
  exists ino, pos. split; [done|]. cbn. unfold line_of. by rw app_assoc.
Qed.

Definition append_entries (es : list JournalEntry) : M Journal unit := forM_ es JAppend.

Lemma append_entries_ok es j d : journal_open j d →
  ∃ j', append_entries es j = (j', Ok tt) ∧ journal_open j' (d ++ journal_file es).
Proof.
  revert j d; induction es as [|e es IH]; intros j d Hj.
  { exists j. split; [done|]. by rw app_nil_r. }
  destruct (JAppend_ok e j d Hj) as (j1 & E1 & H1). unfold append_entries in *. cbn [forM_].
  erewrite bind_ok by exact E1. destruct (IH _ _ H1) as (j2 & E2 & H2). exists j2. split; [done|].
  by rw -app_assoc in H2.
Qed.

Lemma ReadJournal_file fs ino es :
  file_is fs JournalFile ino (journal_file es) → Forall short es →
  ReadJournal JournalFile fs = (fs, Ok (versioned <$> es)).
Proof.
  intros Hf Hs. unfold ReadJournal, try. erewrite bind_ok by (by rw (ReadFile_is _ _ _ _ Hf)). cbv beta iota.
  unfold lift_result. f_equal. pose proof (split_journal es []) as Hsp. rw app_nil_r in Hsp.
  rw Hsp; [apply not_elem_of_nil|]. rw parse_lines_entries //. cbn. by rw app_nil_r.
Qed.

(** C33: the journal round trip.  Entries appended to an empty journal, when nothing
    fails, are all written; and they are read back in order, each with the journal's
    version, when every line is shorter than the reader's 4 MiB and its texts are
    valid UTF-8 ([short]).  A torn line at the end, as a crash leaves it, is ignored
    if it is shorter than that, holds no newline and does not parse. *)
Theorem journal_append_read es j torn fs' ino :
  journal_open j [] → Forall short es → newline ∉ torn → zlen torn < max_line →
  (∀ e, unmarshal (drop_cr torn) ≠ Ok e) →
  ∃ j', append_entries es j = (j', Ok tt) ∧ journal_open j' (journal_file es) ∧
    (file_is fs' JournalFile ino (journal_file es ++ torn) →
     (ReadJournal JournalFile fs').2 = Ok (versioned <$> es)).
Proof.
  intros Hj Hs Hn Hl Hu. destruct (append_entries_ok es j [] Hj) as (j' & E & H').
  exists j'. split; [done|]. split; [done|]. intros Hf. unfold ReadJournal, try.
  erewrite bind_ok by (by rw (ReadFile_is _ _ _ _ Hf)). cbv beta iota. unfold lift_result. cbn [snd].
  rw split_journal // parse_lines_entries //.
  destruct torn as [|b torn]; [cbn; by rw app_nil_r|]. cbn [parse_lines].
  replace (max_line <=? zlen (b :: torn)) with false by lia.
  destruct (drop_cr (b :: torn)) as [|c l]; [by rw app_nil_r|].
  destruct (unmarshal (c :: l)) as [e|er]; [by destruct (Hu e)|]. by rw app_nil_r.
Qed.

(** An over-long line makes the journal unreadable.  Appending an entry whose
    document is 4 MiB or more succeeds, and from then on reading fails. *)
Theorem journal_long_line es e es' j fs' ino :
  journal_open j [] → Forall short es → max_line <= zlen (marshal (versioned e)) →
  ∃ j', append_entries (es ++ e :: es') j = (j', Ok tt) ∧
    (file_is fs' JournalFile ino (journal_file (es ++ e :: es')) →
     (ReadJournal JournalFile fs').2 = Err too_long).
Proof.
  intros Hj Hs Hl. destruct (append_entries_ok (es ++ e :: es') j [] Hj) as (j' & E & H').
  exists j'. split; [done|]. intros Hf. unfold ReadJournal, try.
  erewrite bind_ok by (by rw (ReadFile_is _ _ _ _ Hf)). cbv beta iota. unfold lift_result. cbn [snd].
  pose proof (split_journal (es ++ e :: es') []) as Hsp. rw app_nil_r in Hsp.
  rw Hsp; [apply not_elem_of_nil|]. rw app_nil_r fmap_app parse_lines_entries //. cbn [parse_lines fmap list_fmap compose].
  by replace (max_line <=? zlen (marshal (versioned e))) with true by lia.
Qed.

(** A torn line corrupts the journal for good.  After a crash left a torn
    line, the next append glues its document to it; once another entry follows,
    reading the journal fails, so a rebuild cannot use it. *)
Theorem journal_glued_line es torn e e' fs' ino :
  Forall short es → newline ∉ torn → torn ≠ [] →
  zlen (torn ++ marshal (versioned e)) < max_line → short e' →
  (∀ e0, unmarshal (torn ++ marshal (versioned e)) ≠ Ok e0) →
  file_is fs' JournalFile ino (journal_file es ++ torn ++ line_of e ++ line_of e') →
  is_ok (ReadJournal JournalFile fs').2 = false.
Proof.
  intros Hs Hn Hne Hl Hs' Hu Hf. unfold ReadJournal, try.
  erewrite bind_ok by (by rw (ReadFile_is _ _ _ _ Hf)). cbv beta iota. unfold lift_result. cbn [snd].
  set (g := torn ++ marshal (versioned e)) in *.
  assert (split_lines [] (journal_file es ++ torn ++ line_of e ++ line_of e') =
    ((marshal ∘ versioned) <$> es) ++ [g; marshal (versioned e')]) as ->.
  { rw split_entries. f_equal. unfold line_of. rw -!app_assoc (app_assoc torn). cbn. rw split_lines_line.
    { intros [?|?]%elem_of_app; [done|]. by apply (entry_one_line (versioned e)). }
    rw split_lines_line; [apply entry_one_line|]. done. }
  rw parse_lines_entries //. cbn [parse_lines].
  replace (max_line <=? zlen g) with false by lia.
  assert (drop_cr g = g) as Hg.
  { unfold drop_cr, g. pose proof (entry_object (versioned e)) as Ho. apply last_Some in Ho as [l ->].
    by rw app_assoc rev_app_distr. }
  assert (g ≠ []) as Hg0 by (by intros [? _]%app_eq_nil).
  rw Hg. clearbody g. destruct g as [|b g]; [done|].
  destruct (unmarshal (b :: g)) as [e0|er]; [by destruct (Hu e0)|].
  by replace (max_line <=? zlen (marshal (versioned e'))) with false by (destruct Hs'; lia).
Qed.
End RoundTrip.

(** ** A concrete codec, on which the laws hold: an entry as a tree, the tree as
    bits, with leading blanks allowed as in JSON. *)
Module Codec.
Notation tree := (gen_tree (Z + string)).
Definition z_tree (z : Z) : tree := GenLeaf (inl z).
Definition s_tree (s : string) : tree := GenLeaf (inr s).
Definition o_tree {A} (f : A → tree) (o : option A) : tree :=
  match o with None => GenNode 0 [] | Some a => GenNode 1 [f a] end.
Definition f_tree (f : FileRef) : tree :=
  GenNode 0 [z_tree (FileID f); s_tree (fr_BlobHash f); s_tree (fr_Role f);
             o_tree s_tree (fr_OriginalFilename f); o_tree z_tree (fr_SequenceNumber f)].
Definition e_tree (e : JournalEntry) : tree :=
  GenNode 0 [z_tree (Version e); z_tree (je_PackageID e); z_tree (je_SupplierID e); s_tree (je_ReceivedAt e);
             s_tree (je_PackageHash e); s_tree (je_PayloadType e); s_tree (je_StorageMode e);
             o_tree z_tree (je_CanonicalPackageID e); o_tree s_tree (je_OriginalFilename e);
             z_tree (je_FileCount e); o_tree s_tree (je_UnpackError e); GenNode 0 (f_tree <$> je_Files e)].

Definition tree_z (t : tree) : Z := match t with GenLeaf (inl z) => z | _ => 0 end.
Definition tree_s (t : tree) : string := match t with GenLeaf (inr s) => s | _ => "" end.
Definition tree_o {A} (f : tree → A) (t : tree) : option A := match t with GenNode 1 [a] => Some (f a) | _ => None end.
Definition no_file : FileRef := MkFileRef 0 "" "" None None.
Definition tree_f (t : tree) : FileRef :=
  match t with
  | GenNode 0 [a; b; c; d; e] => MkFileRef (tree_z a) (tree_s b) (tree_s c) (tree_o tree_s d) (tree_o tree_z e)
  | _ => no_file
  end.
Definition tree_e (t : tree) : option JournalEntry :=
  match t with
  | GenNode 0 [a; b; c; d; e; f; g; h; i; j; k; GenNode 0 l] =>
      Some (MkJournalEntry (tree_z a) (tree_z b) (tree_z c) (tree_s d) (tree_s e) (tree_s f) (tree_s g)
        (tree_o tree_z h) (tree_o tree_s i) (tree_z j) (tree_o tree_s k) (tree_f <$> l))
  | _ => None
  end.

Fixpoint bits (p : positive) : bytes :=
  match p with xH => [x7d] | xO p => x30 :: bits p | xI p => x31 :: bits p end.
Fixpoint unbits (l : bytes) : option positive :=
  match l with
  | [x7d] => Some xH
  | x30 :: l => xO <$> unbits l
  | x31 :: l => xI <$> unbits l
  | _ => None
  end.
Fixpoint skip_blank (l : bytes) : bytes := match l with x20 :: l => skip_blank l | _ => l end.

Definition json (pad : nat) : EntryJSON := {|
  marshal e := replicate pad x20 ++ bits (encode (e_tree e));
  unmarshal l :=
    match (unbits (skip_blank l) ≫= decode (A := tree)) ≫= tree_e with
    | Some e => Ok e
    | None => Err (errorf "invalid character")
    end;
  valid_utf8 _ := true;
|}.

Lemma unbits_bits p : unbits (bits p) = Some p.
Proof. induction p as [p IH|p IH|]; cbn; [by rw IH..|done]. Qed.
Lemma skip_bits pad p : skip_blank (replicate pad x20 ++ bits p) = bits p.
Proof. induction pad; [by destruct p|done]. Qed.
Lemma tree_e_tree e : tree_e (e_tree e) = Some e.
Proof.
  destruct e as [a b c d e f g h i j k l]. cbn. f_equal. rw -list_fmap_compose.
  replace ((tree_f ∘ f_tree) <$> l) with l; [by destruct h, i, k|].
  induction l as [|x l IH]; [done|]. cbn [fmap list_fmap]. f_equal; [|exact IH].
  destruct x as [x1 x2 x3 [] []]; done.
Qed.

Lemma last_bits p : last (bits p) = Some x7d.
Proof. induction p as [p IH|p IH|]; cbn [bits]; [rw last_cons IH..|]; done. Qed.

Lemma json_laws pad : EntryJSONLaws (H := json pad).
Proof.
  split.
  - intros e _. unfold unmarshal, marshal, json. rw skip_bits unbits_bits. cbn [mbind option_bind]. rw decode_encode. cbn [mbind option_bind]. by rw tree_e_tree.
  - intros e. cbn. rw elem_of_app. intros [Hr|Hb].
    + by apply elem_of_replicate in Hr as [? _].
    + revert Hb. generalize (encode (e_tree e)). intros p. induction p as [p IH|p IH|]; cbn; rw elem_of_cons.
      * by intros [?|?%IH].
      * by intros [?|?%IH].
      * by intros [?|?%elem_of_nil].
  - intros e. cbn. by rw last_app last_bits.
Qed.

Definition entry (id : Z) : JournalEntry :=
  MkJournalEntry 0 id 7 "t" "00" "xml" "unpacked" None (Some "a.xml") 1 None [MkFileRef id "00" "single" None None].
Definition opened : Journal := (NewJournal (empty_fs [])).1.
Lemma opened_empty : journal_open opened [].
Proof. exists 1%positive, 0. split; [done|]. by split; [..|eexists]. Qed.
Lemma not_parsed pad (l : bytes) :
  is_ok (unmarshal (EntryJSON := json pad) l) = false → ∀ e, unmarshal (EntryJSON := json pad) l ≠ Ok e.
Proof. by intros H e He; rw He in H. Qed.
End Codec.

Lemma journal_append_read_witness :
  let J := Codec.json 0 in
  ∃ j', append_entries [Codec.entry 1; Codec.entry 2] Codec.opened = (j', Ok tt) ∧
    journal_open j' (journal_file [Codec.entry 1; Codec.entry 2]) ∧
    (ReadJournal JournalFile (os.WriteFile JournalFile
       (journal_file [Codec.entry 1; Codec.entry 2] ++ [x30]) (empty_fs [])).1).2 =
      Ok (versioned <$> [Codec.entry 1; Codec.entry 2]).
Proof.
  intros J. pose proof (Codec.json_laws 0) as L.
  destruct (journal_append_read [Codec.entry 1; Codec.entry 2] Codec.opened [x30]
    (os.WriteFile JournalFile (journal_file [Codec.entry 1; Codec.entry 2] ++ [x30]) (empty_fs [])).1 1)
    as (j' & E & O & R).
  - exact Codec.opened_empty.
  - repeat constructor; by vm_compute.
  - repeat (apply not_elem_of_cons; split; [done|]). apply not_elem_of_nil.
  - done.
  - by apply Codec.not_parsed.
  - exists j'. split; [exact E|]. split; [exact O|]. apply R. split; [by vm_compute..|]. eexists. by vm_compute.
Defined.

Lemma journal_long_line_witness :
  let J := Codec.json (Z.to_nat max_line) in
  ∃ j', append_entries ([] ++ Codec.entry 1 :: [Codec.entry 2]) Codec.opened = (j', Ok tt).
Proof.
  intros J. pose proof (Codec.json_laws (Z.to_nat max_line)) as L.
  destruct (journal_long_line [] (Codec.entry 1) [Codec.entry 2] Codec.opened (empty_fs []) 1) as (j' & E & _).
  - exact Codec.opened_empty.
  - constructor.
  - cbn [marshal J Codec.json]. rw zlen_app. unfold zlen at 1. rw length_replicate.
    pose proof (zlen_nonneg (Codec.bits (encode (Codec.e_tree (versioned (Codec.entry 1)))))).
    unfold max_line in *. lia.
  - exists j'. exact E.
Defined.

Lemma journal_glued_line_witness :
  let J := Codec.json 0 in
  is_ok (ReadJournal JournalFile (os.WriteFile JournalFile
    (journal_file [Codec.entry 1] ++ [x30; x41] ++ line_of (Codec.entry 1) ++ line_of (Codec.entry 2)) (empty_fs [])).1).2 = false.
Proof.
  intros J. pose proof (Codec.json_laws 0) as L.
  apply (journal_glued_line [Codec.entry 1] [x30; x41] (Codec.entry 1) (Codec.entry 2) _ 1).
  - repeat constructor; by vm_compute.
  - repeat (apply not_elem_of_cons; split; [done|]). apply not_elem_of_nil.
  - done.
  - by vm_compute.
  - split; by vm_compute.
  - apply Codec.not_parsed. by vm_compute.
  - split; [by vm_compute..|]. eexists. by vm_compute.
Defined.
