(* ===== verification/UnpackQueue.v ===== *)
(** * The background unpack queue: internal/ingestion/unpack_worker.go

    The queue's state with its sequential operations, and the transition system
    of all its goroutines: callers of [Enqueue], between marking a package and
    sending it, and workers, between receiving a job and unmarking it. *)
From S2P Require Import Prelude.

Record UnpackQueue : Type := MkQueue {
  ch : list Z;              (** the buffered channel, oldest first *)
  ch_cap : Z;
  inflight : gset Z;
  UnpackEnqueued : Z;       (** metrics *)
  UnpackDropped : Z;
  UnpackRecovered : Z;
}.

(** The number of workers and the capacity [NewUnpackQueue] settles on. *)
Definition queue_workers (workers : Z) : Z := if workers <? 1 then 1 else workers.
Definition queue_size (queueSize : Z) : Z := if queueSize <? 1 then 64 else queueSize.
Definition NewUnpackQueue (queueSize : Z) : UnpackQueue := MkQueue [] (queue_size queueSize) ∅ 0 0 0.

Definition mark (id : Z) (q : UnpackQueue) : UnpackQueue :=
  MkQueue (ch q) (ch_cap q) ({[id]} ∪ inflight q) (UnpackEnqueued q) (UnpackDropped q) (UnpackRecovered q).
Definition unmark (id : Z) (q : UnpackQueue) : UnpackQueue :=
  MkQueue (ch q) (ch_cap q) (inflight q ∖ {[id]}) (UnpackEnqueued q) (UnpackDropped q) (UnpackRecovered q).
Definition send (id : Z) (q : UnpackQueue) : UnpackQueue :=
  MkQueue (ch q ++ [id]) (ch_cap q) (inflight q) (UnpackEnqueued q + 1) (UnpackDropped q) (UnpackRecovered q).
Definition count_dropped (q : UnpackQueue) : UnpackQueue :=
  MkQueue (ch q) (ch_cap q) (inflight q) (UnpackEnqueued q) (UnpackDropped q + 1) (UnpackRecovered q).
Definition count_recovered (q : UnpackQueue) : UnpackQueue :=
  MkQueue (ch q) (ch_cap q) (inflight q) (UnpackEnqueued q) (UnpackDropped q) (UnpackRecovered q + 1).

Definition has_room (q : UnpackQueue) : bool := zlen (ch q) <? ch_cap q.

(** The [select] of [Enqueue]: send when the channel takes it, else give up. *)
Definition offer (id : Z) (q : UnpackQueue) : UnpackQueue :=
  if has_room q then send id q else count_dropped (unmark id q).

Definition Enqueue (id : Z) (q : UnpackQueue) : UnpackQueue :=
  if bool_decide (id ∈ inflight q) then q else offer id (mark id q).

(** The body of the recovery scan, once the pending ids are known. *)
Definition recoverIDs (ids : list Z) (q : UnpackQueue) : UnpackQueue :=
  fold_left (fun q id => if bool_decide (id ∈ inflight q) then q else Enqueue id (count_recovered q)) ids q.

Definition receive (q : UnpackQueue) : option (Z * UnpackQueue) :=
  match ch q with
  | [] => None
  | id :: c => Some (id, MkQueue c (ch_cap q) (inflight q) (UnpackEnqueued q) (UnpackDropped q) (UnpackRecovered q))
  end.

(** ** All goroutines *)

(** [sending]: callers between the mark and the [select]; [working]: jobs the
    workers hold. *)
Record Sys : Type := MkSys { sq : UnpackQueue; sending : list Z; working : list Z }.

Section Steps.
Context (workers : Z).

Inductive step : Sys → Sys → Prop :=
  | S_skip id q s w : id ∈ inflight q → step (MkSys q s w) (MkSys q s w)
  | S_mark id q s w : id ∉ inflight q → step (MkSys q s w) (MkSys (mark id q) (id :: s) w)
  | S_offer id q s1 s2 w : step (MkSys q (s1 ++ id :: s2) w) (MkSys (offer id q) (s1 ++ s2) w)
  | S_receive id q q' s w : zlen w < workers → receive q = Some (id, q') →
      step (MkSys q s w) (MkSys q' s (id :: w))
  | S_finish id q s w1 w2 : step (MkSys q s (w1 ++ id :: w2)) (MkSys (unmark id q) s (w1 ++ w2))
  | S_recovered q s w : step (MkSys q s w) (MkSys (count_recovered q) s w).

Definition steps : Sys → Sys → Prop := rtc step.

Definition jobs (x : Sys) : list Z := sending x ++ ch (sq x) ++ working x.

(** Every job is in one place and is marked; nothing else is marked. *)
Record queue_inv (x : Sys) : Prop := {
  qi_nodup : NoDup (jobs x);
  qi_inflight : ∀ id, id ∈ inflight (sq x) ↔ id ∈ jobs x;
  qi_room : zlen (ch (sq x)) <= ch_cap (sq x);
  qi_workers : zlen (working x) <= workers;
}.

(** A job moves: the same jobs in another order. *)
Lemma queue_inv_perm q q' s s' w w' :
  queue_inv (MkSys q s w) → s ++ ch q ++ w ≡ₚ s' ++ ch q' ++ w' → inflight q' = inflight q →
  zlen (ch q') <= ch_cap q' → zlen w' <= workers → queue_inv (MkSys q' s' w').
Proof.
  intros [N F R W] P Ei Hr Hw. unfold jobs in *. cbn in *. split; unfold jobs; cbn; try done.
  - by rw -P.
  - intros id. rw Ei -P. apply F.
Qed.

(** A job is done or given up. *)
Lemma queue_inv_remove id q q' s s' w w' :
  queue_inv (MkSys q s w) → s ++ ch q ++ w ≡ₚ id :: (s' ++ ch q' ++ w') →
  inflight q' = inflight q ∖ {[id]} → ch q' = ch q → ch_cap q' = ch_cap q → zlen w' <= workers →
  queue_inv (MkSys q' s' w').
Proof.
  intros [N F R W] P Ei Ec Ep Hw. unfold jobs in *. cbn in *. rw P in N.
  apply NoDup_cons in N as [Hn N]. split; unfold jobs; cbn; try done; [|by rw Ec Ep].
  intros x. rw Ei elem_of_difference F P elem_of_cons elem_of_singleton.
  split; [by intros [[?|?] ?]|]. intros Hx. split; [by right|]. by intros ->.
Qed.

Lemma step_inv x y : step x y → queue_inv x → queue_inv y.
Proof.
  destruct 1 as [id q s w Hi|id q s w Hi|id q s1 s2 w|id q q' s w Hw Hr|id q s w1 w2|q s w]; intros I.
  - done.
  - destruct I as [N F R W]. unfold jobs in *. cbn in *. split; unfold jobs; cbn; try done.
    + constructor; [|done]. by rw -F.
    + intros x. rw elem_of_union elem_of_singleton F elem_of_cons. done.
  - unfold offer. pose proof (qi_workers _ I) as W. cbn in W. destruct (has_room q) eqn:Er.
    + unfold has_room in Er. eapply queue_inv_perm; [done| |done| |done]; cbn.
      * by solve_Permutation.
      * rw zlen_app /zlen /=. unfold zlen in Er. lia.
    + eapply (queue_inv_remove id); [done| |done|done|done|done]. cbn. by solve_Permutation.
  - unfold receive in Hr. destruct (ch q) as [|a c] eqn:Ec; [done|]. injection Hr as -> <-.
    pose proof (qi_room _ I) as R. cbn in R. rw Ec zlen_cons in R.
    eapply queue_inv_perm; [done| |done| |]; cbn.
    + rw Ec. by solve_Permutation.
    + lia.
    + rw zlen_cons. lia.
  - pose proof (qi_workers _ I) as W. cbn in W. rw zlen_app zlen_cons in W.
    eapply (queue_inv_remove id); [done| |done|done|done|]; cbn; [by solve_Permutation|rw zlen_app; lia].
  - destruct I as [N F R W]. by split.
Qed.
End Steps.

Definition fresh_queue (queueSize : Z) : Sys := MkSys (NewUnpackQueue queueSize) [] [].

Lemma fresh_queue_inv workers queueSize : queue_inv (queue_workers workers) (fresh_queue queueSize).
Proof.
  split; cbn.
  - constructor.
  - intros id. set_solver.
  - unfold queue_size, zlen. cbn. case_match; lia.
  - unfold queue_workers, zlen. cbn. case_match; lia.
Qed.

Lemma steps_inv workers x y : steps workers x y → queue_inv workers x → queue_inv workers y.
Proof. induction 1 as [|x y z Hs _ IH]; [done|]. intros I. by eapply IH, step_inv. Qed.

(** [Enqueue] and the recovery scan, run without interruption, are runs of it. *)
Lemma Enqueue_steps workers id q s w : steps workers (MkSys q s w) (MkSys (Enqueue id q) s w).
Proof.
  unfold Enqueue. case_bool_decide as Hi; [by apply rtc_refl|].
  eapply rtc_l; [by apply S_mark|]. apply rtc_once. apply (S_offer workers id (mark id q) [] s w).
Qed.

Lemma recoverIDs_steps workers ids q s w : steps workers (MkSys q s w) (MkSys (recoverIDs ids q) s w).
Proof.
  revert q; induction ids as [|id ids IH]; intros q; [by apply rtc_refl|]. cbn [recoverIDs fold_left].
  etrans; [|apply IH]. case_bool_decide; [by apply rtc_refl|].
  eapply rtc_l; [apply S_recovered|]. apply Enqueue_steps.
Qed.

(** C29: no package is unpacked twice at once.  From a new queue, however callers,
    workers and recovery scans interleave, a package is held by at most one worker
    and is then in no other place; at most [workers] jobs run, the channel never
    exceeds its capacity, and exactly the jobs somewhere in the system are marked. *)
Theorem unpack_exclusive workers queueSize x :
  steps (queue_workers workers) (fresh_queue queueSize) x →
  NoDup (working x) ∧ (∀ id, id ∈ working x → id ∉ sending x ++ ch (sq x)) ∧
  zlen (working x) <= queue_workers workers ∧ zlen (ch (sq x)) <= ch_cap (sq x) ∧
  (∀ id, id ∈ inflight (sq x) ↔ id ∈ jobs x).
Proof.
  intros Hs. pose proof (steps_inv _ _ _ Hs (fresh_queue_inv workers queueSize)) as [N F R W].
  split; [|split; [|done]].
  - unfold jobs in N. rw !NoDup_app in N. tauto.
  - intros id Hw Hin. unfold jobs in N. rw app_assoc NoDup_app in N. destruct N as (_ & N & _). by eapply N.
Qed.

Lemma unpack_exclusive_witness :
  let x := MkSys (MkQueue [] 64 {[5]} 1 0 0) [] [5] in
  steps (queue_workers 0) (fresh_queue 0) x ∧ NoDup (working x).
Proof.
  intros x. assert (steps (queue_workers 0) (fresh_queue 0) x) as Hs.
  { etrans; [apply (Enqueue_steps (queue_workers 0) 5)|]. apply rtc_once.
    replace (MkSys (Enqueue 5 (NewUnpackQueue 0)) [] []) with (MkSys (MkQueue [5] 64 {[5]} 1 0 0) [] [])
      by (vm_compute; reflexivity).
    by apply S_receive. }
  split; [exact Hs|]. apply (unpack_exclusive 0 0 x Hs).
Defined.

(** What a call of [Enqueue] leaves: the package is marked, or the channel is full. *)
Lemma Enqueue_marks id q :
  inflight q ⊆ inflight (Enqueue id q) ∧ ch_cap (Enqueue id q) = ch_cap q ∧ ch q `prefix_of` ch (Enqueue id q) ∧
  (id ∈ inflight (Enqueue id q) ∨ has_room (Enqueue id q) = false).
Proof.
  unfold Enqueue. case_bool_decide as Hi; [by auto|]. unfold offer.
  change (has_room (mark id q)) with (has_room q). destruct (has_room q) eqn:E; cbn.
  - split; [set_solver|]. split; [done|]. split; [by apply prefix_app_r|]. left. set_solver.
  - split; [set_solver|]. split; [done|]. split; [done|]. by right.
Qed.

Lemma no_room_prefix q q' : ch_cap q' = ch_cap q → ch q `prefix_of` ch q' → has_room q = false → has_room q' = false.
Proof. unfold has_room, zlen. intros -> Hp%prefix_length. lia. Qed.

Lemma recoverIDs_marks ids q :
  inflight q ⊆ inflight (recoverIDs ids q) ∧ ch_cap (recoverIDs ids q) = ch_cap q ∧
  ch q `prefix_of` ch (recoverIDs ids q) ∧
  (∀ id, id ∈ ids → id ∈ inflight (recoverIDs ids q) ∨ has_room (recoverIDs ids q) = false).
Proof.
  revert q; induction ids as [|id ids IH]; intros q; cbn [recoverIDs fold_left].
  { split_and!; try done. intros id Hid. by apply not_elem_of_nil in Hid. }
  set (q1 := if bool_decide (id ∈ inflight q) then q else _).
  assert (inflight q ⊆ inflight q1 ∧ ch_cap q1 = ch_cap q ∧ ch q `prefix_of` ch q1 ∧
    (id ∈ inflight q1 ∨ has_room q1 = false)) as (A1 & A2 & A3 & A4).
  { unfold q1. case_bool_decide; [by auto|]. apply (Enqueue_marks id (count_recovered q)). }
  change (fold_left _ ids q1) with (recoverIDs ids q1).
  destruct (IH q1) as (B1 & B2 & B3 & B4). split; [by etrans|]. split; [by rw B2|]. split; [by etrans|].
  intros x [->|Hx]%elem_of_cons; [|by apply B4].
  destruct A4 as [?|Hn]; [left; by apply B1|right]. by eapply no_room_prefix.
Qed.

(** Dropped work is found again.  After a recovery scan every pending package
    is queued or being worked on, unless the channel is full; whatever was
    queued or marked before stays so. *)
Theorem recover_requeues ids q :
  inflight q ⊆ inflight (recoverIDs ids q) ∧ ch q `prefix_of` ch (recoverIDs ids q) ∧
  (has_room (recoverIDs ids q) = true → ∀ id, id ∈ ids → id ∈ inflight (recoverIDs ids q)).
Proof.
  destruct (recoverIDs_marks ids q) as (A1 & _ & A3 & A4). split_and!; try done.
  intros Hr id Hid. destruct (A4 id Hid) as [?|Hn]; [done|]. by rw Hn in Hr.
Qed.
