(* ===== verification/UnpackLife.v ===== *)
(** * The queue's goroutines from start to shutdown: internal/ingestion/unpack_worker.go

    UnpackQueue.v has the queue and the jobs; here are the goroutines themselves:
    the workers that [NewUnpackQueue] starts, the recovery loop that
    [StartRecovery] starts, and [Shutdown], which cancels their context and waits
    for them.  Where two cases of a [select] are ready, either may be taken. *)
From S2P Require Import Prelude UnpackQueue.

(** [StartRecovery]: the interval it settles on, in nanoseconds. *)
Definition recover_interval (interval : Z) : Z := if interval <=? 0 then 60 * 10 ^ 9 else interval.

(** Where the recovery loop is: not running, at its [select], or in
    [recoverPending] with the ids it still has to look at; with an id it has seen
    unmarked; or inside [Enqueue] between the mark and the [select]. *)
Inductive loop : Type :=
  | NoLoop
  | Waiting
  | Scanning (ids : list Z)
  | Checked (id : Z) (ids : list Z)
  | Offering (id : Z) (ids : list Z).

(** [alive] workers and the loop are what the wait group counts. *)
Record Life : Type := MkLife { lf : Sys; alive : nat; rl : loop; cancelled : bool }.

Definition started (workers queueSize : Z) : Life :=
  MkLife (fresh_queue queueSize) (Z.to_nat (queue_workers workers)) NoLoop false.
Definition StartRecovery (x : Life) : Life := MkLife (lf x) (alive x) Waiting (cancelled x).
(** The first half of [Shutdown]; the second waits until [returned]. *)
Definition cancel (x : Life) : Life := MkLife (lf x) (alive x) (rl x) true.
Definition returned (x : Life) : Prop := cancelled x = true ∧ alive x = 0%nat ∧ rl x = NoLoop.

(** Steps of the workers and of the recovery loop. *)
Inductive inside : Life → Life → Prop :=
  | I_receive id q q' s w a l c : (length w < a)%nat → receive q = Some (id, q') →
      inside (MkLife (MkSys q s w) a l c) (MkLife (MkSys q' s (id :: w)) a l c)
  | I_finish id q s w1 w2 a l c :
      inside (MkLife (MkSys q s (w1 ++ id :: w2)) a l c) (MkLife (MkSys (unmark id q) s (w1 ++ w2)) a l c)
  | I_exit q s w a l : (length w < S a)%nat →
      inside (MkLife (MkSys q s w) (S a) l true) (MkLife (MkSys q s w) a l true)
  | I_loop_exit x a : inside (MkLife x a Waiting true) (MkLife x a NoLoop true)
  | I_already id ids q s w a c : id ∈ inflight q →
      inside (MkLife (MkSys q s w) a (Scanning (id :: ids)) c) (MkLife (MkSys q s w) a (Scanning ids) c)
  | I_check id ids q s w a c : id ∉ inflight q →
      inside (MkLife (MkSys q s w) a (Scanning (id :: ids)) c) (MkLife (MkSys (count_recovered q) s w) a (Checked id ids) c)
  | I_skip id ids q s w a c : id ∈ inflight q →
      inside (MkLife (MkSys q s w) a (Checked id ids) c) (MkLife (MkSys q s w) a (Scanning ids) c)
  | I_mark id ids q s w a c : id ∉ inflight q →
      inside (MkLife (MkSys q s w) a (Checked id ids) c) (MkLife (MkSys (mark id q) (id :: s) w) a (Offering id ids) c)
  | I_offer id ids q s1 s2 w a c :
      inside (MkLife (MkSys q (s1 ++ id :: s2) w) a (Offering id ids) c) (MkLife (MkSys (offer id q) (s1 ++ s2) w) a (Scanning ids) c)
  | I_reset x a c : inside (MkLife x a (Scanning []) c) (MkLife x a Waiting c).

(** Steps of the rest: uploads that call [Enqueue], the timer, which lets the loop
    read the pending ids, and the process's own calls. *)
Inductive outside : Life → Life → Prop :=
  | O_mark id q s w a l c : id ∉ inflight q →
      outside (MkLife (MkSys q s w) a l c) (MkLife (MkSys (mark id q) (id :: s) w) a l c)
  | O_offer id q s1 s2 w a l c : (∀ ids, l ≠ Offering id ids) →
      outside (MkLife (MkSys q (s1 ++ id :: s2) w) a l c) (MkLife (MkSys (offer id q) (s1 ++ s2) w) a l c)
  | O_timer ids x a c : outside (MkLife x a Waiting c) (MkLife x a (Scanning ids) c)
  | O_start x a : outside (MkLife x a NoLoop false) (StartRecovery (MkLife x a NoLoop false))
  | O_cancel x : outside x (cancel x).

Definition lstep (x y : Life) : Prop := inside x y ∨ outside x y.

Section Life.
Context (workers : Z).

(** Each step is a step of UnpackQueue.v, or none, for the queue. *)
Lemma inside_sys x y : inside x y → Z.of_nat (alive x) <= workers → steps workers (lf x) (lf y) ∧ (alive y <= alive x)%nat.
Proof.
  destruct 1; cbn; intros Ha; (split; [|lia]); try done.
  - apply rtc_once. constructor; [unfold zlen; lia|done].
  - apply rtc_once. constructor.
  - apply rtc_once. constructor.
  - apply rtc_once. by constructor.
  - apply rtc_once. constructor.
Qed.
Lemma outside_sys x y : outside x y → steps workers (lf x) (lf y) ∧ alive y = alive x.
Proof.
  destruct 1; cbn; (split; [|done]); try done.
  - apply rtc_once. by constructor.
  - apply rtc_once. constructor.
Qed.

Record life_inv (x : Life) : Prop := {
  li_queue : queue_inv workers (lf x);
  li_alive : (length (working (lf x)) <= alive x)%nat ∧ Z.of_nat (alive x) <= workers;
  li_offering : ∀ id ids, rl x = Offering id ids → id ∈ sending (lf x);
}.

Lemma lstep_inv x y : lstep x y → life_inv x → life_inv y.
Proof.
  intros Hs [I [Hw Ha] Ho]. split.
  - destruct Hs as [Hs|Hs]; [apply inside_sys in Hs as [Hs _]|apply outside_sys in Hs as [Hs _]]; [|done|]; by eapply steps_inv.
  - destruct Hs as [Hs|Hs]; destruct Hs; cbn in *; rewrite -> ?length_app in *; cbn in *; lia.
  - destruct Hs as [Hs|Hs]; destruct Hs; cbn in *; intros i l0 Hi; try discriminate; try (by eapply Ho).
    + injection Hi as -> ->. by left.
    + right. by eapply Ho.
    + assert (i ∈ s1 ++ id :: s2) as Hin by (by eapply Ho). assert (i ≠ id) by (intros ->; by eapply H).
      apply elem_of_app in Hin as [?|[?|?]%elem_of_cons]; [apply elem_of_app; by left|done|apply elem_of_app; by right].
Qed.

(** ** Winding down *)

(** What the goroutines have left to do, in steps. *)
Definition loop_work (l : loop) : nat :=
  match l with
  | NoLoop => 0 | Waiting => 1 | Scanning ids => 8 * length ids + 2
  | Checked _ ids => 8 * length ids + 7 | Offering _ ids => 8 * length ids + 6
  end.
Definition work (x : Life) : nat := 3 * length (ch (sq (lf x))) + 2 * length (working (lf x)) + alive x + loop_work (rl x).

Lemma inside_works x y : inside x y → (work y < work x)%nat.
Proof.
  destruct 1; unfold work; cbn; rewrite -> ?length_app; cbn; try lia.
  - unfold receive in H0. destruct (ch q) as [|i ch']; [done|]. injection H0 as -> <-. cbn. lia.
  - unfold offer. destruct (has_room q); cbn; rewrite -> ?length_app; cbn; lia.
Qed.

(** A cancelled queue goes on until [Shutdown] can return. *)
Lemma inside_stuck x : life_inv x → cancelled x = true → (∀ y, ¬ inside x y) → returned x ∧ working (lf x) = [].
Proof.
  intros [I [Hw Ha] Ho] Hc Hn. destruct x as [[q s w] a l c]. cbn in *. subst c.
  destruct w as [|id w]; [|by destruct (Hn _ (I_finish id q s [] w a l true))].
  destruct a as [|a]; [|by destruct (Hn _ (I_exit q s [] a l ltac:(cbn; lia)))].
  split; [|done]. split_and!; [done|done|]. cbn.
  destruct l as [| |[|id ids]|id ids|id ids]; [done|..]; exfalso.
  - by eapply Hn, I_loop_exit.
  - by eapply Hn, I_reset.
  - destruct (decide (id ∈ inflight q)); [by eapply Hn, I_already|by eapply Hn, I_check].
  - destruct (decide (id ∈ inflight q)); [by eapply Hn, I_skip|by eapply Hn, I_mark].
  - destruct (list_elem_of_split _ _ (Ho id ids eq_refl)) as (s1 & s2 & ->). by eapply Hn, I_offer.
Qed.

(** Once it has returned, no worker takes a job any more. *)
Lemma returned_stays x y : lstep x y → life_inv x → returned x → returned y.
Proof.
  intros Hs [_ [Hw _] _] (Hc & Ha & Hl). destruct Hs as [Hs|Hs]; destruct Hs; cbn in *; subst; try done; try lia.
Qed.
End Life.

Lemma life_started_inv workers queueSize : life_inv (queue_workers workers) (started workers queueSize).
Proof.
  split; [apply fresh_queue_inv| |done]. cbn. unfold queue_workers. case_match; lia.
Qed.

Lemma reachable_inv workers x y : rtc lstep x y → life_inv workers x → life_inv workers y.
Proof. induction 1; [done|]. intros I. apply IHrtc. by eapply lstep_inv. Qed.

(** C30: [Shutdown] returns, and nothing is unpacked after it.  In every state a
    queue can reach, once the context is cancelled, every run of the workers and
    of the recovery loop in which no upload enqueues and the timer does not fire
    again is finite, and ends with all of them gone and no package being
    unpacked; from then on no worker ever takes a job, and each package that is
    still marked waits in the channel or at a caller's [select]. *)
Theorem shutdown_returns workers queueSize x :
  rtc lstep (started workers queueSize) x → cancelled x = true →
  Acc (flip inside) x ∧
  ∀ y, rtc inside x y → (∀ z, ¬ inside y z) →
    returned y ∧ ∀ z, rtc lstep y z → returned z ∧ working (lf z) = [] ∧
      ∀ id, id ∈ inflight (sq (lf z)) ↔ id ∈ sending (lf z) ++ ch (sq (lf z)).
Proof.
  intros Hx Hc. pose proof (reachable_inv _ _ _ Hx (life_started_inv workers queueSize)) as I. split.
  - apply (wf_projected lt work); [|apply lt_wf]. intros a b. apply inside_works.
  - intros y Hy Hn. assert (cancelled y = true) as Hcy.
    { clear - Hy Hc. induction Hy as [|a b c Hab _ IH]; [done|]. apply IH. destruct Hab; done. }
    assert (life_inv (queue_workers workers) y) as Iy.
    { eapply reachable_inv; [|exact I]. eapply rtc_subrel; [|exact Hy]. by left. }
    destruct (inside_stuck _ _ Iy Hcy Hn) as [Hr _]. split; [done|]. intros z Hz.
    assert (returned z ∧ life_inv (queue_workers workers) z) as [Hrz Iz].
    { clear - Hz Hr Iy. induction Hz as [|a b c Hab _ IH]; [done|]. apply IH; [by eapply lstep_inv|by eapply returned_stays]. }
    assert (working (lf z) = []) as Hw.
    { destruct Iz as [_ [Hw _] _]. destruct Hrz as (_ & Ha & _). rewrite -> Ha in Hw. destruct (working (lf z)); cbn in Hw; [done|lia]. }
    split_and!; [done|done|]. intros id. rewrite -> (qi_inflight _ _ (li_queue _ _ Iz)). unfold jobs. by rewrite -> Hw, app_nil_r.
Qed.

(** One worker, a package in the channel, the loop at its select. *)
Lemma shutdown_returns_witness :
  let q := send 7 (mark 7 (NewUnpackQueue 2)) in
  let x := MkLife (MkSys q [] []) 1 Waiting true in
  let y := MkLife (MkSys q [] []) 0 NoLoop true in
  rtc inside x y ∧ (∀ z, ¬ inside y z) ∧ returned y ∧ ∀ z, rtc lstep y z → working (lf z) = [].
Proof.
  intros q x y. assert (rtc inside x y) as Hxy.
  { eapply rtc_l; [apply (I_exit q [] [] 0 Waiting); cbn; lia|]. apply rtc_once, I_loop_exit. }
  assert (∀ z, ¬ inside y z) as Hn.
  { intros z Hz. inversion Hz; subst; cbn in *; try lia. by destruct w1. }
  assert (rtc lstep (started 1 2) x) as Hx.
  { eapply rtc_l; [right; apply (O_start (fresh_queue 2) 1)|].
    eapply rtc_l; [right; apply (O_mark 7 (NewUnpackQueue 2) [] [] 1 Waiting false); set_solver|].
    eapply rtc_l; [right; apply (O_offer 7 _ [] [] [] 1 Waiting false); done|]. apply rtc_once. right. apply O_cancel. }
  destruct (shutdown_returns 1 2 x Hx eq_refl) as [_ T]. destruct (T y Hxy Hn) as [Hr Hz].
  split; [exact Hxy|]. split; [exact Hn|]. split; [exact Hr|]. intros z Hyz. destruct (Hz z Hyz) as (_ & Hw & _). exact Hw.
Defined.
