(* ===== verification/Ingest.v ===== *)
(** * The ingestion service: internal/ingestion (package.go, stats.go, unpack_large.go)

    The service over the blob store, the metadata transactions, the journal and
    the unpack queue.  Variables the Go closures share with the enclosing function
    (the counters) are part of the state a transaction body runs on; they are not
    rolled back. *)
From S2P Require Import Prelude GoLib Record Metadata Disk Compress Dedup BlobStore Detect Journal UnpackQueue.

Definition RoleOriginal : string := "original".
Definition RoleMember : string := "member".
Definition RoleUnpackError : string := "unpack_error".
Definition StorageSingle : string := "single".
Definition StorageZipWithMembers : string := "zip_with_members".
Definition StorageRawLarge : string := "raw_large".
Definition unpackErrorFilename : string := "_unpack_error.txt".

(** The configuration the service reads. *)
Record Config : Type := MkConfig {
  MaxBodyBytes : Z;
  ZipThresholdSize : Z;
  ZipThresholdCount : Z;
  MaxUnpackedZipBytes : Z;
  LargeZipAsyncUnpack : bool;
}.

Record ingestCounters : Type := MkCounters { newBlobs : Z; duplicateRefs : Z }.
Definition add (created : bool) (c : ingestCounters) : ingestCounters :=
  if created then MkCounters (newBlobs c + 1) (duplicateRefs c) else MkCounters (newBlobs c) (duplicateRefs c + 1).

Definition errSkipLargeUnpack : error := Error "large zip package already unpacked" [ErrSkipLargeUnpack].

(** What the service uses of the journal. *)
Class JournalOps (J : Type) := { jr_append : JournalEntry → M J unit }.
#[export] Instance journal_ops `{EntryJSON} : JournalOps Journal := { jr_append := JAppend }.

Section Ingest.
Context {S : Type} `{DiskOps S} {K : Type} `{kvStore K} `{Bloom} `{Zstd} `{PG} `{ZipLib} `{Times}.
Context {J : Type} `{JournalOps J}.
Context (encoder : option Encoder) (withIndex : bool) (cfg : Config).

Notation Store := (Store S K).

Record Service : Type := MkService {
  sv_store : Store;
  sv_journal : option J;
  sv_queue : option UnpackQueue;
}.

(** The state of a transaction body. *)
Record TxState : Type := MkTx { tx_store : Store; tx_counters : ingestCounters }.

Definition on_store {A} (m : M Store A) : M Service A :=
  zoom sv_store (fun st s => MkService st (sv_journal s) (sv_queue s)) m.
Definition repo {A} (m : M DB A) : M Service A := on_store (on_db m).

Definition in_store {A} (m : M Store A) : M TxState A :=
  zoom tx_store (fun st t => MkTx st (tx_counters t)) m.
Definition tx {A} (m : M DB A) : M TxState A := in_store (on_db m).
Definition count (created : bool) : M TxState unit :=
  modify (fun t => MkTx (tx_store t) (add created (tx_counters t))).

Definition set_db (db : DB) (t : TxState) : TxState :=
  MkTx (MkStore (b_disk (tx_store t)) (b_hot (tx_store t)) db) (tx_counters t).

(** [s.repo.WithTx(ctx, fn)] with counters that start at zero. *)
Definition withTx {A} (fn : M TxState A) : M Service (A * ingestCounters) := fun s =>
  match WithTx (fun t => b_db (tx_store t)) set_db fn (MkTx (sv_store s) (MkCounters 0 0)) with
  | (t, Ok a) => (MkService (tx_store t) (sv_journal s) (sv_queue s), Ok (a, tx_counters t))
  | (t, Err e) => (MkService (tx_store t) (sv_journal s) (sv_queue s), Err e)
  end.

Definition journalPackage (pkg : option Package) : M Service unit := fun s =>
  match sv_journal s, pkg with
  | Some j, Some p =>
      match jr_append (EntryFromPackage p) j with
      | (j', r) => (MkService (sv_store s) (Some j') (sv_queue s), r)
      end
  | _, _ => (s, Ok tt)
  end.

Definition loadAndJournal (packageID : Z) : M Service (option Package) :=
  let! pkg := repo (GetPackage packageID) in
  do! journalPackage pkg;
  mret pkg.

Definition recordIngest (supplierID fileCount : Z) (counters : ingestCounters) (packageClone : bool) : M Service unit :=
  let dup := if packageClone then fileCount else duplicateRefs counters in
  ignore (repo (RecordSupplierIngest supplierID fileCount (newBlobs counters) dup)).

(** [blobs.StoreOrRef] followed by [counters.add]. *)
Definition store (data : bytes) (rt : RecordType) (supplierID : Z) : M TxState bytes :=
  let! hc := in_store (StoreOrRef encoder withIndex data rt supplierID) in
  do! count hc.2;
  mret hc.1.

Definition persistUnpackError (packageID supplierID : Z) (unpackErr : error) : M TxState unit :=
  let! errHash := store (bs (err_msg unpackErr)) RecordError supplierID in
  let! _ := tx (CreatePackageFile packageID
                  (MkCreateFile errHash RoleUnpackError (Some unpackErrorFilename) None)) in
  mret tt.

(** The callback of [persistZipMembers]; the member count is its own state. *)
Definition persistMember (packageID supplierID : Z) (name : string) (data : bytes) : M (TxState * Z) unit :=
  let! memberHash := zoom fst (fun t p => (t, p.2)) (store data RecordXML supplierID) in
  let! seq := gets snd in
  do! modify (fun p => (p.1, p.2 + 1));
  let! _ := zoom fst (fun t p => (t, p.2)) (tx (CreatePackageFile packageID
              (MkCreateFile memberHash RoleMember (Some name) (Some seq)))) in
  mret tt.

Definition persistZipMembers (packageID supplierID : Z) (zipBytes : bytes) (maxUnpacked : Z)
    : M TxState (Z * option string) := fun t =>
  match ForEachZipMember zipBytes maxUnpacked (persistMember packageID supplierID) (t, 0) with
  | ((t', memberCount), Ok _) => (t', Ok (1 + memberCount, None))
  | ((t', _), Err unpackErr) =>
      (do! persistUnpackError packageID supplierID unpackErr;
       mret (2, Some (err_msg unpackErr))) t'
  end.

Definition clonePackage (supplierID : Z) (pkgHash : bytes) (payloadType : PayloadType)
    (filename : option string) (canonicalID : Z) : M Service (option Package) :=
  let! canonical := repo (GetPackage canonicalID) in
  match canonical with
  | None => fail (errorf "canonical package missing")
  | Some canonical =>
      let! r := withTx (
        let! packageID := tx (CreatePackage (MkCreatePackage supplierID pkgHash (payload_string payloadType)
          (StorageMode canonical) filename (Some canonicalID) (FileCount canonical) (UnpackError canonical))) in
        do! forM_ (Files canonical) (fun f =>
          let! _ := tx (CreatePackageFile packageID (MkCreateFile (BlobHash f) (Role f)
                          (pf_OriginalFilename f) (SequenceNumber f))) in mret tt);
        do! tx (IncrementRefCounts (BlobHash <$> Files canonical));
        mret packageID) in
      loadAndJournal r.1
  end.

(** The transaction ingestXML and ingestLargeZIP share: the body as one blob. *)
Definition ingest_single (supplierID : Z) (pkgHash body : bytes) (rt : RecordType) (pt : PayloadType)
    (mode : string) (filename : option string) : M TxState Z :=
  let! hash := store body rt supplierID in
  let! packageID := tx (CreatePackage (MkCreatePackage supplierID pkgHash (payload_string pt) mode filename None 1 None)) in
  let! _ := tx (CreatePackageFile packageID (MkCreateFile hash RoleOriginal filename None)) in
  mret packageID.

Definition ingestXML (supplierID : Z) (pkgHash body : bytes) (filename : option string) : M Service (option Package) :=
  let! r := withTx (ingest_single supplierID pkgHash body RecordXML PayloadXML StorageSingle filename) in
  do! recordIngest supplierID 1 r.2 false;
  loadAndJournal r.1.

Definition enqueue (packageID : Z) : M Service unit :=
  modify (fun s => MkService (sv_store s) (sv_journal s)
    (if LargeZipAsyncUnpack cfg then Enqueue packageID <$> sv_queue s else sv_queue s)).

Definition ingestLargeZIP (supplierID : Z) (pkgHash body : bytes) (filename : option string)
    : M Service (option Package) :=
  let! r := withTx (ingest_single supplierID pkgHash body RecordZIP PayloadZIP StorageRawLarge filename) in
  do! recordIngest supplierID 1 r.2 false;
  do! enqueue r.1;
  loadAndJournal r.1.

Definition ingestSmallZIP (supplierID : Z) (pkgHash body : bytes) (filename : option string)
    : M Service (option Package) :=
  let unpackErr := match CountZipEntries body with
    | Err e => Some e
    | Ok _ => match CheckZipUncompressedLimit body (MaxUnpackedZipBytes cfg) with Err e => Some e | Ok _ => None end
    end in
  let memberCount := match CountZipEntries body with Ok n => n | Err _ => 0 end in
  let fileCount := match unpackErr with Some _ => 2 | None => 1 + memberCount end in
  let! r := withTx (
    let! zipHash := store body RecordZIP supplierID in
    let! packageID := tx (CreatePackage (MkCreatePackage supplierID pkgHash (payload_string PayloadZIP)
      StorageZipWithMembers filename None fileCount (err_msg <$> unpackErr))) in
    let! _ := tx (CreatePackageFile packageID (MkCreateFile zipHash RoleOriginal filename None)) in
    do! match unpackErr with
        | Some e => persistUnpackError packageID supplierID e
        | None => let! _ := persistZipMembers packageID supplierID body (MaxUnpackedZipBytes cfg) in mret tt
        end;
    mret packageID) in
  do! recordIngest supplierID fileCount r.2 false;
  loadAndJournal r.1.

Definition ingestZIP (supplierID : Z) (pkgHash body : bytes) (filename : option string) : M Service (option Package) :=
  let large := (ZipThresholdSize cfg <? zlen body) ||
    match CountZipEntries body with Ok n => ZipThresholdCount cfg <? n | Err _ => false end in
  if large then ingestLargeZIP supplierID pkgHash body filename
  else ingestSmallZIP supplierID pkgHash body filename.

Definition ProcessPackage (supplierID : Z) (body : bytes) (filename : option string) : M Service (option Package) :=
  if zlen body =? 0 then fail (errorf "empty body") else
  if MaxBodyBytes cfg <? zlen body then fail (errorf "payload too large") else
  let pkgHash := PackageHash body in
  let! payloadType := lift_result (DetectPayload body) in
  let! canonicalID := repo (FindCanonicalPackageID pkgHash) in
  match canonicalID with
  | Some canonicalID =>
      let! pkg := clonePackage supplierID pkgHash payloadType filename canonicalID in
      match pkg with
      | None => fail nil_dereference
      | Some p => do! recordIngest supplierID (FileCount p) (MkCounters 0 0) true; mret pkg
      end
  | None =>
      match payloadType with
      | PayloadXML => ingestXML supplierID pkgHash body filename
      | PayloadZIP => ingestZIP supplierID pkgHash body filename
      end
  end.

(** ** Unpacking in the background *)

Definition packageFileKey (role : string) (blobHash : bytes) (originalFilename : option string)
    (sequenceNumber : option Z) : string :=
  role +:+ "|" +:+ Itoa (default (-1) sequenceNumber) +:+ "|" +:+ default "" originalFilename +:+ "|" +:+
  EncodeToString blobHash.
Definition key_of (f : PackageFile) : string :=
  packageFileKey (Role f) (BlobHash f) (pf_OriginalFilename f) (SequenceNumber f).

Definition is_extra (f : PackageFile) : bool :=
  (Role f =? RoleMember)%string || (Role f =? RoleUnpackError)%string.

(** The loop over the canonical package's extra files: what is not there yet is
    added; the accumulator is [existing] with the hashes to count. *)
Definition add_missing (cloneID : Z) (acc : gset string * list bytes) (f : PackageFile)
    : M TxState (gset string * list bytes) :=
  let '(existing, hashes) := acc in
  if bool_decide (key_of f ∈ existing) then mret acc else
  let! _ := tx (CreatePackageFile cloneID (MkCreateFile (BlobHash f) (Role f) (pf_OriginalFilename f) (SequenceNumber f))) in
  mret ({[key_of f]} ∪ existing, hashes ++ [BlobHash f]).

Definition propagateToClone (canonical : Package) (extraFiles : list PackageFile) (cloneID : Z) : M Service unit :=
  let! clone := repo (GetPackage cloneID) in
  match clone with
  | None => mret tt
  | Some clone =>
      if negb (StorageMode clone =? StorageRawLarge)%string then mret tt else
      let existing : gset string := list_to_set (key_of <$> filter (fun f => is_extra f = true) (Files clone)) in
      let! _ := withTx (
        let! acc := foldM (add_missing cloneID) (existing, []) extraFiles in
        do! tx (IncrementRefCounts acc.2);
        let! _ := tx (UpdatePackageAfterUnpack cloneID StorageZipWithMembers (FileCount canonical) (UnpackError canonical)) in
        mret tt) in
      mret tt
  end.

Definition propagateUnpackToClones (canonicalID : Z) : M Service unit :=
  let! canonical := repo (GetPackage canonicalID) in
  match canonical with
  | None => mret tt
  | Some canonical =>
      if negb (StorageMode canonical =? StorageZipWithMembers)%string then mret tt else
      let! cloneIDs := repo (ListClonePackageIDs canonicalID) in
      forM_ cloneIDs (propagateToClone canonical (filter (fun f => is_extra f = true) (Files canonical)))
  end.

Definition PendingLargePackageIDs : M Service (list Z) := repo ListPendingLargePackages.

Definition propagate_and_journal (packageID : Z) : M Service unit :=
  do! propagateUnpackToClones packageID;
  let! _ := loadAndJournal packageID in
  mret tt.

(** The unpack transaction. *)
Definition unpack_tx (packageID : Z) (zipBytes : bytes) : M TxState unit :=
  let! lockedPkg := tx (GetPackageForUpdate packageID) in
  match lockedPkg with
  | None => fail (errorf ("package " +:+ Itoa packageID +:+ " not found"))
  | Some lockedPkg =>
      if negb (StorageMode lockedPkg =? StorageRawLarge)%string then fail errSkipLargeUnpack else
      let! fc := persistZipMembers packageID (SupplierID lockedPkg) zipBytes (MaxUnpackedZipBytes cfg) in
      let! updated := tx (UpdatePackageAfterUnpack packageID StorageZipWithMembers fc.1 fc.2) in
      if negb updated then fail errSkipLargeUnpack else mret tt
  end.

Definition UnpackLargePackage (packageID : Z) : M Service unit :=
  let! pkg := repo (GetPackage packageID) in
  match pkg with
  | None => fail (errorf ("package " +:+ Itoa packageID +:+ " not found"))
  | Some pkg =>
      if (StorageMode pkg =? StorageZipWithMembers)%string then propagate_and_journal packageID else
      if negb (StorageMode pkg =? StorageRawLarge)%string then mret tt else
      let! orig := repo (GetOriginalFile packageID) in
      match orig with
      | None => fail (errorf ("package " +:+ Itoa packageID +:+ " has no original"))
      | Some orig =>
          let! blob := repo (RepoGetBlob (BlobHash orig)) in
          match blob with
          | None => fail (errorf ("blob missing for package " +:+ Itoa packageID))
          | Some blob =>
              let! zipBytes := on_store (ReadBlob encoder blob) in
              let! r := try (withTx (unpack_tx packageID zipBytes)) in
              match r with
              | Err e => if error_is e ErrSkipLargeUnpack then propagate_and_journal packageID else fail e
              | Ok _ => propagate_and_journal packageID
              end
          end
      end
  end.

(** One job of a worker: the package is unmarked whatever the outcome. *)
Definition run_job (id : Z) : M Service unit := fun s =>
  match UnpackLargePackage id s with
  | (s', r) => (MkService (sv_store s') (sv_journal s') (unmark id <$> sv_queue s'), r)
  end.

(** The recovery scan; its errors are logged and dropped. *)
Definition recoverPending : M Service unit :=
  let! r := try PendingLargePackageIDs in
  match r with
  | Err _ => mret tt
  | Ok ids => modify (fun s => MkService (sv_store s) (sv_journal s) (recoverIDs ids <$> sv_queue s))
  end.
End Ingest.
Arguments TxState S K {_}.
Arguments Service S K {_} J.
