(* ===== verification/IngestInv.v ===== *)
(** * What the ingestion service keeps, whatever fails

    [run] is what a piece of a transaction does to the store: the invariant with
    the references it owes, the growth of the tables, and the packages it
    created.  Each statement has its [run] lemma, [withTx] turns the run of a body
    into one of the service, or into no change of the tables at all. *)
From S2P Require Import Prelude GoLib Hash Record Metadata MetadataInv Disk Compress Dedup BlobStore Detect Journal UnpackQueue Ingest.

(** ** How the tables grow *)

(** Nothing is lost; a package changes its storage mode only from raw_large; a
    package that is there and was not is one of [new]. *)
Record tables_le (new : list Z) (t t' : Tables) : Prop := {
  tl_blobs : blobs_le t t';
  tl_files : ∀ kf, kf ∈ package_files t → kf ∈ package_files t';
  tl_kept : ∀ id p, tget id (packages t) = Some p →
    ∃ p', tget id (packages t') = Some p' ∧ p_PackageHash p' = p_PackageHash p ∧
      (StorageMode p ≠ StorageRawLarge → StorageMode p' = StorageMode p);
  tl_only : ∀ id p', tget id (packages t') = Some p' → id ∈ new ∨
    ∃ p, tget id (packages t) = Some p ∧ p_PackageHash p' = p_PackageHash p;
}.

Lemma tables_le_same t t' :
  blobs_le t t' → packages t' = packages t → package_files t' = package_files t → tables_le [] t t'.
Proof. intros B P F. split; rw ?P ?F; eauto. Qed.

Lemma blobs_le_eq t t' : content_blobs t' = content_blobs t → blobs_le t t'.
Proof. intros E h b Hb. exists b. rw E. by repeat split. Qed.

Lemma tables_le_refl t : tables_le [] t t.
Proof. apply tables_le_same; [apply blobs_le_refl|done|done]. Qed.

Lemma tables_le_trans n1 n2 t1 t2 t3 : tables_le n1 t1 t2 → tables_le n2 t2 t3 → tables_le (n1 ++ n2) t1 t3.
Proof.
  intros [A1 A2 A3 A4] [B1 B2 B3 B4]. split; [by eapply blobs_le_trans|auto| |].
  - intros id p Hp. destruct (A3 id p Hp) as (p2 & Hp2 & E2 & M2). destruct (B3 id p2 Hp2) as (p3 & Hp3 & E3 & M3).
    exists p3. split; [done|]. split; [congruence|]. intros Hm. specialize (M2 Hm). rw M3; congruence.
  - intros id p' Hp'. rw elem_of_app. destruct (B4 id p' Hp') as [?|(p2 & Hp2 & E2)]; [by auto|].
    destruct (A4 id p2 Hp2) as [?|(p & Hp & E)]; [by auto|]. right. exists p. split; [done|congruence].
Qed.

(** Every package has its upload: an original file whose blob has the package's hash. *)
Definition has_original (t : Tables) (id : Z) (h : bytes) : Prop :=
  ∃ k f, (k, f) ∈ package_files t ∧ PackageID f = id ∧ Role f = RoleOriginal ∧ BlobHash f = h.
Definition originals (t : Tables) : Prop :=
  ∀ id p, tget id (packages t) = Some p → has_original t id (p_PackageHash p).

Lemma has_original_le n t t' id h : tables_le n t t' → has_original t id h → has_original t' id h.
Proof. intros L (k & f & Hin & E). exists k, f. split; [by apply L|done]. Qed.

Lemma originals_le new t t' :
  tables_le new t t' → originals t →
  (∀ id p, id ∈ new → tget id (packages t') = Some p → has_original t' id (p_PackageHash p)) → originals t'.
Proof.
  intros L O N id p Hp. destruct (tl_only _ _ _ L id p Hp) as [Hn|(p0 & Hp0 & E)]; [by apply N|].
  rw E. by eapply has_original_le, O.
Qed.

(** ** Debts *)
Definition owes (hs : list bytes) (n : Z) (debt : bytes → Z) : bytes → Z := foldr (fun h d => owe h n d) debt hs.

Lemma owes_val hs n debt h : owes hs n debt h = debt h + n * zlen (filter (.= h) hs).
Proof.
  induction hs as [|a hs IH]; [cbn; unfold zlen; cbn; lia|].
  change (owes (a :: hs) n debt h) with (owe a n (owes hs n debt) h). unfold owe. rw filter_cons.
  destruct (decide (h = a)) as [->|Hne].
  - destruct (decide (a = a)); [|done]. rw zlen_cons IH. lia.
  - destruct (decide (a = h)); [congruence|]. done.
Qed.

Lemma owe_cancel h debt h' : owe h (-1) (owe h 1 debt) h' = debt h'.
Proof. unfold owe. case_decide; lia. Qed.

Lemma owes_cancel hs debt h : owes hs 1 (owes hs (-1) debt) h = debt h.
Proof. rw !owes_val. lia. Qed.

Lemma owes_app l1 l2 n debt h : owes (l1 ++ l2) n debt h = owes l1 n (owes l2 n debt) h.
Proof. rw !owes_val filter_app zlen_app. lia. Qed.

(** Owing no less. *)
Definition debt_le (d d' : bytes → Z) : Prop := ∀ h, d h <= d' h.
#[export] Instance debt_le_preorder : PreOrder debt_le.
Proof. split; [by intros d h|]. intros d1 d2 d3 A B h. specialize (A h). specialize (B h). lia. Qed.

Lemma debt_le_owe h debt : debt_le debt (owe h 1 debt).
Proof. intros h'. unfold owe. case_decide; lia. Qed.

(** ** Steps of the store *)
Definition seq_le (db db' : DB) : Prop :=
  packages_seq db <= packages_seq db' ∧ files_seq db <= files_seq db' ∧ db_clock db' = db_clock db.
#[export] Instance seq_le_preorder : PreOrder seq_le.
Proof.
  split; [done|]. intros a b c (? & ? & ?) (? & ? & ?). unfold seq_le. split_and!; (lia || congruence).
Qed.
Lemma db_step_seq db db' : db_step db db' → seq_le db db'.
Proof. by intros (? & ? & _ & ?). Qed.

Section Runs.
Context {S : Type} `{DiskLaws S} {K : Type} `{kvStore K} `{Bloom} `{ZstdLaws} `{PG} `{ZipLib}.
Context (encoder : option Encoder) (withIndex : bool).
Context (Henc : ∀ e, encoder = Some e → enc_ok e).

Notation Store := (BlobStore.Store S K).
Notation TxState := (Ingest.TxState S K).
Notation inv := (store_inv (S := S) (K := K) encoder).

(** What survives a rollback. *)
Definition frame (st st' : Store) : Prop := dk_le (b_disk st) (b_disk st') ∧ seq_le (b_db st) (b_db st').

Lemma frame_trans a b c : frame a b → frame b c → frame a c.
Proof. intros [A1 A2] [B1 B2]. split; [by eapply dk_le_trans|by etrans]. Qed.

Record run (debt : bytes → Z) (new : list Z) (st st' : Store) : Prop := {
  run_inv : inv debt st';
  run_frame : frame st st';
  run_tables : tables_le new (db_tables (b_db st)) (db_tables (b_db st'));
}.

Lemma run_refl debt st : inv debt st → run debt [] st st.
Proof. intros I. split; [done|split; [by apply dk_le_refl, I|reflexivity]|apply tables_le_refl]. Qed.

Lemma run_trans d1 d2 n1 n2 a b c : run d1 n1 a b → run d2 n2 b c → run d2 (n1 ++ n2) a c.
Proof. intros [A1 A2 A3] [B1 B2 B3]. split; [done|by eapply frame_trans|by eapply tables_le_trans]. Qed.

Lemma run_debt d d' n a b : (∀ h, d h = d' h) → run d n a b → run d' n a b.
Proof.
  intros Hd [[I1 I2 I3] A2 A3]. split; [|done|done]. split; [done| |done]. by eapply db_inv_debt.
Qed.

(** After a rollback to the tables of [st]. *)
Lemma inv_rollback debt st st' db :
  inv debt st → frame st st' → db_tables db = db_tables (b_db st) →
  packages_seq (b_db st') <= packages_seq db → files_seq (b_db st') <= files_seq db →
  inv debt (MkStore (b_disk st') (b_hot st') db).
Proof.
  intros [I1 I2 I3] [D (S1 & S2 & _)] T P F. split; cbn; [apply D|rw T; eapply db_inv_seqs; [| |done]; lia|].
  rw T. intros h b Hb. apply (blob_ok_le encoder _ _ b D). by eapply I3.
Qed.

Lemma blobs_ok_eq (d : S) t t' :
  content_blobs t' = content_blobs t → blobs_ok encoder d t → blobs_ok encoder d t'.
Proof. intros E B h b. rw E. apply B. Qed.

(** Statements on the metadata part. *)
Lemma tx_inv {A} (m : M DB A) (t t' : TxState) r :
  tx m t = (t', r) → ∃ db', m (b_db (tx_store t)) = (db', r) ∧ t' = set_db db' t.
Proof.
  unfold tx, in_store, zoom. destruct (on_db m (tx_store t)) as [st r'] eqn:E. intros [= <- <-].
  apply on_db_inv in E as (db' & E & ->). by exists db'.
Qed.

Lemma set_db_run debt' new (t : TxState) db' :
  inv debt' (MkStore (b_disk (tx_store t)) (b_hot (tx_store t)) db') → seq_le (b_db (tx_store t)) db' →
  tables_le new (db_tables (b_db (tx_store t))) (db_tables db') → dk_inv (b_disk (tx_store t)) →
  run debt' new (tx_store t) (tx_store (set_db db' t)).
Proof. intros I S1 T D. split; [done|split; [by apply dk_le_refl|done]|done]. Qed.

(** A statement that changed no table. *)
Lemma same_run debt (t : TxState) db' :
  inv debt (tx_store t) → db_step (b_db (tx_store t)) db' → db_tables db' = db_tables (b_db (tx_store t)) →
  run debt [] (tx_store t) (tx_store (set_db db' t)).
Proof.
  intros I S1 T. destruct (db_same_step encoder debt (tx_store t) db' I S1 T) as [I' _].
  apply set_db_run; [done|by apply db_step_seq|rw T; apply tables_le_refl|apply I].
Qed.

Lemma store_run debt data rt sup (t t' : TxState) r :
  inv debt (tx_store t) → store encoder withIndex data rt sup t = (t', r) →
  match r with
  | Ok h => h = Sum256 data ∧ run (owe h 1 debt) [] (tx_store t) (tx_store t') ∧
      is_Some (content_blobs (db_tables (b_db (tx_store t'))) !! h)
  | Err _ => ∃ debt', debt_le debt debt' ∧ run debt' [] (tx_store t) (tx_store t')
  end.
Proof.
  intros I E. unfold store in E.
  assert (∀ st0 st1, store_le st0 st1 → frame st0 st1 ∧ tables_le [] (db_tables (b_db st0)) (db_tables (b_db st1))) as Hle.
  { intros st0 st1 L. split; [split; [apply L|apply db_step_seq, L]|]. apply tables_le_same; apply L. }
  unfold in_store, zoom, mbind, M_bind in E. destruct (StoreOrRef encoder withIndex data rt sup (tx_store t)) as [st1 r1] eqn:Es.
  destruct (StoreOrRef_post encoder withIndex Henc debt data rt sup _ _ _ I Es) as [L P].
  destruct (Hle _ _ L) as [F T]. destruct r1 as [[h c]|e].
  - unfold count, modify in E. munfold. cbn in E. injection E as <- <-. destruct P as (-> & I' & Hs & _). cbn.
    split; [done|]. split; [|done]. by split.
  - cbn in E. injection E as <- <-. destruct P as [I'|I']; [exists debt|exists (owe (Sum256 data) 1 debt)].
    + split; [done|by split].
    + split; [apply debt_le_owe|by split].
Qed.

Lemma create_package_run debt i (t t' : TxState) r :
  inv debt (tx_store t) → tx (CreatePackage i) t = (t', r) →
  match r with
  | Ok id => run debt [id] (tx_store t) (tx_store t') ∧
      tget id (packages (db_tables (b_db (tx_store t)))) = None ∧
      package_files (db_tables (b_db (tx_store t'))) = package_files (db_tables (b_db (tx_store t))) ∧
      content_blobs (db_tables (b_db (tx_store t'))) = content_blobs (db_tables (b_db (tx_store t))) ∧
      (∃ p, tget id (packages (db_tables (b_db (tx_store t')))) = Some p ∧ p_PackageHash p = cp_PackageHash i ∧
         FileCount p = cp_FileCount i ∧ StorageMode p = cp_StorageMode i)
  | Err _ => run debt [] (tx_store t) (tx_store t')
  end.
Proof.
  intros I E. apply tx_inv in E as (db' & E & ->). apply CreatePackage_inv in E as [S1 E].
  destruct r as [id|e]; [|by apply same_run]. destruct E as (-> & Hseq & T).
  set (p := MkPackage _ _ _ _ _ _ _ _ _ _ _) in T. set (id := packages_seq (b_db (tx_store t))) in *.
  assert (tget id (packages (db_tables (b_db (tx_store t)))) = None) as Hn.
  { apply tget_None. intros [k q] Hk. destruct (ri_pkg _ _ _ _ (si_db _ _ _ I) k q Hk) as [_ ?]. cbn. unfold id. lia. }
  split; [|cbn; rw T; split_and!; try done; exists p; cbn; by rw tget_tput_eq].
  apply set_db_run; [|by apply db_step_seq| |apply I].
  - split; cbn; rw ?T; [apply I| |by eapply blobs_ok_eq, I]. rw Hseq. eapply db_inv_seqs; [reflexivity|apply S1|].
    by apply db_inv_put_package; [apply I|].
  - rw T. split; cbn; [by apply blobs_le_eq|done| |].
    + intros k q Hq. exists q. split; [|done]. rw tget_tput_ne //. congruence.
    + intros k q Hq. destruct (decide (id = k)) as [->|Hne]; [left; by left|]. rw tget_tput_ne // in Hq. eauto.
Qed.

Lemma create_file_run debt pid i (t t' : TxState) r :
  inv debt (tx_store t) → tx (CreatePackageFile pid i) t = (t', r) →
  match r with
  | Ok _ => run (owe (cf_BlobHash i) (-1) debt) [] (tx_store t) (tx_store t') ∧
      is_Some (content_blobs (db_tables (b_db (tx_store t))) !! cf_BlobHash i) ∧
      content_blobs (db_tables (b_db (tx_store t'))) = content_blobs (db_tables (b_db (tx_store t))) ∧
      (cf_Role i = RoleOriginal → has_original (db_tables (b_db (tx_store t'))) pid (cf_BlobHash i))
  | Err _ => run debt [] (tx_store t) (tx_store t')
  end.
Proof.
  intros I E. apply tx_inv in E as (db' & E & ->). apply CreatePackageFile_inv in E as [S1 E].
  destruct r as [id|e]; [|by apply same_run]. cbv zeta in E. destruct E as (Hid & Hseq & Hc & T).
  set (f := MkFileRow _ _ _ _ _ _ _) in *. destruct (check_file_ok _ _ Hc) as [Hp Hb].
  pose proof (tget_fresh_seq _ _ _ _ (si_db _ _ _ I)) as Hf. rw -Hid in Hf.
  assert (∀ kf, kf ∈ package_files (db_tables db') ↔ kf = (id, f) ∨ kf ∈ package_files (db_tables (b_db (tx_store t)))) as Hin.
  { intros kf. rw T. cbn. rw (tput_fresh id f _ Hf). apply elem_of_cons. }
  split; [|cbn; split; [done|]; split; [by rw T|]].
  - apply set_db_run; [|by apply db_step_seq| |apply I].
    + split; cbn; rw ?T; [apply I| |by eapply blobs_ok_eq, I]. rw Hseq Hid. eapply db_inv_seqs; [apply S1|reflexivity|].
      by apply db_inv_put_file; [apply I| |..].
    + split.
      * rw T. by apply blobs_le_eq.
      * intros kf Hk. apply Hin. by right.
      * intros k p. rw T. eauto.
      * intros k p. rw T. eauto.
  - intros Hr. exists id, f. split; [apply Hin; by left|done].
Qed.

Lemma increment_run debt h (t t' : TxState) r :
  inv debt (tx_store t) → is_Some (content_blobs (db_tables (b_db (tx_store t))) !! h) →
  tx (IncrementRefCount h) t = (t', r) →
  run (if is_ok r then owe h 1 debt else debt) [] (tx_store t) (tx_store t') ∧
  (∀ h', is_Some (content_blobs (db_tables (b_db (tx_store t))) !! h') →
         is_Some (content_blobs (db_tables (b_db (tx_store t'))) !! h')) ∧
  package_files (db_tables (b_db (tx_store t'))) = package_files (db_tables (b_db (tx_store t))) ∧
  dom (content_blobs (db_tables (b_db (tx_store t')))) = dom (content_blobs (db_tables (b_db (tx_store t)))).
Proof.
  intros I Hh E. apply tx_inv in E as (db' & E & ->). apply IncrementRefCount_inv in E as [S1 T].
  destruct r as [u|e]; cbn [is_ok] in *; [|by split; [apply same_run|cbn; rw T]].
  destruct (db_incr_step encoder debt (tx_store t) db' h I S1 T Hh) as [I' L].
  split; [|cbn; rw T; split; [intros h' Hs; by apply lookup_alter_is_Some|]; by rw /= dom_alter_L].
  apply set_db_run; [done|by apply db_step_seq| |apply I]. rw T. apply tables_le_same; [apply blobs_le_incr|done|done].
Qed.

Lemma increments_run debt hs (t t' : TxState) r :
  inv debt (tx_store t) → Forall (fun h => is_Some (content_blobs (db_tables (b_db (tx_store t))) !! h)) hs →
  tx (IncrementRefCounts hs) t = (t', r) →
  match r with
  | Ok _ => run (owes hs 1 debt) [] (tx_store t) (tx_store t') ∧
      package_files (db_tables (b_db (tx_store t'))) = package_files (db_tables (b_db (tx_store t))) ∧
      dom (content_blobs (db_tables (b_db (tx_store t')))) = dom (content_blobs (db_tables (b_db (tx_store t))))
  | Err _ => frame (tx_store t) (tx_store t')
  end.
Proof.
  assert (∀ {A B} (m : M DB A) (k : A → M DB B) (t : TxState), tx (m ≫= k) t = (tx m ≫= fun a => tx (k a)) t) as Hbind.
  { intros A B m k [[d h db] c]. unfold tx, in_store, on_db, zoom, mbind, M_bind. cbn. by destruct (m db) as [db1 [a|e]]. }
  revert debt t; induction hs as [|h hs IH]; intros debt t I Hall E.
  { unfold tx, in_store, on_db, zoom in E. munfold. injection E as <- <-. destruct t as [[d h db] c]. cbn in *.
    split; [by apply run_refl|done]. }
  unfold IncrementRefCounts in E. cbn [forM_] in E. rw Hbind in E. apply Forall_cons in Hall as [Hh Hall].
  apply bind_inv in E as [(t1 & u & E1 & E)|(e & E1 & ->)];
    apply (increment_run debt) in E1 as (R1 & K1 & F1 & D1); try done; [|apply R1].
  cbn [is_ok] in R1. apply IH with (debt := owe h 1 debt) in E; [|apply R1|by eapply Forall_impl].
  destruct r as [u'|e]; [|eapply frame_trans; [apply R1|done]].
  destruct E as (R2 & F2 & D2). split; [|by rw F2 D2].
  eapply run_debt; [|exact (run_trans _ _ _ _ _ _ _ R1 R2)]. intros h'. rw !owes_val filter_cons. unfold owe.
  destruct (decide (h' = h)), (decide (h = h')); (congruence || rw ?zlen_cons; lia).
Qed.

Lemma update_run debt id mode count err (t t' : TxState) r :
  inv debt (tx_store t) → tx (UpdatePackageAfterUnpack id mode count err) t = (t', r) →
  run debt [] (tx_store t) (tx_store t') ∧
  (r = Ok true → ∀ p, tget id (packages (db_tables (b_db (tx_store t')))) = Some p → StorageMode p = mode).
Proof.
  intros I E. apply tx_inv in E as (db' & E & ->). apply UpdatePackageAfterUnpack_inv in E as [S1 E].
  destruct r as [[]|e]; [|by split; [apply same_run|]..].
  destruct E as [Hraw T]. split.
  - apply set_db_run; [|by apply db_step_seq| |apply I].
    + split; cbn; rw ?T; [apply I| |by eapply blobs_ok_eq, I]. destruct S1 as (? & ? & _).
      eapply db_inv_seqs; [done|done|]. by apply db_inv_tmap; [apply I|].
    + rw T. split; cbn; [by apply blobs_le_eq|done| |].
      * intros k p Hp. rw tget_tmap. destruct (Z.eqb_spec k id) as [->|]; rw Hp; eexists; (split; [done|]); (split; [done|]); [|done].
        destruct Hraw as (p0 & Hp0 & Em). intros []. rw Hp in Hp0. by injection Hp0 as ->.
      * intros k p. rw tget_tmap. destruct (k =? id); [intros (p0 & Hp0 & ->)%fmap_Some|]; eauto.
  - intros _ p. cbn. rw T /= tget_tmap Z.eqb_refl. by intros (p0 & _ & ->)%fmap_Some.
Qed.

(** ** Transaction bodies *)

(** A blob stored and a row written for it: nothing is owed any more. *)
Lemma store_file_run debt h pid i (t0 t1 t2 : TxState) n r :
  run (owe h 1 debt) n (tx_store t0) (tx_store t1) → cf_BlobHash i = h → tx (CreatePackageFile pid i) t1 = (t2, r) →
  run (if is_ok r then debt else owe h 1 debt) n (tx_store t0) (tx_store t2) ∧
  (is_ok r = true → cf_Role i = RoleOriginal → has_original (db_tables (b_db (tx_store t2))) pid h).
Proof.
  intros R1 <- E2. apply (create_file_run (owe (cf_BlobHash i) 1 debt)) in E2; [|apply R1].
  rw -(app_nil_r n). destruct r as [fid|e]; cbn [is_ok].
  - destruct E2 as (R2 & _ & _ & O). split; [|done].
    eapply run_debt; [apply owe_cancel|]. by eapply run_trans.
  - split; [|done]. by eapply run_trans.
Qed.

Lemma unpack_error_run debt pid sup e (t t' : TxState) r :
  inv debt (tx_store t) → persistUnpackError encoder withIndex pid sup e t = (t', r) →
  if is_ok r then run debt [] (tx_store t) (tx_store t') else frame (tx_store t) (tx_store t').
Proof.
  intros I E. unfold persistUnpackError in E.
  apply bind_inv in E as [(t1 & h & E1 & E)|(er & E1 & ->)]; apply (store_run debt) in E1; try done;
    [|destruct E1 as (d & _ & R); apply R].
  destruct E1 as (-> & R1 & _).
  apply bind_inv in E as [(t2 & fid & E2 & E)|(er & E2 & ->)];
    eapply (store_file_run debt) in E2 as [R2 _]; try done; [|apply R2].
  munfold. injection E as <- <-. exact R2.
Qed.

Lemma zoom_fst_inv {W X A} (m : M W A) (p p' : W * X) r :
  zoom fst (fun t p => (t, p.2)) m p = (p', r) → ∃ t', m p.1 = (t', r) ∧ p' = (t', p.2).
Proof. unfold zoom. destruct (m p.1) as [t' r']. intros [= <- <-]. eauto. Qed.

(** While members are stored nothing is owed; an error may leave a reference
    taken for which there is no row. *)
Lemma member_run debt pid sup name body t0 (p p' : TxState * Z) r :
  run debt [] t0 (tx_store p.1) → persistMember encoder withIndex pid sup name body p = (p', r) →
  if is_ok r then run debt [] t0 (tx_store p'.1)
  else ∃ debt', debt_le debt debt' ∧ run debt' [] t0 (tx_store p'.1).
Proof.
  intros R0 E. unfold persistMember in E.
  apply bind_inv in E as [(p1 & h & E1 & E)|(er & E1 & ->)];
    apply zoom_fst_inv in E1 as (t1 & E1 & ->); apply (store_run debt) in E1; try apply R0; last first.
  { destruct E1 as (d & Hd & R1). exists d. split; [done|]. exact (run_trans _ _ _ _ _ _ _ R0 R1). }
  destruct E1 as (-> & R1 & _). pose proof (run_trans _ _ _ _ _ _ _ R0 R1) as R01.
  unfold gets, modify in E. erewrite bind_ok in E by reflexivity. erewrite bind_ok in E by reflexivity.
  cbn [fst snd] in E.
  apply bind_inv in E as [(p2 & fid & E2 & E)|(er & E2 & ->)]; apply zoom_fst_inv in E2 as (t2 & E2 & ->); cbn [fst] in *;
    apply (store_file_run debt (Sum256 body) _ _ (MkTx t0 (MkCounters 0 0)) _ _ [] _ R01) in E2 as [R2 _]; try done.
  - munfold. by injection E as <- <-.
  - exists (owe (Sum256 body) 1 debt). split; [apply debt_le_owe|]. exact R2.
Qed.

Lemma members_run debt pid sup zip max (t t' : TxState) r :
  inv debt (tx_store t) → persistZipMembers encoder withIndex pid sup zip max t = (t', r) →
  if is_ok r then ∃ debt', debt_le debt debt' ∧ run debt' [] (tx_store t) (tx_store t')
  else frame (tx_store t) (tx_store t').
Proof.
  intros I E. unfold persistZipMembers in E.
  destruct (ForEachZipMember zip max _ (t, 0)) as [[t1 n] r1] eqn:E1.
  pose proof (ForEachZipMember_rule (fun p : TxState * Z => run debt [] (tx_store t) (tx_store p.1))
    (fun p => ∃ debt', debt_le debt debt' ∧ run debt' [] (tx_store t) (tx_store p.1)) _ _ _ (t, 0) _ _
    (fun name body s s' r => member_run debt pid sup name body (tx_store t) s s' r)
    (fun s R => ex_intro _ debt (conj (reflexivity debt) R)) (run_refl debt _ I) E1) as R1. cbn [fst] in R1.
  destruct r1 as [u|e]; cbn [is_ok] in R1.
  - injection E as <- <-. cbn. by exists debt.
  - destruct R1 as (debt' & Hd & R1).
    apply bind_inv in E as [(t2 & u & E2 & E)|(e2 & E2 & ->)]; apply (unpack_error_run debt') in E2; try apply R1;
      cbn [is_ok] in *.
    + munfold. injection E as <- <-. cbn. exists debt'. split; [done|]. exact (run_trans _ _ _ _ _ _ _ R1 E2).
    + eapply frame_trans; [apply R1|done].
Qed.

(** The package a transaction made, with its upload. *)
Definition new_package (id : Z) (h : bytes) (t : Tables) : Prop :=
  has_original t id h ∧ ∃ p, tget id (packages t) = Some p ∧ p_PackageHash p = h.

Lemma new_package_le n id h t t' : tables_le n t t' → new_package id h t → new_package id h t'.
Proof.
  intros L [O (p & Hp & E)]. split; [by eapply has_original_le|].
  destruct (tl_kept _ _ _ L id p Hp) as (p' & Hp' & E' & _). exists p'. split; [done|congruence].
Qed.

(** The blob, the package row and the original's row. *)
Definition original_body (sup : Z) (body : bytes) (rt : RecordType) (i : CreatePackageInput) (fn : option string)
    : M TxState Z :=
  let! hash := store encoder withIndex body rt sup in
  let! id := tx (CreatePackage i) in
  let! _ := tx (CreatePackageFile id (MkCreateFile hash RoleOriginal fn None)) in
  mret id.

Lemma original_body_run debt sup body rt i fn (t t' : TxState) r :
  inv debt (tx_store t) → cp_PackageHash i = Sum256 body → original_body sup body rt i fn t = (t', r) →
  match r with
  | Ok id => run debt [id] (tx_store t) (tx_store t') ∧ new_package id (Sum256 body) (db_tables (b_db (tx_store t')))
  | Err _ => frame (tx_store t) (tx_store t')
  end.
Proof.
  intros I Hi E. unfold original_body in E.
  apply bind_inv in E as [(t1 & h & E1 & E)|(er & E1 & ->)]; apply (store_run debt) in E1; try done;
    [|destruct E1 as (d & _ & R); apply R].
  destruct E1 as (-> & R1 & _).
  apply bind_inv in E as [(t2 & id & E2 & E)|(er & E2 & ->)];
    apply (create_package_run (owe (Sum256 body) 1 debt)) in E2; try apply R1;
    [|exact (run_frame _ _ _ _ (run_trans _ _ _ _ _ _ _ R1 E2))].
  destruct E2 as (R2 & _ & _ & _ & (p & Hp & Hph & _)).
  pose proof (run_trans _ _ _ _ _ _ _ R1 R2) as R12. cbn [app] in R12.
  apply bind_inv in E as [(t3 & fid & E3 & E)|(er & E3 & ->)].
  - pose proof E3 as E3'. eapply (store_file_run debt) in E3' as [R3 O]; [|exact R12|done].
    apply (create_file_run (owe (Sum256 body) 1 debt)) in E3; [|apply R2]. destruct E3 as (R4 & _).
    munfold. injection E as <- <-. split; [exact R3|]. split; [by apply O|].
    destruct (tl_kept _ _ _ (run_tables _ _ _ _ R4) id p Hp) as (p' & Hp' & E' & _). exists p'. split; [done|congruence].
  - eapply (store_file_run debt) in E3 as [R3 _]; [|exact R12|done]. apply R3.
Qed.

Lemma ingest_single_run debt sup body rt pt mode fn (t t' : TxState) r :
  inv debt (tx_store t) → ingest_single encoder withIndex sup (Sum256 body) body rt pt mode fn t = (t', r) →
  match r with
  | Ok id => run debt [id] (tx_store t) (tx_store t') ∧ new_package id (Sum256 body) (db_tables (b_db (tx_store t')))
  | Err _ => frame (tx_store t) (tx_store t')
  end.
Proof.
  intros I E. exact (original_body_run debt sup body rt
    (MkCreatePackage sup (Sum256 body) (payload_string pt) mode fn None 1 None) fn t t' r I eq_refl E).
Qed.

(** Computations that do not touch the disk. *)
Definition keeps_disk {A} (m : M TxState A) : Prop :=
  ∀ t t' r, m t = (t', r) → b_disk (tx_store t') = b_disk (tx_store t).

Lemma keeps_disk_tx {A} (m : M DB A) : keeps_disk (tx m).
Proof. intros t t' r E. by apply tx_inv in E as (db' & _ & ->). Qed.
Lemma keeps_disk_ret {A} (a : A) : keeps_disk (mret a).
Proof. by intros t t' r [= <- _]. Qed.
Lemma keeps_disk_bind {A B} (m : M TxState A) (k : A → M TxState B) :
  keeps_disk m → (∀ a, keeps_disk (k a)) → keeps_disk (m ≫= k).
Proof.
  intros Hm Hk t t' r E. apply bind_inv in E as [(t1 & a & E1 & E)|(e & E1 & ->)]; [|by eapply Hm].
  by rw (Hk _ _ _ _ E) (Hm _ _ _ E1).
Qed.
Lemma keeps_disk_forM {A} (xs : list A) f : (∀ x, keeps_disk (f x)) → keeps_disk (forM_ xs f).
Proof. intros Hf. induction xs as [|x xs IH]; cbn [forM_]; [apply keeps_disk_ret|]. by apply keeps_disk_bind. Qed.
Hint Resolve keeps_disk_tx keeps_disk_ret keeps_disk_bind keeps_disk_forM : lbf.

(** Copying rows: each is owed a reference. *)
Definition copy_row (pid : Z) (f : PackageFile) : M TxState unit :=
  let! _ := tx (CreatePackageFile pid (MkCreateFile (BlobHash f) (Role f) (pf_OriginalFilename f) (SequenceNumber f))) in
  mret tt.

Lemma copy_rows_run debt pid fs (t t' : TxState) r :
  inv debt (tx_store t) → forM_ fs (copy_row pid) t = (t', r) →
  match r with
  | Ok _ => run (owes (BlobHash <$> fs) (-1) debt) [] (tx_store t) (tx_store t') ∧
      content_blobs (db_tables (b_db (tx_store t'))) = content_blobs (db_tables (b_db (tx_store t))) ∧
      Forall (fun f => is_Some (content_blobs (db_tables (b_db (tx_store t))) !! BlobHash f)) fs ∧
      (∀ f, f ∈ fs → Role f = RoleOriginal → has_original (db_tables (b_db (tx_store t'))) pid (BlobHash f))
  | Err _ => frame (tx_store t) (tx_store t')
  end.
Proof.
  revert debt t; induction fs as [|f fs IH]; intros debt t I E; cbn [forM_] in E.
  { munfold. injection E as <- <-. split; [by apply run_refl|]. split; [done|]. split; [done|].
    intros f Hf. by apply not_elem_of_nil in Hf. }
  apply bind_inv in E as [(t1 & u & E1 & E)|(er & E1 & ->)]; unfold copy_row in E1.
  2:{ apply bind_inv in E1 as [(t2 & fid & E2 & E1)|(er' & E2 & ?)]; [munfold; done|].
      apply (create_file_run debt) in E2; [apply E2|done]. }
  apply bind_inv in E1 as [(t2 & fid & E2 & E1)|(er' & E2 & ?)]; [|done].
  munfold. injection E1 as <- _. apply (create_file_run debt) in E2; [|done]. destruct E2 as (R1 & Hs & C1 & O1).
  cbn [cf_BlobHash cf_Role] in *. apply IH with (debt := owe (BlobHash f) (-1) debt) in E; [|apply R1].
  destruct r as [u'|e]; [|eapply frame_trans; [apply R1|done]].
  destruct E as (R2 & C2 & A2 & O2). split; [|split; [by rw C2|split]].
  - eapply run_debt; [|exact (run_trans _ _ _ _ _ _ _ R1 R2)]. intros h'. rw !owes_val fmap_cons filter_cons. unfold owe.
    destruct (decide (h' = BlobHash f)), (decide (BlobHash f = h')); (congruence || rw ?zlen_cons; lia).
  - constructor; [done|]. by rw C1 in A2.
  - intros g [->|Hg]%elem_of_cons Hr; [|by apply O2].
    eapply has_original_le; [exact (run_tables _ _ _ _ R2)|by apply O1].
Qed.

Definition clone_body (i : CreatePackageInput) (fs : list PackageFile) : M TxState Z :=
  let! id := tx (CreatePackage i) in
  do! forM_ fs (copy_row id);
  do! tx (IncrementRefCounts (BlobHash <$> fs));
  mret id.

Lemma clone_body_disk i fs : keeps_disk (clone_body i fs).
Proof. unfold clone_body, copy_row. eauto 8 with lbf. Qed.

Lemma clone_body_run debt i fs f (t t' : TxState) r :
  inv debt (tx_store t) → f ∈ fs → Role f = RoleOriginal → BlobHash f = cp_PackageHash i →
  clone_body i fs t = (t', r) →
  match r with
  | Ok id => run debt [id] (tx_store t) (tx_store t') ∧
      new_package id (cp_PackageHash i) (db_tables (b_db (tx_store t'))) ∧
      dom (content_blobs (db_tables (b_db (tx_store t')))) = dom (content_blobs (db_tables (b_db (tx_store t))))
  | Err _ => frame (tx_store t) (tx_store t')
  end.
Proof.
  intros I Hf Hrole Hh E. unfold clone_body in E.
  apply bind_inv in E as [(t1 & id & E1 & E)|(er & E1 & ->)]; apply (create_package_run debt) in E1; try done; [|apply E1].
  destruct E1 as (R1 & _ & _ & C1 & (p & Hp & Hph & _)).
  apply bind_inv in E as [(t2 & u & E2 & E)|(er & E2 & ->)]; apply (copy_rows_run debt) in E2; try apply R1;
    [|eapply frame_trans; [apply R1|done]].
  destruct E2 as (R2 & C2 & A2 & O2). pose proof (run_trans _ _ _ _ _ _ _ R1 R2) as R12.
  apply bind_inv in E as [(t3 & u' & E3 & E)|(er & E3 & ->)];
    apply (increments_run (owes (BlobHash <$> fs) (-1) debt)) in E3; try apply R2;
    try (rw Forall_fmap C2; exact A2); [|eapply frame_trans; [apply R12|done]].
  destruct E3 as (R3 & F3 & D3). munfold. injection E as <- <-.
  pose proof (run_trans _ _ _ _ _ _ _ R12 R3) as R13. split; [|split; [|by rw D3 C2 C1]].
  - eapply run_debt; [apply owes_cancel|]. exact R13.
  - eapply new_package_le; [exact (run_tables _ _ _ _ R3)|]. split; [rw -Hh; by apply O2|].
    destruct (tl_kept _ _ _ (run_tables _ _ _ _ R2) id p Hp) as (p' & Hp' & E' & _). exists p'. split; [done|congruence].
Qed.

(** Filling in a clone: rows added are counted, rows present are left alone. *)
Definition fill_body (cloneID : Z) (existing : gset string) (extra : list PackageFile) (n : Z) (e : option string)
    : M TxState unit :=
  let! acc := foldM (add_missing cloneID) (existing, []) extra in
  do! tx (IncrementRefCounts acc.2);
  let! _ := tx (UpdatePackageAfterUnpack cloneID StorageZipWithMembers n e) in
  mret tt.

Lemma add_missing_run debt pid fs acc (t t' : TxState) r :
  inv (owes acc.2 (-1) debt) (tx_store t) →
  Forall (fun h => is_Some (content_blobs (db_tables (b_db (tx_store t))) !! h)) acc.2 →
  foldM (add_missing pid) acc fs t = (t', r) →
  match r with
  | Ok acc' => run (owes acc'.2 (-1) debt) [] (tx_store t) (tx_store t') ∧
      Forall (fun h => is_Some (content_blobs (db_tables (b_db (tx_store t'))) !! h)) acc'.2
  | Err _ => frame (tx_store t) (tx_store t')
  end.
Proof.
  revert acc t; induction fs as [|f fs IH]; intros [ex hs] t I A E; cbn [foldM] in E.
  { munfold. injection E as <- <-. split; [by apply run_refl|done]. }
  cbn [snd] in *. apply bind_inv in E as [(t1 & acc1 & E1 & E)|(er & E1 & ->)];
    unfold add_missing in E1; destruct (bool_decide (key_of f ∈ ex)); try done.
  { munfold. injection E1 as <- <-. by apply IH in E. }
  2:{ apply bind_inv in E1 as [(t2 & fid & E2 & E1)|(er' & E2 & E1)]; [done|].
      apply (create_file_run (owes hs (-1) debt)) in E2; [apply E2|done]. }
  apply bind_inv in E1 as [(t2 & fid & E2 & E1)|(er' & E2 & E1)]; [|done].
  munfold. injection E1 as <- <-. apply (create_file_run (owes hs (-1) debt)) in E2; [|done].
  destruct E2 as (R2 & Hs & C2 & _). cbn [cf_BlobHash] in *.
  assert (run (owes (hs ++ [BlobHash f]) (-1) debt) [] (tx_store t) (tx_store t2)) as R2'.
  { eapply run_debt; [|exact R2]. intros h. unfold owe. rw !owes_val filter_app zlen_app filter_cons filter_nil.
    destruct (decide (h = BlobHash f)), (decide (BlobHash f = h)); (congruence || rw ?zlen_cons ?zlen_nil; lia). }
  apply IH in E; cbn [snd] in *; [|apply R2'|rw C2; apply Forall_app; by repeat constructor].
  destruct r as [acc'|e]; [|eapply frame_trans; [apply R2'|done]].
  destruct E as [R3 A3]. split; [|done]. exact (run_trans _ _ _ _ _ _ _ R2' R3).
Qed.

Lemma fill_body_run debt cid ex extra n e (t t' : TxState) r :
  inv debt (tx_store t) → fill_body cid ex extra n e t = (t', r) →
  if is_ok r then run debt [] (tx_store t) (tx_store t') else frame (tx_store t) (tx_store t').
Proof.
  intros I E. unfold fill_body in E.
  apply bind_inv in E as [(t1 & acc & E1 & E)|(er & E1 & ->)]; apply (add_missing_run debt) in E1; cbn [snd]; try done.
  destruct E1 as [R1 A1].
  apply bind_inv in E as [(t2 & u & E2 & E)|(er & E2 & ->)]; apply (increments_run (owes acc.2 (-1) debt)) in E2;
    try apply R1; try done; [|eapply frame_trans; [apply R1|done]].
  destruct E2 as (R2 & _ & _). pose proof (run_trans _ _ _ _ _ _ _ R1 R2) as R12. cbn [app] in R12.
  apply (run_debt _ debt) in R12; [|apply owes_cancel].
  apply bind_inv in E as [(t3 & b & E3 & E)|(er & E3 & ->)]; apply (update_run debt) in E3 as [R3 _]; try apply R12.
  - munfold. injection E as <- <-. exact (run_trans _ _ _ _ _ _ _ R12 R3).
  - exact (run_frame _ _ _ _ (run_trans _ _ _ _ _ _ _ R12 R3)).
Qed.

Lemma unpack_tx_run cfg debt pid zip (t t' : TxState) r :
  inv debt (tx_store t) → unpack_tx encoder withIndex cfg pid zip t = (t', r) →
  if is_ok r then (∃ debt', debt_le debt debt' ∧ run debt' [] (tx_store t) (tx_store t')) ∧
    (∀ p, tget pid (packages (db_tables (b_db (tx_store t')))) = Some p → StorageMode p = StorageZipWithMembers)
  else frame (tx_store t) (tx_store t').
Proof.
  intros I E. unfold unpack_tx in E.
  assert (∀ t1 r1, tx (GetPackageForUpdate pid) t = (t1, r1) → run debt [] (tx_store t) (tx_store t1)) as Hget.
  { intros t1 r1 E1. apply tx_inv in E1 as (db & E1 & ->). apply GetPackageForUpdate_inv in E1 as (S1 & T1 & _).
    by apply same_run. }
  apply bind_inv in E as [(t1 & o & E1 & E)|(er & E1 & ->)]; apply Hget in E1 as R1; [|apply R1].
  destruct o as [p|]; [|munfold; injection E as <- <-; apply R1].
  destruct (negb _); [munfold; injection E as <- <-; apply R1|].
  apply bind_inv in E as [(t2 & fc & E2 & E)|(er & E2 & ->)]; apply (members_run debt) in E2; try apply R1;
    cbn [is_ok] in *; [|eapply frame_trans; [apply R1|done]].
  destruct E2 as (debt' & Hd & R2). pose proof (run_trans _ _ _ _ _ _ _ R1 R2) as R12. cbn [app] in R12.
  apply bind_inv in E as [(t3 & b & E3 & E)|(er & E3 & ->)]; apply (update_run debt') in E3 as [R3 M3]; try apply R2;
    pose proof (run_trans _ _ _ _ _ _ _ R12 R3) as R13; [|apply R13].
  destruct b; cbn [negb] in E; munfold; injection E as <- <-; cbn [is_ok]; [|apply R13].
  split; [by exists debt'|]. by apply M3.
Qed.
End Runs.
