(* ===== verification/IngestSafe.v ===== *)
(** * The ingestion service: safety and content

    Service-level counterparts of the runs of IngestInv.v, and the theorems: no
    sequence of uploads, unpack jobs and recovery scans, whatever fails, loses a
    package, a file or the content of a blob, or counts a reference too few; an
    acknowledged upload reads back; a repeated upload stores nothing. *)
From S2P Require Import Prelude GoLib Hash Record Metadata MetadataInv Disk Compress Dedup BlobStore Detect Journal UnpackQueue Ingest IngestInv.

(** ** Statements outside transactions *)

(** The tables the service's invariant is about. *)
Definition same_core (t t' : Tables) : Prop :=
  content_blobs t' = content_blobs t ∧ packages t' = packages t ∧ package_files t' = package_files t.
#[export] Instance same_core_preorder : PreOrder same_core.
Proof. split; [done|]. intros a b c (? & ? & ?) (? & ? & ?). split_and!; congruence. Qed.

Definition idle (db : DB) : Prop := in_tx db = false ∧ aborted db = false.

(** A statement that leaves them alone; outside a transaction it opens none. *)
Definition quiet {A} (m : M DB A) : Prop := ∀ db db' r, m db = (db', r) →
  db_step db db' ∧ same_core (db_tables db) (db_tables db') ∧ (idle db → idle db').

Lemma stmt_quiet {A} (m : M DB A) : (∀ db db' r, m db = (db', r) →
  db_step db db' ∧ same_core (db_tables db) (db_tables db') ∧ aborted db' = aborted db) → quiet (stmt m).
Proof.
  intros Hm db db' r E. unfold stmt in E. destruct (aborted db) eqn:Ea.
  { injection E as <- <-. split; [reflexivity|]. split; [reflexivity|]. intros [_ ?]. congruence. }
  destruct (match db_faults db with [] => _ | _ => _ end) as [fault rest].
  set (db1 := MkDB _ _ _ _ _ _ _) in E. destruct fault.
  { injection E as <- <-. split; [by split_and!|]. split; [by split_and!|]. intros [Ht _]. unfold idle. cbn. by rw Ht. }
  destruct (m db1) as [db2 r2] eqn:E2. destruct (Hm _ _ _ E2) as (S2 & T2 & A2).
  destruct S2 as (P2 & F2 & X2 & C2). cbn in *.
  destruct r2 as [a|e]; injection E as <- <-; (split; [by split_and!|]); (split; [done|]); intros [Ht Hb]; unfold idle; cbn.
  - split; congruence.
  - split; congruence.
Qed.

Lemma read_quiet {A} (g : Tables → A) : quiet (stmt (let! t := tables in mret (g t))).
Proof. apply stmt_quiet. intros db db' r E. munfold. unfold tables in E. munfold. by injection E as <- <-. Qed.

Lemma quiet_ret {A} (a : A) : quiet (mret a).
Proof. intros db db' r [= <- _]. by split. Qed.

Lemma quiet_bind {A B} (m : M DB A) (k : A → M DB B) : quiet m → (∀ a, quiet (k a)) → quiet (m ≫= k).
Proof.
  intros Hm Hk db db' r E. apply bind_inv in E as [(db1 & a & E1 & E)|(e & E1 & ->)]; [|by eapply Hm].
  destruct (Hm _ _ _ E1) as (A1 & A2 & A3). destruct (Hk _ _ _ _ E) as (B1 & B2 & B3).
  split; [by etrans|]. split; [by etrans|auto].
Qed.

Section Quiet.
Context `{PG}.
Lemma GetPackage_quiet id : quiet (GetPackage id).
Proof.
  apply quiet_bind; [apply (read_quiet (fun t => tget id (packages t)))|]. intros [p|]; [|apply quiet_ret].
  apply quiet_bind; [apply (read_quiet (fun t => files_of t id))|]. intros; apply quiet_ret.
Qed.

Lemma RecordSupplierIngest_quiet sup n new dup : quiet (RecordSupplierIngest sup n new dup).
Proof.
  intros db db' r E. apply int4_args_inv in E as [[_ E]|[-> ->]]; [|by split].
  eapply stmt_quiet; [|exact E]. intros db0 db0' r0 E0. unfold upd_tables in E0. munfold. by injection E0 as <- <-.
Qed.
End Quiet.

Section Service.
Context {S : Type} `{DiskLaws S} {K : Type} `{kvStore K} `{Bloom} `{ZstdLaws} `{PG} `{ZipLib} `{Times}.
Context {J : Type} `{JournalOps J}.
Context (encoder : option Encoder) (withIndex : bool) (cfg : Config).
Context (Henc : ∀ e, encoder = Some e → enc_ok e).

Notation Store := (BlobStore.Store S K).
Notation TxState := (Ingest.TxState S K).
Notation Service := (Ingest.Service S K J).
Notation inv := (store_inv (S := S) (K := K) encoder).
Notation run := (IngestInv.run (S := S) (K := K) encoder).
Notation sv_tables s := (db_tables (b_db (sv_store s))).

Record svc_inv (debt : bytes → Z) (s : Service) : Prop := {
  sv_ok : inv debt (sv_store s);
  sv_orig : originals (sv_tables s);
  sv_idle : idle (b_db (sv_store s));
}.

(** What an operation does: the invariant after it, and how the tables grew. *)
Record srun (debt : bytes → Z) (new : list Z) (s s' : Service) : Prop := {
  sr_inv : svc_inv debt s';
  sr_run : run debt new (sv_store s) (sv_store s');
}.

Lemma srun_trans d1 d2 n1 n2 a b c : srun d1 n1 a b → srun d2 n2 b c → srun d2 (n1 ++ n2) a c.
Proof. intros [A1 A2] [B1 B2]. split; [done|]. exact (run_trans _ _ _ _ _ _ _ _ A2 B2). Qed.

Lemma srun_refl debt s : svc_inv debt s → srun debt [] s s.
Proof. intros I. split; [done|]. apply run_refl, I. Qed.

(** Only the journal or the queue changed. *)
Lemma srun_same debt s s' : svc_inv debt s → sv_store s' = sv_store s → srun debt [] s s'.
Proof.
  intros [I1 I2 I3] E. destruct s as [st j q], s' as [st' j' q']. cbn in *. subst st'.
  split; [by split|]. by apply run_refl.
Qed.

Lemma core_inv debt (st : Store) db :
  inv debt st → db_step (b_db st) db → same_core (db_tables (b_db st)) (db_tables db) →
  run debt [] st (MkStore (b_disk st) (b_hot st) db).
Proof.
  intros [I1 [D1 D2 D3 D4 D5 D6] B] S1 (C & P & F). destruct S1 as (S1 & S2 & S3 & S4).
  assert (∀ h, ref_total h (db_tables db) = ref_total h (db_tables (b_db st))) as Hr by (intros h; unfold ref_total; by rw F).
  split; cbn.
  - split; cbn; [done| |by eapply blobs_ok_eq]. eapply db_inv_seqs; [done|done|].
    split; rw ?C ?P ?F; try done. intros h b Hb. rw Hr. by apply D1.
  - split; [by apply dk_le_refl|done].
  - apply tables_le_same; [by apply blobs_le_eq|done|done].
Qed.

Lemma repo_inv {A} (m : M DB A) (s s' : Service) r :
  repo m s = (s', r) → ∃ db', m (b_db (sv_store s)) = (db', r) ∧
    s' = MkService (MkStore (b_disk (sv_store s)) (b_hot (sv_store s)) db') (sv_journal s) (sv_queue s).
Proof.
  unfold repo, on_store, zoom. destruct (on_db m (sv_store s)) as [st r'] eqn:E. intros [= <- <-].
  apply on_db_inv in E as (db' & E & ->). by exists db'.
Qed.

Lemma repo_quiet {A} (m : M DB A) debt (s s' : Service) r :
  quiet m → svc_inv debt s → repo m s = (s', r) →
  srun debt [] s s' ∧ b_disk (sv_store s') = b_disk (sv_store s) ∧ same_core (sv_tables s) (sv_tables s').
Proof.
  intros Hm [I1 I2 I3] E. apply repo_inv in E as (db' & E & ->). destruct (Hm _ _ _ E) as (S1 & C & Hi). cbn.
  split; [|done]. split; [|by apply core_inv]. split; cbn; [|destruct C as (_ & P & F)|by apply Hi].
  - apply (run_inv _ _ _ _ _ (core_inv debt _ db' I1 S1 C)).
  - intros id p Hp. rw P in Hp. destruct (I2 id p Hp) as (k & f & Hin & X). exists k, f. by rw F.
Qed.

(** ** Transactions *)

(** The same store but for the transaction's own fields. *)
Definition same_view (st st' : Store) : Prop :=
  b_disk st' = b_disk st ∧ db_tables (b_db st') = db_tables (b_db st) ∧
  packages_seq (b_db st') = packages_seq (b_db st) ∧ files_seq (b_db st') = files_seq (b_db st) ∧
  db_clock (b_db st') = db_clock (b_db st).

Lemma inv_view debt st st' : same_view st st' → inv debt st → inv debt st'.
Proof. intros (D & T & P & F & C) [I1 I2 I3]. split; rw ?D ?T ?P ?F; done. Qed.

Lemma run_view debt n a b c d : same_view a b → run debt n b c → same_view c d → run debt n a d.
Proof.
  intros (D & T & P & F & C) [I [[A1 A2] (A3 & A4 & A5)] L] V. pose proof V as (D' & T' & P' & F' & C').
  split; [by eapply inv_view| |by rw -T T'].
  split; [split; rw D' -?D; done|]. unfold seq_le. rw P' F' C' -P -F -C. done.
Qed.

Lemma begin_view (st : Store) db r :
  begin_tx (b_db st) = (db, r) → same_view st (MkStore (b_disk st) (b_hot st) db) ∧
  (is_ok r = false → idle (b_db st) → idle db).
Proof.
  unfold begin_tx, stmt. destruct (aborted (b_db st)) eqn:Ea; [intros [= <- <-]; split; [done|by intros _ [? ?]]|].
  destruct (match db_faults _ with [] => _ | _ => _ end) as [fault rest].
  destruct fault; intros [= <- <-]; (split; [done|]); [|done]. intros _ [Ht _]. unfold idle. cbn. by rw Ht.
Qed.

Lemma commit_view t0 db db' r :
  commit_tx t0 db = (db', r) → idle db' ∧ packages_seq db' = packages_seq db ∧ files_seq db' = files_seq db ∧
  db_clock db' = db_clock db ∧ (db_tables db' = db_tables db ∨ is_ok r = false ∧ db_tables db' = t0).
Proof.
  unfold commit_tx, stmt. destruct (aborted db); [intros [= <- <-]; split_and!; try done; by right|].
  destruct (match db_faults _ with [] => _ | _ => _ end) as [fault rest].
  destruct fault; munfold; [|intros [= <- <-]; split_and!; try done; by left].
  cbn [db_faults set_tx]. destruct (match rest with [] => _ | _ => _ end) as [[] rest']; intros [= <- <-]; split_and!; try done; [by left|by right].
Qed.

(** A transaction is all of its body or nothing of it; only when its answer is lost,
    a failed one may be all of it. *)
Lemma withTx_rule {A} (m : M TxState A) debt (s s' : Service) r (Q : A → Store → Store → Prop) :
  svc_inv debt s → withTx m s = (s', r) →
  (∀ t t' r, same_view (sv_store s) (tx_store t) → inv debt (tx_store t) → m t = (t', r) →
     frame (tx_store t) (tx_store t') ∧ ∀ a, r = Ok a → Q a (tx_store t) (tx_store t')) →
  sv_journal s' = sv_journal s ∧ sv_queue s' = sv_queue s ∧ idle (b_db (sv_store s')) ∧
  let committed a := ∃ st st', same_view (sv_store s) st ∧ Q a st st' ∧ same_view st' (sv_store s') in
  match r with
  | Ok (a, _) => committed a
  | Err _ => srun debt [] s s' ∧ sv_tables s' = sv_tables s ∨ ∃ a, committed a
  end.
Proof.
  intros [I O Hi] E HQ. cbv zeta. unfold withTx, WithTx in E. cbn [tx_store] in E.
  destruct (begin_tx (b_db (sv_store s))) as [db r0] eqn:E0. apply begin_view in E0 as [V0 Hb].
  set (st0 := MkStore (b_disk (sv_store s)) (b_hot (sv_store s)) db) in *.
  assert (∀ st db', frame st0 st → idle db' → db_tables db' = db_tables (b_db (sv_store s)) →
    packages_seq db' = packages_seq (b_db st) → files_seq db' = files_seq (b_db st) → db_clock db' = db_clock (b_db st) →
    srun debt [] s (MkService (MkStore (b_disk st) (b_hot st) db') (sv_journal s) (sv_queue s))) as Hback.
  { intros st db' F Hidle T P X C. pose proof V0 as (V1 & V2 & V3 & V4 & V5).
    assert (inv debt (MkStore (b_disk st) (b_hot st) db')) as I'.
    { eapply (inv_rollback _ _ st0); [by eapply inv_view|done| | |]; [by rw T V2|lia|lia]. }
    split; [split; cbn; [done|by rw T|done]|]. split; cbn; [done| |rw T; apply tables_le_refl].
    destruct F as [[F1 F2] (F3 & F4 & F5)]. split; [done|]. unfold seq_le in *. cbn in *. rw P X C. split_and!; (lia || congruence). }
  destruct r0 as [u|e]; last first.
  { injection E as <- <-. cbn. do 2 (split; [done|]). split; [by apply Hb|]. pose proof V0 as (V1 & V2 & V3 & V4 & V5).
    left. split; [|done]. apply (Hback st0 db); [split; [apply dk_le_refl, I|reflexivity]|by apply Hb|done|done|done|done]. }
  destruct (m (set_db db (MkTx (sv_store s) (MkCounters 0 0)))) as [t1 r1] eqn:E1.
  destruct (HQ (set_db db (MkTx (sv_store s) (MkCounters 0 0))) _ _ V0 (inv_view _ _ _ V0 I) E1) as [F1 Q1]. pose proof V0 as (V1 & V2 & V3 & V4 & V5).
  destruct r1 as [a|e]; last first.
  { injection E as <- <-. cbn. do 3 (split; [done|]). left. split; [|exact V2].
    by apply (Hback (tx_store t1) (rollback (db_tables db) (b_db (tx_store t1)))). }
  destruct (commit_tx (db_tables db) (b_db (tx_store t1))) as [db2 r2] eqn:E2.
  apply commit_view in E2 as (Hi2 & P2 & X2 & C2 & T2).
  assert (db_tables db2 = db_tables (b_db (tx_store t1)) → ∃ st st', same_view (sv_store s) st ∧ Q a st st' ∧
    same_view st' (MkStore (b_disk (tx_store t1)) (b_hot (tx_store t1)) db2)) as Hdone.
  { intros T. exists st0, (tx_store t1). split; [done|]. split; [by apply Q1|done]. }
  destruct r2 as [u2|e2]; injection E as <- <-; cbn in *; do 3 (split; [done|]).
  - apply Hdone. by destruct T2 as [T2|[? _]].
  - destruct T2 as [T2|[_ T2]]; [right; exists a; by apply Hdone|left].
    split; [|by rw T2]. by apply (Hback (tx_store t1) db2); try done; rw T2.
Qed.

(** The common case: a body that is a run and, where it made a package, one with its upload. *)
Lemma withTx_run {A} (m : M TxState A) debt (s s' : Service) r (P : A → (bytes → Z) → list Z → Tables → Prop) :
  svc_inv debt s → withTx m s = (s', r) →
  (∀ t t' r, inv debt (tx_store t) → db_tables (b_db (tx_store t)) = sv_tables s → m t = (t', r) →
     match r with
     | Ok a => ∃ debt' new, run debt' new (tx_store t) (tx_store t') ∧ P a debt' new (db_tables (b_db (tx_store t'))) ∧
         ∀ id, id ∈ new → ∃ h, new_package id h (db_tables (b_db (tx_store t')))
     | Err _ => frame (tx_store t) (tx_store t')
     end) →
  sv_journal s' = sv_journal s ∧ sv_queue s' = sv_queue s ∧
  let committed a := ∃ debt' new, srun debt' new s s' ∧ P a debt' new (sv_tables s') in
  match r with
  | Ok (a, _) => committed a
  | Err _ => srun debt [] s s' ∧ sv_tables s' = sv_tables s ∨ ∃ a, committed a
  end.
Proof.
  intros I E HP. set (committed a := ∃ debt' new, srun debt' new s s' ∧ P a debt' new (sv_tables s')). pose proof I as [I1 I2 I3].
  apply (withTx_rule m debt s s' r (fun a st st' => ∃ debt' new, run debt' new st st' ∧
    P a debt' new (db_tables (b_db st')) ∧ ∀ id, id ∈ new → ∃ h, new_package id h (db_tables (b_db st')))) in E; [|done|].
  - destruct E as (E1 & E2 & Hi & E). split; [done|]. split; [done|]. cbv zeta in E.
    assert (∀ a, (∃ st st', same_view (sv_store s) st ∧ (∃ debt' new, run debt' new st st' ∧ P a debt' new (db_tables (b_db st')) ∧
      ∀ id, id ∈ new → ∃ h, new_package id h (db_tables (b_db st'))) ∧ same_view st' (sv_store s')) → committed a) as Hdone.
    2:{ destruct r as [[a c]|e]; [by apply Hdone|]. destruct E as [E|[a E]]; [by left|right; exists a; by apply Hdone]. }
    clear E. intros a (st & st' & V & (debt' & new & R & Q & N) & V'). pose proof V' as (_ & T' & _).
    pose proof (run_view _ _ _ _ _ _ V R V') as R'. exists debt', new. rw T'. split; [|done]. split; [|done].
    split; [apply R'| |done]. eapply originals_le; [apply R'|done|]. rw T'. intros id p Hid Hp.
    destruct (N id Hid) as (h & O & p' & Hp' & Eh). rw Hp in Hp'. injection Hp' as ->. by rw Eh.
  - intros t t' r0 V It Et. pose proof V as (_ & VT & _). apply HP in Et; [|done|done]. destruct r0 as [a|e].
    + destruct Et as (debt' & new & R & Q). split; [apply R|]. intros a' [= <-]. by exists debt', new.
    + split; [done|]. by intros a.
Qed.

(** ** Operations *)

(** The package an upload answers with is in the tables and has the upload as its
    original file. *)
Definition uploaded (h : bytes) (t : Tables) (r : result (option Package)) : Prop :=
  match r with
  | Ok o => ∃ pkg f p, o = Some pkg ∧ p_PackageHash pkg = h ∧ f ∈ Files pkg ∧ Role f = RoleOriginal ∧ BlobHash f = h ∧
      tget (p_ID pkg) (packages t) = Some p ∧ p_PackageHash p = h ∧ Files pkg = files_of t (p_ID pkg)
  | Err _ => True
  end.

Lemma files_of_elem debt t ps fs id k f :
  db_inv t ps fs debt → (k, f) ∈ package_files t → PackageID f = id →
  ∃ f', f' ∈ files_of t id ∧ Role f' = Role f ∧ BlobHash f' = BlobHash f.
Proof.
  intros D Hin Hid. destruct (ri_file _ _ _ _ D k f Hin) as (_ & _ & [b Hb] & _).
  exists (MkFileRow (pf_ID f) (PackageID f) (BlobHash f) (Role f) (pf_OriginalFilename f) (SequenceNumber f) (cb_Size b)).
  split; [|done]. unfold files_of. apply list_elem_of_omap. exists f. split.
  - apply list_elem_of_filter. split; [done|]. apply list_elem_of_fmap. by exists (k, f).
  - unfold with_size. by rw Hb.
Qed.

Lemma files_of_core t t' id : same_core t t' → files_of t' id = files_of t id.
Proof. intros (C & _ & F). unfold files_of, with_size. by rw C F. Qed.

Lemma files_of_inv t id f : f ∈ files_of t id → ∃ k g, (k, g) ∈ package_files t ∧ PackageID g = id ∧
  Role f = Role g ∧ BlobHash f = BlobHash g ∧ is_Some (content_blobs t !! BlobHash f).
Proof.
  unfold files_of. intros (g & Hg & E)%list_elem_of_omap. apply list_elem_of_filter in Hg as [Hid Hg].
  apply list_elem_of_fmap in Hg as ([k g'] & -> & Hg). unfold with_size in E. cbn in *.
  destruct (content_blobs t !! BlobHash g') as [b|] eqn:Eb; [|done]. injection E as <-. exists k, g'. cbn. by rw Eb.
Qed.

Lemma journal_store pkg (s s' : Service) r : journalPackage pkg s = (s', r) → sv_store s' = sv_store s.
Proof.
  unfold journalPackage. destruct (sv_journal s) as [j|], pkg as [p|]; try by intros [= <- _].
  destruct (jr_append _ j). by intros [= <- _].
Qed.

Lemma load_run debt id (s s' : Service) r :
  svc_inv debt s → loadAndJournal id s = (s', r) →
  srun debt [] s s' ∧ b_disk (sv_store s') = b_disk (sv_store s) ∧ same_core (sv_tables s) (sv_tables s') ∧
  (∀ o, r = Ok o → o = with_files (files_of (sv_tables s) id) <$> tget id (packages (sv_tables s))).
Proof.
  intros I E. unfold loadAndJournal in E. apply bind_inv in E as [(s1 & o & E1 & E)|(e & E1 & ->)];
    destruct (repo_quiet _ _ _ _ _ (GetPackage_quiet id) I E1) as (R1 & D1 & C1); [|by split_and!].
  assert (o = with_files (files_of (sv_tables s) id) <$> tget id (packages (sv_tables s))) as Ho.
  { apply repo_inv in E1 as (db & E1 & _). by apply GetPackage_inv in E1 as (_ & _ & ?). }
  apply bind_inv in E as [(s2 & u & E2 & E)|(e & E2 & ->)]; apply journal_store in E2;
    pose proof (srun_trans _ _ _ _ _ _ _ R1 (srun_same debt _ _ (sr_inv _ _ _ _ R1) E2)) as R2; cbn [app] in R2.
  - munfold. injection E as <- <-. rw E2. split; [done|]. split; [done|]. split; [done|]. by intros o' [= <-].
  - rw E2. by split_and!.
Qed.

Lemma load_uploaded debt id h (s s' : Service) r :
  svc_inv debt s → new_package id h (sv_tables s) → loadAndJournal id s = (s', r) → srun debt [] s s' ∧ uploaded h (sv_tables s') r.
Proof.
  intros I [(k & f & Hin & Hid & Hr & Hh) (p & Hp & Eh)] E. apply (load_run debt) in E as (R & _ & C & Ho); [|done].
  pose proof C as (_ & P & _).
  split; [done|]. destruct r as [o|e]; [|done]. rw (Ho o eq_refl) Hp.
  destruct (ri_pkg _ _ _ _ (si_db _ _ _ (sv_ok _ _ I)) id p) as [Hpid _]; [by apply tget_Some_elem|].
  destruct (files_of_elem _ _ _ _ _ _ _ (si_db _ _ _ (sv_ok _ _ I)) Hin Hid) as (f' & Hf' & R' & B').
  exists (with_files (files_of (sv_tables s) id) p), f', p. cbn. rw Hpid P (files_of_core _ _ _ C). split_and!; (done || congruence).
Qed.

Lemma record_run debt sup n c b (s s' : Service) r :
  svc_inv debt s → recordIngest sup n c b s = (s', r) →
  srun debt [] s s' ∧ r = Ok tt ∧ b_disk (sv_store s') = b_disk (sv_store s) ∧ same_core (sv_tables s) (sv_tables s').
Proof.
  intros I E. unfold recordIngest, ignore in E. destruct (repo _ s) as [s1 r1] eqn:E1. injection E as <- <-.
  destruct (repo_quiet _ _ _ _ _ (RecordSupplierIngest_quiet _ _ _ _) I E1) as (R & D & C). by split_and!.
Qed.

(** The packages an upload makes: none, or one with the hash of its body. *)
Definition adds (h : bytes) (new : list Z) (t : Tables) : Prop := new = [] ∨ ∃ id, new = [id] ∧ new_package id h t.

(** After the transaction of an upload. *)
Lemma finish_run debt new id h sup n c (s0 s s' : Service) r (after : M Service unit) :
  srun debt new s0 s → new_package id h (sv_tables s) →
  (∀ s s' r, after s = (s', r) → r = Ok tt ∧ sv_store s' = sv_store s) →
  (do! recordIngest sup n c false; do! after; loadAndJournal id) s = (s', r) →
  srun debt new s0 s' ∧ uploaded h (sv_tables s') r ∧ new_package id h (sv_tables s').
Proof.
  intros R N Ha E. apply bind_inv in E as [(s1 & u & E1 & E)|(e & E1 & ->)];
    destruct (record_run debt _ _ _ _ _ _ _ (sr_inv _ _ _ _ R) E1) as (R1 & Hr1 & _ & C1); [|done].
  apply bind_inv in E as [(s2 & u2 & E2 & E)|(e & E2 & ->)]; destruct (Ha _ _ _ E2) as [Hr2 St2]; [|done].
  pose proof (srun_same debt _ _ (sr_inv _ _ _ _ R1) St2) as R2.
  destruct (load_uploaded debt id h s2 s' r) as [R3 U]; [apply R2| |done|].
  - rw St2. destruct C1 as (_ & P & F). destruct N as [(k & f & X) (p & Y)].
    split; [exists k, f; by rw F|exists p; by rw P].
  - pose proof (srun_trans _ _ _ _ _ _ _ (srun_trans _ _ _ _ _ _ _ R1 R2) R3) as R4.
    split; [|split; [done|eapply new_package_le; [apply (sr_run _ _ _ _ R4)|done]]].
    pose proof (srun_trans _ _ _ _ _ _ _ R R4) as R5. by rw !app_nil_r in R5.
Qed.

Lemma single_tx_run debt sup body rt pt mode fn (s s' : Service) r :
  svc_inv debt s → withTx (ingest_single encoder withIndex sup (Sum256 body) body rt pt mode fn) s = (s', r) →
  match r with
  | Ok (id, _) => srun debt [id] s s' ∧ new_package id (Sum256 body) (sv_tables s')
  | Err _ => ∃ new, srun debt new s s' ∧ adds (Sum256 body) new (sv_tables s')
  end.
Proof.
  intros I E. apply (withTx_run _ debt s s' r (fun id d new t => d = debt ∧ new = [id] ∧ new_package id (Sum256 body) t)) in E
    as (_ & _ & E); [|done|].
  - destruct r as [[id c]|e]; [by destruct E as (d & new & R & -> & -> & N)|].
    destruct E as [[R _]|(id & d & new & R & -> & -> & N)]; [exists []; split; [done|by left]|exists [id]; split; [done|right; by exists id]].
  - intros t t' r0 It Tt Et. apply (ingest_single_run encoder withIndex Henc debt) in Et; [|done].
    destruct r0 as [id|e]; [|done]. destruct Et as [R N]. exists debt, [id]. split; [done|]. split; [done|].
    intros k Hk. apply list_elem_of_singleton in Hk as ->. by eexists.
Qed.

Lemma XML_run debt sup body fn (s s' : Service) r :
  svc_inv debt s → ingestXML encoder withIndex sup (Sum256 body) body fn s = (s', r) →
  ∃ new, srun debt new s s' ∧ uploaded (Sum256 body) (sv_tables s') r ∧ adds (Sum256 body) new (sv_tables s').
Proof.
  intros I E. unfold ingestXML in E.
  apply bind_inv in E as [(s1 & [id c] & E1 & E)|(e & E1 & ->)]; apply (single_tx_run debt) in E1; try done;
    [|by destruct E1 as (new & R & N); exists new].
  destruct E1 as [R N]. exists [id].
  destruct (finish_run debt [id] id (Sum256 body) sup 1 c s s1 s' r (mret tt)) as (R' & U & N'); [done|done|by intros ??? [= <- <-]|exact E|].
  split; [done|]. split; [done|]. right. by exists id.
Qed.

Lemma LargeZIP_run debt sup body fn (s s' : Service) r :
  svc_inv debt s → ingestLargeZIP encoder withIndex cfg sup (Sum256 body) body fn s = (s', r) →
  ∃ new, srun debt new s s' ∧ uploaded (Sum256 body) (sv_tables s') r ∧ adds (Sum256 body) new (sv_tables s').
Proof.
  intros I E. unfold ingestLargeZIP in E.
  apply bind_inv in E as [(s1 & [id c] & E1 & E)|(e & E1 & ->)]; apply (single_tx_run debt) in E1; try done;
    [|by destruct E1 as (new & R & N); exists new].
  destruct E1 as [R N]. exists [id].
  destruct (finish_run debt [id] id (Sum256 body) sup 1 c s s1 s' r (enqueue cfg id)) as (R' & U & N'); [done|done|by intros ??? [= <- <-]|exact E|].
  split; [done|]. split; [done|]. right. by exists id.
Qed.

Lemma withTx_disk {A} (m : M TxState A) (s s' : Service) r :
  keeps_disk m → withTx m s = (s', r) → b_disk (sv_store s') = b_disk (sv_store s).
Proof.
  intros Hm E. unfold withTx, WithTx in E. cbn [tx_store] in E. destruct (begin_tx _) as [db [u|e]]; [|by injection E as <- <-].
  destruct (m _) as [t1 r1] eqn:E1. apply Hm in E1. cbn in E1.
  destruct r1 as [a|e]; [|injection E as <- <-; by cbn].
  destruct (commit_tx _ _) as [db2 [u2|e2]]; injection E as <- <-; by cbn.
Qed.

(** A small ZIP: the original, then its members or the unpack error. *)
Lemma small_body_run debt sup body i fn (rest : Z → M TxState unit) (t t' : TxState) r :
  inv debt (tx_store t) → cp_PackageHash i = Sum256 body →
  (∀ id d t t' r, inv d (tx_store t) → rest id t = (t', r) →
     if is_ok r then ∃ d', debt_le d d' ∧ run d' [] (tx_store t) (tx_store t') else frame (tx_store t) (tx_store t')) →
  (let! zipHash := store encoder withIndex body RecordZIP sup in
   let! id := tx (CreatePackage i) in
   let! _ := tx (CreatePackageFile id (MkCreateFile zipHash RoleOriginal fn None)) in
   do! rest id; mret id) t = (t', r) →
  match r with
  | Ok id => ∃ d', debt_le debt d' ∧ run d' [id] (tx_store t) (tx_store t') ∧
      new_package id (Sum256 body) (db_tables (b_db (tx_store t')))
  | Err _ => frame (tx_store t) (tx_store t')
  end.
Proof.
  intros I Hi Hrest E.
  assert ((original_body encoder withIndex sup body RecordZIP i fn ≫= fun id => do! rest id; mret id) t = (t', r)) as E'.
  { rw -E. unfold original_body. do 3 (rw bind_assoc; apply bind_ext; intros). done. }
  clear E. apply bind_inv in E' as [(t1 & id & E1 & E)|(e & E1 & ->)];
    apply (original_body_run encoder withIndex Henc debt) in E1; try done.
  destruct E1 as [R1 N1].
  apply bind_inv in E as [(t2 & u & E2 & E)|(e & E2 & ->)]; apply (Hrest id debt) in E2; try apply R1; cbn [is_ok] in *;
    [|eapply frame_trans; [apply R1|done]].
  destruct E2 as (d' & Hd & R2). munfold. injection E as <- <-. exists d'. split; [done|].
  split; [exact (run_trans _ _ _ _ _ _ _ _ R1 R2)|]. eapply new_package_le; [apply R2|done].
Qed.

Lemma SmallZIP_run debt sup body fn (s s' : Service) r :
  svc_inv debt s → ingestSmallZIP encoder withIndex cfg sup (Sum256 body) body fn s = (s', r) →
  ∃ debt' new, debt_le debt debt' ∧ srun debt' new s s' ∧ uploaded (Sum256 body) (sv_tables s') r ∧ adds (Sum256 body) new (sv_tables s').
Proof.
  intros I E. unfold ingestSmallZIP in E.
  set (uerr := match CountZipEntries body with Ok _ => _ | Err _ => _ end) in E.
  set (n := match uerr with Some _ => _ | None => _ end) in E.
  apply bind_inv in E as [(s1 & [id c] & E1 & E)|(e & E1 & ->)];
    eapply (withTx_run _ debt s _ _ (fun id d new t => debt_le debt d ∧ new = [id] ∧ new_package id (Sum256 body) t)) in E1
      as (_ & _ & E1); try done.
  2,4: intros t t' r0 It Tt Et; eapply small_body_run in Et; [|exact It|done|];
    [destruct r0 as [id0|e0]; [|done]; destruct Et as (d' & Hd & R & N); exists d', [id0]; split; [done|]; split; [done|];
     intros k Hk; apply list_elem_of_singleton in Hk as ->; by eexists|];
    intros id0 d t0 t1 r1 I0 E0; destruct uerr as [ue|];
    [apply (unpack_error_run encoder withIndex Henc d) in E0; [|done]; destruct r1; [by exists d|done]|];
    apply bind_inv in E0 as [(t2 & fc & E2 & E0)|(e0 & E2 & ->)]; apply (members_run encoder withIndex Henc d) in E2; try done;
    munfold; by injection E0 as <- <-.
  - destruct E1 as (debt' & new & R & Hd & -> & N). exists debt', [id].
    destruct (finish_run debt' [id] id (Sum256 body) sup n c s s1 s' r (mret tt)) as (R2 & U & N2);
      [done|done|by intros ??? [= <- <-]|exact E|]. split_and!; try done. right. by exists id.
  - destruct E1 as [[R _]|(id & debt' & new & R & Hd & -> & N)]; [exists debt, []; split_and!; try done; by left|].
    exists debt', [id]. split_and!; try done. right. by exists id.
Qed.

Lemma clone_run debt sup body pt fn cid (s s' : Service) r :
  svc_inv debt s →
  (∀ p, tget cid (packages (sv_tables s)) = Some p → p_PackageHash p = Sum256 body) →
  clonePackage sup (Sum256 body) pt fn cid s = (s', r) →
  ∃ new, srun debt new s s' ∧ uploaded (Sum256 body) (sv_tables s') r ∧ b_disk (sv_store s') = b_disk (sv_store s) ∧
    dom (content_blobs (sv_tables s')) = dom (content_blobs (sv_tables s)) ∧ adds (Sum256 body) new (sv_tables s').
Proof.
  intros I Hc E. unfold clonePackage in E.
  apply bind_inv in E as [(s1 & o & E1 & E)|(e & E1 & ->)];
    destruct (repo_quiet _ _ _ _ _ (GetPackage_quiet cid) I E1) as (R1 & D1 & (C1 & P1 & F1)); [|exists []; rw C1; split_and!; try done; by left].
  assert (o = with_files (files_of (sv_tables s) cid) <$> tget cid (packages (sv_tables s))) as Ho.
  { apply repo_inv in E1 as (db & E1 & _). by apply GetPackage_inv in E1 as (_ & _ & ?). }
  destruct o as [canonical|]; [|munfold; injection E as <- <-; exists []; rw C1; split_and!; try done; by left].
  destruct (tget cid (packages (sv_tables s))) as [p|] eqn:Hp; [|done]. injection Ho as Ho.
  destruct (sv_orig _ _ I cid p Hp) as (k & f0 & Hin & Hid & Hrole & Hhash).
  destruct (files_of_elem _ _ _ _ _ _ _ (si_db _ _ _ (sv_ok _ _ I)) Hin Hid) as (f & Hf & Rf & Bf).
  assert (f ∈ Files canonical) as Hf' by (by rw Ho).
  set (i := MkCreatePackage sup (Sum256 body) _ _ _ _ _ _) in E.
  assert (∃ s2 r2, withTx (clone_body i (Files canonical)) s1 = (s2, r2) ∧
    match r2 with Ok a => loadAndJournal a.1 s2 = (s', r) | Err e => s' = s2 ∧ r = Err e end) as (s2 & r2 & E2 & E').
  { apply bind_inv in E as [(s2 & a & E2 & E)|(e & E2 & ->)]; [by exists s2, (Ok a)|by exists s', (Err e)]. }
  clear E.
  pose proof (withTx_disk _ _ _ _ (clone_body_disk i (Files canonical)) E2) as D2.
  destruct (withTx_rule _ debt s1 s2 r2 (fun id st st' => run debt [id] st st' ∧ new_package id (Sum256 body) (db_tables (b_db st')) ∧
    dom (content_blobs (db_tables (b_db st'))) = dom (content_blobs (db_tables (b_db st))))
    (sr_inv _ _ _ _ R1) E2) as (_ & _ & Hi & P2).
  { intros t t' r0 V It Et.
    apply (clone_body_run encoder debt i (Files canonical) f) in Et; [|done|done|congruence|cbn; rw Bf Hhash; by apply Hc].
    destruct r0 as [id|e]; [|by split]. destruct Et as (R & N & D). split; [apply R|]. by intros a [= <-]. }
  assert (∀ id, (∃ st st', same_view (sv_store s1) st ∧ (run debt [id] st st' ∧ new_package id (Sum256 body) (db_tables (b_db st')) ∧
      dom (content_blobs (db_tables (b_db st'))) = dom (content_blobs (db_tables (b_db st)))) ∧ same_view st' (sv_store s2)) →
    srun debt [id] s1 s2 ∧ new_package id (Sum256 body) (sv_tables s2) ∧ dom (content_blobs (sv_tables s2)) = dom (content_blobs (sv_tables s1))) as Hdone.
  { intros id (st & st' & V & (R & N & D) & V'). pose proof (run_view _ _ _ _ _ _ V R V') as R'.
    pose proof V as (_ & TV & _). pose proof V' as (_ & TV' & _). rw TV' D TV. split; [|done].
    split; [|done]. split; [apply R'| |done]. eapply originals_le; [apply R'|apply (sr_inv _ _ _ _ R1)|].
    intros id' q Hid' Hq. apply list_elem_of_singleton in Hid' as ->. rw TV' in Hq |- *. destruct N as [O (q' & Hq' & Eq)].
    rw Hq in Hq'. injection Hq' as ->. by rw Eq. }
  destruct r2 as [[id c]|e].
  2:{ destruct E' as [-> ->], P2 as [[R2 T2]|[id [R2 [N2 B2]]%Hdone]].
      - exists []. split; [exact (srun_trans _ _ _ _ _ _ _ R1 R2)|]. rw D2 D1 T2 C1. split_and!; try done. by left.
      - exists [id]. split; [exact (srun_trans _ _ _ _ _ _ _ R1 R2)|]. rw D2 D1 B2 C1. split_and!; try done. right. by exists id. }
  apply Hdone in P2 as (R2 & N & B2).
  cbn [fst] in E'. pose proof E' as E''. apply (load_run debt) in E'' as (_ & D3 & (C3 & _) & _); [|apply R2].
  destruct (load_uploaded debt id (Sum256 body) s2 s' r) as [R3 U]; [apply R2|done|done|].
  exists [id]. split; [exact (srun_trans _ _ _ _ _ _ _ (srun_trans _ _ _ _ _ _ _ R1 R2) R3)|]. rw D3 D2 D1 C3 B2 C1.
  split_and!; try done. right. exists id. split; [done|]. eapply new_package_le; [apply (sr_run _ _ _ _ R3)|done].
Qed.

Lemma bind_case {W A B} (m : M W A) (k : A → M W B) s s' r :
  (m ≫= k) s = (s', r) → ∃ s1 r1, m s = (s1, r1) ∧
    match r1 with Ok a => k a s1 = (s', r) | Err e => s' = s1 ∧ r = Err e end.
Proof.
  intros E. apply bind_inv in E as [(s1 & a & E1 & E)|(e & E1 & ->)]; [by exists s1, (Ok a)|by exists s', (Err e)].
Qed.

(** An upload: [exact] says that no reference was left over. *)
Lemma Process_run debt sup body fn (s s' : Service) r :
  svc_inv debt s → ProcessPackage encoder withIndex cfg sup body fn s = (s', r) →
  ∃ debt' new, debt_le debt debt' ∧ srun debt' new s s' ∧ uploaded (Sum256 body) (sv_tables s') r ∧
    (DetectPayload body = Ok PayloadXML → debt' = debt) ∧
    ((∃ id p, (id, p) ∈ packages (sv_tables s) ∧ p_PackageHash p = Sum256 body) →
     debt' = debt ∧ b_disk (sv_store s') = b_disk (sv_store s) ∧
     dom (content_blobs (sv_tables s')) = dom (content_blobs (sv_tables s))) ∧
    adds (Sum256 body) new (sv_tables s').
Proof.
  intros I E. pose proof (srun_refl debt s I) as R0. unfold ProcessPackage in E.
  destruct (_ =? _); [munfold; injection E as <- <-; exists debt, []; split_and!; try done; by left|].
  destruct (_ <? _); [munfold; injection E as <- <-; exists debt, []; split_and!; try done; by left|].
  apply bind_case in E as (s1 & r1 & E1 & E). unfold lift_result in E1. injection E1 as <- E1.
  destruct r1 as [pt|e]; [|destruct E as [-> ->]; exists debt, []; split_and!; try done; by left].
  apply bind_case in E as (s2 & r2 & E2 & E).
  destruct (repo_quiet _ _ _ _ _ (read_quiet (fun t => fst <$> head (filter (fun kp => p_PackageHash kp.2 = Sum256 body) (packages t)))) I E2)
    as (R2 & D2 & (C2 & P2 & F2)).
  destruct r2 as [o|e]; [|destruct E as [-> ->]; exists debt, []; rw C2; split_and!; try done; by left].
  assert (o = fst <$> head (filter (fun kp => p_PackageHash kp.2 = Sum256 body) (packages (sv_tables s)))) as Ho.
  { apply repo_inv in E2 as (db & E2 & _). by apply FindCanonicalPackageID_inv in E2 as (_ & _ & ?). }
  assert (∀ kp, kp ∈ filter (fun kp => p_PackageHash kp.2 = Sum256 body) (packages (sv_tables s)) →
    kp ∈ packages (sv_tables s) ∧ p_PackageHash kp.2 = Sum256 body) as Hfil by (intros kp [? ?]%list_elem_of_filter; done).
  destruct (filter _ (packages (sv_tables s))) as [|[cid p] l] eqn:Ef; cbn in Ho; subst o.
  - assert (¬ ∃ id p, (id, p) ∈ packages (sv_tables s) ∧ p_PackageHash p = Sum256 body) as Hno.
    { intros (id & p & Hin & Hh). assert ((id, p) ∈ filter (fun kp => p_PackageHash kp.2 = Sum256 body) (packages (sv_tables s)))
        as Hx by (by apply list_elem_of_filter). rw Ef in Hx. by apply not_elem_of_nil in Hx. }
    destruct pt.
    + unfold ingestZIP in E. destruct (_ || _).
      * apply (LargeZIP_run debt) in E as (new & R & U & A); [|apply R2]. exists debt, new. split; [done|].
        split; [exact (srun_trans _ _ _ _ _ _ _ R2 R)|]. split_and!; done.
      * apply (SmallZIP_run debt) in E as (debt' & new & Hd & R & U & A); [|apply R2]. exists debt', new. split; [done|].
        split; [exact (srun_trans _ _ _ _ _ _ _ R2 R)|]. split; [done|]. rw E1. split_and!; done.
    + apply (XML_run debt) in E as (new & R & U & A); [|apply R2]. exists debt, new. split; [done|].
      split; [exact (srun_trans _ _ _ _ _ _ _ R2 R)|]. split_and!; done.
  - apply bind_case in E as (s3 & r3 & E3 & E).
    destruct (Hfil (cid, p)) as [Hin Hh]; [by left|]. cbn in Hh.
    apply (clone_run debt) in E3 as (new & R3 & U3 & D3 & B3 & A3); [|apply R2|].
    2:{ rw P2. intros p' Hp'. pose proof (tget_elem _ _ _ (ri_keys _ _ _ _ (si_db _ _ _ (sv_ok _ _ I))) Hin) as Hp. congruence. }
    pose proof (srun_trans _ _ _ _ _ _ _ R2 R3) as R23. cbn [app] in R23.
    destruct r3 as [o|e]; [|destruct E as [-> ->]; exists debt, new; rw D3 D2 B3 C2; split_and!; done].
    destruct U3 as (pkg & f & p3 & -> & U3).
    apply bind_case in E as (s4 & r4 & E4 & E). apply (record_run debt) in E4 as (R4 & -> & D4 & C4'); [|apply R23].
    pose proof C4' as (C4 & P4 & _).
    munfold. injection E as <- <-. exists debt, new. split; [done|].
    pose proof (srun_trans _ _ _ _ _ _ _ R23 R4) as R5. rw app_nil_r in R5. split; [done|].
    split; [exists pkg, f, p3; by rw P4 (files_of_core _ _ _ C4')|]. rw D4 D3 D2 C4 B3 C2. split_and!; try done.
    destruct A3 as [->|(id & -> & N3)]; [by left|right]. exists id. split; [done|]. eapply new_package_le; [apply (sr_run _ _ _ _ R4)|done].
Qed.

(** ** Background work *)
Lemma propagate_one_run debt canonical extra cid (s s' : Service) r :
  svc_inv debt s → propagateToClone canonical extra cid s = (s', r) → srun debt [] s s'.
Proof.
  intros I E. unfold propagateToClone in E. apply bind_case in E as (s1 & r1 & E1 & E).
  destruct (repo_quiet _ _ _ _ _ (GetPackage_quiet cid) I E1) as (R1 & _).
  destruct r1 as [[clone|]|e]; [|munfold; by injection E as <- <-|by destruct E as [-> ->]].
  destruct (negb _); [munfold; by injection E as <- <-|].
  apply bind_case in E as (s2 & r2 & E2 & E).
  eapply (withTx_run _ debt s1 s2 r2 (fun _ d new _ => d = debt ∧ new = [])) in E2 as (_ & _ & E2); [|apply R1|].
  2:{ intros t t' r0 It Tt Et. eapply (fill_body_run encoder debt) in Et; [|done]. destruct r0 as [u|e]; [|done].
      exists debt, []. split; [done|]. split; [done|]. by intros id ?%not_elem_of_nil. }
  destruct r2 as [[u c]|e].
  - destruct E2 as (d & new & R2 & -> & ->). munfold. injection E as <- <-. exact (srun_trans _ _ _ _ _ _ _ R1 R2).
  - destruct E as [-> ->], E2 as [[R2 _]|(u & d & new & R2 & -> & ->)]; exact (srun_trans _ _ _ _ _ _ _ R1 R2).
Qed.

Lemma propagate_run debt cid (s s' : Service) r :
  svc_inv debt s → propagateUnpackToClones cid s = (s', r) → srun debt [] s s'.
Proof.
  intros I E. unfold propagateUnpackToClones in E. apply bind_case in E as (s1 & r1 & E1 & E).
  destruct (repo_quiet _ _ _ _ _ (GetPackage_quiet cid) I E1) as (R1 & _).
  destruct r1 as [[canonical|]|e]; [|munfold; by injection E as <- <-|by destruct E as [-> ->]].
  destruct (negb _); [munfold; by injection E as <- <-|].
  apply bind_case in E as (s2 & r2 & E2 & E).
  destruct (repo_quiet _ _ _ _ _ (read_quiet _) (sr_inv _ _ _ _ R1) E2) as (R2 & _).
  pose proof (srun_trans _ _ _ _ _ _ _ R1 R2) as R12. cbn [app] in R12.
  destruct r2 as [ids|e]; [|by destruct E as [-> ->]]. clear E1 E2 R1 R2.
  revert s2 R12 E. induction ids as [|id ids IH]; intros s2 R12 E; cbn [forM_] in E; [munfold; by injection E as <- <-|].
  apply bind_case in E as (s3 & r3 & E3 & E). apply (propagate_one_run debt) in E3; [|apply R12].
  pose proof (srun_trans _ _ _ _ _ _ _ R12 E3) as R13. cbn [app] in R13.
  destruct r3 as [u|e]; [by eapply IH|by destruct E as [-> ->]].
Qed.

Lemma propagate_journal_run debt id (s s' : Service) r :
  svc_inv debt s → propagate_and_journal id s = (s', r) → srun debt [] s s'.
Proof.
  intros I E. unfold propagate_and_journal in E. apply bind_case in E as (s1 & r1 & E1 & E).
  apply (propagate_run debt) in E1; [|done]. destruct r1 as [u|e]; [|by destruct E as [-> ->]].
  apply bind_case in E as (s2 & r2 & E2 & E). apply (load_run debt) in E2 as (R2 & _); [|apply E1].
  pose proof (srun_trans _ _ _ _ _ _ _ E1 R2) as R12. destruct r2 as [o|e]; [munfold; by injection E as <- <-|by destruct E as [-> ->]].
Qed.

Lemma read_run debt b (s s' : Service) r :
  svc_inv debt s → (∃ h, content_blobs (sv_tables s) !! h = Some b) →
  on_store (ReadBlob encoder b) s = (s', r) → srun debt [] s s' ∧ sv_tables s' = sv_tables s.
Proof.
  intros [I1 I2 I3] [h Hb] E. unfold on_store, zoom in E. destruct (ReadBlob encoder b (sv_store s)) as [st r1] eqn:E1.
  injection E as <- <-. unfold ReadBlob in E1. apply bind_case in E1 as (st1 & r2 & E1 & E2).
  apply (on_disk_step encoder _ debt) in E1 as (I' & L & D & _); [|done|].
  2:{ intros d' r' Ed. destruct (si_blobs _ _ _ I1 h b Hb) as (data & m & p & _ & _ & Hst & _).
      eapply dk_read_law; [apply I1|by eapply dk_stored_id|exact Ed]. }
  assert (st = st1) as ->.
  { destruct r2 as [[m p]|e]; [|by destruct E2]. destruct (IsCompressedXML m); [destruct encoder|]; munfold; by injection E2. }
  cbn. rw D. split; [|done]. split; [split; cbn; rw ?D; done|]. split; cbn; [done| |rw D; apply tables_le_refl].
  split; [apply L|]. by rw D.
Qed.

Lemma Unpack_run debt id (s s' : Service) r :
  svc_inv debt s → UnpackLargePackage encoder withIndex cfg id s = (s', r) →
  ∃ debt', debt_le debt debt' ∧ srun debt' [] s s'.
Proof.
  intros I E. unfold UnpackLargePackage in E. apply bind_case in E as (s1 & r1 & E1 & E).
  destruct (repo_quiet _ _ _ _ _ (GetPackage_quiet id) I E1) as (R1 & _ & (C1 & P1 & F1)).
  destruct r1 as [o|e]; [|destruct E as [-> ->]; by exists debt].
  destruct o as [p|]; [|munfold; injection E as <- <-; by exists debt].
  destruct (_ =? _)%string.
  { apply (propagate_journal_run debt) in E; [|apply R1]. exists debt. split; [done|]. exact (srun_trans _ _ _ _ _ _ _ R1 E). }
  destruct (negb _); [munfold; injection E as <- <-; by exists debt|].
  apply bind_case in E as (s2 & r2 & E2 & E).
  destruct (repo_quiet _ _ _ _ _ (read_quiet _) (sr_inv _ _ _ _ R1) E2) as (R2 & _ & (C2 & P2 & F2)).
  pose proof (srun_trans _ _ _ _ _ _ _ R1 R2) as R12. cbn [app] in R12.
  destruct r2 as [[orig|]|e]; [|munfold; injection E as <- <-; by exists debt|destruct E as [-> ->]; by exists debt].
  apply bind_case in E as (s3 & r3 & E3 & E).
  destruct (repo_quiet _ _ _ _ _ (read_quiet (fun t => content_blobs t !! BlobHash orig)) (sr_inv _ _ _ _ R12) E3) as (R3 & _ & (C3 & P3 & F3)).
  pose proof (srun_trans _ _ _ _ _ _ _ R12 R3) as R13. cbn [app] in R13.
  destruct r3 as [[blob|]|e]; [|munfold; injection E as <- <-; by exists debt|destruct E as [-> ->]; by exists debt].
  assert (∃ h, content_blobs (sv_tables s3) !! h = Some blob) as Hb.
  { apply repo_inv in E3 as (db & E3 & _). apply GetBlob_inv in E3 as (_ & _ & Hb). exists (BlobHash orig). by rw C3. }
  apply bind_case in E as (s4 & r4 & E4 & E). apply (read_run debt) in E4 as [R4 T4]; [|apply R13|done].
  pose proof (srun_trans _ _ _ _ _ _ _ R13 R4) as R14. cbn [app] in R14.
  destruct r4 as [zip|e]; [|destruct E as [-> ->]; by exists debt].
  apply bind_case in E as (s5 & r5 & E5 & E). apply try_inv in E5 as (r6 & E5 & ->).
  eapply (withTx_run _ debt s4 s5 r6 (fun _ d new _ => debt_le debt d ∧ new = [])) in E5 as (_ & _ & E5);
    [|apply R14|].
  2:{ intros t t' r0 It Tt Et. apply (unpack_tx_run encoder withIndex Henc cfg debt) in Et; [|done].
      destruct r0 as [u|e]; [|done]. destruct Et as [(d & Hd & R) _]. exists d, []. split; [done|].
      split; [done|]. by intros k ?%not_elem_of_nil. }
  destruct r6 as [[u c]|e].
  - destruct E5 as (d & new & R5 & Hd & ->). apply (propagate_journal_run d) in E; [|apply R5].
    exists d. split; [done|]. exact (srun_trans _ _ _ _ _ _ _ (srun_trans _ _ _ _ _ _ _ R14 R5) E).
  - assert (∃ d, debt_le debt d ∧ srun d [] s4 s5) as (d & Hd & R5).
    { destruct E5 as [[R5 T5]|(u & d & new & R5 & Hd & ->)]; [by exists debt|by exists d]. }
    pose proof (srun_trans _ _ _ _ _ _ _ R14 R5) as R15. cbn [app] in R15. exists d. split; [done|].
    destruct (error_is e ErrSkipLargeUnpack) eqn:Es; [|munfold; by injection E as <- <-].
    apply (propagate_journal_run d) in E; [|apply R5]. exact (srun_trans _ _ _ _ _ _ _ R15 E).
Qed.

(** ** The service as a whole *)
Inductive op : Type :=
  | Upload (supplierID : Z) (body : bytes) (filename : option string)
  | Job (packageID : Z)
  | Scan.

Definition exec (o : op) (s : Service) : Service :=
  match o with
  | Upload sup body fn => (ProcessPackage encoder withIndex cfg sup body fn s).1
  | Job id => (run_job encoder withIndex cfg id s).1
  | Scan => (recoverPending s).1
  end.

Definition is_upload (o : op) : bool := match o with Upload _ _ _ => true | _ => false end.

(** Background work creates no package. *)
Lemma exec_run debt o (s : Service) : svc_inv debt s →
  ∃ debt' new, debt_le debt debt' ∧ srun debt' new s (exec o s) ∧ (is_upload o = false → new = []).
Proof.
  intros I. destruct o as [sup body fn|id|]; cbn.
  - destruct (ProcessPackage _ _ _ _ _ _ s) as [s' r] eqn:E. apply (Process_run debt) in E as (d & new & Hd & R & _); [|done].
    by exists d, new.
  - unfold run_job. destruct (UnpackLargePackage _ _ _ _ s) as [s1 r] eqn:E. apply (Unpack_run debt) in E as (d & Hd & R); [|done].
    exists d, []. split; [done|]. split; [|done]. cbn. destruct R as [[R1 R2 R3] R4]. by split; [split|].
  - destruct (recoverPending s) as [s1 r] eqn:E. unfold recoverPending in E. cbn. exists debt, []. split; [done|]. split; [|done].
    apply bind_case in E as (s2 & r2 & E2 & E). apply try_inv in E2 as (r3 & E2 & ->).
    destruct (repo_quiet _ _ _ _ _ (read_quiet _) I E2) as (R2 & _). destruct r3 as [ids|e]; munfold; injection E as <- <-; [|done].
    destruct R2 as [[R3 R4 R5] R6]. by split; [split|].
Qed.

(** Any sequence of operations. *)
Definition execs (os : list op) (s : Service) : Service := fold_left (fun s o => exec o s) os s.

Lemma execs_run debt os (s : Service) : svc_inv debt s → ∃ debt' new, debt_le debt debt' ∧ srun debt' new s (execs os s).
Proof.
  revert debt s; induction os as [|o os IH]; intros debt s I; [exists debt, []; split; [done|by apply srun_refl]|].
  destruct (exec_run debt o s I) as (d1 & n1 & H1' & R1 & _). destruct (IH d1 (exec o s) (sr_inv _ _ _ _ R1)) as (d2 & n2 & H2' & R2).
  exists d2, (n1 ++ n2). split; [by etrans|]. exact (srun_trans _ _ _ _ _ _ _ R1 R2).
Qed.
End Service.

Notation sv_tables s := (db_tables (b_db (sv_store s))).

Section Claims.
Context {S : Type} `{DiskLaws S} {K : Type} `{kvStore K} `{Bloom} `{ZstdLaws} `{PG} `{ZipLib} `{Times}.
Context {J : Type} `{JournalOps J}.
Context (encoder : option Encoder) (withIndex : bool) (cfg : Config).
Notation Service := (Ingest.Service S K J).

(** What a state promises: references are never undercounted, every blob row
    reads back as content with the row's hash, every package has its upload. *)
Definition sound (s : Service) : Prop :=
  (∀ h b, content_blobs (sv_tables s) !! h = Some b → ref_total h (sv_tables s) <= RefCount b) ∧
  (dk_readable (b_disk (sv_store s)) → ∀ h b, content_blobs (sv_tables s) !! h = Some b →
     ∃ d, (ReadBlob encoder b (sv_store s)).2 = Ok d ∧ Sum256 d = h ∧ zlen d = cb_Size b) ∧
  originals (sv_tables s).

Lemma svc_inv_sound debt (s : Service) : debt_le no_debt debt → svc_inv encoder debt s → sound s.
Proof.
  intros Hd [I O Hi]. split; [|split; [|done]].
  - intros h b Hb. destruct (ri_blob _ _ _ _ (si_db _ _ _ I) h b Hb) as [_ ->]. specialize (Hd h). unfold no_debt in Hd. lia.
  - intros Hr h b Hb. by eapply ReadBlob_ok.
Qed.

(** The package [id] is there, for the upload of [body]: its original is a file row of
    this package, and its blob reads back. *)
Definition holds_upload (s : Service) (id : Z) (body : bytes) : Prop :=
  ∃ p b d, tget id (packages (sv_tables s)) = Some p ∧ p_PackageHash p = Sum256 body ∧
    has_original (sv_tables s) id (Sum256 body) ∧ content_blobs (sv_tables s) !! Sum256 body = Some b ∧
    (ReadBlob encoder b (sv_store s)).2 = Ok d ∧ Sum256 d = Sum256 body.

Lemma original_upload debt (s : Service) id p body :
  svc_inv encoder debt s → dk_readable (b_disk (sv_store s)) → tget id (packages (sv_tables s)) = Some p →
  p_PackageHash p = Sum256 body → holds_upload s id body.
Proof.
  intros [I O Hi] Hr Hp Hh. pose proof (O id p Hp) as Ho. rw Hh in Ho. destruct Ho as (k & f & Hin & Hid & Hrole & Hb).
  destruct (ri_file _ _ _ _ (si_db _ _ _ I) k f Hin) as (_ & _ & [b Hs] & _). rw Hb in Hs.
  destruct (ReadBlob_ok encoder debt (sv_store s) _ b I Hr Hs) as (d & E1 & E2 & _).
  exists p, b, d. split_and!; try done. by exists k, f.
Qed.

(** C1: safety of the ingestion service.  From a sound state with exact counts,
    any sequence of uploads, background unpack jobs and recovery scans, with any
    pattern of failures of the disk, the database, the hot index and the journal,
    leads to a sound state: no reference is undercounted, every stored blob reads
    back with its hash, every package has its original; and nothing that was there
    before is lost. *)
Theorem service_safe (s : Service) os :
  (∀ e, encoder = Some e → enc_ok e) → svc_inv encoder no_debt s →
  sound (execs encoder withIndex cfg os s) ∧
  ∃ new, tables_le new (sv_tables s) (sv_tables (execs encoder withIndex cfg os s)).
Proof.
  intros He I. destruct (execs_run encoder withIndex cfg He no_debt os s I) as (d & new & Hd & R).
  split; [by eapply svc_inv_sound, R|]. exists new. apply R.
Qed.

(** C2: an acknowledged upload is not lost.  When [ProcessPackage] answers with a
    package, its files are the rows of that package and include the original; and
    after any further operations and failures this very package, a clone or not, is
    still there with its original, whose blob reads back as content with the SHA-256
    of the uploaded body. *)
Theorem upload_download debt (s s' : Service) sup body fn o os :
  (∀ e, encoder = Some e → enc_ok e) → svc_inv encoder debt s →
  ProcessPackage encoder withIndex cfg sup body fn s = (s', Ok o) →
  let s2 := execs encoder withIndex cfg os s' in dk_readable (b_disk (sv_store s2)) →
  ∃ pkg, o = Some pkg ∧ uploaded (Sum256 body) (sv_tables s') (Ok o) ∧ holds_upload s2 (p_ID pkg) body.
Proof.
  intros He I E s2 Hr. destruct (Process_run encoder withIndex cfg He debt sup body fn s s' (Ok o) I E)
    as (d & new & Hd & R & U & _).
  destruct (execs_run encoder withIndex cfg He d os s' (sr_inv _ _ _ _ _ R)) as (d2 & new2 & Hd2 & R2).
  pose proof U as (pkg & f & p & Ho & _ & _ & _ & _ & Hp & Hh & _). exists pkg. split; [done|]. split; [done|].
  destruct (tl_kept _ _ _ (run_tables _ _ _ _ _ (sr_run _ _ _ _ _ R2)) _ p Hp) as (p2 & Hp2 & E2 & _).
  eapply original_upload; [apply R2|done|done|congruence].
Qed.

(** C8: a repeated upload stores nothing.  When a package with the body's hash
    exists, uploading the body again, whatever fails, leaves the segments as they
    are and adds no blob, and the reference counts stay exact. *)
Theorem reupload_stores_nothing (s s' : Service) sup body fn r id p :
  (∀ e, encoder = Some e → enc_ok e) → svc_inv encoder no_debt s →
  (id, p) ∈ packages (sv_tables s) → p_PackageHash p = Sum256 body →
  ProcessPackage encoder withIndex cfg sup body fn s = (s', r) →
  b_disk (sv_store s') = b_disk (sv_store s) ∧
  dom (content_blobs (sv_tables s')) = dom (content_blobs (sv_tables s)) ∧
  (∀ h b, content_blobs (sv_tables s') !! h = Some b → RefCount b = ref_total h (sv_tables s')).
Proof.
  intros He I Hin Hh E. destruct (Process_run encoder withIndex cfg He no_debt sup body fn s s' r I E)
    as (d & new & _ & R & _ & _ & Hre & _). destruct Hre as (-> & D & B); [by exists id, p|]. split; [done|]. split; [done|].
  intros h b Hb. destruct (ri_blob _ _ _ _ (si_db _ _ _ (sv_ok _ _ _ (sr_inv _ _ _ _ _ R))) h b Hb) as [_ ->].
  unfold no_debt. lia.
Qed.

(** C9: reference counts are exact for XML uploads: whatever fails, each blob's
    ref_count stays the number of file rows that refer to it. *)
Theorem xml_refcounts_exact (s s' : Service) sup body fn r :
  (∀ e, encoder = Some e → enc_ok e) → svc_inv encoder no_debt s → DetectPayload body = Ok PayloadXML →
  ProcessPackage encoder withIndex cfg sup body fn s = (s', r) →
  ∀ h b, content_blobs (sv_tables s') !! h = Some b → RefCount b = ref_total h (sv_tables s').
Proof.
  intros He I Hx E. destruct (Process_run encoder withIndex cfg He no_debt sup body fn s s' r I E)
    as (d & new & _ & R & _ & Hxml & _). rw (Hxml Hx) in R.
  intros h b Hb. destruct (ri_blob _ _ _ _ (si_db _ _ _ (sv_ok _ _ _ (sr_inv _ _ _ _ _ R))) h b Hb) as [_ ->].
  unfold no_debt. lia.
Qed.
End Claims.
