(* ===== verification/IngestDemo.v ===== *)
(** * The ingestion service on concrete inputs

    Witnesses of the service's theorems, and what two of its error paths do. *)
From S2P Require Import Prelude GoLib Hash Record FS Segment SegmentDurable Metadata MetadataInv Disk Compress Dedup BlobStore Detect Journal UnpackQueue Ingest IngestInv IngestSafe.

Definition demo_times : Times := {| FormatTimeUTC _ := "2024-01-01T00:00:00Z"; parse_time _ := Ok 0 |}.
Definition demo_json : EntryJSON := Codec.json 0.

(** An archive of three members, the second of which fails its checksum. *)
Definition bad_zip : ZipLib := {| zipReader data := Ok [
  MkZipFile "a.xml" false 4 (Ok tt) (bs "<a/>") None;
  MkZipFile "b.xml" false 4 (Ok tt) (bs "<b") (Some (errorf "zip: checksum error"));
  MkZipFile "c.xml" false 4 (Ok tt) (bs "<c/>") None] |}.
#[local] Existing Instances demo_times demo_json bad_zip.

Definition demo_cfg : Config := MkConfig 1000 500 10 100 true.
Notation DemoService := (Service Disk (gmap bytes Entry) Journal).

(** A new server; the disk's calls have these outcomes. *)
Definition demo_service (faults : list fault) : DemoService :=
  let fs := sg_fs (SegmentDurable.fresh 1000) in
  MkService (MkStore (MkDisk (sg (SegmentDurable.fresh 1000)) ∅
      (MkFS (fs_dir fs) (fs_nodes fs) (fs_next fs) (fs_clock fs) faults))
    (Some (MkHot (newBloom 0) ∅)) (empty_db 0 [])) (Some Codec.opened) (Some (NewUnpackQueue 4)).

Lemma demo_service_inv : svc_inv demo_encoder no_debt (demo_service []).
Proof.
  split; [exact demo_store_inv| |done]. intros id p Hp. done.
Qed.

Definition upload (body : bytes) (s : DemoService) := ProcessPackage demo_encoder true demo_cfg 7 body None s.
Definition demo_zip_body : bytes := bs "PK34abcd".

Lemma service_safe_witness :
  let os := [Upload 7 demo_xml None; Upload 8 demo_zip_body None; Job 2; Scan] in
  sound demo_encoder (execs demo_encoder true demo_cfg os (demo_service [])) ∧
  ∃ new, tables_le new (sv_tables (demo_service [])) (sv_tables (execs demo_encoder true demo_cfg os (demo_service []))).
Proof.
  intros os. apply (service_safe demo_encoder true demo_cfg (demo_service []) os).
  - exact demo_encoder_ok.
  - exact demo_service_inv.
Defined.

Lemma demo_readable (s : DemoService) :
  readFiles (d_sm (b_disk (sv_store s))) = ∅ → fs_faults (d_fs (b_disk (sv_store s))) = [] → dk_readable (b_disk (sv_store s)).
Proof. intros Hr Hf. split; [|done]. intros id f. unfold seg_of. cbn. by rw Hr lookup_empty. Qed.

Lemma upload_download_witness :
  let res := upload demo_xml (demo_service []) in
  ∃ pkg, res.2 = Ok (Some pkg) ∧
    holds_upload demo_encoder (execs demo_encoder true demo_cfg [Upload 8 demo_zip_body None] res.1) (p_ID pkg) demo_xml.
Proof.
  intros res. destruct res as [s' [o|e]] eqn:E; [|exfalso; assert (is_ok res.2 = true) as X by (vm_compute; reflexivity); by rw E in X].
  destruct (upload_download demo_encoder true demo_cfg no_debt (demo_service []) s' 7 demo_xml None o [Upload 8 demo_zip_body None])
    as (pkg & -> & _ & Hu); [..|exists pkg; split; [done|exact Hu]].
  - exact demo_encoder_ok.
  - exact demo_service_inv.
  - exact E.
  - replace s' with res.1 by (by rw E). apply demo_readable; vm_compute; reflexivity.
Defined.

Lemma reupload_stores_nothing_witness :
  let s := (upload demo_xml (demo_service [])).1 in
  b_disk (sv_store (upload demo_xml s).1) = b_disk (sv_store s).
Proof.
  intros s. destruct (Process_run demo_encoder true demo_cfg demo_encoder_ok no_debt 7 demo_xml None (demo_service []) s
    (upload demo_xml (demo_service [])).2 demo_service_inv) as (d & new & _ & R & _ & Hx & _); [apply surjective_pairing|].
  rw (Hx eq_refl) in R. clear Hx.
  assert ((fun kp => p_PackageHash kp.2) <$> packages (sv_tables s) = [Sum256 demo_xml]) as X by (vm_compute; reflexivity).
  set (h := Sum256 demo_xml) in X. assert (∃ id p, (id, p) ∈ packages (sv_tables s) ∧ p_PackageHash p = h) as (id & p & Hin & Hp).
  { clearbody s h. destruct (packages (sv_tables s)) as [|[id p] l]; [discriminate X|].
    injection X as X _. exists id, p. split; [by left|exact X]. }
  apply (reupload_stores_nothing demo_encoder true demo_cfg s (upload demo_xml s).1 7 demo_xml None (upload demo_xml s).2 id p).
  - exact demo_encoder_ok.
  - apply R.
  - exact Hin.
  - exact Hp.
  - apply surjective_pairing.
Defined.

Lemma xml_refcounts_exact_witness :
  let s' := (upload demo_xml (demo_service [])).1 in
  size (content_blobs (sv_tables s')) = 1%nat ∧
  ∀ h b, content_blobs (sv_tables s') !! h = Some b → RefCount b = ref_total h (sv_tables s').
Proof.
  intros s'. split; [vm_compute; reflexivity|]. apply (xml_refcounts_exact demo_encoder true demo_cfg (demo_service []) s' 7 demo_xml None (upload demo_xml (demo_service [])).2).
  - exact demo_encoder_ok.
  - exact demo_service_inv.
  - reflexivity.
  - apply surjective_pairing.
Defined.

(** The unpack error of a small ZIP is not reported, in this run.  When a member cannot be
    read, the upload succeeds with an unpack_error file, but the package says
    that nothing failed, and its file_count is not the number of its files. *)
Example small_zip_error_unreported :
  ∃ pkg, (upload demo_zip_body (demo_service [])).2 = Ok (Some pkg) ∧
    UnpackError pkg = None ∧ (Role <$> Files pkg) = [RoleOriginal; RoleMember; RoleUnpackError] ∧ FileCount pkg = 4.
Proof. eexists. split; [vm_compute; reflexivity|]. done. Qed.

(** A failed index write of a member leaves a reference without a row, in this run:
    the upload is acknowledged, and the blob it stored for the member has ref_count
    1 though no file refers to it. *)
Example small_zip_leaks_reference :
  let res := upload demo_zip_body (demo_service (replicate 10 FNone ++ [FFail])) in
  is_ok res.2 = true ∧ ∃ b, content_blobs (sv_tables res.1) !! Sum256 demo_xml = Some b ∧
    RefCount b = 1 ∧ ref_total (Sum256 demo_xml) (sv_tables res.1) = 0.
Proof. split; [vm_compute; reflexivity|]. eexists. split; [vm_compute; reflexivity|]. split; vm_compute; reflexivity. Qed.

(** ** A member whose name the database refuses *)
Section LongName.
(** Text columns take at most as many characters as their limit says (a byte each,
    in this example). *)
#[local] Instance varchar : PG := {| text_ok limit s := match limit with Some n => zlen (bs s) <=? n | None => true end |}.
Definition long_name : string := str (replicate 300 x61).
#[local] Instance long_zip : ZipLib := {| zipReader data := Ok [MkZipFile long_name false 4 (Ok tt) (bs "<a/>") None] |}.

(** Every archive is a large one. *)
Definition large_cfg : Config := MkConfig 1000 0 10 100 true.
Definition pending (s : DemoService) : result (list Z) := (PendingLargePackageIDs s).2.
Definition segment_bytes (s : DemoService) : Z := activeOffset (d_sm (b_disk (sv_store s))).
Definition retry (s : DemoService) : DemoService := execs demo_encoder true large_cfg [Scan; Job 1] s.
Definition accepted : DemoService := (ProcessPackage demo_encoder true large_cfg 7 demo_zip_body None (demo_service [])).1.

(** An archive with a member name too long for its column, tried twice: the upload of
    a large one is accepted; each attempt to unpack it fails, because the refused
    row has aborted the transaction in which the unpack error is then to be
    recorded, and leaves it pending, but appends the member's content and the text
    of the error to the segment once more.  A small one is not accepted. *)
Example long_member_name_never_unpacked :
  is_ok (ProcessPackage demo_encoder true large_cfg 7 demo_zip_body None (demo_service [])).2 = true ∧
  (pending <$> [accepted; retry accepted; retry (retry accepted)]) = [Ok [1]; Ok [1]; Ok [1]] ∧
  (segment_bytes <$> [accepted; retry accepted; retry (retry accepted)]) = [20; 77; 134] ∧
  is_ok (ProcessPackage demo_encoder true demo_cfg 7 demo_zip_body None (demo_service [])).2 = false.
Proof. vm_compute. split_and!; reflexivity. Qed.
End LongName.
