(* ===== verification/Recovery.v ===== *)
(** * Rebuilding the metadata: internal/recovery/rebuild.go

    The blob table is rebuilt from the segment indexes and the packages from the
    journal, statement by statement and not in one transaction. *)
From S2P Require Import Prelude GoLib FS SegmentIndex Metadata MetadataInv Compress Journal.

(** The sidecar's directory, the data directory and the metadata store. *)
Record Rebuilder : Type := MkRebuilder { rb_root : FS; rb_data : FS; rb_db : DB }.
Definition on_root {A} (m : M FS A) : M Rebuilder A := zoom rb_root (fun fs s => MkRebuilder fs (rb_data s) (rb_db s)) m.
Definition on_data {A} (m : M FS A) : M Rebuilder A := zoom rb_data (fun fs s => MkRebuilder (rb_root s) fs (rb_db s)) m.
Definition on_meta {A} (m : M DB A) : M Rebuilder A := zoom rb_db (fun db s => MkRebuilder (rb_root s) (rb_data s) db) m.

Section Rebuild.
Context `{PG} `{Times} `{EntryJSON} `{MetaJSON}.

Definition restored_package (je : JournalEntry) (pkgHash : bytes) (receivedAt : Z) : Package :=
  MkPackage (je_PackageID je) (je_SupplierID je) receivedAt pkgHash (je_PayloadType je) (je_StorageMode je)
    (je_OriginalFilename je) (je_CanonicalPackageID je) (je_FileCount je) (je_UnpackError je) [].

Definition restore_file (packageID : Z) (f : FileRef) : M DB unit :=
  let! bh := lift_result (DecodeString (fr_BlobHash f)) in
  RestorePackageFile (MkFileRow (FileID f) packageID bh (fr_Role f) (fr_OriginalFilename f) (fr_SequenceNumber f) 0).

Definition restoreJournalEntry (je : JournalEntry) : M DB unit :=
  let id := Itoa (je_PackageID je) in
  let! pkgHash := wrap_err ("package " +:+ id +:+ " hash: ") (lift_result (DecodeString (je_PackageHash je))) in
  let! receivedAt := wrap_err ("package " +:+ id +:+ " received_at: ") (lift_result (parse_time (je_ReceivedAt je))) in
  do! RestorePackage (restored_package je pkgHash receivedAt);
  forM_ (je_Files je) (restore_file (je_PackageID je)).

Definition index_blob (segID now : Z) (e : IndexEntry) : ContentBlob :=
  MkBlob (ie_Hash e) (ie_LogicalSize e) (ie_StoredSize e) segID (ie_Offset e) 1 now.

Definition upsert_entry (apply : bool) (segID : Z) (e : IndexEntry) : M Rebuilder unit :=
  let! now := gets (fun s => db_clock (rb_db s)) in
  if apply then on_meta (UpsertContentBlob (index_blob segID now e)) else mret tt.

Definition rebuild_index (apply : bool) (path : string) : M Rebuilder unit :=
  match Sscanf_segment ".idx" path with
  | None => mret tt
  | Some segID =>
      let! entries := on_data (ReadIndexFile path) in
      forM_ entries (upsert_entry apply segID)
  end.

(** Up to the journal: the dictionary and the blob table. *)
Definition rebuild_blobs (apply : bool) : M Rebuilder unit :=
  do! (if apply then on_meta TruncateRecoveryTables else mret tt);
  let! cur := on_root LoadCurrent in
  do! (if (0 <? zlen cur.2) && apply then on_meta (SaveDictionary cur.2 0) else mret tt);
  let! idxPaths := on_data ListIndexFiles in
  forM_ idxPaths (rebuild_index apply).

Definition Rebuild (apply : bool) : M Rebuilder unit :=
  do! rebuild_blobs apply;
  let! entries := on_data (ReadJournal JournalFile) in
  do! forM_ entries (fun je => if apply then on_meta (restoreJournalEntry je) else mret tt);
  if apply then do! on_meta RecomputeRefCounts; on_meta ResetIDSequences else mret tt.
End Rebuild.

(** ** A successful rebuild restores the invariant of the tables *)

Record rebuilt (t : Tables) : Prop := {
  rt_blob : ∀ h b, content_blobs t !! h = Some b → ContentHash b = h;
  rt_file : ∀ id f, (id, f) ∈ package_files t → pf_ID f = id ∧
    is_Some (content_blobs t !! BlobHash f) ∧ is_Some (tget (PackageID f) (packages t));
  rt_pkg : ∀ id p, (id, p) ∈ packages t → p_ID p = id;
  rt_sorted : StronglySorted Z.lt (packages t).*1;
  rt_fsorted : StronglySorted Z.lt (package_files t).*1;
}.

Section Sound.
Context `{PG} `{Times} `{EntryJSON} `{MetaJSON}.

(** A statement of the shape "write" that succeeded. *)
Lemma stmt_ok {A} (m : M DB A) db db' a :
  stmt m db = (db', Ok a) → ∃ db1, same_but_faults db db1 ∧ m db1 = (db', Ok a).
Proof. intros E. by apply stmt_inv in E. Qed.

Lemma Upsert_rebuilt b db db' u :
  UpsertContentBlob b db = (db', Ok u) → rebuilt (db_tables db) → rebuilt (db_tables db') ∧
  packages (db_tables db') = packages (db_tables db) ∧ package_files (db_tables db') = package_files (db_tables db).
Proof.
  intros E [R1 R2 R3 R4 R5]. unfold UpsertContentBlob in E. apply int4_args_inv in E as [[_ E]|[_ ?]]; [|done].
  apply stmt_ok in E as (db1 & (T & _) & E). unfold upd_tables, modify in E. injection E as <- _. cbn. rw T.
  split; [|done]. split; cbn; try done.
  - intros h b' Hb. destruct (decide (h = ContentHash b)) as [->|Hne].
    + rw lookup_partial_alter_eq in Hb. injection Hb as <-.
      destruct (content_blobs (db_tables db) !! ContentHash b) as [b0|] eqn:Eb; cbn; [by apply R1|done].
    + rw lookup_partial_alter_ne // in Hb. by apply R1.
  - intros id f Hf. destruct (R2 id f Hf) as (F1 & F2 & F3). split; [done|]. split; [|done].
    destruct (decide (BlobHash f = ContentHash b)) as [->|Hne]; [by rw lookup_partial_alter_eq; eauto|by rw lookup_partial_alter_ne].
Qed.

Lemma RestorePackage_ok p db db' u :
  RestorePackage p db = (db', Ok u) → db_tables db' = set_packages (tput (p_ID p) (with_files [] p)) (db_tables db).
Proof.
  intros E. unfold RestorePackage in E. apply int4_args_inv in E as [[_ E]|[_ ?]]; [|done].
  apply stmt_ok in E as (db1 & (T & _) & E). unfold tables, upd_tables in E. munfold.
  destruct (negb _); [done|]. destruct (negb _); [done|]. injection E as <- _. cbn. by rw T.
Qed.

Lemma RestorePackageFile_ok f db db' u :
  RestorePackageFile f db = (db', Ok u) → check_file (db_tables db) f = Ok tt ∧
  db_tables db' = set_files (tput (pf_ID f) (MkFileRow (pf_ID f) (PackageID f) (BlobHash f) (Role f)
    (pf_OriginalFilename f) (SequenceNumber f) 0)) (db_tables db).
Proof.
  intros E. unfold RestorePackageFile in E. apply int4_args_inv in E as [[_ E]|[_ ?]]; [|done].
  apply stmt_ok in E as (db1 & (T & _) & E). unfold tables, upd_tables in E. munfold. rw T in E.
  destruct (check_file (db_tables db) f) as [[]|e]; [|done]. injection E as <- _. cbn. by rw T.
Qed.

Lemma restore_package_rebuilt p db db' u :
  RestorePackage p db = (db', Ok u) → rebuilt (db_tables db) → rebuilt (db_tables db').
Proof.
  intros E [R1 R2 R3 R4 R5]. apply RestorePackage_ok in E. rw E. split; cbn; try done.
  - intros id f Hf. destruct (R2 id f Hf) as (F1 & F2 & F3). split; [done|]. split; [done|by apply tget_tput_some].
  - intros id q [Hq|Hq]%in_tput; [by injection Hq as -> ->|by apply R3].
  - by apply tput_sorted.
Qed.

Lemma restore_file_rebuilt f db db' u :
  RestorePackageFile f db = (db', Ok u) → rebuilt (db_tables db) → rebuilt (db_tables db').
Proof.
  intros E [R1 R2 R3 R4 R5]. apply RestorePackageFile_ok in E as [Hc E]. apply check_file_ok in Hc as [Hp Hb].
  rw E. split; cbn; try done; [|by apply tput_sorted]. intros id g [Hg|Hg]%in_tput; [by injection Hg as -> ->|by apply R2].
Qed.

(** What every successful iteration keeps, the loop keeps. *)
Lemma forM_ok {W A} (P : W → Prop) (f : A → M W unit) xs w w' u :
  (∀ x w w' u, f x w = (w', Ok u) → P w → P w') → forM_ xs f w = (w', Ok u) → P w → P w'.
Proof.
  intros Hf. revert w; induction xs as [|x xs IH]; intros w E Hw; cbn [forM_] in E; [munfold; by injection E as <- _|].
  apply bind_inv in E as [(w1 & u1 & E1 & E)|(e & _ & ?)]; [|done]. eapply IH; [done|]. by eapply Hf.
Qed.

Lemma restore_entry_rebuilt je db db' u :
  restoreJournalEntry je db = (db', Ok u) → rebuilt (db_tables db) → rebuilt (db_tables db').
Proof.
  intros E R. unfold restoreJournalEntry in E.
  apply bind_inv in E as [(db1 & h & E1 & E)|(e & _ & ?)]; [|done]. apply wrap_err_inv in E1 as (r1 & E1 & _).
  injection E1 as <- _. apply bind_inv in E as [(db2 & t & E2 & E)|(e & _ & ?)]; [|done].
  apply wrap_err_inv in E2 as (r2 & E2 & _). injection E2 as <- _.
  apply bind_inv in E as [(db3 & u3 & E3 & E)|(e & _ & ?)]; [|done].
  eapply (forM_ok (fun db => rebuilt (db_tables db))); [|exact E|by eapply restore_package_rebuilt].
  intros f w w' u' Ef. unfold restore_file in Ef. apply bind_inv in Ef as [(db4 & bh & E4 & Ef)|(e & _ & ?)]; [|done].
  injection E4 as <- _. exact (restore_file_rebuilt _ _ _ _ Ef).
Qed.

Lemma on_meta_inv {A} (m : M DB A) s s' r :
  on_meta m s = (s', r) → ∃ db', m (rb_db s) = (db', r) ∧ s' = MkRebuilder (rb_root s) (rb_data s) db'.
Proof. unfold on_meta, zoom. destruct (m (rb_db s)). intros [= <- <-]. eauto. Qed.
Lemma on_data_inv {A} (m : M FS A) s s' r :
  on_data m s = (s', r) → ∃ fs', m (rb_data s) = (fs', r) ∧ s' = MkRebuilder (rb_root s) fs' (rb_db s).
Proof. unfold on_data, zoom. destruct (m (rb_data s)). intros [= <- <-]. eauto. Qed.
Lemma on_root_inv {A} (m : M FS A) s s' r :
  on_root m s = (s', r) → ∃ fs', m (rb_root s) = (fs', r) ∧ s' = MkRebuilder fs' (rb_data s) (rb_db s).
Proof. unfold on_root, zoom. destruct (m (rb_root s)). intros [= <- <-]. eauto. Qed.

Lemma rebuild_index_rebuilt p s s' u :
  rebuild_index true p s = (s', Ok u) → rebuilt (db_tables (rb_db s)) → rebuilt (db_tables (rb_db s')).
Proof.
  intros E R. unfold rebuild_index in E. destruct (Sscanf_segment _ _) as [seg|]; [|munfold; by injection E as <- _].
  apply bind_inv in E as [(s1 & es & E1 & E)|(e & _ & ?)]; [|done]. apply on_data_inv in E1 as (fs & _ & ->).
  eapply (forM_ok (fun s => rebuilt (db_tables (rb_db s)))); [|exact E|exact R].
  intros en w w' u' Ef Rw. unfold upsert_entry, gets in Ef. erewrite bind_ok in Ef by reflexivity.
  apply on_meta_inv in Ef as (db' & Ef & ->). by apply Upsert_rebuilt in Ef as [? _].
Qed.

Lemma recount_inv db db' u :
  RecomputeRefCounts db = (db', Ok u) → rebuilt (db_tables db) → rebuilt (db_tables db') ∧
  packages (db_tables db') = packages (db_tables db) ∧ package_files (db_tables db') = package_files (db_tables db) ∧
  ∀ h b, content_blobs (db_tables db') !! h = Some b → RefCount b = ref_total h (db_tables db').
Proof.
  intros E [R1 R2 R3 R4 R5]. unfold RecomputeRefCounts in E. apply stmt_ok in E as (db1 & (T & _) & E).
  unfold upd_tables, modify in E. injection E as <- _. cbn. rw T.
  split; [|split; [done|split; [done|]]].
  - split; cbn; try done.
    + intros h b. rw map_lookup_imap. intros (b0 & Hb0 & [= <-])%bind_Some. cbn. by apply R1.
    + intros id f Hf. destruct (R2 id f Hf) as (F1 & [b Hb] & F3). split; [done|]. split; [|done].
      rw map_lookup_imap Hb. cbn. eauto.
  - intros h b. rw map_lookup_imap. by intros (b0 & Hb0 & [= <-])%bind_Some.
Qed.

Lemma recount_seqs db db' u : ResetIDSequences db = (db', Ok u) →
  db_tables db' = db_tables db ∧ packages_seq db' = default 1 (tmax (packages (db_tables db))) + 1 ∧
  files_seq db' = default 1 (tmax (package_files (db_tables db))) + 1.
Proof.
  intros E. unfold ResetIDSequences in E. apply bind_inv in E as [(db1 & u1 & E1 & E)|(e & _ & ?)]; [|done].
  apply stmt_ok in E1 as (db2 & (T2 & _) & E1). unfold modify in E1. injection E1 as <- _.
  apply stmt_ok in E as (db3 & (T3 & P3 & _) & E). unfold modify in E. injection E as <- _. cbn in *. by rw T3 P3 T2.
Qed.

Lemma forM_on_meta {A} (f : A → M DB unit) xs s s' u :
  forM_ xs (fun x => on_meta (f x)) s = (s', Ok u) → forM_ xs f (rb_db s) = (rb_db s', Ok tt).
Proof.
  revert s; induction xs as [|x xs IH]; intros s E; cbn [forM_] in *; [munfold; by injection E as <- _|].
  apply bind_inv in E as [(s1 & u1 & E1 & E)|(e & _ & ?)]; [|done]. apply on_meta_inv in E1 as (db & E1 & ->).
  erewrite bind_ok by exact E1. by apply IH in E.
Qed.

(** Reading, when nothing fails, leaves the directory as it was. *)
Lemma read_file_same p fs fs' r : fs_faults fs = [] → os.ReadFile p fs = (fs', r) → fs' = fs.
Proof.
  intros Hf E. unfold os.ReadFile in E. rw guarded_none // in E. by repeat case_match; simplify_eq.
Qed.

Lemma read_index_same p fs fs' r : fs_faults fs = [] → ReadIndexFile p fs = (fs', r) → fs' = fs.
Proof.
  intros Hf E. unfold ReadIndexFile in E. apply bind_inv in E as [(fs1 & a & E1 & E)|(e & E1 & ->)];
    apply try_inv in E1 as (r1 & E1 & E2); apply read_file_same in E1; try done; subst.
  injection E2 as ->. destruct r1 as [d|e]; [|destruct (error_is _ _)]; munfold; by injection E as <- _.
Qed.

Definition no_packages (s : Rebuilder) : Prop :=
  packages (db_tables (rb_db s)) = [] ∧ package_files (db_tables (rb_db s)) = [].

Lemma forM_keeps {W A} (P : W → Prop) (f : A → M W unit) xs w w' r :
  (∀ x w w' r, f x w = (w', r) → P w → P w') → forM_ xs f w = (w', r) → P w → P w'.
Proof.
  intros Hf. revert w; induction xs as [|x xs IH]; intros w E Hw; cbn [forM_] in E; [munfold; by injection E as <- _|].
  apply bind_inv in E as [(w1 & u1 & E1 & E)|(e & E1 & ->)]; [eapply IH; [done|]; by eapply Hf|by eapply Hf].
Qed.

(** A write that leaves packages and files alone. *)
Lemma stmt_write_keeps g db db' (r : result unit) :
  (∀ t, packages (g t) = packages t ∧ package_files (g t) = package_files t) → stmt (upd_tables g) db = (db', r) →
  packages (db_tables db') = packages (db_tables db) ∧ package_files (db_tables db') = package_files (db_tables db).
Proof.
  intros Hg E. apply stmt_inv in E. unfold upd_tables, modify in E. destruct r as [u|e].
  - destruct E as (db1 & (T & _) & E). injection E as <- _. cbn. destruct (Hg (db_tables db1)) as [-> ->]. by rw T.
  - destruct E as [(T & _)|(db1 & db2 & _ & E & _)]; [by rw T|done].
Qed.

(** Steps that only read the directory and bring no package back. *)
Definition calm (s s' : Rebuilder) : Prop :=
  (fs_faults (rb_data s) = [] → rb_data s' = rb_data s) ∧ (no_packages s → no_packages s').

Lemma calm_trans s1 s2 s3 : calm s1 s2 → calm s2 s3 → calm s1 s3.
Proof. intros [A1 A2] [B1 B2]. split; [|auto]. intros Hf. specialize (A1 Hf). rw B1; [by rw A1|done]. Qed.

Lemma calm_write g s s' (r : result unit) :
  (∀ t, packages (g t) = packages t ∧ package_files (g t) = package_files t) →
  on_meta (stmt (upd_tables g)) s = (s', r) → calm s s'.
Proof.
  intros Hg E. apply on_meta_inv in E as (db & E & ->). apply (stmt_write_keeps g) in E as [P F]; [|done].
  split; [done|]. unfold no_packages. cbn. by rw P F.
Qed.

Lemma calm_int4 zs g s s' (r : result unit) :
  (∀ t, packages (g t) = packages t ∧ package_files (g t) = package_files t) →
  on_meta (int4_args zs (stmt (upd_tables g))) s = (s', r) → calm s s'.
Proof.
  unfold int4_args. destruct (forallb int4 zs); [apply calm_write|]. intros _ E.
  apply on_meta_inv in E as (db & E & ->). by injection E as <- _.
Qed.

Lemma calm_index p s s' r : rebuild_index true p s = (s', r) → calm s s'.
Proof.
  intros E. unfold rebuild_index in E. destruct (Sscanf_segment _ _) as [seg|]; [|munfold; by injection E as <- _].
  apply bind_inv in E as [(s1 & es & E1 & E)|(e & E1 & ->)]; apply on_data_inv in E1 as (fs & E1 & ->).
  - apply (calm_trans _ (MkRebuilder (rb_root s) fs (rb_db s))); [split; [intros Hf; by apply read_index_same in E1|done]|].
    eapply (forM_keeps (calm _)); [|exact E|done].
    intros en w w' u' Ex Cw. eapply calm_trans; [exact Cw|]. unfold upsert_entry, gets in Ex.
    erewrite bind_ok in Ex by reflexivity. unfold UpsertContentBlob in Ex. eapply calm_int4; [|exact Ex]. done.
  - split; [intros Hf; by apply read_index_same in E1|done].
Qed.

(** The first part: the directory is only read, a success leaves sound tables, and
    once the truncation went through there is no package left. *)
Lemma rebuild_blobs_spec s s' r :
  rebuild_blobs true s = (s', r) →
  (fs_faults (rb_data s) = [] → rb_data s' = rb_data s) ∧
  (is_ok r = true → rebuilt (db_tables (rb_db s'))) ∧
  (db_faults (rb_db s) = [] → aborted (rb_db s) = false → no_packages s').
Proof.
  intros E. unfold rebuild_blobs in E.
  apply bind_inv in E as [(s1 & u1 & E1 & E)|(e & E1 & ->)]; apply on_meta_inv in E1 as (db1 & E1 & ->);
    unfold TruncateRecoveryTables in E1; last first.
  { split; [done|]. split; [done|]. intros Hd Ha. exfalso. unfold stmt in E1. rw Ha Hd in E1. unfold upd_tables in E1. by munfold. }
  apply stmt_ok in E1 as (db0 & _ & E1). unfold upd_tables, modify, mbind, M_bind in E1. injection E1 as <- _.
  set (s1 := MkRebuilder _ _ _) in E.
  assert (rebuilt (db_tables (rb_db s1))) as R1.
  { split; cbn; try (intros * ?%not_elem_of_nil; done); [by intros h b; rw lookup_empty|constructor..]. }
  assert (no_packages s1) as N1 by done. assert (rb_data s1 = rb_data s) as D1 by done. clearbody s1.
  enough (calm s1 s' ∧ (is_ok r = true → rebuilt (db_tables (rb_db s')))) as [[C1 C2] R].
  { rw -D1. split; [exact C1|]. split; [exact R|]. intros _ _. by apply C2. }
  apply bind_inv in E as [(s2 & cur & E2 & E)|(e & E2 & ->)]; apply on_root_inv in E2 as (fs2 & _ & ->); [|done].
  set (s2 := MkRebuilder _ _ _) in E. assert (calm s1 s2) as C2 by done. assert (rebuilt (db_tables (rb_db s2))) as R2 by done.
  apply bind_inv in E as [(s3 & u3 & E3 & E)|(e & E3 & ->)].
  2:{ split; [|done]. eapply calm_trans; [exact C2|]. destruct (_ && true); [|munfold; by injection E3]. unfold SaveDictionary in E3.
      by eapply calm_int4; [|exact E3]. }
  assert (calm s2 s3 ∧ rebuilt (db_tables (rb_db s3))) as [C3 R3].
  { destruct ((0 <? zlen cur.2) && true); [|munfold; injection E3 as <- _; by split].
    unfold SaveDictionary in E3. split; [by eapply calm_int4; [|exact E3]|]. apply on_meta_inv in E3 as (db3 & E3 & ->).
    apply int4_args_inv in E3 as [[_ E3]|[_ ?]]; [|done]. apply stmt_ok in E3 as (dbx & (T & _) & E3).
    unfold upd_tables, modify in E3. injection E3 as <- _. cbn [rb_db set_tables db_tables]. rw T. by destruct R2. }
  pose proof (calm_trans _ _ _ C2 C3) as C13. clear E3 C2 C3 R2.
  assert (∀ fs4 r4, ListIndexFiles (rb_data s3) = (fs4, r4) → fs_faults (rb_data s3) = [] → fs4 = rb_data s3) as Hlist.
  { intros fs4 r4 E4 Hf. unfold ListIndexFiles, os.ReadDir in E4.
    apply bind_inv in E4 as [(f1 & l & E5 & E4)|(e & E5 & ->)]; rw guarded_none // in E5; munfold; try done; injection E5 as <- _.
    by injection E4 as <- _. }
  apply bind_inv in E as [(s4 & paths & E4 & E)|(e & E4 & ->)]; apply on_data_inv in E4 as (fs4 & E4 & ->).
  2:{ split; [|done]. eapply calm_trans; [exact C13|]. split; [by eauto|done]. }
  split.
  - eapply calm_trans; [exact C13|].
    apply (calm_trans _ (MkRebuilder (rb_root s3) fs4 (rb_db s3))); [split; [by eauto|done]|].
    eapply (forM_keeps (calm _)); [|exact E|done]. intros p w w' r' Ep Cw. eapply calm_trans; [exact Cw|]. by eapply calm_index.
  - intros Hok. destruct r as [u|e]; [|done].
    eapply (forM_ok (fun s => rebuilt (db_tables (rb_db s)))); [apply rebuild_index_rebuilt|exact E|exact R3].
Qed.

(** The parts of a successful rebuild. *)
Lemma Rebuild_parts s s' u :
  Rebuild true s = (s', Ok u) →
  ∃ s1 fs entries db2 db3, rebuilt (db_tables (rb_db s1)) ∧ (fs_faults (rb_data s) = [] → rb_data s1 = rb_data s) ∧
    ReadJournal JournalFile (rb_data s1) = (fs, Ok entries) ∧
    forM_ entries restoreJournalEntry (rb_db s1) = (db2, Ok tt) ∧
    RecomputeRefCounts db2 = (db3, Ok tt) ∧ ResetIDSequences db3 = (rb_db s', Ok tt).
Proof.
  intros E. unfold Rebuild in E.
  apply bind_inv in E as [(s5 & u5 & E5 & E)|(e & _ & ?)]; [|done]. apply rebuild_blobs_spec in E5 as (D5 & R5 & _).
  apply bind_inv in E as [(s6 & entries & E6 & E)|(e & _ & ?)]; [|done]. apply on_data_inv in E6 as (fs6 & E6 & ->).
  apply bind_inv in E as [(s7 & u7 & E7 & E)|(e & _ & ?)]; [|done]. apply forM_on_meta in E7. cbn [rb_db] in E7.
  apply bind_inv in E as [(s8 & u8 & E8 & E)|(e & _ & ?)]; [|done]. apply on_meta_inv in E8 as (db8 & E8 & ->).
  apply on_meta_inv in E as (db9 & E & ->). destruct u8, u.
  exists s5, fs6, entries, (rb_db s7), db8. split_and!; try done. by apply R5.
Qed.

(** A successful rebuild yields sound tables, whatever was in the database:
    every ref_count is the number of file rows that refer to the blob, every file
    row has its package and its blob, and the id sequences are past every id. *)
Theorem rebuild_sound s s' :
  Rebuild true s = (s', Ok tt) →
  db_inv (db_tables (rb_db s')) (packages_seq (rb_db s')) (files_seq (rb_db s')) no_debt.
Proof.
  intros E. apply Rebuild_parts in E as (s1 & fs & entries & db2 & db3 & R1 & _ & _ & E2 & E3 & E4).
  assert (rebuilt (db_tables db2)) as R2 by
    (eapply (forM_ok (fun db => rebuilt (db_tables db))); [apply restore_entry_rebuilt|exact E2|exact R1]).
  destruct (recount_inv _ _ _ E3 R2) as ([R3 R4 R5 R6 R7] & P3 & F3 & Hc).
  destruct (recount_seqs _ _ _ E4) as (T4 & P4 & F4). rw T4 P4 F4.
  assert (∀ h, ref_total h (db_tables db3) = ref_total h (db_tables db3) + no_debt h) as Hz by (intros; unfold no_debt; lia).
  split.
  - intros h b Hb. split; [by apply R3|]. rw -Hz. by apply Hc.
  - done.
  - intros id f Hf. destruct (R4 id f Hf) as (A1 & A2 & A3). split_and!; try done. apply (tmax_le 1) in Hf. lia.
  - intros id p Hp. split; [by apply R5|]. apply (tmax_le 1) in Hp. lia.
  - by apply sorted_nodup.
  - by apply sorted_nodup.
Qed.

(** ** What is restored *)

Lemma forM_app {W A} (f : A → M W unit) l1 l2 w w' u :
  forM_ (l1 ++ l2) f w = (w', Ok u) → ∃ w1, forM_ l1 f w = (w1, Ok tt) ∧ forM_ l2 f w1 = (w', Ok u).
Proof.
  revert w; induction l1 as [|x l1 IH]; intros w E; [by exists w|]. cbn [forM_ app] in *.
  apply bind_inv in E as [(w1 & u1 & E1 & E)|(e & _ & ?)]; [|done]. apply IH in E as (w2 & E2 & E).
  exists w2. split; [|done]. by rw (bind_ok _ _ _ _ _ E1).
Qed.

Definition restored_row (packageID : Z) (f : FileRef) (bh : bytes) : PackageFile :=
  MkFileRow (FileID f) packageID bh (fr_Role f) (fr_OriginalFilename f) (fr_SequenceNumber f) 0.

Lemma restore_files_rows pid fs db db' u :
  forM_ fs (restore_file pid) db = (db', Ok u) →
  packages (db_tables db') = packages (db_tables db) ∧
  (∀ id, id ∉ FileID <$> fs → tget id (package_files (db_tables db')) = tget id (package_files (db_tables db))) ∧
  (NoDup (FileID <$> fs) → ∀ f, f ∈ fs → ∃ bh, DecodeString (fr_BlobHash f) = Ok bh ∧
     tget (FileID f) (package_files (db_tables db')) = Some (restored_row pid f bh)).
Proof.
  revert db; induction fs as [|f fs IH]; intros db E; cbn [forM_] in E.
  { munfold. injection E as <- _. split; [done|]. split; [done|]. by intros _ f ?%not_elem_of_nil. }
  apply bind_inv in E as [(db1 & u1 & E1 & E)|(e & _ & ?)]; [|done]. unfold restore_file in E1.
  apply bind_inv in E1 as [(db0 & bh & E0 & E1)|(e & _ & ?)]; [|done]. injection E0 as <- Hbh.
  apply RestorePackageFile_ok in E1 as [_ T1]. cbn [pf_ID PackageID BlobHash Role pf_OriginalFilename SequenceNumber] in T1.
  destruct (IH _ E) as (P & K & N). rw T1 in P, K. cbn in P, K. split; [done|]. split.
  - intros id [Hne Hid]%not_elem_of_cons. by rw K // tget_tput_ne.
  - intros [Hnf Hnd]%NoDup_cons g [->|Hg]%elem_of_cons; [|by apply N].
    exists bh. split; [done|]. by rw K // tget_tput_eq.
Qed.

Lemma restore_entry_rows je db db' u :
  restoreJournalEntry je db = (db', Ok u) →
  (∀ h t, DecodeString (je_PackageHash je) = Ok h → parse_time (je_ReceivedAt je) = Ok t →
     packages (db_tables db') = tput (je_PackageID je) (restored_package je h t) (packages (db_tables db))) ∧
  (∀ id, id ≠ je_PackageID je → tget id (packages (db_tables db')) = tget id (packages (db_tables db))) ∧
  (∀ id, id ∉ FileID <$> je_Files je → tget id (package_files (db_tables db')) = tget id (package_files (db_tables db))) ∧
  (NoDup (FileID <$> je_Files je) → ∀ f, f ∈ je_Files je → ∃ bh, DecodeString (fr_BlobHash f) = Ok bh ∧
     tget (FileID f) (package_files (db_tables db')) = Some (restored_row (je_PackageID je) f bh)).
Proof.
  intros E. unfold restoreJournalEntry in E.
  apply bind_inv in E as [(db1 & h & E1 & E)|(e & _ & ?)]; [|done]. apply wrap_err_inv in E1 as ([h'|e1] & E1 & E1'); [|done].
  injection E1 as <- E1. injection E1' as ->. apply bind_inv in E as [(db2 & t & E2 & E)|(e & _ & ?)]; [|done].
  apply wrap_err_inv in E2 as ([t'|e2] & E2 & E2'); [|done]. injection E2 as <- E2. injection E2' as ->.
  apply bind_inv in E as [(db3 & u3 & E3 & E)|(e & _ & ?)]; [|done]. apply RestorePackage_ok in E3.
  apply restore_files_rows in E as (P & K & N). rw E3 in P, K. cbn in P, K.
  split; [|split; [|by split]].
  - intros h0 t0 Hh Ht. rw E1 in Hh. rw E2 in Ht. injection Hh as <-. injection Ht as <-. exact P.
  - intros id Hne. by rw P tget_tput_ne.
Qed.

Definition row_of (pkg : Package) (f : PackageFile) : PackageFile :=
  MkFileRow (pf_ID f) (p_ID pkg) (BlobHash f) (Role f) (pf_OriginalFilename f) (SequenceNumber f) 0.

(** The tables hold a package as it was journaled. *)
Definition has_package (t : Tables) (pkg : Package) : Prop :=
  tget (p_ID pkg) (packages t) = Some (with_files [] pkg) ∧
  ∀ f, f ∈ Files pkg → tget (pf_ID f) (package_files t) = Some (row_of pkg f).

Lemma restore_entry_package `{!TimesLaws} pkg db db' u :
  NoDup (pf_ID <$> Files pkg) → restoreJournalEntry (versioned (EntryFromPackage pkg)) db = (db', Ok u) →
  has_package (db_tables db') pkg.
Proof.
  intros Hnd E. apply restore_entry_rows in E as (P & _ & _ & N). cbn in P, N.
  specialize (P (p_PackageHash pkg) (ReceivedAt pkg)). rw DecodeString_EncodeToString time_round_trip in P.
  split.
  - rw P // tget_tput_eq. by destruct pkg.
  - intros f Hf. rw -list_fmap_compose in N.
    destruct (N Hnd (MkFileRef (pf_ID f) (EncodeToString (BlobHash f)) (Role f) (pf_OriginalFilename f) (SequenceNumber f)))
      as (bh & Hbh & Hget); [apply list_elem_of_fmap; by exists f|].
    cbn in Hbh, Hget. rw DecodeString_EncodeToString in Hbh. by injection Hbh as <-.
Qed.

(** Entries that do not mention the package or its files. *)
Definition unrelated (pkg : Package) (je : JournalEntry) : Prop :=
  je_PackageID je ≠ p_ID pkg ∧ ∀ f, f ∈ Files pkg → pf_ID f ∉ FileID <$> je_Files je.

Lemma has_package_kept pkg jes db db' u :
  Forall (unrelated pkg) jes → forM_ jes restoreJournalEntry db = (db', Ok u) →
  has_package (db_tables db) pkg → has_package (db_tables db') pkg.
Proof.
  intros Hu. revert db; induction Hu as [|je jes [U1 U2] Hu IH]; intros db E [A1 A2]; cbn [forM_] in E;
    [munfold; by injection E as <- _|].
  apply bind_inv in E as [(db1 & u1 & E1 & E)|(e & _ & ?)]; [|done].
  apply restore_entry_rows in E1 as (_ & P & F & _). eapply IH; [exact E|]. split.
  - rw P; [congruence|done].
  - intros f Hf. rw F; [by apply U2|by apply A2].
Qed.
End Sound.

(** C16: rebuilding restores what was journaled.  When the data directory's journal
    holds the entry of a package, followed by entries of other packages only, a
    successful rebuild puts back the package's row and the rows of all its files
    exactly as they were, whatever the database held before. *)
Theorem rebuild_restores `{PG, TimesLaws, EntryJSONLaws, MetaJSON} s s' ino pkgs1 pkg pkgs2 :
  file_is (rb_data s) JournalFile ino (journal_file (EntryFromPackage <$> pkgs1 ++ pkg :: pkgs2)) →
  Forall short (EntryFromPackage <$> pkgs1 ++ pkg :: pkgs2) →
  NoDup (pf_ID <$> Files pkg) → Forall (unrelated pkg) (EntryFromPackage <$> pkgs2) →
  Rebuild true s = (s', Ok tt) → has_package (db_tables (rb_db s')) pkg.
Proof.
  intros Hf Hs Hnd Hu E. apply Rebuild_parts in E as (s1 & fs & entries & db2 & db3 & R1 & D1 & Ej & E2 & E3 & E4).
  specialize (D1 (fi_faults _ _ _ _ Hf)). rw D1 in Ej.
  assert (rebuilt (db_tables db2)) as R2 by
    (eapply (forM_ok (fun db => rebuilt (db_tables db))); [apply restore_entry_rebuilt|exact E2|exact R1]).
  assert (entries = versioned <$> (EntryFromPackage <$> pkgs1 ++ pkg :: pkgs2)) as ->.
  { pose proof (ReadJournal_file _ _ _ Hf Hs) as X. rw Ej in X. by injection X as ->. }
  rw !fmap_app !fmap_cons in E2. apply forM_app in E2 as (db1 & E1 & E2). cbn [forM_] in E2.
  apply bind_inv in E2 as [(dbp & u & Ep & E2)|(e & _ & ?)]; [|done].
  apply restore_entry_package in Ep; [|done]. apply (has_package_kept pkg) in E2; [| |done].
  - destruct E2 as [A1 A2]. destruct (recount_seqs _ _ _ E4) as (T4 & _ & _).
    destruct (recount_inv _ _ _ E3 R2) as (_ & P3 & F3 & _). rw T4. unfold has_package. by rw P3 F3.
  - rw !Forall_fmap in Hu |- *. eapply Forall_impl; [exact Hu|]. intros q [U1 U2]. by split.
Qed.


(** A rebuild is not atomic.  When the journal cannot be read (an over-long or
    glued line), a rebuild fails only after it has truncated the tables: it
    leaves no package and no file in the database, whatever was there before. *)
Theorem rebuild_unreadable_journal `{PG, Times, EntryJSON, MetaJSON} s s' r e :
  fs_faults (rb_data s) = [] → db_faults (rb_db s) = [] → aborted (rb_db s) = false →
  (ReadJournal JournalFile (rb_data s)).2 = Err e → Rebuild true s = (s', r) →
  is_ok r = false ∧ no_packages s'.
Proof.
  intros Hf Hd Ha Hj E. unfold Rebuild in E.
  apply bind_inv in E as [(s1 & u1 & E1 & E)|(er & E1 & ->)];
    apply rebuild_blobs_spec in E1 as (D1 & _ & N1); specialize (N1 Hd Ha); [|done].
  apply bind_inv in E as [(s2 & es & E2 & E)|(er & E2 & ->)]; apply on_data_inv in E2 as (fs & E2 & ->); [|done].
  rw (D1 Hf) in E2. by rw E2 in Hj.
Qed.

(** ** A concrete rebuild: one blob, one package *)
Module Demo.
Definition times : Times := {|
  FormatTimeUTC t := str (Codec.bits (encode t));
  parse_time s := match Codec.unbits (bs s) ≫= decode (A := Z) with Some t => Ok t | None => Err (errorf "parsing time") end;
|}.
Lemma times_laws : TimesLaws (H := times).
Proof. split. intros t. unfold parse_time, FormatTimeUTC, times. rw bs_str Codec.unbits_bits. cbn [mbind option_bind]. by rw decode_encode. Qed.
Definition json : EntryJSON := Codec.json 0.
Definition meta_json : MetaJSON := {| marshal_meta _ := []; unmarshal_meta _ := Err (errorf "unexpected end of JSON input") |}.
Definition any_text : PG := {| text_ok _ _ := true |}.
#[local] Existing Instances times json meta_json any_text.

Definition hash : bytes := replicate 32 x2a.
Definition pkg : Package := MkPackage 3 7 1000 hash "xml" "single" (Some "a.xml") None 1 None
  [MkFileRow 5 3 hash "original" (Some "a.xml") None 4].
Definition data_dir (journal : bytes) : FS :=
  (os.WriteFile JournalFile journal
    (si_fs (Append 0 (MkIndexEntry 0 20 4 1 hash 7 0) (NewSegmentIndex (empty_fs []))).1)).1.
Definition start (journal : bytes) : Rebuilder := MkRebuilder (empty_fs []) (data_dir journal) (empty_db 0 []).
Definition journal : bytes := journal_file (EntryFromPackage <$> [pkg]).
End Demo.

Lemma rebuild_sound_witness :
  let _ := Demo.times in let _ := Demo.json in let _ := Demo.meta_json in let _ := Demo.any_text in
  let s' := (Rebuild true (Demo.start Demo.journal)).1 in
  size (content_blobs (db_tables (rb_db s'))) = 1%nat ∧
  db_inv (db_tables (rb_db s')) (packages_seq (rb_db s')) (files_seq (rb_db s')) no_debt.
Proof.
  intros T J Mj P s'. split; [vm_compute; reflexivity|]. apply (rebuild_sound (Demo.start Demo.journal)).
  unfold s'. assert ((Rebuild true (Demo.start Demo.journal)).2 = Ok tt) as E by (vm_compute; reflexivity).
  rw -E. apply surjective_pairing.
Defined.

Lemma rebuild_restores_witness :
  let _ := Demo.times in let _ := Demo.json in let _ := Demo.meta_json in let _ := Demo.any_text in
  has_package (db_tables (rb_db (Rebuild true (Demo.start Demo.journal)).1)) Demo.pkg.
Proof.
  intros T J Mj P. pose proof Demo.times_laws as TL. pose proof (Codec.json_laws 0) as JL.
  assert ((Rebuild true (Demo.start Demo.journal)).2 = Ok tt) as E by (vm_compute; reflexivity).
  apply (rebuild_restores (Demo.start Demo.journal) _ 2 [] Demo.pkg []).
  - split; [vm_compute; reflexivity..|]. eexists. split; vm_compute; reflexivity.
  - repeat constructor; vm_compute; reflexivity.
  - apply NoDup_singleton.
  - constructor.
  - rw -E. apply surjective_pairing.
Defined.

Lemma rebuild_unreadable_journal_witness :
  let _ := Demo.times in let _ := Demo.json in let _ := Demo.meta_json in let _ := Demo.any_text in
  let j := [x41; newline; x42; newline] in
  let res := Rebuild true (Demo.start j) in
  is_ok res.2 = false ∧ no_packages res.1.
Proof.
  intros T J Mj P j res.
  apply (rebuild_unreadable_journal (Demo.start j) res.1 res.2 (wrapf "parse journal line: " (errorf "invalid character"))).
  - vm_compute. reflexivity.
  - reflexivity.
  - reflexivity.
  - vm_compute. reflexivity.
  - apply surjective_pairing.
Defined.
