(* ===== verification/Metrics.v ===== *)
(** * Metrics: internal/metrics (coordinator.go, shard.go, compression.go, refresh.go)

    The gauges the dashboards read.  A gauge with labels is a finite map from its
    label values to a float64; floats are IEEE 754 binary64 as [SpecFloat] defines
    them.  The reports of a shard's availability also run concurrently: [ustep] has
    their critical section and the write after it as separate steps. *)
From Stdlib Require Import Floats.SpecFloat.
From S2P Require Import Prelude GoLib Metadata.

(** ** float64 *)
Abbreviation float := spec_float.
Definition float_of_int (z : Z) : float := binary_normalize 53 1024 z 0 false.
Definition fdiv (x y : float) : float := SFdiv 53 1024 x y.
Definition fsub (x y : float) : float := SFsub 53 1024 x y.
Definition fmul (x y : float) : float := SFmul 53 1024 x y.

(** ** Labelled gauges *)
Abbreviation GaugeVec := (gmap (string * string) float).
Abbreviation CounterVec := (gmap (string * string) Z).

(** ** The coordinator's gauges *)
Record ShardSnapshot : Set := MkSnapshot { sn_ShardID : Z; sn_State : string; sn_TotalBytes : Z }.
#[export] Instance snapshot_eq_dec : EqDecision ShardSnapshot.
Proof. solve_decision. Defined.

Record CoordMetrics : Type := MkCoordMetrics {
  CoordinatorShardInfo : GaugeVec;                   (** labels shard_id, state *)
  CoordinatorShardBytes : GaugeVec;
  CoordinatorActiveShard : float;
  CoordinatorShardMaxBytes : float;
  CoordinatorShardBarBytes : GaugeVec;
  CoordinatorShardUp : GaugeVec;
  CoordinatorShardFailures : CounterVec;             (** labels shard_id, op *)
  coordinatorShardUpByShard : gmap string string;    (** under its mutex *)
}.
Definition coordinator_init : CoordMetrics :=
  MkCoordMetrics ∅ ∅ (float_of_int 0) (float_of_int 0) ∅ ∅ ∅ ∅.

Definition set_shards (info byts bar : GaugeVec) (active : float) (m : CoordMetrics) : CoordMetrics :=
  MkCoordMetrics info byts active (CoordinatorShardMaxBytes m) bar (CoordinatorShardUp m)
    (CoordinatorShardFailures m) (coordinatorShardUpByShard m).
Definition set_max (v : float) (m : CoordMetrics) : CoordMetrics :=
  MkCoordMetrics (CoordinatorShardInfo m) (CoordinatorShardBytes m) (CoordinatorActiveShard m) v
    (CoordinatorShardBarBytes m) (CoordinatorShardUp m) (CoordinatorShardFailures m) (coordinatorShardUpByShard m).
Definition set_up (up : GaugeVec) (by_shard : gmap string string) (m : CoordMetrics) : CoordMetrics :=
  MkCoordMetrics (CoordinatorShardInfo m) (CoordinatorShardBytes m) (CoordinatorActiveShard m) (CoordinatorShardMaxBytes m)
    (CoordinatorShardBarBytes m) up (CoordinatorShardFailures m) by_shard.
Definition set_failures (f : CounterVec) (m : CoordMetrics) : CoordMetrics :=
  MkCoordMetrics (CoordinatorShardInfo m) (CoordinatorShardBytes m) (CoordinatorActiveShard m) (CoordinatorShardMaxBytes m)
    (CoordinatorShardBarBytes m) (CoordinatorShardUp m) f (coordinatorShardUpByShard m).

(** [SetCoordinatorShardUp]: the part under the mutex, then the write of the gauge. *)
Definition up_lock (shardID state : string) (m : CoordMetrics) : CoordMetrics :=
  let by_shard := coordinatorShardUpByShard m in
  let up :=
    match by_shard !! shardID with
    | Some prevState => if (prevState =? state)%string then CoordinatorShardUp m else delete (shardID, prevState) (CoordinatorShardUp m)
    | None => CoordinatorShardUp m
    end in
  set_up up (<[shardID := state]> by_shard) m.
Definition up_value (up : bool) : float := if up then float_of_int 1 else float_of_int 0.
Definition up_write (shardID state : string) (up : bool) (m : CoordMetrics) : CoordMetrics :=
  set_up (<[(shardID, state) := up_value up]> (CoordinatorShardUp m)) (coordinatorShardUpByShard m) m.
Definition SetCoordinatorShardUp (shardID state : string) (up : bool) (m : CoordMetrics) : CoordMetrics :=
  up_write shardID state up (up_lock shardID state m).

Definition IncCoordinatorShardFailures (shardID op : string) (m : CoordMetrics) : CoordMetrics :=
  set_failures (<[(shardID, op) := default 0 (CoordinatorShardFailures m !! (shardID, op)) + 1]> (CoordinatorShardFailures m)) m.

Definition prune_one (seen : gset string) (m : CoordMetrics) (e : string * string) : CoordMetrics :=
  if bool_decide (e.1 ∈ seen) then m else
  set_up (delete e (CoordinatorShardUp m)) (delete e.1 (coordinatorShardUpByShard m)) m.
Definition pruneCoordinatorShardUp (seen : gset string) (m : CoordMetrics) : CoordMetrics :=
  fold_left (prune_one seen) (map_to_list (coordinatorShardUpByShard m)) m.

(** [sort.Slice] by id. *)
Definition snap_le (s s' : ShardSnapshot) : Prop := sn_ShardID s <= sn_ShardID s'.
#[export] Instance snap_le_dec : RelDecision snap_le.
Proof. intros s s'. unfold snap_le. apply _. Defined.
Definition recentShardWindow (shards : list ShardSnapshot) (limit : Z) : list ShardSnapshot :=
  if (zlen shards =? 0) || (limit <=? 0) then [] else
  let sorted := merge_sort snap_le shards in
  if zlen sorted <=? limit then sorted else drop (Z.to_nat (zlen sorted - limit)) sorted.

(** The label values of a shard's series. *)
Definition series (s : ShardSnapshot) : string * string := (Itoa (sn_ShardID s), sn_State s).
Definition report_shard (acc : GaugeVec * GaugeVec * float * gset string) (s : ShardSnapshot) : GaugeVec * GaugeVec * float * gset string :=
  let '(info, byts, activeID, seen) := acc in
  (<[series s := float_of_int 1]> info, <[series s := float_of_int (sn_TotalBytes s)]> byts,
   if (sn_State s =? "active")%string then float_of_int (sn_ShardID s) else activeID, {[Itoa (sn_ShardID s)]} ∪ seen).
Definition SetCoordinatorShards (shards : list ShardSnapshot) (maxBytes : Z) (m : CoordMetrics) : CoordMetrics :=
  let '(info, byts, activeID, seen) :=
    fold_left report_shard shards (∅, ∅, float_of_int (-1), ∅) in
  let bar := fold_left (fun bar s => <[series s := float_of_int (sn_TotalBytes s)]> bar) (recentShardWindow shards 4) ∅ in
  set_max (float_of_int maxBytes) (pruneCoordinatorShardUp seen (set_shards info byts bar activeID m)).

(** [RunCoordinatorRefresh] over a [RegistryReader]: one refresh when it starts and
    one per tick of its timer; a failed read leaves the gauges as they are.  The
    gauges are a part of the process's state. *)
Section CoordRefresh.
Context {W : Type} (gauges : W → CoordMetrics) (set_gauges : CoordMetrics → W → W).
Context (ShardSnapshots : M W (list ShardSnapshot)) (maxBytes : Z).

Definition coordinator_refresh : M W unit := fun w =>
  match ShardSnapshots w with
  | (w', Err _) => (w', Ok tt)
  | (w', Ok shards) => (set_gauges (SetCoordinatorShards shards maxBytes (gauges w')) w', Ok tt)
  end.
Definition RunCoordinatorRefresh (ticks : nat) : M W unit :=
  do! coordinator_refresh; forM_ (seq 0 ticks) (fun _ => coordinator_refresh).
End CoordRefresh.

(** ** The shard's gauges, by shard_id and role *)
Record ShardMetrics : Type := MkShardMetrics {
  ShardTotalBytes : GaugeVec;
  ShardReadOnly : GaugeVec;
  ShardBlobLogicalBytes : GaugeVec;
  ShardBlobStoredBytes : GaugeVec;
  ShardBlobReferencedLogicalBytes : GaugeVec;
  ShardCompressionRatio : GaugeVec;
  ShardCompressionSavingsPercent : GaugeVec;
  ShardStorageEfficiencyRatio : GaugeVec;
}.

Definition SetShardStats (shardID : Z) (role : string) (readOnly : bool) (totalBytes : Z) (m : ShardMetrics) : ShardMetrics :=
  let labels := (Itoa shardID, role) in
  MkShardMetrics (<[labels := float_of_int totalBytes]> (ShardTotalBytes m))
    (<[labels := if readOnly then float_of_int 1 else float_of_int 0]> (ShardReadOnly m))
    (ShardBlobLogicalBytes m) (ShardBlobStoredBytes m) (ShardBlobReferencedLogicalBytes m)
    (ShardCompressionRatio m) (ShardCompressionSavingsPercent m) (ShardStorageEfficiencyRatio m).

Definition ratio (a b : Z) : float := if 0 <? b then fdiv (float_of_int a) (float_of_int b) else float_of_int 1.
Definition savings (stored logical : Z) : float :=
  if 0 <? logical then
    let saved := fmul (fsub (float_of_int 1) (fdiv (float_of_int stored) (float_of_int logical))) (float_of_int 100) in
    if SFltb saved (float_of_int 0) then float_of_int 0 else saved
  else float_of_int 0.

Definition SetCompressionStats (shardID : Z) (role : string) (totals : BlobByteTotals) (segmentBytes : Z) (m : ShardMetrics) : ShardMetrics :=
  let labels := (Itoa shardID, role) in
  MkShardMetrics (ShardTotalBytes m) (ShardReadOnly m)
    (<[labels := float_of_int (LogicalBytes totals)]> (ShardBlobLogicalBytes m))
    (<[labels := float_of_int (StoredBytes totals)]> (ShardBlobStoredBytes m))
    (<[labels := float_of_int (ReferencedLogicalBytes totals)]> (ShardBlobReferencedLogicalBytes m))
    (<[labels := ratio (LogicalBytes totals) (StoredBytes totals)]> (ShardCompressionRatio m))
    (<[labels := savings (StoredBytes totals) (LogicalBytes totals)]> (ShardCompressionSavingsPercent m))
    (<[labels := ratio (ReferencedLogicalBytes totals) segmentBytes]> (ShardStorageEfficiencyRatio m)).

(** [RunShardRefresh] over its three providers: the guard is read anew each time. *)
Section ShardRefresh.
Context {W : Type} (MetricsShardID : W → Z) (MetricsRole : W → string) (ReadOnly : W → bool).
Context (seg_TotalBytes : M W Z) (blobs : option (M W BlobByteTotals)).

Definition shard_refresh : M (W * ShardMetrics) unit := fun '(w, m) =>
  match seg_TotalBytes w with
  | (w, Err _) => ((w, m), Ok tt)
  | (w, Ok total) =>
      let m := SetShardStats (MetricsShardID w) (MetricsRole w) (ReadOnly w) total m in
      match blobs with
      | None => ((w, m), Ok tt)
      | Some BlobByteTotals =>
          if (MetricsRole w =? "primary")%string then
            match BlobByteTotals w with
            | (w, Err _) => ((w, m), Ok tt)
            | (w, Ok totals) => ((w, SetCompressionStats (MetricsShardID w) (MetricsRole w) totals total m), Ok tt)
            end
          else ((w, m), Ok tt)
      end
  end.
Definition RunShardRefresh (ticks : nat) : M (W * ShardMetrics) unit :=
  do! shard_refresh; forM_ (seq 0 ticks) (fun _ => shard_refresh).
End ShardRefresh.

Example ratio_runs : ratio 1000 250 = float_of_int 4 ∧ ratio 1 0 = float_of_int 1 ∧
  savings 250 1000 = float_of_int 75 ∧ savings 300 200 = float_of_int 0.
Proof. by vm_compute. Qed.

(** ** What the folds and the window compute *)
Section Folds.
Context {A K V : Type} `{Countable K} (f : A → K) (g : A → V).

Lemma fold_insert_ne l (m : gmap K V) k : k ∉ f <$> l → fold_left (fun m x => <[f x := g x]> m) l m !! k = m !! k.
Proof.
  revert m. induction l as [|x l IH]; intros m Hk; [done|]. cbn in *. rewrite -> IH by set_solver.
  apply lookup_insert_ne. set_solver.
Qed.

(** A loop that sets one series per element, when no two elements share one. *)
Lemma fold_insert_lookup l k v : NoDup (f <$> l) →
  fold_left (fun m x => <[f x := g x]> m) l (∅ : gmap K V) !! k = Some v ↔ ∃ x, x ∈ l ∧ f x = k ∧ g x = v.
Proof.
  intros Hnd. assert (∀ m : gmap K V, fold_left (fun m x => <[f x := g x]> m) l m !! k = Some v ↔
    (∃ x, x ∈ l ∧ f x = k ∧ g x = v) ∨ (k ∉ f <$> l ∧ m !! k = Some v)) as E; [|rewrite -> E, lookup_empty; naive_solver].
  induction l as [|x l IH]; intros m; cbn in *; [set_solver|]. apply NoDup_cons in Hnd as [Hx Hnd].
  rewrite -> (IH Hnd). destruct (decide (f x = k)) as [<-|Hk].
  - rewrite -> lookup_insert_eq. split.
    + intros [(y & ? & ? & ?)|[_ [= <-]]]; left; [exists y|exists x]; set_solver.
    + intros [(y & Hy & E & <-)|[Hn _]]; [|set_solver].
      apply elem_of_cons in Hy as [->|Hy]; [by right|]. left. by exists y.
  - rewrite -> lookup_insert_ne by done. split.
    + intros [(y & ? & ? & ?)|[? ?]]; [left; exists y|right]; set_solver.
    + intros [(y & Hy & E & <-)|[Hn ?]]; [|right; set_solver].
      apply elem_of_cons in Hy as [->|Hy]; [done|]. left. by exists y.
Qed.
End Folds.

Definition newer (shards : list ShardSnapshot) (s : ShardSnapshot) : list ShardSnapshot :=
  filter (fun s' => sn_ShardID s < sn_ShardID s') shards.

Lemma filter_all_id {A} (P : A → Prop) `{∀ x, Decision (P x)} (l : list A) : (∀ x, x ∈ l → P x) → filter P l = l.
Proof.
  induction l as [|x l IH]; intros Hl; [done|]. rewrite -> filter_cons_True by (apply Hl; by left).
  f_equal. apply IH. intros y Hy. apply Hl. by right.
Qed.

Lemma newer_perm l l' s : l ≡ₚ l' → length (newer l s) = length (newer l' s).
Proof. intros E. unfold newer. by rewrite -> E. Qed.

(** In a list sorted by distinct ids, the last [length l - k] elements are those
    with fewer than that many newer ones. *)
Lemma drop_newer l k s : StronglySorted snap_le l → NoDup (sn_ShardID <$> l) → s ∈ l →
  s ∈ drop k l ↔ (length (newer l s) < length l - k)%nat.
Proof.
  revert k. induction l as [|x l IH]; intros k Hs Hnd Hin; [by apply not_elem_of_nil in Hin|].
  apply StronglySorted_inv in Hs as [Hs Hx]. cbn [fmap list_fmap] in Hnd. apply NoDup_cons in Hnd as [Hxn Hnd].
  rewrite -> Forall_forall in Hx.
  assert (∀ y, y ∈ l → sn_ShardID x < sn_ShardID y) as Hlt.
  { intros y Hy. pose proof (Hx y ltac:(done)) as Hle. unfold snap_le in Hle.
    assert (sn_ShardID x ≠ sn_ShardID y); [|lia]. intros E. apply Hxn. rewrite -> E. by apply list_elem_of_fmap_2. }
  apply elem_of_cons in Hin as [->|Hin].
  - assert (newer (x :: l) x = l) as E.
    { unfold newer. rewrite -> filter_cons_False by lia. by apply filter_all_id. }
    rewrite -> E. cbn [length]. destruct k as [|k]; cbn [drop].
    + split; [lia|]. intros _. by left.
    + split; [|lia]. intros Hd. exfalso. apply Hxn.
      apply list_elem_of_fmap_2. by eapply (subseteq_drop k).
  - assert (newer (x :: l) s = newer l s) as E by (unfold newer; rewrite -> filter_cons_False; [done|specialize (Hlt s Hin); lia]).
    rewrite -> E. cbn [length]. destruct k as [|k]; cbn [drop].
    + split; [intros _|by right]. enough (length (newer l s) <= length l)%nat by lia. apply length_filter.
    + rewrite -> (IH k) by done. lia.
Qed.

#[export] Instance snap_le_total : Total snap_le.
Proof. intros s s'. unfold snap_le. lia. Qed.
#[export] Instance snap_le_trans : Transitive snap_le.
Proof. intros s s' s''. unfold snap_le. lia. Qed.

(** The window holds the shards with fewer than [limit] newer ones. *)
Lemma recentShardWindow_spec shards limit s : NoDup (sn_ShardID <$> shards) →
  s ∈ recentShardWindow shards limit ↔ s ∈ shards ∧ zlen (newer shards s) < limit.
Proof.
  intros Hnd. unfold recentShardWindow. destruct shards as [|x l]; [cbn; set_solver|]. set (shards := x :: l) in *.
  replace (zlen shards =? 0) with false by (unfold shards; rw zlen_cons; pose proof (zlen_nonneg l); lia). cbn [orb].
  destruct (limit <=? 0) eqn:El; [split; [set_solver|unfold zlen; lia]|].
  pose proof (merge_sort_Permutation snap_le shards) as Hp. pose proof (StronglySorted_merge_sort snap_le shards) as Hs.
  pose proof (Permutation_length Hp) as Hlen.
  assert (NoDup (sn_ShardID <$> merge_sort snap_le shards)) as Hnd' by (by rewrite -> Hp).
  rewrite <- (elem_of_Permutation_proper s _ _ Hp) at 1.
  assert (∀ k, s ∈ merge_sort snap_le shards → s ∈ drop k (merge_sort snap_le shards) ↔ (length (newer shards s) < length shards - k)%nat) as Hd.
  { intros k Hin. rewrite -> drop_newer by done. by rewrite -> (newer_perm _ _ s Hp), Hlen. }
  destruct (zlen (merge_sort snap_le shards) <=? limit) eqn:Ez.
  - split; [|by intros [? _]]. intros Hin. split; [done|].
    pose proof (proj1 (Hd 0%nat Hin)) as H0. rewrite -> drop_0 in H0. specialize (H0 Hin). unfold zlen in *. lia.
  - unfold zlen in *. split.
    + intros Hin. assert (s ∈ merge_sort snap_le shards) as Hin' by (by eapply subseteq_drop). split; [done|].
      apply Hd in Hin; [|done]. lia.
    + intros [Hin Hlt]. apply Hd; [done|]. lia.
Qed.

(** ** What a refresh shows *)
Definition ids (shards : list ShardSnapshot) : list string := (fun s => Itoa (sn_ShardID s)) <$> shards.
Definition pick_active (a : float) (s : ShardSnapshot) : float :=
  if (sn_State s =? "active")%string then float_of_int (sn_ShardID s) else a.

Lemma shards_loop (shards : list ShardSnapshot) (info byts : GaugeVec) (a : float) (seen : gset string) : fold_left report_shard shards (info, byts, a, seen) =
  (fold_left (fun m s => <[series s := float_of_int 1]> m) shards info,
   fold_left (fun m s => <[series s := float_of_int (sn_TotalBytes s)]> m) shards byts,
   fold_left pick_active shards a, list_to_set (ids shards) ∪ seen).
Proof.
  revert info byts a seen. induction shards as [|s l IH]; intros.
  { cbn. f_equal. set_solver. }
  cbn [fold_left report_shard]. rewrite -> IH. f_equal. cbn. set_solver.
Qed.

Lemma pick_active_none l a : (∀ s, s ∈ l → sn_State s ≠ "active") → fold_left pick_active l a = a.
Proof.
  revert a. induction l as [|x l IH]; intros a Hl; [done|]. cbn. unfold pick_active at 2.
  destruct (String.eqb_spec (sn_State x) "active") as [E|E]; [by destruct (Hl x ltac:(by left))|].
  apply IH. intros s Hs. apply Hl. by right.
Qed.
Lemma pick_active_one l a s : s ∈ l → sn_State s = "active" → (∀ s', s' ∈ l → sn_State s' = "active" → s' = s) →
  fold_left pick_active l a = float_of_int (sn_ShardID s).
Proof.
  revert a. induction l as [|x l IH]; intros a Hin Hs Hu; [by apply not_elem_of_nil in Hin|]. cbn [fold_left].
  destruct (decide (s ∈ l)) as [Hl|Hl]; [apply IH; [done|done|]; intros s' ?; apply Hu; by right|].
  apply elem_of_cons in Hin as [<-|?]; [|done]. unfold pick_active at 2. rewrite -> Hs, String.eqb_refl.
  apply pick_active_none. intros s' Hs' Ea. apply Hl. by rewrite <- (Hu s' ltac:(by right) Ea).
Qed.

(** Pruning drops the recorded series of the shards not seen and nothing else. *)
Definition pruned (seen : gset string) (l : list (string * string)) (m m' : CoordMetrics) : Prop :=
  (∀ e, CoordinatorShardUp m' !! e = if decide (e ∈ l ∧ e.1 ∉ seen) then None else CoordinatorShardUp m !! e) ∧
  (∀ id, coordinatorShardUpByShard m' !! id = if decide (id ∈ l.*1 ∧ id ∉ seen) then None else coordinatorShardUpByShard m !! id) ∧
  (CoordinatorShardInfo m' = CoordinatorShardInfo m ∧ CoordinatorShardBytes m' = CoordinatorShardBytes m ∧
   CoordinatorActiveShard m' = CoordinatorActiveShard m ∧ CoordinatorShardBarBytes m' = CoordinatorShardBarBytes m).

Lemma prune_list seen l m : pruned seen l m (fold_left (prune_one seen) l m).
Proof.
  revert m. induction l as [|x l IH]; intros m; cbn [fold_left].
  { split; [|split; [|done]]; intros; rewrite -> decide_False; set_solver. }
  destruct (IH (prune_one seen m x)) as (H1 & H2 & H3). unfold prune_one in *.
  case_bool_decide as Hx.
  - split; [|split; [|done]]; intros e; rewrite -> ?H1, ?H2; apply decide_ext; set_solver.
  - cbn in *. split; [|split; [|done]]; intros e; rewrite -> ?H1, ?H2.
    + destruct (decide (e = x)) as [->|He].
      * rewrite -> lookup_delete_eq. rewrite -> (decide_True (P := x ∈ x :: l ∧ _)) by (split; [by left|done]). by case_decide.
      * rewrite -> lookup_delete_ne by done. apply decide_ext. set_solver.
    + destruct (decide (e = x.1)) as [->|He].
      * rewrite -> lookup_delete_eq. rewrite -> (decide_True (P := x.1 ∈ (x :: l).*1 ∧ _)) by (split; [by left|done]). by case_decide.
      * rewrite -> lookup_delete_ne by done. apply decide_ext. set_solver.
Qed.

Lemma prune_up seen m id st : CoordinatorShardUp (pruneCoordinatorShardUp seen m) !! (id, st) =
  if decide (coordinatorShardUpByShard m !! id = Some st ∧ id ∉ seen) then None else CoordinatorShardUp m !! (id, st).
Proof.
  unfold pruneCoordinatorShardUp. rewrite -> (proj1 (prune_list seen _ m)). apply decide_ext.
  by rewrite -> elem_of_map_to_list.
Qed.
Lemma prune_by seen m id : coordinatorShardUpByShard (pruneCoordinatorShardUp seen m) !! id =
  if decide (id ∈ seen) then coordinatorShardUpByShard m !! id else None.
Proof.
  unfold pruneCoordinatorShardUp. rewrite -> (proj1 (proj2 (prune_list seen _ m))).
  destruct (decide (id ∈ seen)); [rewrite -> decide_False; naive_solver|]. case_decide as Hd; [done|].
  destruct (coordinatorShardUpByShard m !! id) as [st|] eqn:E; [|done]. destruct Hd. split; [|done].
  apply list_elem_of_fmap. exists (id, st). by rewrite -> elem_of_map_to_list.
Qed.

(** What [SetCoordinatorShards] makes of the gauges that depend on the registry. *)
Record mirrors (shards : list ShardSnapshot) (maxBytes : Z) (m : CoordMetrics) : Prop := {
  mr_info k v : CoordinatorShardInfo m !! k = Some v ↔ ∃ s, s ∈ shards ∧ series s = k ∧ float_of_int 1 = v;
  mr_bytes k v : CoordinatorShardBytes m !! k = Some v ↔ ∃ s, s ∈ shards ∧ series s = k ∧ float_of_int (sn_TotalBytes s) = v;
  mr_bar k v : CoordinatorShardBarBytes m !! k = Some v ↔
    ∃ s, (s ∈ shards ∧ zlen (newer shards s) < 4) ∧ series s = k ∧ float_of_int (sn_TotalBytes s) = v;
  mr_active : CoordinatorActiveShard m = fold_left pick_active shards (float_of_int (-1));
  mr_max : CoordinatorShardMaxBytes m = float_of_int maxBytes;
}.

Lemma series_NoDup shards : NoDup (sn_ShardID <$> shards) → NoDup (series <$> shards).
Proof.
  intros Hnd. apply (NoDup_fmap_1 (A := string * string) fst). rewrite <- list_fmap_compose.
  change (fst ∘ series) with (Itoa ∘ sn_ShardID). rewrite -> list_fmap_compose. apply NoDup_fmap_2; [apply _|done].
Qed.

Lemma window_sub shards limit : NoDup (sn_ShardID <$> shards) → NoDup (sn_ShardID <$> recentShardWindow shards limit).
Proof.
  intros Hnd. unfold recentShardWindow. destruct (_ || _); [constructor|].
  assert (NoDup (sn_ShardID <$> merge_sort snap_le shards)) as Hs by (by rewrite -> merge_sort_Permutation).
  destruct (_ <=? _); [done|]. rewrite -> fmap_drop.
  eapply sublist_NoDup; [exact Hs|apply sublist_drop].
Qed.

Lemma SetCoordinatorShards_mirrors shards maxBytes m : NoDup (sn_ShardID <$> shards) →
  mirrors shards maxBytes (SetCoordinatorShards shards maxBytes m).
Proof.
  intros Hnd. unfold SetCoordinatorShards. rewrite -> shards_loop. unfold pruneCoordinatorShardUp.
  match goal with |- context [fold_left (prune_one ?S) ?l ?m] => destruct (prune_list S l m) as (_ & _ & H1 & H2 & H3 & H4); set (m1 := fold_left (prune_one S) l m) in * end.
  clearbody m1. cbn in H1, H2, H3, H4. split; cbn.
  - intros k v. rewrite -> H1. apply (fold_insert_lookup series (fun _ => float_of_int 1)), series_NoDup, Hnd.
  - intros k v. rewrite -> H2. apply (fold_insert_lookup series (fun s => float_of_int (sn_TotalBytes s))), series_NoDup, Hnd.
  - intros k v. rewrite -> H4. etransitivity.
    { apply (fold_insert_lookup series (fun s => float_of_int (sn_TotalBytes s))), series_NoDup, window_sub, Hnd. }
    by setoid_rewrite (recentShardWindow_spec shards 4 _ Hnd).
  - by rewrite -> H3.
  - done.
Qed.

(** ** Availability: the calls one after the other

    The abstract state: for each shard the state and the availability last
    reported; a refresh forgets the shards that have left the registry. *)
Inductive mcall : Type :=
  | MUp (shardID state : string) (up : bool)
  | MFail (shardID op : string)
  | MShards (shards : list ShardSnapshot) (maxBytes : Z).
Definition mrun (m : CoordMetrics) (c : mcall) : CoordMetrics :=
  match c with
  | MUp id st up => SetCoordinatorShardUp id st up m
  | MFail id op => IncCoordinatorShardFailures id op m
  | MShards shards maxBytes => SetCoordinatorShards shards maxBytes m
  end.

Abbreviation reports := (gmap string (string * bool)).
Definition report (r : reports) (c : mcall) : reports :=
  match c with
  | MUp id st up => <[id := (st, up)]> r
  | MFail _ _ => r
  | MShards shards _ => filter (fun e => e.1 ∈ ids shards) r
  end.

Record shows (r : reports) (m : CoordMetrics) : Prop := {
  sw_by id : coordinatorShardUpByShard m !! id = fst <$> r !! id;
  sw_up id st : CoordinatorShardUp m !! (id, st) =
    match r !! id with Some (st', up) => if decide (st' = st) then Some (up_value up) else None | None => None end;
}.

Lemma SetCoordinatorShards_up shards maxBytes m id st : CoordinatorShardUp (SetCoordinatorShards shards maxBytes m) !! (id, st) =
  if decide (coordinatorShardUpByShard m !! id = Some st ∧ id ∉ ids shards) then None else CoordinatorShardUp m !! (id, st).
Proof.
  unfold SetCoordinatorShards. rewrite -> shards_loop. cbn. rewrite -> prune_up. cbn. apply decide_ext. set_solver.
Qed.
Lemma SetCoordinatorShards_by shards maxBytes m id : coordinatorShardUpByShard (SetCoordinatorShards shards maxBytes m) !! id =
  if decide (id ∈ ids shards) then coordinatorShardUpByShard m !! id else None.
Proof.
  unfold SetCoordinatorShards. rewrite -> shards_loop. cbn. rewrite -> prune_by. cbn. apply decide_ext. set_solver.
Qed.

Lemma up_lock_up id st m id' st' : CoordinatorShardUp (up_lock id st m) !! (id', st') =
  if decide (id' = id ∧ coordinatorShardUpByShard m !! id = Some st' ∧ st' ≠ st) then None else CoordinatorShardUp m !! (id', st').
Proof.
  unfold up_lock. cbn. destruct (coordinatorShardUpByShard m !! id) as [prev|]; [|rewrite -> decide_False; naive_solver].
  destruct (String.eqb_spec prev st) as [->|Hn]; [rewrite -> decide_False; naive_solver|].
  destruct (decide (id' = id ∧ st' = prev)) as [[-> ->]|Hne].
  - rewrite -> lookup_delete_eq. by rewrite -> decide_True.
  - rewrite -> lookup_delete_ne by naive_solver. rewrite -> decide_False; naive_solver.
Qed.

(** Each call keeps the gauge the picture of the abstract state. *)
Lemma mrun_shows r m c : shows r m → shows (report r c) (mrun m c).
Proof.
  intros [Hb Hu]. destruct c as [id st up|id op|shards maxBytes]; cbn [mrun report].
  - unfold SetCoordinatorShardUp, up_write. split; cbn [CoordinatorShardUp coordinatorShardUpByShard set_up].
    + intros id'. unfold up_lock. cbn. destruct (decide (id = id')) as [->|Hn]; [by rewrite -> !lookup_insert_eq|].
      by rewrite -> !lookup_insert_ne.
    + intros id' st'. destruct (decide ((id, st) = (id', st'))) as [E|Hn].
      { injection E as -> ->. rewrite -> !lookup_insert_eq. by rewrite -> decide_True. }
      rewrite -> (lookup_insert_ne (CoordinatorShardUp _)), up_lock_up, Hb, Hu by done.
      destruct (decide (id = id')) as [->|Hi].
      * rewrite -> lookup_insert_eq, (decide_False (P := st = st')) by naive_solver.
        destruct (r !! id') as [[st1 b]|] eqn:Er; cbn; repeat case_decide; naive_solver.
      * rewrite -> lookup_insert_ne, decide_False by naive_solver. done.
  - by split.
  - split; [intros id|intros id st]; rewrite -> ?SetCoordinatorShards_by, ?SetCoordinatorShards_up, ?Hu, ?Hb.
    + destruct (decide (id ∈ ids shards)) as [Hi|Hi].
      * destruct (r !! id) as [e|] eqn:Er; [by erewrite map_lookup_filter_Some_2|]. by rewrite -> map_lookup_filter_None_2 by auto.
      * rewrite -> map_lookup_filter_None_2; [done|]. by right.
    + destruct (decide (id ∈ ids shards)) as [Hi|Hi].
      * rewrite -> decide_False by naive_solver.
        destruct (r !! id) as [e|] eqn:Er; [by erewrite map_lookup_filter_Some_2|]. by rewrite -> map_lookup_filter_None_2 by auto.
      * rewrite -> (map_lookup_filter_None_2 _ r id) by (by right).
        destruct (r !! id) as [[st1 b]|] eqn:Er; cbn; repeat case_decide; naive_solver.
Qed.

Lemma mruns_show calls : shows (fold_left report calls ∅) (fold_left mrun calls coordinator_init).
Proof.
  induction calls as [|c calls IH] using rev_ind; [by split|].
  rewrite -> !fold_left_app. cbn [fold_left]. by apply mrun_shows.
Qed.

(** ** Availability: concurrent calls

    The coordinator's handlers report from their own goroutines.  A report holds
    the mutex for [up_lock] only, and writes the gauge after releasing it: the
    reports between the two are the second component.  Pruning holds the mutex
    throughout; its deletions are of different series, so each of the writes that
    fall among them is as if before or after it. *)
Abbreviation ustate := (CoordMetrics * list (string * string * bool))%type.
Inductive ustep : ustate → ustate → Prop :=
  | u_lock id st up m p : ustep (m, p) (up_lock id st m, p ++ [(id, st, up)])
  | u_write id st up m p1 p2 : ustep (m, p1 ++ (id, st, up) :: p2) (up_write id st up m, p1 ++ p2)
  | u_fail id op m p : ustep (m, p) (IncCoordinatorShardFailures id op m, p)
  | u_shards shards maxBytes m p : ustep (m, p) (SetCoordinatorShards shards maxBytes m, p).

(** A shard's current series is there or about to be written. *)
Definition current (s : ustate) : Prop :=
  ∀ id st, coordinatorShardUpByShard s.1 !! id = Some st →
    is_Some (CoordinatorShardUp s.1 !! (id, st)) ∨ ∃ up, (id, st, up) ∈ s.2.

Lemma ustep_current s s' : ustep s s' → current s → current s'.
Proof.
  intros Hs Hc. destruct Hs as [id st up m p|id st up m p1 p2|id op m p|shards maxBytes m p]; intros id' st' Hb; cbn [fst snd] in *.
  - unfold up_lock in Hb. cbn in Hb. destruct (decide (id = id')) as [<-|Hn].
    + rewrite -> lookup_insert_eq in Hb. injection Hb as <-. right. exists up. set_solver.
    + rewrite -> lookup_insert_ne in Hb by done. rewrite -> up_lock_up, decide_False by naive_solver.
      destruct (Hc _ _ Hb) as [?|[u Hu]]; [by left|right]. exists u. set_solver.
  - cbn in *. destruct (decide ((id, st) = (id', st'))) as [E|Hn].
    + injection E as <- <-. left. rewrite -> lookup_insert_eq. eauto.
    + rewrite -> lookup_insert_ne by done. destruct (Hc _ _ Hb) as [?|[u Hu]]; [by left|right]. exists u.
      cbn in Hu. set_solver.
  - apply (Hc _ _ Hb).
  - rewrite -> SetCoordinatorShards_by in Hb. case_decide; [|done]. rewrite -> SetCoordinatorShards_up, decide_False by naive_solver.
    apply (Hc _ _ Hb).
Qed.

(** However the reports interleave, when none is under way every shard on record
    has the series of its current state. *)
Lemma reports_current s : rtc ustep (coordinator_init, []) s → s.2 = [] →
  ∀ id st, coordinatorShardUpByShard s.1 !! id = Some st → is_Some (CoordinatorShardUp s.1 !! (id, st)).
Proof.
  intros Hr E id st Hb. assert (current s) as Hc.
  { revert Hr. apply (rtc_ind_r (fun s => current s)); [by intros ? ? ?|]. intros s1 s2 _ Hs Hc. by eapply ustep_current. }
  destruct (Hc _ _ Hb) as [?|[u Hu]]; [done|]. rewrite -> E in Hu. by apply not_elem_of_nil in Hu.
Qed.

(** A series that is not the recorded one is never removed. *)
Definition stale (id st : string) (m : CoordMetrics) : Prop :=
  is_Some (CoordinatorShardUp m !! (id, st)) ∧ coordinatorShardUpByShard m !! id ≠ Some st.
Definition reports_as (id st : string) (c : mcall) : bool :=
  match c with MUp id' st' _ => (id' =? id)%string && (st' =? st)%string | _ => false end.

Lemma mrun_stale id st m c : stale id st m → reports_as id st c = false → stale id st (mrun m c).
Proof.
  intros [Hu Hb] Hc. destruct c as [id' st' up|id' op|shards maxBytes]; cbn [mrun].
  - assert ((id', st') ≠ (id, st)) as Hne.
    { intros [= -> ->]. cbn in Hc. by rewrite -> !String.eqb_refl in Hc. }
    unfold SetCoordinatorShardUp, up_write. split; cbn [CoordinatorShardUp coordinatorShardUpByShard set_up].
    + rewrite -> lookup_insert_ne, up_lock_up, decide_False by naive_solver. done.
    + unfold up_lock. cbn. destruct (decide (id' = id)) as [->|Hn]; [rewrite -> lookup_insert_eq; congruence|].
      by rewrite -> lookup_insert_ne.
  - by split.
  - split; [rewrite -> SetCoordinatorShards_up, decide_False by naive_solver; done|].
    rewrite -> SetCoordinatorShards_by. by case_decide.
Qed.

(** A read that finds shard 1 active reports between the two halves of the report
    that it is sealed: the shard has an active series beside the sealed one from
    then on, whatever is reported, since a sealed shard is never active again. *)
Definition raced : ustate := 
  (up_write "1" "active" true (up_write "1" "sealed" true (up_lock "1" "sealed" (up_lock "1" "active" coordinator_init))), []).
Lemma up_series_race : rtc ustep (coordinator_init, []) raced ∧
  ∀ calls, forallb (fun c => negb (reports_as "1" "active" c)) calls = true →
    stale "1" "active" (fold_left mrun calls raced.1).
Proof.
  split.
  - eapply rtc_l; [apply (u_lock "1" "active" true)|]. eapply rtc_l; [apply (u_lock "1" "sealed" true)|].
    eapply rtc_l; [apply (u_write _ _ _ _ [_] [])|]. apply rtc_once, (u_write _ _ _ _ [] []).
  - assert (stale "1" "active" raced.1) as Hs by (split; [by eexists|done]). revert Hs. generalize raced.1.
    intros m Hs calls. revert m Hs. induction calls as [|c calls IH]; intros m Hs Hf; [done|].
    cbn in Hf. apply andb_prop in Hf as [Hc Hf]. cbn [fold_left]. apply IH; [|done].
    apply mrun_stale; [done|]. by apply negb_true_iff.
Qed.
