(* ===== verification/ShardRepo.v ===== *)
(** * The coordinator's tables: internal/coordinator (repo.go, models.go, admin_requests.go)

    The shard registry, with its two unique indexes (shard_uuid where not null,
    one active row), the global package index and the XML index.  Each method is
    the statements it sends; [c_faults] is the environment's choice, one outcome
    per statement.  A method that opens a transaction runs atomically: the rows it
    decides on are locked, and any error rolls it back.  The second half states what
    the registry's rows go through: [reg_inv] and [evolves]. *)
From S2P Require Import Prelude GoLib Metadata.

(** [ShardState] is a string type; the registry's column takes other strings too. *)
Definition ShardActive : string := "active".
Definition ShardSealed : string := "sealed".
Definition ShardStandby : string := "standby".

Record ShardInfo : Type := MkShard {
  sh_ID : Z;
  ShardUUID : option string;
  State : string;
  PrimaryURL : string;
  ReplicaURL : option string;
  sh_TotalBytes : Z;
  SealedAt : option Z;
  LastSeenAt : option Z;
  LastError : option string;
  CreatedAt : Z;
}.

Record GlobalPackageIndex : Type := MkGlobal {
  GlobalID : Z;
  gp_ShardID : Z;
  LocalID : Z;
  gp_SupplierID : Z;
  gp_ReceivedAt : Z;
  gp_PackageHash : bytes;
}.

Record BootstrapShard : Type := MkBootstrap {
  bs_ShardID : Z; bs_State : string; bs_PrimaryURL : string; bs_ReplicaURL : string; bs_ShardUUID : string }.

(** What happens to a statement: it runs, it fails, or it runs and its answer is lost. *)
Inductive outcome : Set := Answered | Failed | AnswerLost.

Record CDB : Type := MkCDB {
  shard_registry : table ShardInfo;
  global_package_index : gmap Z GlobalPackageIndex;
  global_xml_index : gmap bytes Z;
  c_clock : Z;
  c_faults : list outcome;
}.

Definition set_registry (g : table ShardInfo → table ShardInfo) (db : CDB) : CDB :=
  MkCDB (g (shard_registry db)) (global_package_index db) (global_xml_index db) (c_clock db) (c_faults db).
Definition set_faults (fs : list outcome) (db : CDB) : CDB :=
  MkCDB (shard_registry db) (global_package_index db) (global_xml_index db) (c_clock db) fs.

Definition ErrNotFound : error := Error "shard not found" [ErrShardNotFound].
Definition ErrConflict : error := Error "invalid shard state transition" [ErrStateConflict].

(** The unique indexes. *)
Definition is_state (st : string) (s : ShardInfo) : bool := (State s =? st)%string.
Definition actives (t : table ShardInfo) : list (Z * ShardInfo) := filter (fun ks => is_state ShardActive ks.2 = true) t.
Definition uuids (t : table ShardInfo) : list string := omap (fun ks => ShardUUID ks.2) t.
Definition indexes_ok (t : table ShardInfo) : bool := (zlen (actives t) <=? 1) && bool_decide (NoDup (uuids t)).

(** One statement. *)
Definition cstmt {A} (m : M CDB A) : M CDB A := fun db =>
  match c_faults db with
  | Failed :: fs => (set_faults fs db, Err db_error)
  | AnswerLost :: fs => ((m (set_faults fs db)).1, Err db_error)
  | Answered :: fs => m (set_faults fs db)
  | [] => m db
  end.

(** A write: refused when it would break an index. *)
Definition write (g : table ShardInfo → table ShardInfo) : M CDB unit := fun db =>
  if indexes_ok (g (shard_registry db)) then (set_registry g db, Ok tt)
  else (db, Err (unique_violation "idx_shard_registry")).

(** [BeginTx], the body, [Commit]; the deferred [Rollback] undoes a failed one. *)
Definition commit {A} (db1 db2 : CDB) (a : A) : CDB * result A :=
  match c_faults db2 with
  | Failed :: fs => (set_faults fs db1, Err db_error)
  | AnswerLost :: fs => (set_faults fs db2, Err db_error)
  | Answered :: fs => (set_faults fs db2, Ok a)
  | [] => (db2, Ok a)
  end.

Definition ctx {A} (m : M CDB A) : M CDB A :=
  mbind (M := M CDB) (fun _ db1 => match m db1 with
             | (db2, Err e) => (set_faults (c_faults db2) db1, Err e)
             | (db2, Ok a) => commit db1 db2 a
             end) (cstmt (mret tt)).

(** Arguments of SMALLINT columns: the driver refuses what does not fit. *)
Definition int2 (z : Z) : bool := (- 2 ^ 15 <=? z) && (z <? 2 ^ 15).
Definition int2_arg {A} (z : Z) (m : M CDB A) : M CDB A := if int2 z then m else fail int_error.

Definition registry : M CDB (table ShardInfo) := gets shard_registry.

Definition ParseShardState (raw : string) : result string :=
  let st := strings.ToLower (strings.TrimSpace raw) in
  if (st =? ShardActive)%string || (st =? ShardSealed)%string || (st =? ShardStandby)%string then Ok st
  else Err (errorf ("invalid shard state: " +:+ raw)).

Section Repo.
Context `{PG}.

(** What the text columns of a row accept. *)
Definition texts_ok (s : ShardInfo) : bool :=
  text_ok (Some 10) (State s) && text_ok None (PrimaryURL s) && text_opt_ok None (ReplicaURL s) &&
  text_opt_ok None (ShardUUID s) && text_opt_ok None (LastError s).
Definition checked {A} (ok : bool) (m : M CDB A) : M CDB A := if ok then m else fail text_error.

Definition UpsertShard (s : ShardInfo) : M CDB unit :=
  int2_arg (sh_ID s) (cstmt (checked (texts_ok s) (let! db := get in write (fun t =>
    tput (sh_ID s) (match tget (sh_ID s) t with
      | None => MkShard (sh_ID s) (ShardUUID s) (State s) (PrimaryURL s) (ReplicaURL s) (sh_TotalBytes s)
                  (SealedAt s) (LastSeenAt s) (LastError s) (c_clock db)
      | Some o => MkShard (sh_ID s) (match ShardUUID s with Some u => Some u | None => ShardUUID o end) (State s)
                    (PrimaryURL s) (ReplicaURL s) (sh_TotalBytes s) (SealedAt s) (LastSeenAt s) (LastError s) (CreatedAt o)
      end) t)))).

Definition GetShard (shardID : Z) : M CDB (option ShardInfo) :=
  int2_arg shardID (cstmt (let! t := registry in mret (tget shardID t))).

Definition ActiveShard : M CDB (option ShardInfo) :=
  cstmt (let! t := registry in mret (snd <$> head (actives t))).

Definition StandbyShards : M CDB (list ShardInfo) :=
  cstmt (let! t := registry in mret (filter (fun ks => is_state ShardStandby ks.2 = true) t).*2).

Definition StandbyShard : M CDB (option ShardInfo) :=
  let! shards := StandbyShards in mret (head shards).

Definition ListShards : M CDB (list ShardInfo) := cstmt (let! t := registry in mret t.*2).

(** Updates of one row. *)
Definition with_state (st : string) (total : Z) (sealedAt : option Z) (s : ShardInfo) : ShardInfo :=
  MkShard (sh_ID s) (ShardUUID s) st (PrimaryURL s) (ReplicaURL s) total sealedAt (LastSeenAt s) (LastError s) (CreatedAt s).
Definition with_error (e : option string) (s : ShardInfo) : ShardInfo :=
  MkShard (sh_ID s) (ShardUUID s) (State s) (PrimaryURL s) (ReplicaURL s) (sh_TotalBytes s) (SealedAt s) (LastSeenAt s) e (CreatedAt s).
Definition with_seen (now : Z) (s : ShardInfo) : ShardInfo :=
  MkShard (sh_ID s) (ShardUUID s) (State s) (PrimaryURL s) (ReplicaURL s) (sh_TotalBytes s) (SealedAt s) (Some now) None (CreatedAt s).
Definition with_urls (p : string) (r : option string) (s : ShardInfo) : ShardInfo :=
  MkShard (sh_ID s) (ShardUUID s) (State s) p r (sh_TotalBytes s) (SealedAt s) (LastSeenAt s) (LastError s) (CreatedAt s).

Definition activate (s : ShardInfo) : ShardInfo := with_error None (with_state ShardActive (sh_TotalBytes s) None s).

Definition SetShardState (shardID : Z) (state : string) (totalBytes : Z) (sealedAt : option Z) : M CDB unit :=
  int2_arg shardID (cstmt (checked (text_ok (Some 10) state)
    (write (tmap shardID (with_state state totalBytes sealedAt))))).

Record SealedShardTransition : Set := MkSealed { st_ShardID : Z; st_TotalBytes : Z; st_SealedAt : Z }.

(** [SELECT ... WHERE state = 'active' AND shard_id <> $1 ORDER BY shard_id LIMIT 1]. *)
Definition other_active (shardID : Z) (t : table ShardInfo) : option ShardInfo :=
  snd <$> head (filter (fun ks => is_state ShardActive ks.2 = true ∧ ks.1 ≠ shardID) t).

Definition PromoteStandby (targetShardID : Z) (sealedActive : option SealedShardTransition) : M CDB (option ShardInfo) :=
  ctx (
    let! target := GetShard targetShardID in
    match target with
    | None => fail ErrNotFound
    | Some target =>
        if negb (is_state ShardStandby target) then fail ErrConflict else
        let! currentActive := int2_arg targetShardID (cstmt (let! t := registry in mret (other_active targetShardID t))) in
        do! match sealedActive with
            | Some tr =>
                match currentActive with
                | None => fail ErrConflict
                | Some cur =>
                    if negb (sh_ID cur =? st_ShardID tr) then fail ErrConflict else
                    int2_arg (st_ShardID tr) (cstmt (write (tmap (st_ShardID tr) (fun s =>
                      with_error None (with_state ShardSealed (st_TotalBytes tr) (Some (st_SealedAt tr)) s)))))
                end
            | None => match currentActive with Some _ => fail ErrConflict | None => mret tt end
            end;
        do! int2_arg targetShardID (cstmt (write (tmap targetShardID activate)));
        GetShard targetShardID
    end).

Definition find_uuid (u : string) (t : table ShardInfo) : option ShardInfo :=
  snd <$> head (filter (fun ks => ShardUUID ks.2 = Some u) t).
Definition GetShardByUUID (shardUUID : string) : M CDB (option ShardInfo) :=
  cstmt (let! t := registry in mret (find_uuid shardUUID t)).

(** The state argument is ignored: new rows are standby. *)
Definition RegisterShard (shardUUID : string) (state : string) (primaryURL : string) (replicaURL : option string)
    : M CDB (option ShardInfo * bool) :=
  ctx (
    let! existing := GetShardByUUID shardUUID in
    match existing with
    | Some _ =>
        do! cstmt (checked (text_ok None primaryURL && text_opt_ok None replicaURL) (let! db := get in write (fmap (fun ks =>
          if bool_decide (ShardUUID ks.2 = Some shardUUID)
          then (ks.1, with_seen (c_clock db) (with_urls primaryURL replicaURL ks.2)) else ks))));
        let! updated := GetShardByUUID shardUUID in
        mret (updated, false)
    | None =>
        let! nextID := cstmt (let! t := registry in mret (default (-1) (tmax t) + 1)) in
        let! db := get in
        let row := MkShard nextID (Some shardUUID) ShardStandby primaryURL replicaURL 0 None (Some (c_clock db)) None (c_clock db) in
        do! int2_arg nextID (cstmt (checked (texts_ok row) (write (tput nextID row))));
        let! created := GetShard nextID in
        mret (created, true)
    end).

Definition seal_row (now : Z) (s : ShardInfo) : ShardInfo := with_state ShardSealed (sh_TotalBytes s) (Some now) s.

(** The repository's own state change, which the registry does not call. *)
Definition RepoPatchShardState (shardID : Z) (nextState : string) (confirm : bool) : M CDB (option ShardInfo) :=
  ctx (
    let! target := GetShard shardID in
    match target with
    | None => fail ErrNotFound
    | Some target =>
        let! db := get in
        let now := c_clock db in
        do! (if (nextState =? ShardSealed)%string then
               if negb (is_state ShardActive target) then fail ErrConflict
               else int2_arg shardID (cstmt (write (tmap shardID (seal_row now))))
             else if (nextState =? ShardActive)%string then
               if negb (is_state ShardStandby target) || negb confirm then fail ErrConflict else
               let! currentActive := int2_arg shardID (cstmt (let! t := registry in mret (other_active shardID t))) in
               do! match currentActive with
                   | Some cur => int2_arg (sh_ID cur) (cstmt (write (tmap (sh_ID cur) (seal_row now))))
                   | None => mret tt
                   end;
               int2_arg shardID (cstmt (write (tmap shardID activate)))
             else fail ErrConflict);
        GetShard shardID
    end).

Definition MarkShardReachable (shardID : Z) : M CDB unit :=
  int2_arg shardID (cstmt (let! db := get in write (tmap shardID (with_seen (c_clock db))))).
Definition MarkShardUnreachable (shardID : Z) (lastErr : string) : M CDB unit :=
  int2_arg shardID (cstmt (checked (text_ok None lastErr) (write (tmap shardID (with_error (Some lastErr)))))).

Definition InsertGlobalPackage (e : GlobalPackageIndex) : M CDB unit :=
  int2_arg (gp_ShardID e) (if int4 (gp_SupplierID e) then cstmt (modify (fun db =>
    MkCDB (shard_registry db) (match global_package_index db !! GlobalID e with
        | Some _ => global_package_index db | None => <[GlobalID e := e]> (global_package_index db) end)
      (global_xml_index db) (c_clock db) (c_faults db))) else fail int_error).

Definition InsertGlobalXMLHashes (shardID : Z) (hashes : list bytes) : M CDB unit :=
  forM_ hashes (fun h => int2_arg shardID (cstmt (modify (fun db =>
    MkCDB (shard_registry db) (global_package_index db)
      (match global_xml_index db !! h with Some _ => global_xml_index db | None => <[h := shardID]> (global_xml_index db) end)
      (c_clock db) (c_faults db))))).

Definition FindShardByXMLHash (hash : bytes) : M CDB (option ShardInfo) :=
  let! o := cstmt (gets (fun db => global_xml_index db !! hash)) in
  match o with None => mret None | Some shardID => GetShard shardID end.

Definition TruncateAll : M CDB unit := cstmt (modify (fun db => MkCDB [] ∅ ∅ (c_clock db) (c_faults db))).

(** [BTRIM(s)] takes blanks off both ends. *)
Fixpoint drop_blanks (l : bytes) : bytes := match l with x20 :: l => drop_blanks l | _ => l end.
Definition blank (s : string) : bool := bool_decide (drop_blanks (bs s) = []).

Definition seedShardFromBootstrap (s : ShardInfo) : M CDB unit :=
  int2_arg (sh_ID s) (cstmt (checked (texts_ok s) (let! db := get in write (fun t =>
    tput (sh_ID s) (match tget (sh_ID s) t with
      | None => MkShard (sh_ID s) (ShardUUID s) (State s) (PrimaryURL s) (ReplicaURL s) 0 None None None (c_clock db)
      | Some o => MkShard (sh_ID o) (match ShardUUID o with Some u => Some u | None => ShardUUID s end) (State o)
                    (if blank (PrimaryURL o) then PrimaryURL s else PrimaryURL o)
                    (match ReplicaURL o with Some r => Some r | None => ReplicaURL s end)
                    (sh_TotalBytes o) (SealedAt o) (LastSeenAt o) (LastError o) (CreatedAt o)
      end) t)))).

Definition non_empty (s : string) : option string := if (s =? "")%string then None else Some s.

(** Given the decoded bootstrap file. *)
Definition BootstrapFromFile (shards : list BootstrapShard) : M CDB unit :=
  forM_ shards (fun b => seedShardFromBootstrap
    (MkShard (bs_ShardID b) (non_empty (bs_ShardUUID b)) (bs_State b) (bs_PrimaryURL b) (non_empty (bs_ReplicaURL b))
       0 None None None 0)).
End Repo.

(** ** What the registry's rows go through

    A shard goes from standby to active to sealed, and keeps the uuid it has. *)
Definition state_le (a b : string) : Prop := a = b ∨ b = ShardSealed ∨ (a = ShardStandby ∧ b = ShardActive).
Definition row_le (s s' : ShardInfo) : Prop :=
  sh_ID s = sh_ID s' ∧ state_le (State s) (State s') ∧ (∀ u, ShardUUID s = Some u → ShardUUID s' = Some u) ∧
  CreatedAt s = CreatedAt s'.
Definition evolves (t t' : table ShardInfo) : Prop :=
  ∀ id s, tget id t = Some s → ∃ s', tget id t' = Some s' ∧ row_le s s'.

Record reg_inv (t : table ShardInfo) : Prop := {
  rv_index : indexes_ok t = true;
  rv_keys : ∀ id s, (id, s) ∈ t → sh_ID s = id;
  rv_sorted : StronglySorted Z.lt t.*1;
}.

#[export] Instance state_le_preorder : PreOrder state_le.
Proof.
  split; [by left|]. unfold state_le. intros a b c [->|[->|[-> ->]]] [<-|[->|[E E']]]; try discriminate; auto.
Qed.
#[export] Instance row_le_preorder : PreOrder row_le.
Proof.
  split.
  - intros s. unfold row_le. split_and!; done || reflexivity.
  - intros s1 s2 s3 (A1 & A2 & A3 & A4) (B1 & B2 & B3 & B4). split_and!; [congruence| |auto|congruence]. by transitivity (State s2).
Qed.
#[export] Instance evolves_preorder : PreOrder evolves.
Proof.
  split.
  - intros t id s Hs. exists s. split; [done|reflexivity].
  - intros t1 t2 t3 H1 H2 id s Hs. destruct (H1 _ _ Hs) as (s2 & Hs2 & L2). destruct (H2 _ _ Hs2) as (s3 & Hs3 & L3).
    exists s3. split; [done|]. by transitivity s2.
Qed.

(** What a statement may do to the coordinator's database. *)
Record grew (db db' : CDB) : Prop := {
  gr_inv : reg_inv (shard_registry db');
  gr_rows : evolves (shard_registry db) (shard_registry db');
  gr_packages : ∀ g e, global_package_index db !! g = Some e → global_package_index db' !! g = Some e;
  gr_xml : ∀ h k, global_xml_index db !! h = Some k → global_xml_index db' !! h = Some k;
}.
Definition grows (db db' : CDB) : Prop := reg_inv (shard_registry db) → grew db db'.

#[export] Instance grows_preorder : PreOrder grows.
Proof.
  split.
  - intros db I. split; auto. reflexivity.
  - intros a b c Ha Hb I. destruct (Ha I) as [A1 A2 A3 A4]. destruct (Hb A1) as [B1 B2 B3 B4].
    split; auto. by transitivity (shard_registry b).
Qed.

Definition safe {A} (m : M CDB A) : Prop := ∀ db, grows db (m db).1.

Lemma grows_faults fs db : grows db (set_faults fs db).
Proof. by split. Qed.

Lemma safe_ret {A} (a : A) : safe (mret a).
Proof. intros db. reflexivity. Qed.
Lemma safe_fail {A} e : safe (fail (A := A) e).
Proof. intros db. reflexivity. Qed.
Lemma safe_bind {A B} (m : M CDB A) (k : A → M CDB B) : safe m → (∀ a, safe (k a)) → safe (m ≫= k).
Proof.
  intros Hm Hk db. specialize (Hm db). unfold mbind, M_bind. destruct (m db) as [db1 [a|e]]; [|done].
  transitivity db1; [done|apply Hk].
Qed.
Lemma safe_get {A} (k : CDB → M CDB A) : (∀ db, grows db (k db db).1) → safe (get ≫= k).
Proof. intros H db. apply H. Qed.
Lemma safe_gets {A} (f : CDB → A) : safe (gets f).
Proof. intros db. reflexivity. Qed.
Lemma safe_cstmt {A} (m : M CDB A) : safe m → safe (cstmt m).
Proof.
  intros Hm db. unfold cstmt. destruct (c_faults db) as [|[] fs]; [apply Hm| |apply grows_faults|];
    cbn [fst]; (transitivity (set_faults fs db); [apply grows_faults|apply Hm]).
Qed.
Lemma safe_int2 {A} z (m : M CDB A) : safe m → safe (int2_arg z m).
Proof. intros Hm. unfold int2_arg. destruct (int2 z); [done|apply safe_fail]. Qed.
Lemma safe_checked {A} b (m : M CDB A) : safe m → safe (checked b m).
Proof. intros Hm. unfold checked. destruct b; [done|apply safe_fail]. Qed.
Lemma safe_if {A} (b : bool) (m n : M CDB A) : safe m → safe n → safe (if b then m else n).
Proof. by destruct b. Qed.
Lemma safe_forM {A} (l : list A) f : (∀ a, safe (f a)) → safe (forM_ l f).
Proof. intros Hf. induction l as [|a l IH]; [apply safe_ret|]. apply safe_bind; [apply Hf|done]. Qed.

(** A transaction: begun and failed leaves the state, and so does a lost commit
    that did not happen; else what the body did. *)
Lemma safe_ctx {A} (m : M CDB A) : safe m → safe (ctx m).
Proof.
  intros Hm. apply safe_bind; [apply safe_cstmt, safe_ret|]. intros _ db. specialize (Hm db).
  destruct (m db) as [db2 [a|e]]; [|apply grows_faults]. unfold commit. cbn [fst] in Hm.
  destruct (c_faults db2) as [|[] fs]; cbn [fst]; try done; try apply grows_faults;
    (transitivity db2; [done|apply grows_faults]).
Qed.

(** Writes: what has to be shown of a change of the table. *)
Lemma grows_write g db :
  (reg_inv (shard_registry db) → evolves (shard_registry db) (g (shard_registry db)) ∧
     (∀ id s, (id, s) ∈ g (shard_registry db) → sh_ID s = id) ∧ StronglySorted Z.lt (g (shard_registry db)).*1) →
  grows db (write g db).1.
Proof.
  intros Hg. unfold write. destruct (indexes_ok _) eqn:E; [|reflexivity]. intros I. destruct (Hg I) as (H1 & H2 & H3).
  split; [by split|done|auto|auto].
Qed.

Lemma elem_tmap {A} id (g : A → A) (t : table A) k a :
  (k, a) ∈ tmap id g t → ∃ b, (k, b) ∈ t ∧ a = if k =? id then g b else b.
Proof.
  unfold tmap. intros ([k' b] & E & Hb)%list_elem_of_fmap. cbn in E. exists b.
  destruct (k' =? id) eqn:Ek; injection E as -> ->; by rw Ek.
Qed.

Lemma evolves_tmap id f t : (∀ s, tget id t = Some s → row_le s (f s)) → evolves t (tmap id f t).
Proof.
  intros Hf k s Hs. rw tget_tmap. destruct (Z.eqb_spec k id) as [->|_].
  - rw Hs. eexists. split; [done|auto].
  - exists s. split; [done|reflexivity].
Qed.

Lemma grows_tmap id f db :
  (∀ s, sh_ID (f s) = sh_ID s) → (∀ s, tget id (shard_registry db) = Some s → row_le s (f s)) →
  grows db (write (tmap id f) db).1.
Proof.
  intros Hid Hf. apply grows_write. intros I. split_and!; [by apply evolves_tmap| |rw tmap_keys; apply I].
  intros k s (b & Hb & ->)%elem_tmap. apply (rv_keys _ I) in Hb as <-. destruct (_ =? _); [apply Hid|done].
Qed.

Lemma grows_tput row db :
  (∀ s, tget (sh_ID row) (shard_registry db) = Some s → row_le s row) →
  grows db (write (tput (sh_ID row) row) db).1.
Proof.
  intros Hrow. apply grows_write. intros I. split_and!; [|intros k s [E|Hs]%in_tput; [congruence|by apply I]|apply tput_sorted, I].
  intros k s Hs. destruct (decide (sh_ID row = k)) as [<-|Hne].
  - rw tget_tput_eq. eauto.
  - rw tget_tput_ne //. exists s. split; [done|reflexivity].
Qed.

Lemma safe_tmap id f : (∀ s, row_le s (f s)) → safe (write (tmap id f)).
Proof. intros Hf db. apply grows_tmap; [intros s; symmetry; apply Hf|auto]. Qed.

Lemma row_le_urls p r s : row_le s (with_urls p r s).
Proof. by split_and!; [|left| |]. Qed.
Lemma row_le_seen now s : row_le s (with_seen now s).
Proof. by split_and!; [|left| |]. Qed.
Lemma row_le_error e s : row_le s (with_error e s).
Proof. by split_and!; [|left| |]. Qed.
Lemma row_le_seal total at_ s : row_le s (with_state ShardSealed total at_ s).
Proof. by split_and!; [|right; left| |]. Qed.
Lemma row_le_activate s : is_state ShardStandby s = true → row_le s (activate s).
Proof. intros E%String.eqb_eq. by split_and!; [|right; right| |]. Qed.

Create HintDb safe discriminated.
#[export] Hint Resolve safe_ret safe_fail safe_bind safe_gets safe_cstmt safe_int2 safe_checked safe_if safe_forM safe_ctx safe_tmap
  row_le_urls row_le_seen row_le_error row_le_seal : safe.

(** One statement, whatever happens to it. *)
Lemma cstmt_inv {A} (m : M CDB A) db db' r :
  cstmt m db = (db', r) → ∃ fs, (db' = set_faults fs db ∧ r = Err db_error) ∨
    ∃ r1, m (set_faults fs db) = (db', r1) ∧ (r = r1 ∨ r = Err db_error).
Proof.
  unfold cstmt. intros E.
  assert (db = set_faults (c_faults db) db) as Edb by by destruct db.
  destruct (c_faults db) as [|[] fs].
  - exists []. right. exists r. rw -Edb. auto.
  - exists fs. right. exists r. auto.
  - injection E as <- <-. exists fs. by left.
  - exists fs. right. destruct (m (set_faults fs db)) as [db2 r2]. cbn in E. injection E as <- <-. eauto.
Qed.

(** A query. *)
Lemma read_inv {A} (f : table ShardInfo → A) db db' r :
  cstmt (let! t := registry in mret (f t)) db = (db', r) →
  ∃ fs, db' = set_faults fs db ∧ (r = Ok (f (shard_registry db)) ∨ r = Err db_error).
Proof.
  intros (fs & [[-> ->]|(r1 & E & Hr)])%cstmt_inv; exists fs; [auto|]. injection E as <- <-. auto.
Qed.

Lemma int2_inv {A} z (m : M CDB A) db db' r :
  int2_arg z m db = (db', r) → (int2 z = true ∧ m db = (db', r)) ∨ (db' = db ∧ r = Err int_error).
Proof. unfold int2_arg. destruct (int2 z); [auto|]. intros [= <- <-]. auto. Qed.

Lemma safe_get0 : safe get.
Proof. intros db. reflexivity. Qed.

(** Walk through a body, one combinator at a time. *)
Ltac safe_step :=
  match goal with
  | |- safe (mret _) => apply safe_ret
  | |- safe (fail _) => apply safe_fail
  | |- safe get => apply safe_get0
  | |- safe (gets _) => apply safe_gets
  | |- safe registry => apply safe_gets
  | |- safe (_ ≫= _) => apply safe_bind; [|intros ?]
  | |- safe (cstmt _) => apply safe_cstmt
  | |- safe (ctx _) => apply safe_ctx
  | |- safe (int2_arg _ _) => apply safe_int2
  | |- safe (checked _ _) => apply safe_checked
  | |- safe (forM_ _ _) => apply safe_forM; intros ?
  | |- safe (write (tmap _ _)) => apply safe_tmap; intros ?; auto with safe
  | |- safe (match ?x with _ => _ end) => destruct x
  end.
Ltac safe := repeat safe_step; auto with safe.

Section Safe.
Context `{PG}.

Lemma safe_GetShard id : safe (GetShard id).
Proof. unfold GetShard. safe. Qed.
Lemma safe_GetShardByUUID u : safe (GetShardByUUID u).
Proof. unfold GetShardByUUID. safe. Qed.
Lemma safe_ActiveShard : safe ActiveShard.
Proof. unfold ActiveShard. safe. Qed.
Lemma safe_StandbyShards : safe StandbyShards.
Proof. unfold StandbyShards. safe. Qed.
Lemma safe_StandbyShard : safe StandbyShard.
Proof. pose proof safe_StandbyShards. unfold StandbyShard. safe. Qed.
Lemma safe_ListShards : safe ListShards.
Proof. unfold ListShards. safe. Qed.
Lemma safe_seal id total at_ : safe (SetShardState id ShardSealed total at_).
Proof. unfold SetShardState. safe. Qed.
Lemma safe_MarkShardReachable id : safe (MarkShardReachable id).
Proof. unfold MarkShardReachable. safe. Qed.
Lemma safe_MarkShardUnreachable id e : safe (MarkShardUnreachable id e).
Proof. unfold MarkShardUnreachable. safe. Qed.

Lemma safe_InsertGlobalPackage e : safe (InsertGlobalPackage e).
Proof.
  unfold InsertGlobalPackage. safe. intros db I. split; [done|reflexivity| |done]. cbn. intros g e' Hg.
  destruct (global_package_index db !! GlobalID e) eqn:E; [done|]. rw lookup_insert_ne; [congruence|done].
Qed.
Lemma safe_InsertGlobalXMLHashes id hs : safe (InsertGlobalXMLHashes id hs).
Proof.
  unfold InsertGlobalXMLHashes. safe. intros db I. split; [done|reflexivity|done|]. cbn. intros g e' Hg.
  match goal with |- context [<[?h := _]> _] => destruct (global_xml_index db !! h) eqn:E; [done|] end.
  rw lookup_insert_ne; [congruence|done].
Qed.
Lemma safe_FindShardByXMLHash h : safe (FindShardByXMLHash h).
Proof. pose proof safe_GetShard. unfold FindShardByXMLHash. safe. Qed.

Lemma safe_BootstrapFromFile shards : safe (BootstrapFromFile shards).
Proof.
  unfold BootstrapFromFile, seedShardFromBootstrap. safe. intros db. apply grows_write. intros I.
  set (row := match tget _ _ with Some _ => _ | None => _ end).
  assert (∀ o, tget (bs_ShardID a) (shard_registry db) = Some o → row_le o row ∧ sh_ID row = sh_ID o) as Hold.
  { intros o Ho. unfold row. cbn. rw Ho. split; [|done]. split_and!; [done|by left| |done]. cbn. intros u ->. done. }
  assert (sh_ID row = bs_ShardID a) as Hid.
  { destruct (tget (bs_ShardID a) (shard_registry db)) as [o|] eqn:Ho.
    - destruct (Hold _ eq_refl) as [_ ->]. by apply tget_Some_elem, (rv_keys _ I) in Ho.
    - unfold row. cbn. by rw Ho. }
  cbn [sh_ID]. split_and!; [|intros k s [E|Hs]%in_tput; [congruence|by apply I]|apply tput_sorted, I].
  intros k s Hs. destruct (decide (bs_ShardID a = k)) as [<-|Hne].
  - rw tget_tput_eq. exists row. split; [done|by apply Hold].
  - rw tget_tput_ne //. exists s. split; [done|reflexivity].
Qed.
End Safe.

(** The same at one state, where what was read is known. *)
Lemma grows_bind {A B} (m : M CDB A) (k : A → M CDB B) db :
  grows db (m db).1 → (∀ a, safe (k a)) → grows db ((m ≫= k) db).1.
Proof.
  intros Hm Hk. unfold mbind, M_bind. destruct (m db) as [db1 [a|e]]; [|done]. transitivity db1; [done|apply Hk].
Qed.
Lemma grows_cstmt {A} (m : M CDB A) db :
  (∀ fs, grows (set_faults fs db) (m (set_faults fs db)).1) → grows db (cstmt m db).1.
Proof.
  intros Hm. destruct (cstmt m db) as [db' r] eqn:E.
  apply cstmt_inv in E as (fs & [[-> _]|(r1 & E & _)]); [apply grows_faults|].
  transitivity (set_faults fs db); [apply grows_faults|]. specialize (Hm fs). by rw E in Hm.
Qed.
Lemma grows_read {A B} (f : table ShardInfo → A) (k : A → M CDB B) db :
  (∀ fs, grows (set_faults fs db) (k (f (shard_registry db)) (set_faults fs db)).1) →
  grows db ((cstmt (let! t := registry in mret (f t)) ≫= k) db).1.
Proof.
  intros Hk. destruct (cstmt (let! t := registry in mret (f t)) db) as [db1 r] eqn:E. pose proof E as (fs & -> & Hr)%read_inv.
  unfold mbind at 1, M_bind. rw E. destruct Hr as [->| ->]; [|apply grows_faults].
  transitivity (set_faults fs db); [apply grows_faults|apply Hk].
Qed.

Lemma grows_int2 {A B} z (m : M CDB A) (k : A → M CDB B) db :
  grows db ((m ≫= k) db).1 → grows db ((int2_arg z m ≫= k) db).1.
Proof. unfold int2_arg. destruct (int2 z); [done|reflexivity]. Qed.

Lemma evolves_fmap (h : Z * ShardInfo → Z * ShardInfo) t :
  (∀ ks, (h ks).1 = ks.1 ∧ row_le ks.2 (h ks).2) → evolves t (h <$> t).
Proof.
  intros Hh. induction t as [|[k a] t IH]; intros id s Hs; [done|]. destruct (Hh (k, a)) as [H1 H2].
  cbn in Hs |- *. destruct (h (k, a)) as [k' a']. cbn in H1, H2. subst k'.
  destruct (k =? id); [|by apply IH]. injection Hs as <-. by exists a'.
Qed.

Section Transactions.
Context `{PG}.

Lemma safe_RegisterShard u st p r : safe (RegisterShard u st p r).
Proof.
  apply safe_ctx. intros db. apply grows_read. intros fs. destruct (find_uuid _ _) as [old|].
  - apply grows_bind; [|intros _; pose proof (safe_GetShardByUUID u); safe].
    apply grows_cstmt. intros fs'. unfold checked. destruct (_ && _); [|reflexivity].
    unfold mbind, M_bind, get. apply grows_write. intros I. split_and!.
    + apply evolves_fmap. intros ks. case_bool_decide; split; cbn; try done; try reflexivity.
    + intros k s ([k' s'] & E & Hs)%list_elem_of_fmap. apply (rv_keys _ I) in Hs. cbn in E.
      case_bool_decide; injection E as -> ->; done.
    + rw -list_fmap_compose. erewrite list_fmap_ext; [apply I|]. intros ? ks _. cbn. by case_bool_decide.
  - apply grows_read. intros fs'. set (nextID := default _ _ + 1). unfold mbind at 1, M_bind, get.
    apply grows_bind; [|intros _; pose proof (safe_GetShard nextID); safe].
    unfold int2_arg. destruct (int2 nextID); [|reflexivity]. apply grows_cstmt. intros fs2.
    unfold checked. destruct (texts_ok _); [|reflexivity].
    match goal with |- grows _ (write (tput _ ?row) _).1 => apply (grows_tput row) end.
    cbn. intros s Hs%tget_Some_elem. apply (tmax_le (-1)) in Hs. exfalso. unfold nextID, tmax in Hs. cbn in Hs. lia.
Qed.

(** The rows a promotion leaves. *)
Definition sealed_by (tr : SealedShardTransition) : ShardInfo → ShardInfo :=
  fun s => with_error None (with_state ShardSealed (st_TotalBytes tr) (Some (st_SealedAt tr)) s).
Definition promoted (target : Z) (tr : option SealedShardTransition) (t : table ShardInfo) : table ShardInfo :=
  tmap target activate (match tr with Some tr => tmap (st_ShardID tr) (sealed_by tr) t | None => t end).

(** What a promotion requires: a standby target, and that the active shard the
    caller sealed (or that there is none) is still the active one. *)
Definition promotable (target : Z) (tr : option SealedShardTransition) (t : table ShardInfo) : Prop :=
  (∃ s, tget target t = Some s ∧ State s = ShardStandby) ∧
  sh_ID <$> other_active target t = st_ShardID <$> tr.

Lemma ctx_inv {A} (m : M CDB A) db db' r : ctx m db = (db', r) →
  ∃ fs, (∃ e, db' = set_faults fs db ∧ r = Err e) ∨
    ∃ fs0 db2 a, m (set_faults fs0 db) = (db2, Ok a) ∧ db' = set_faults fs db2 ∧ (r = Ok a ∨ r = Err db_error).
Proof.
  intros [(db1 & u & E1 & E2)|(e & E1 & ->)]%bind_inv; cycle 1.
  { apply cstmt_inv in E1 as (fs & [[-> _]|(r1 & E1 & Hr)]); [eauto|]. injection E1 as <- <-. eauto. }
  apply cstmt_inv in E1 as (fs0 & [[_ ?]|(r1 & E1 & Hr)]); [done|]. injection E1 as <- <-.
  destruct (m (set_faults fs0 db)) as [db2 [a|e]] eqn:Em; [|injection E2 as <- <-; eauto].
  unfold commit in E2. assert (db2 = set_faults (c_faults db2) db2) as Edb by by destruct db2.
  destruct (c_faults db2) as [|[] fs]; injection E2 as <- <-; eauto 10.
Qed.

Lemma write_inv g db db' r :
  write g db = (db', r) → (r = Ok tt ∧ db' = set_registry g db ∧ indexes_ok (g (shard_registry db)) = true) ∨
    (db' = db ∧ is_ok r = false).
Proof. unfold write. destruct (indexes_ok _) eqn:E; intros [= <- <-]; auto. Qed.

(** A successful write, in a transaction or not. *)
Lemma write_ok z g db db' :
  int2_arg z (cstmt (write g)) db = (db', Ok tt) →
  ∃ fs, db' = set_registry g (set_faults fs db) ∧ indexes_ok (g (shard_registry db)) = true.
Proof.
  intros [[_ E]|[_ ?]]%int2_inv; [|done].
  apply cstmt_inv in E as (fs & [[_ ?]|(r1 & E & [<-|?])]); try done.
  apply write_inv in E as [(_ & -> & Hi)|(_ & ?)]; [eauto|done].
Qed.

Lemma GetShard_inv id db db' r :
  GetShard id db = (db', r) → ∃ fs, db' = set_faults fs db ∧ (r = Ok (tget id (shard_registry db)) ∨ is_ok r = false).
Proof.
  intros [[_ E]|[-> ->]]%int2_inv; [|exists (c_faults db); split; [by destruct db|auto]].
  apply read_inv in E as (fs & -> & [->| ->]); eauto.
Qed.

(** The sealing of the active shard that a promotion starts with. *)
Lemma promote_seal_ok target sealedActive cur db db' :
  (match sealedActive with
   | Some tr => match cur with
       | None => fail ErrConflict
       | Some cur => if negb (sh_ID cur =? st_ShardID tr) then fail ErrConflict else
           int2_arg (st_ShardID tr) (cstmt (write (tmap (st_ShardID tr) (sealed_by tr))))
       end
   | None => match cur with Some _ => fail ErrConflict | None => mret tt end
   end) db = (db', Ok tt) → cur = other_active target (shard_registry db) →
  sh_ID <$> other_active target (shard_registry db) = st_ShardID <$> sealedActive ∧
  shard_registry db' = match sealedActive with Some tr => tmap (st_ShardID tr) (sealed_by tr) (shard_registry db) | None => shard_registry db end ∧
  global_package_index db' = global_package_index db ∧ global_xml_index db' = global_xml_index db.
Proof.
  intros E ->. destruct sealedActive as [tr|], (other_active target (shard_registry db)) as [c|]; try done.
  - destruct (sh_ID c =? st_ShardID tr) eqn:Ec; [|done]. apply Z.eqb_eq in Ec. cbn [negb] in E.
    apply write_ok in E as (fs & -> & _). split_and!; try done. cbn. by rw Ec.
  - by injection E as <-.
Qed.

(** A promotion is atomic: it happens as a whole, on a registry that allows it, or
    not at all; only a lost answer leaves the caller in doubt. *)
Lemma PromoteStandby_inv target tr db db' r :
  PromoteStandby target tr db = (db', r) →
  global_package_index db' = global_package_index db ∧ global_xml_index db' = global_xml_index db ∧
  ((shard_registry db' = shard_registry db ∧ is_ok r = false) ∨
   (shard_registry db' = promoted target tr (shard_registry db) ∧ promotable target tr (shard_registry db) ∧
    indexes_ok (shard_registry db') = true ∧
    (r = Ok (tget target (shard_registry db')) ∨ r = Err db_error))).
Proof.
  intros (fs & [(e & -> & ->)|(fs0 & db2 & a & E & -> & Hr)])%ctx_inv; [by auto|].
  apply bind_inv in E as [(d1 & tg & E1 & E)|(? & _ & ?)]; [|done].
  apply GetShard_inv in E1 as (fs1 & -> & [Htg|?]); [|done]. injection Htg as ->. cbn in E.
  destruct (tget target (shard_registry db)) as [s|] eqn:Hs; [|done].
  destruct (is_state ShardStandby s) eqn:Hst; [|done]. cbn [negb] in E.
  apply bind_inv in E as [(d2 & cur & E2 & E)|(? & _ & ?)]; [|done].
  apply int2_inv in E2 as [[_ E2]|[_ ?]]; [|done].
  apply read_inv in E2 as (fs2 & -> & [Hcur|?]); [|done]. injection Hcur as ->.
  apply bind_inv in E as [(d3 & [] & E3 & E)|(? & _ & ?)]; [|done].
  apply (promote_seal_ok target) in E3 as (P1 & P2 & P3 & P4); [|done]. cbn in P1, P2, P3, P4.
  apply bind_inv in E as [(d4 & [] & E4 & E)|(? & _ & ?)]; [|done].
  apply write_ok in E4 as (fs4 & -> & Hi).
  apply GetShard_inv in E as (fs5 & -> & [Ha|?]); [|done]. injection Ha as ->. cbn in Hi, Hr |- *.
  split_and!; [done|done|]. right. unfold promoted. rw P2 in Hi Hr *. split_and!; try done.
  split; [|done]. exists s. split; [done|]. by apply String.eqb_eq in Hst.
Qed.
End Transactions.

Section Lifecycle.
Context `{PG}.

Lemma other_active_spec target t c : other_active target t = Some c →
  ∃ k, (k, c) ∈ t ∧ k ≠ target ∧ State c = ShardActive.
Proof.
  unfold other_active. destruct (filter _ t) as [|[k c'] l] eqn:E; [done|]. intros [= ->].
  assert ((k, c) ∈ filter (fun ks => is_state ShardActive ks.2 = true ∧ ks.1 ≠ target) t) as Hin by (rw E; by left).
  apply list_elem_of_filter in Hin as [[H1 H2] H3]. exists k. split_and!; try done. by apply String.eqb_eq.
Qed.

(** The shard a promotion seals is not the one it promotes. *)
Lemma promotable_other target tr t :
  reg_inv t → promotable target (Some tr) t → st_ShardID tr ≠ target.
Proof.
  intros I [_ Ho]. destruct (other_active target t) as [c|] eqn:E; [|done]. injection Ho as <-.
  apply other_active_spec in E as (k & Hk & Hne & _). by rw (rv_keys _ I _ _ Hk).
Qed.

Lemma tget_promoted target tr t id : reg_inv t → promotable target tr t →
  tget id (promoted target tr t) =
    if id =? target then activate <$> tget id t else
    match tr with Some tr => if id =? st_ShardID tr then sealed_by tr <$> tget id t else tget id t | None => tget id t end.
Proof.
  intros I P. unfold promoted. rw tget_tmap. destruct tr as [tr|]; [|done]. rw tget_tmap.
  pose proof (promotable_other _ _ _ I P). destruct (id =? target) eqn:E; [|done].
  by replace (id =? st_ShardID tr) with false by lia.
Qed.

Lemma grows_promoted target tr db db' : reg_inv (shard_registry db) → promotable target tr (shard_registry db) →
  shard_registry db' = promoted target tr (shard_registry db) → indexes_ok (shard_registry db') = true →
  evolves (shard_registry db) (shard_registry db') ∧ reg_inv (shard_registry db').
Proof.
  intros I P E Hi. assert (evolves (shard_registry db) (shard_registry db')) as Hev.
  { intros id s Hs. rw E tget_promoted //. rw Hs. destruct (Z.eqb_spec id target) as [->|_].
    - destruct P as [(s' & Hs' & Hst) _]. rw Hs in Hs'. injection Hs' as <-.
      eexists. split; [done|]. apply row_le_activate. unfold is_state. by rw Hst.
    - destruct tr as [tr|]; [|exists s; split; [done|reflexivity]].
      destruct (id =? st_ShardID tr); eexists; (split; [done|]); [by split_and!; [|right; left| |]|reflexivity]. }
  split; [done|]. split; [done| |].
  - rw E /promoted. intros id s (b & Hb & ->)%elem_tmap.
    destruct tr as [tr|]; [apply elem_tmap in Hb as (b' & Hb & ->)|]; apply (rv_keys _ I) in Hb; by repeat destruct (_ =? _).
  - rw E /promoted tmap_keys. destruct tr; [rw tmap_keys|]; apply I.
Qed.

Lemma safe_PromoteStandby target tr : safe (PromoteStandby target tr).
Proof.
  intros db I. destruct (PromoteStandby target tr db) as [db' r] eqn:E. cbn.
  apply PromoteStandby_inv in E as (E1 & E2 & [[E3 _]|(E3 & P & Hi & _)]).
  - split; rw ?E1 ?E2 ?E3; done || reflexivity.
  - destruct (grows_promoted _ _ _ _ I P E3 Hi). split; rw ?E1 ?E2; done.
Qed.

Lemma active_only t k s :
  indexes_ok t = true → (k, s) ∈ t → State s = ShardActive → actives t = [(k, s)].
Proof.
  intros [Hi _]%andb_prop Hin Hst.
  assert ((k, s) ∈ actives t) as Ha by (apply list_elem_of_filter; split; [by rw /is_state Hst|done]).
  destruct (actives t) as [|x [|y l]]; [by apply not_elem_of_nil in Ha|by apply list_elem_of_singleton in Ha as ->|].
  exfalso. rw !zlen_cons in Hi. pose proof (zlen_nonneg l). lia.
Qed.

(** A promotion is all or nothing.  Either the registry is as it was and the
    caller has an error, or the target was standby and the sealed shard was still
    the active one; then the target is active, and the only active shard, the
    other is sealed with the size and time it was sealed at, no other row has
    changed, and the caller gets the new row (or a lost answer). *)
Theorem PromoteStandby_atomic target tr db db' r :
  reg_inv (shard_registry db) → PromoteStandby target tr db = (db', r) →
  let t := shard_registry db in let t' := shard_registry db' in
  reg_inv t' ∧
  ((t' = t ∧ is_ok r = false) ∨
   (promotable target tr t ∧ (r = Ok (tget target t') ∨ r = Err db_error) ∧
    (∃ s, tget target t = Some s ∧ actives t' = [(target, activate s)]) ∧
    ∀ id, id ≠ target → tget id t' =
      match tr with Some tr => if id =? st_ShardID tr then sealed_by tr <$> tget id t else tget id t | None => tget id t end)).
Proof.
  intros I E t t'. split. { pose proof (safe_PromoteStandby target tr db I) as G. rw E in G. apply G. }
  apply PromoteStandby_inv in E as (_ & _ & [?|(E & P & Hi & Hr)]); [by left|right].
  split_and!; [done|done| |].
  - destruct P as [(s & Hs & Hst) Ho] eqn:EP. exists s. split; [done|]. apply active_only; [done| |done].
    apply tget_Some_elem. by rw /t' E tget_promoted // Z.eqb_refl Hs.
  - intros id Hid. rw /t' E tget_promoted //. by replace (id =? target) with false by lia.
Qed.

Lemma grows_activate id db s :
  tget id (shard_registry db) = Some s → is_state ShardStandby s = true → grows db (write (tmap id activate) db).1.
Proof. intros Hs Hst. apply grows_tmap; [done|]. rw Hs. intros ? [= <-]. by apply row_le_activate. Qed.

Lemma safe_RepoPatchShardState id st confirm : safe (RepoPatchShardState id st confirm).
Proof.
  apply safe_ctx. intros db. apply grows_int2, grows_read. intros fs.
  destruct (tget id (shard_registry db)) as [s|] eqn:Hs; [|reflexivity].
  unfold mbind at 1, M_bind, get. apply grows_bind; [|intros _; apply safe_GetShard].
  assert (∀ k now, safe (int2_arg k (cstmt (write (tmap k (seal_row now)))))) as Hseal by (intros; unfold seal_row; safe).
  destruct (st =? ShardSealed)%string; [destruct (negb _); [reflexivity|apply Hseal]|].
  destruct (st =? ShardActive)%string; [|reflexivity].
  destruct (is_state ShardStandby s) eqn:Hst; [|reflexivity]. destruct confirm; [|reflexivity]. cbn [negb orb].
  apply grows_int2, grows_read. intros fs1.
  assert (∀ d, tget id (shard_registry d) = Some s → grows d (int2_arg id (cstmt (write (tmap id activate))) d).1) as Hact.
  { intros d Hd. unfold int2_arg. destruct (int2 id); [|reflexivity].
    apply grows_cstmt. intros fs2. by apply (grows_activate id _ s). }
  destruct (other_active _ _) as [c|] eqn:Hc; [|by apply Hact].
  intros I. cbn in Hc. apply other_active_spec in Hc as (k & Hk & Hne & _). apply (rv_keys _ I) in Hk. subst k. revert I.
  match goal with |- reg_inv (shard_registry ?d) → grew ?d (?m ?d).1 => change (grows d (m d).1) end.
  unfold mbind, M_bind. match goal with |- context [int2_arg ?z ?m ?d] => destruct (int2_arg z m d) as [d1 r] eqn:E; pose proof (Hseal z (c_clock (set_faults fs db)) d) as H1 end.
  rw E in H1. destruct r as [[]|e]; [|done]. transitivity d1; [done|]. apply Hact.
  apply write_ok in E as (fs2 & -> & _). cbn. rw tget_tmap. by replace (id =? sh_ID c) with false by lia.
Qed.
End Lifecycle.

(** ** Registration *)
Section Registration.
Context `{PG}.

Lemma find_uuid_spec u t s : find_uuid u t = Some s → ShardUUID s = Some u ∧ ∃ k, (k, s) ∈ t.
Proof.
  unfold find_uuid. destruct (filter _ t) as [|[k s'] l] eqn:E; [done|]. intros [= ->].
  assert ((k, s) ∈ filter (fun ks : Z * ShardInfo => ShardUUID ks.2 = Some u) t) as Hin by (rw E; by left).
  apply list_elem_of_filter in Hin as [? ?]. eauto.
Qed.

Lemma find_uuid_some u t k s : (k, s) ∈ t → ShardUUID s = Some u → is_Some (find_uuid u t).
Proof.
  intros Hin Hu. unfold find_uuid.
  assert ((k, s) ∈ filter (fun ks : Z * ShardInfo => ShardUUID ks.2 = Some u) t) as Hf by (by apply list_elem_of_filter).
  destruct (filter _ t); [by apply not_elem_of_nil in Hf|by eexists].
Qed.

(** The row of a uuid is unique, by the index. *)
Lemma uuid_unique t k k' s s' u : reg_inv t → (k, s) ∈ t → (k', s') ∈ t → ShardUUID s = Some u → ShardUUID s' = Some u → k = k'.
Proof.
  intros I Hin Hin' Hs Hs'. pose proof (rv_index _ I) as Hd. apply andb_prop in Hd as [_ Hd]. apply bool_decide_eq_true in Hd.
  unfold uuids in Hd. clear I. induction t as [|[k0 s0] t IH]; [by apply not_elem_of_nil in Hin|]. cbn in Hd.
  assert (∀ k1 s1, (k1, s1) ∈ t → ShardUUID s1 = Some u → u ∈ omap (fun ks : Z * ShardInfo => ShardUUID ks.2) t) as Hmem.
  { intros k1 s1 ? ?. apply list_elem_of_omap. by exists (k1, s1). }
  apply elem_of_cons in Hin as [[= -> ->]|Hin], Hin' as [[= -> ->]|Hin']; try done.
  - rewrite -> Hs in Hd. apply NoDup_cons in Hd as [Hd _]. destruct Hd. by eapply Hmem.
  - rewrite -> Hs' in Hd. apply NoDup_cons in Hd as [Hd _]. destruct Hd. by eapply Hmem.
  - apply IH; try done. destruct (ShardUUID s0); [by apply NoDup_cons in Hd as [_ ?]|done].
Qed.

(** Statements that find no fault leave none. *)
Definition healthy {A} (m : M CDB A) : Prop := ∀ db, c_faults db = [] → c_faults (m db).1 = [].

Lemma healthy_ret {A} (a : A) : healthy (mret a).
Proof. by intros db. Qed.
Lemma healthy_fail {A} e : healthy (fail (A := A) e).
Proof. by intros db. Qed.
Lemma healthy_gets {A} (f : CDB → A) : healthy (gets f).
Proof. by intros db. Qed.
Lemma healthy_get : healthy get.
Proof. by intros db. Qed.
Lemma healthy_bind {A B} (m : M CDB A) (k : A → M CDB B) : healthy m → (∀ a, healthy (k a)) → healthy (m ≫= k).
Proof.
  intros Hm Hk db Hf. specialize (Hm db Hf). unfold mbind, M_bind. destruct (m db) as [db1 [a|e]]; [by apply Hk|done].
Qed.
Lemma healthy_cstmt {A} (m : M CDB A) : healthy m → healthy (cstmt m).
Proof. intros Hm db Hf. unfold cstmt. rw Hf. by apply Hm. Qed.
Lemma healthy_write g : healthy (write g).
Proof. intros db Hf. unfold write. by destruct (indexes_ok _). Qed.
Lemma healthy_int2 {A} z (m : M CDB A) : healthy m → healthy (int2_arg z m).
Proof. intros Hm. unfold int2_arg. destruct (int2 z); [done|apply healthy_fail]. Qed.
Lemma healthy_checked {A} b (m : M CDB A) : healthy m → healthy (checked b m).
Proof. intros Hm. unfold checked. destruct b; [done|apply healthy_fail]. Qed.
End Registration.

Create HintDb healthy discriminated.
#[export] Hint Resolve healthy_ret healthy_fail healthy_gets healthy_get healthy_write : healthy.
Ltac healthy_step :=
  match goal with
  | |- healthy (let _ := _ in _) => cbv zeta
  | |- healthy (_ ≫= _) => apply healthy_bind; [|intros ?]
  | |- healthy (cstmt _) => apply healthy_cstmt
  | |- healthy (int2_arg _ _) => apply healthy_int2
  | |- healthy (checked _ _) => apply healthy_checked
  | |- healthy registry => apply healthy_gets
  | |- healthy (GetShard _) => unfold GetShard
  | |- healthy (GetShardByUUID _) => unfold GetShardByUUID
  | |- healthy (match ?x with _ => _ end) => destruct x
  | _ => solve [auto with healthy]
  end.
Ltac healthy := repeat healthy_step.

Section Transacted.
Context `{PG}.

(** Without faults, a transaction is its body, or nothing. *)
Lemma ctx_healthy {A} (m : M CDB A) db db' r : c_faults db = [] → healthy m → ctx m db = (db', r) →
  c_faults db' = [] ∧ ((db' = db ∧ is_ok r = false) ∨ (is_ok r = true ∧ m db = (db', r))).
Proof.
  intros Hf Hm. unfold ctx, cstmt, commit. munfold. rw Hf. specialize (Hm db Hf).
  destruct (m db) as [db2 [a|e]]; cbn in Hm; rw Hm; intros [= <- <-]; [by auto|]. cbn. split; [done|left]. split; [|done].
  rewrite <- Hf. by destruct db.
Qed.

Lemma PromoteStandby_healthy target tr db db' r : c_faults db = [] → PromoteStandby target tr db = (db', r) →
  c_faults db' = [] ∧ ((db' = db ∧ is_ok r = false) ∨
    (shard_registry db' = promoted target tr (shard_registry db) ∧ promotable target tr (shard_registry db) ∧
     indexes_ok (shard_registry db') = true ∧ r = Ok (tget target (shard_registry db')))).
Proof.
  intros Hf E. pose proof E as (_ & _ & Hi)%PromoteStandby_inv.
  apply ctx_healthy in E as [Hf' [?|[Hr _]]]; [by auto| |done|healthy]. split; [done|right].
  destruct Hi as [[_ He]|(H1 & H2 & H3 & [H4|He])]; [by rw He in Hr|done|by subst r].
Qed.

(** The row with this uuid, told where the shard is now. *)
Lemma registered_again u t old now p r :
  find_uuid u t = Some old →
  let f := fun ks : Z * ShardInfo => if bool_decide (ShardUUID ks.2 = Some u) then (ks.1, with_seen now (with_urls p r ks.2)) else ks in
  ∃ s k, find_uuid u (f <$> t) = Some s ∧ ShardUUID s = Some u ∧ (k, s) ∈ f <$> t ∧ LastError s = None ∧
    (reg_inv t → is_Some (tget k t) ∧ ∀ id, id ≠ k → tget id (f <$> t) = tget id t).
Proof.
  intros (Hu & k & Hin)%find_uuid_spec f.
  assert (is_Some (find_uuid u (f <$> t))) as [s Hs].
  { eapply find_uuid_some; [apply list_elem_of_fmap; exists (k, old); split; [|exact Hin]|].
    - unfold f. cbn. rewrite -> bool_decide_true by done. reflexivity.
    - done. }
  destruct (find_uuid_spec _ _ _ Hs) as (Hu' & k' & Hin'). exists s, k'. split_and!; try done.
  - apply list_elem_of_fmap in Hin' as ([k0 s0] & E & _). unfold f in E. cbn in E. case_bool_decide; injection E as -> ->; done.
  - intros I. apply list_elem_of_fmap in Hin' as ([k0 s0] & E & Hin0).
    assert (k0 = k' ∧ ShardUUID s0 = Some u) as [-> Hu0].
    { unfold f in E. cbn in E. case_bool_decide; injection E as -> ->; done. }
    split; [exists s0; apply tget_elem; [apply sorted_nodup, I|done]|]. intros id Hid.
    assert (∀ x, (id, x) ∈ t → f (id, x) = (id, x)) as Hf.
    { intros x Hx. unfold f. cbn. rewrite -> bool_decide_false; [done|]. intros Hux. destruct Hid. by eapply uuid_unique. }
    clear - Hf. induction t as [|[i x] t IH]; [done|]. cbn [fmap list_fmap].
    assert (tget id (f <$> t) = tget id t) as IH' by (apply IH; intros; apply Hf; by right).
    destruct (decide (i = id)) as [->|Hne].
    + rewrite -> (Hf x) by (by left). cbn. by rewrite -> Z.eqb_refl.
    + assert ((f (i, x)).1 = i) as Ei by (unfold f; cbn; by case_bool_decide). destruct (f (i, x)) as [i' x']. cbn in Ei |- *. subst i'.
      replace (i =? id) with false by lia. exact IH'.
Qed.

(** What [RegisterShard] returns is the row it left, marked as seen; without faults
    no other row has changed. *)
Lemma RegisterShard_ok u st p r db db' o c :
  RegisterShard u st p r db = (db', Ok (o, c)) →
  ∃ s k, o = Some s ∧ ShardUUID s = Some u ∧ (k, s) ∈ shard_registry db' ∧ LastError s = None ∧
    (reg_inv (shard_registry db) → (is_Some (tget k (shard_registry db)) ∨ int2 k = true) ∧ ∀ id, id ≠ k → tget id (shard_registry db') = tget id (shard_registry db)).
Proof.
  intros (fs & [(? & _ & ?)|(fs0 & db2 & a & E & -> & [Hr|?])])%ctx_inv; try done. injection Hr as <-.
  apply bind_inv in E as [(d1 & ex & E1 & E)|(? & _ & ?)]; [|done].
  apply read_inv in E1 as (fs1 & -> & [Hex|?]); [|done]. injection Hex as ->. destruct (find_uuid u _) as [old|] eqn:Hold.
  - apply bind_inv in E as [(d2 & [] & E2 & E)|(? & _ & ?)]; [|done].
    apply bind_inv in E as [(d3 & up & E3 & E)|(? & _ & ?)]; [|done]. injection E as <- <- <-.
    apply read_inv in E3 as (fs3 & -> & [Hup|?]); [|done]. injection Hup as ->. cbn.
    apply cstmt_inv in E2 as (fs2 & [[_ ?]|(r1 & E2 & [<-|?])]); try done. unfold checked in E2. destruct (_ && _); [|done].
    unfold mbind, M_bind, get in E2. apply write_inv in E2 as [(_ & -> & _)|[_ ?]]; [|done]. cbn in *.
    destruct (registered_again _ _ _ (c_clock db) p r Hold) as (s & k & H1 & H2 & H3 & H4 & H5). exists s, k. split_and!; try done.
    intros I. destruct (H5 I). auto.
  - apply bind_inv in E as [(d2 & nid & E2 & E)|(? & _ & ?)]; [|done]. apply read_inv in E2 as (fs2 & -> & [Hn|?]); [|done].
    apply bind_inv in E as [(d3 & db0 & [= <- <-] & E)|(? & _ & ?)]; [|done].
    apply bind_inv in E as [(d4 & [] & E4 & E)|(? & _ & ?)]; [|done].
    apply bind_inv in E as [(d5 & cr & E5 & E)|(? & _ & ?)]; [|done]. injection E as <- <- <-.
    apply GetShard_inv in E5 as (fs5 & -> & [Hc|?]); [|done]. injection Hc as ->.
    apply int2_inv in E4 as [[Hi E4]|[_ ?]]; [|done].
    apply cstmt_inv in E4 as (fs4 & [[_ ?]|(r1 & E4 & [<-|?])]); try done. unfold checked in E4. destruct (texts_ok _); [|done].
    apply write_inv in E4 as [(_ & -> & _)|[_ ?]]; [|done]. cbn. rw tget_tput_eq. do 2 eexists. split_and!; [done|done| |done|].
    + apply tget_Some_elem, tget_tput_eq.
    + intros _. split; [by right|]. intros id Hid. by rw tget_tput_ne.
Qed.
End Transacted.

(** ** A concrete registry *)
Section Demo.
#[local] Instance every_text : PG := {| text_ok _ _ := true |}.

Definition demo_shard (id : Z) (st : string) : ShardInfo :=
  MkShard id (Some ("uuid-" +:+ Itoa id)) st ("http://shard-" +:+ Itoa id) None 0 None None None 5.
Definition demo_cdb (fs : list outcome) : CDB :=
  MkCDB [(1, demo_shard 1 ShardActive); (2, demo_shard 2 ShardStandby)] ∅ ∅ 100 fs.

Lemma demo_reg_inv fs : reg_inv (shard_registry (demo_cdb fs)).
Proof.
  split; [by vm_compute| |repeat constructor; lia].
  intros id s [[= -> ->]|[[= -> ->]|[]%not_elem_of_nil]%elem_of_cons]%elem_of_cons; done.
Qed.

Lemma PromoteStandby_atomic_witness :
  let tr := MkSealed 1 640 99 in
  let x := PromoteStandby 2 (Some tr) (demo_cdb []) in
  is_ok x.2 = true ∧ actives (shard_registry x.1) = [(2, activate (demo_shard 2 ShardStandby))].
Proof.
  intros tr x. split; [by vm_compute|].
  destruct (PromoteStandby_atomic 2 (Some tr) (demo_cdb []) x.1 x.2 (demo_reg_inv []) (surjective_pairing x))
    as [_ [[_ H]|(_ & _ & (s & Hs & H) & _)]]; [by vm_compute in H|].
  rewrite -> H. injection Hs as <-. reflexivity.
Defined.
End Demo.
