(* ===== verification/Registry.v ===== *)
(** * The coordinator's control plane: internal/coordinator/registry.go

    The registry decides which shard takes uploads, seals and rotates shards, and
    routes uploads and downloads.  Its state is the coordinator's database, the
    shards behind the network ([w_net], one answer per request, and [w_log], the
    requests sent, each with the rows of the registry at that time), and what other sessions of the database do in between
    ([w_env], one batch before each call of the repository): other requests of
    this coordinator, or other coordinators.  [rotationMu] is a lock that notes
    misuse; the interference it excludes is a part of what [w_env] allows.
    [w_metrics] are the gauges of Metrics.v the handlers report to.  Logging is left
    out. *)
From S2P Require Import Prelude GoLib Hash Ids Metadata ShardRepo Metrics.

(** ** Values of encoding/json *)
#[warnings="-register-all"] Inductive any (F : Type) : Type :=
  | ANil
  | ABool (b : bool)
  | AFloat (f : F)
  | AInt (z : Z)
  | AString (s : string)
  | ASlice (l : list (any F))
  | AMap (m : list (string * any F)).
Arguments ANil {F}. Arguments ABool {F} b. Arguments AFloat {F} f. Arguments AInt {F} z.
Arguments AString {F} s. Arguments ASlice {F} l. Arguments AMap {F} m.

Fixpoint jget {F} (k : string) (m : list (string * any F)) : any F :=
  match m with
  | [] => ANil
  | (k', v) :: m' => if (k' =? k)%string then v else jget k m'
  end.
Fixpoint jset {F} (k : string) (v : any F) (m : list (string * any F)) : list (string * any F) :=
  match m with
  | [] => [(k, v)]
  | (k', v') :: m' => if (k' =? k)%string then (k, v) :: m' else (k', v') :: jset k v m'
  end.

Record shardStats : Set := MkStats { ss_ShardID : Z; ss_Role : string; ss_ReadOnly : bool; ss_TotalBytes : Z }.

(** The library functions the registry calls: JSON, URLs and times. *)
Class CoordLib := {
  float64 : Type;
  f64_int64 : float64 → Z;
  json_map : bytes → result (option (list (string * any float64)));
  json_bytes : any float64 → result bytes;
  json_stats : bytes → option error → result shardStats;
  (** [url.Parse], which [http.NewRequest] calls too. *)
  url_parse : string → result unit;
  (** [Query], [Set] of each pair, [Encode], [String]. *)
  url_with : string → list (string * string) → string;
  (** [time.Parse(time.RFC3339, s)]. *)
  rfc3339 : string → option Z;
}.

(** ** The network *)
Record Response : Type := MkResp {
  StatusCode : Z; rs_Status : string; ContentType : string; Body : bytes; BodyErr : option error }.
Inductive reply : Type := NoAnswer (e : error) | Answer (r : Response).
Inductive method : Set := GET | POST.
Record Request : Type := MkReq { rq_method : method; rq_url : string; rq_key : option string; rq_body : bytes }.

(** ** What other sessions do to the database *)
Inductive repo_op : Type :=
  | OpRegister (shardUUID primaryURL : string) (replicaURL : option string)
  | OpPromote (target : Z) (tr : option SealedShardTransition)
  | OpPatch (shardID : Z) (nextState : string) (confirm : bool)
  | OpSeal (shardID totalBytes : Z) (sealedAt : option Z)
  | OpSetActive (shardID totalBytes : Z)
  | OpReachable (shardID : Z)
  | OpUnreachable (shardID : Z) (lastErr : string)
  | OpInsert (e : GlobalPackageIndex)
  | OpBootstrap (shards : list BootstrapShard).

Definition run_op `{PG} (op : repo_op) : M CDB unit :=
  match op with
  | OpRegister u p r => ignore (RegisterShard u ShardStandby p r)
  | OpPromote id tr => ignore (PromoteStandby id tr)
  | OpPatch id st c => ignore (RepoPatchShardState id st c)
  | OpSeal id total at_ => ignore (SetShardState id ShardSealed total at_)
  | OpSetActive id total => ignore (SetShardState id ShardActive total None)
  | OpReachable id => ignore (MarkShardReachable id)
  | OpUnreachable id e => ignore (MarkShardUnreachable id e)
  | OpInsert e => ignore (InsertGlobalPackage e)
  | OpBootstrap shards => ignore (BootstrapFromFile shards)
  end.

(** [sync.Mutex], as this goroutine uses it. *)
Inductive mutex : Set := Free | Held | Misused.

Record World : Type := MkWorld {
  w_db : CDB;
  w_net : list reply;
  w_log : list (Request * table ShardInfo);
  w_env : list (list repo_op);
  w_now : Z;
  w_mu : mutex;
  w_metrics : CoordMetrics;
}.

Definition set_db (db : CDB) (w : World) : World := MkWorld db (w_net w) (w_log w) (w_env w) (w_now w) (w_mu w) (w_metrics w).
Definition set_mu (mu : mutex) (w : World) : World := MkWorld (w_db w) (w_net w) (w_log w) (w_env w) (w_now w) mu (w_metrics w).
Definition set_metrics (m : CoordMetrics) (w : World) : World := MkWorld (w_db w) (w_net w) (w_log w) (w_env w) (w_now w) (w_mu w) m.

Definition Lock : M World unit := modify (fun w => set_mu (match w_mu w with Free => Held | _ => Misused end) w).
Definition Unlock : M World unit := modify (fun w => set_mu (match w_mu w with Held => Free | _ => Misused end) w).
(** [defer mu.Unlock()]. *)
Definition deferred_unlock {A} (m : M World A) : M World A :=
  let! r := try m in do! Unlock; lift_result r.

Section Registry.
Context `{PG} `{CoordLib}.
Context (shardMaxBytes : Z) (clusterKey : string).

Definition interfere : M World unit := fun w =>
  match w_env w with
  | [] => (w, Ok tt)
  | ops :: rest => (MkWorld (forM_ ops run_op (w_db w)).1 (w_net w) (w_log w) rest (w_now w) (w_mu w) (w_metrics w), Ok tt)
  end.

(** A call of the repository. *)
Definition repo {A} (m : M CDB A) : M World A := do! interfere; zoom w_db set_db m.

(** [http.NewRequest] and [client.Do]. *)
Definition client_Do (rq : Request) : M World Response := fun w =>
  let '(r, rest) := match w_net w with [] => (NoAnswer (errorf "connection refused"), []) | r :: l => (r, l) end in
  (MkWorld (w_db w) rest (w_log w ++ [(rq, shard_registry (w_db w))]) (w_env w) (w_now w) (w_mu w) (w_metrics w),
   match r with NoAnswer e => Err e | Answer a => Ok a end).
Definition NewRequest (m : method) (url : string) (key : option string) (body : bytes) : M World Request :=
  do! lift_result (url_parse url); mret (MkReq m url key body).
Definition setInternalAuth : option string := if (clusterKey =? "")%string then None else Some clusterKey.

(** A report to the metrics; and what the handlers do when a shard has answered, and
    when it has not: the row is marked, whether that fails or not, and the gauges
    are told. *)
Definition tell (f : CoordMetrics → CoordMetrics) : M World unit := modify (fun w => set_metrics (f (w_metrics w)) w).
Definition tell_up (id : Z) (state : string) : M World unit := tell (SetCoordinatorShardUp (Itoa id) state true).
Definition tell_failure (id : Z) (op : string) : M World unit := tell (IncCoordinatorShardFailures (Itoa id) op).
Definition mark_up (id : Z) (state : string) : M World unit :=
  do! ignore (repo (MarkShardReachable id));
  tell_up id state.
Definition mark_down (id : Z) (state : string) (why op : string) : M World unit :=
  do! ignore (repo (MarkShardUnreachable id why));
  do! tell (SetCoordinatorShardUp (Itoa id) state false);
  tell_failure id op.

(** A nil pointer where a row was expected. *)
Definition deref {A} (o : option A) : M World A := match o with Some a => mret a | None => fail nil_dereference end.

Definition joinf (e1 e2 : error) : error := Error (err_msg e1 +:+ ": " +:+ err_msg e2) (err_wraps e1 ++ err_wraps e2).
Definition ErrRotation : error := Error "rotation incomplete" [ErrRotationIncomplete].
Definition ErrNoStandby : error := Error "no standby shard available" [ErrNoStandbyShard].

Definition ReadURL (shard : ShardInfo) : string :=
  match ReplicaURL shard with
  | Some r => if is_state ShardSealed shard && negb (r =? "")%string then r else PrimaryURL shard
  | None => PrimaryURL shard
  end.

Definition FetchStats (baseURL : string) : M World shardStats :=
  let! req := NewRequest GET (baseURL +:+ "/v1/internal/stats") setInternalAuth [] in
  let! resp := client_Do req in
  if negb (StatusCode resp =? 200) then fail (errorf ("stats " +:+ rs_Status resp +:+ ": " +:+ str (Body resp)))
  else lift_result (json_stats (Body resp) (BodyErr resp)).

Definition sealShardRemote (shard : ShardInfo) (op : string) : M World (Z * Z) :=
  let! req := NewRequest POST (PrimaryURL shard +:+ "/v1/internal/seal") setInternalAuth [] in
  let! r := try (client_Do req) in
  match r with
  | Err e => do! mark_down (sh_ID shard) (State shard) (err_msg e) op; fail e
  | Ok resp =>
      if negb (StatusCode resp =? 200) then
        let msg := "seal " +:+ rs_Status resp +:+ ": " +:+ str (Body resp) in
        do! mark_down (sh_ID shard) (State shard) msg op; fail (errorf msg)
      else
        let! now := gets w_now in
        let! st := try (FetchStats (PrimaryURL shard)) in
        let total := match st with Ok st => ss_TotalBytes st | Err _ => 0 end in
        do! mark_up (sh_ID shard) (State shard);
        mret (total, now)
  end.

Definition SealShard (shard : ShardInfo) : M World unit :=
  let! ts := sealShardRemote shard "seal" in
  do! Lock;
  deferred_unlock (
    let! r := try (repo (SetShardState (sh_ID shard) ShardSealed ts.1 (Some ts.2))) in
    match r with
    | Err e => do! tell_failure (sh_ID shard) "seal_persist"; fail e
    | Ok _ => tell_up (sh_ID shard) ShardSealed
    end).

(** The loop of [EnsureActiveShard]. *)
Fixpoint ensure_loop (lastErr : option error) (standbys : list ShardInfo) : M World ShardInfo :=
  match standbys with
  | [] =>
      match lastErr with
      | Some e => fail (wrapf "no reachable standby shard available: " e)
      | None => fail (errorf "no reachable standby shard available")
      end
  | standby :: rest =>
      let! st := try (FetchStats (PrimaryURL standby)) in
      match st with
      | Err e =>
          do! Lock;
          do! mark_down (sh_ID standby) (State standby) (err_msg e) "ensure_active";
          do! Unlock;
          ensure_loop (Some e) rest
      | Ok _ =>
          do! Lock;
          do! mark_up (sh_ID standby) (State standby);
          let! updated := try (repo (PromoteStandby (sh_ID standby) None)) in
          match updated with
          | Err e =>
              do! tell_failure (sh_ID standby) "ensure_active_promote";
              do! Unlock;
              if error_is e ErrStateConflict then
                let! active := repo ActiveShard in
                match active with Some a => mret a | None => ensure_loop (Some e) rest end
              else ensure_loop (Some e) rest
          | Ok u =>
              let! u := deref u in
              do! mark_up (sh_ID u) (State u);
              do! Unlock;
              mret u
          end
      end
  end.

Definition EnsureActiveShard : M World ShardInfo :=
  do! Lock;
  let! active := try (repo ActiveShard) in
  match active with
  | Err e => do! Unlock; fail e
  | Ok (Some a) => do! Unlock; mret a
  | Ok None =>
      let! standbys := try (repo StandbyShards) in
      do! Unlock;
      match standbys with
      | Err e => fail e
      | Ok [] => fail (errorf "no standby shard available")
      | Ok l => ensure_loop None l
      end
  end.

Definition ActivateStandby : M World ShardInfo := EnsureActiveShard.

(** [Registry.RegisterShard]. *)
Definition RegRegisterShard (shardUUID state primaryURL : string) (replicaURL : option string) : M World (option ShardInfo * bool) :=
  let! sc := repo (RegisterShard shardUUID state primaryURL replicaURL) in
  do! match sc.1 with Some s => mark_up (sh_ID s) (State s) | None => mret tt end;
  let! ensured := try EnsureActiveShard in
  mret (match ensured, sc.1 with
        | Ok e, Some s => if sh_ID e =? sh_ID s then Some e else sc.1
        | _, _ => sc.1
        end, sc.2).

Definition SealAndRotate : M World unit :=
  do! Lock;
  let! active := try (repo ActiveShard) in
  match active with
  | Err e => do! Unlock; fail e
  | Ok None => do! Unlock; fail (errorf "no active shard")
  | Ok (Some activeCopy) =>
      let! standby := try (repo StandbyShard) in
      match standby with
      | Err e => do! Unlock; fail e
      | Ok None => do! Unlock; fail ErrNoStandby
      | Ok (Some standbyCopy) =>
          do! Unlock;
          let! st := try (FetchStats (PrimaryURL standbyCopy)) in
          match st with
          | Err e =>
              do! Lock;
              do! mark_down (sh_ID standbyCopy) (State standbyCopy) (err_msg e) "rotate";
              do! Unlock;
              fail (wrapf ("standby shard " +:+ Itoa (sh_ID standbyCopy) +:+ " is unavailable: ") e)
          | Ok _ =>
              let! ts := sealShardRemote activeCopy "rotate" in
              do! Lock;
              deferred_unlock (
                let! currentActive := repo ActiveShard in
                match currentActive with
                | None => fail ErrConflict
                | Some ca =>
                    if negb (sh_ID ca =? sh_ID activeCopy) || negb (is_state ShardActive ca) then fail ErrConflict else
                    let! currentStandby := repo (GetShard (sh_ID standbyCopy)) in
                    match currentStandby with
                    | None => fail ErrConflict
                    | Some cs =>
                        if negb (is_state ShardStandby cs) then fail ErrConflict else
                        do! mark_up (sh_ID standbyCopy) (State standbyCopy);
                        let! next := try (repo (PromoteStandby (sh_ID standbyCopy) (Some (MkSealed (sh_ID activeCopy) ts.1 ts.2)))) in
                        match next with
                        | Err e => do! tell_failure (sh_ID activeCopy) "rotate_commit"; fail (joinf ErrRotation e)
                        | Ok next =>
                            do! mark_up (sh_ID activeCopy) ShardSealed;
                            let! next := deref next in
                            mark_up (sh_ID next) (State next)
                        end
                    end
                end)
          end
      end
  end.

(** The branch of [Registry.PatchShardState] that seals a shard. *)
Definition patch_sealed (shardID : Z) : M World (option ShardInfo) :=
  do! Lock;
  let! target := try (repo (GetShard shardID)) in
  match target with
  | Err e => do! Unlock; fail e
  | Ok None => do! Unlock; fail ErrNotFound
  | Ok (Some shardCopy) =>
      if negb (is_state ShardActive shardCopy) then do! Unlock; fail ErrConflict else
      do! Unlock;
      let! ts := sealShardRemote shardCopy "manual_seal" in
      do! Lock;
      deferred_unlock (
        let! current := repo (GetShard shardID) in
        match current with
        | None => fail ErrNotFound
        | Some current =>
            if negb (is_state ShardActive current) then fail ErrConflict else
            let! r := try (repo (SetShardState shardID ShardSealed ts.1 (Some ts.2))) in
            match r with
            | Err e => do! tell_failure shardID "manual_seal_persist"; fail e
            | Ok _ => do! tell_up shardID ShardSealed; repo (GetShard shardID)
            end
        end)
  end.

(** The end of the branch that activates one. *)
Definition promote_target (shardID : Z) (target : ShardInfo) (sealed : option SealedShardTransition) : M World (option ShardInfo) :=
  do! Lock;
  deferred_unlock (
    let! current := repo (GetShard shardID) in
    match current with
    | None => fail ErrNotFound
    | Some current =>
        if negb (is_state ShardStandby current) then fail ErrConflict else
        do! mark_up (sh_ID target) (State target);
        let! updated := try (repo (PromoteStandby (sh_ID target) sealed)) in
        match updated with
        | Err e =>
            match sealed with
            | Some tr => do! tell_failure (st_ShardID tr) "manual_promote_commit"; fail (joinf ErrRotation e)
            | None => fail e
            end
        | Ok updated =>
            do! match sealed with Some tr => tell_up (st_ShardID tr) ShardSealed | None => mret tt end;
            let! u := deref updated in
            do! mark_up (sh_ID u) (State u);
            mret updated
        end
    end).

Definition patch_active (shardID : Z) (confirm : bool) : M World (option ShardInfo) :=
  do! Lock;
  let! target := try (repo (GetShard shardID)) in
  match target with
  | Err e => do! Unlock; fail e
  | Ok None => do! Unlock; fail ErrNotFound
  | Ok (Some targetCopy) =>
      if negb (is_state ShardStandby targetCopy) || negb confirm then do! Unlock; fail ErrConflict else
      let! active := try (repo ActiveShard) in
      match active with
      | Err e => do! Unlock; fail e
      | Ok active =>
          let activeCopy := match active with
                            | Some a => if negb (sh_ID a =? sh_ID targetCopy) then Some a else None
                            | None => None end in
          do! Unlock;
          let! st := try (FetchStats (PrimaryURL targetCopy)) in
          match st with
          | Err e =>
              do! Lock;
              do! mark_down (sh_ID targetCopy) (State targetCopy) (err_msg e) "manual_promote";
              do! Unlock;
              fail (joinf ErrConflict (errorf "target standby shard is unavailable"))
          | Ok _ =>
              let! sealed := match activeCopy with
                | Some a => let! ts := sealShardRemote a "manual_promote" in mret (Some (MkSealed (sh_ID a) ts.1 ts.2))
                | None => mret None
                end in
              promote_target shardID targetCopy sealed
          end
      end
  end.

(** [Registry.PatchShardState]. *)
Definition PatchShardState (shardID : Z) (nextState : string) (confirm : bool) : M World (option ShardInfo) :=
  if (nextState =? ShardSealed)%string then patch_sealed shardID else
  if (nextState =? ShardActive)%string then patch_active shardID confirm else
  fail ErrConflict.

(** What [CheckSeal] does with a shard that is full. *)
Definition rotate_or_seal (active : ShardInfo) : M World unit :=
  let! r := try SealAndRotate in
  match r with
  | Ok _ => mret tt
  | Err e =>
      if error_is e ErrNoStandbyShard then do! PatchShardState (sh_ID active) ShardSealed false; mret tt
      else fail e
  end.

Definition CheckSeal : M World unit :=
  let! active := repo ActiveShard in
  let! active := match active with
    | Some a => mret (Some a)
    | None => let! ensured := try EnsureActiveShard in
              mret (match ensured with Ok a => Some a | Err _ => None end)
    end in
  match active with
  | None => mret tt
  | Some active =>
      let! st := try (FetchStats (PrimaryURL active)) in
      match st with
      | Err e => do! mark_down (sh_ID active) (State active) (err_msg e) "check"; fail e
      | Ok st =>
          do! mark_up (sh_ID active) (State active);
          do! ignore (repo (SetShardState (sh_ID active) ShardActive (ss_TotalBytes st) None));
          if (0 <? shardMaxBytes) && (shardMaxBytes <=? ss_TotalBytes st) then rotate_or_seal active else mret tt
      end
  end.

Definition snapshot (s : ShardInfo) : ShardSnapshot := MkSnapshot (sh_ID s) (State s) (sh_TotalBytes s).
Definition ShardSnapshots : M World (list ShardSnapshot) :=
  let! shards := repo ListShards in mret (snapshot <$> shards).

(** ** Routing

    What a proxy call gives its handler: data to forward, a [StatusError], or
    another error. *)
Inductive proxied : Type :=
  | Forward (data : bytes) (status : Z) (ct : string)
  | StatusError (status : Z) (code : string) (cause : error)
  | OtherError (e : error).

Definition asJSONInt64 (v : any float64) : option Z :=
  match v with AFloat f => Some (f64_int64 f) | AInt z => Some z | _ => None end.

Definition set_links (globalID : Z) (m : list (string * any float64)) : list (string * any float64) :=
  jset "original" (AString ("/v1/packages/" +:+ Itoa globalID +:+ "/original"))
    (jset "self" (AString ("/v1/packages/" +:+ Itoa globalID)) m).
Definition set_download_url (globalID : Z) (fid : any float64 → option Z) (f : any float64) : any float64 :=
  match f with
  | AMap m =>
      match fid (jget "file_id" m) with
      | Some id => AMap (jset "download_url" (AString ("/v1/packages/" +:+ Itoa globalID +:+ "/files/" +:+ Itoa id)) m)
      | None => f
      end
  | _ => f
  end.
Definition globalize (globalID : Z) (fid : any float64 → option Z) (pkg : list (string * any float64)) : list (string * any float64) :=
  let pkg := jset "package_id" (AInt globalID) pkg in
  let pkg := match jget "links" pkg with AMap m => jset "links" (AMap (set_links globalID m)) pkg | _ => pkg end in
  match jget "files" pkg with ASlice l => jset "files" (ASlice (set_download_url globalID fid <$> l)) pkg | _ => pkg end.

Definition unavailable (cause : error) : proxied := StatusError 503 "active_shard_unavailable" cause.
Definition invalid_response (cause : error) : proxied := StatusError 502 "invalid_shard_response" cause.

(** A package the shard created: its ids are made global, and the coordinator's
    index gets a row before the answer is forwarded. *)
Definition index_package (active : ShardInfo) (body data : bytes) : M World proxied :=
  match json_map data with
  | Err e => mret (invalid_response e)
  | Ok pkg =>
      let pkg := default [] pkg in
      match asJSONInt64 (jget "package_id" pkg) with
      | None => mret (invalid_response (errorf "missing package_id in shard response"))
      | Some localID =>
          let globalID := globalid.Encode (sh_ID active) localID in
          let pkg := globalize globalID asJSONInt64 pkg in
          match json_bytes (AMap pkg) with
          | Err e => mret (OtherError e)
          | Ok out =>
              match asJSONInt64 (jget "supplier_id" pkg) with
              | None => mret (invalid_response (errorf "missing supplier_id in shard response"))
              | Some supplier =>
                  let! now := gets w_now in
                  let received := match jget "received_at" pkg with AString ts => default now (rfc3339 ts) | _ => now end in
                  let! r := try (repo (InsertGlobalPackage
                    (MkGlobal globalID (sh_ID active) localID supplier received (sha256.Sum256 body)))) in
                  match r with
                  | Err e => do! tell_failure (sh_ID active) "global_index"; mret (StatusError 500 "global_index_write_failed" e)
                  | Ok _ =>
                      do! mark_up (sh_ID active) (State active);
                      mret (Forward out 201 "")
                  end
              end
          end
      end
  end.

(** The answer of the active shard. *)
Definition post_answer (active : ShardInfo) (body : bytes) (resp : Response) : M World proxied :=
  match BodyErr resp with
  | Some e => mret (OtherError e)
  | None =>
      if negb (StatusCode resp =? 201) then
        if StatusCode resp =? 507 then
          do! mark_up (sh_ID active) (State active);
          mret (StatusError 507 "insufficient_storage" (errorf "active shard reported insufficient storage"))
        else if (StatusCode resp =? 403) || (500 <=? StatusCode resp) then
          let msg := "active shard returned status " +:+ Itoa (StatusCode resp) in
          do! mark_down (sh_ID active) (State active) msg "write_http";
          mret (unavailable (errorf msg))
        else
          do! mark_up (sh_ID active) (State active);
          mret (Forward (Body resp) (StatusCode resp) "")
      else index_package active body (Body resp)
  end.

Definition post_to (active : ShardInfo) (supplierID : Z) (body : bytes) (filename : string) : M World proxied :=
  let base := PrimaryURL active +:+ "/v1/packages" in
  match url_parse base with
  | Err e => mret (OtherError e)
  | Ok _ =>
      let url := url_with base (("supplier_id", Itoa supplierID) ::
                                (if (filename =? "")%string then [] else [("filename", filename)])) in
      let! req := try (NewRequest POST url None body) in
      match req with
      | Err e => mret (OtherError e)
      | Ok req =>
          let! resp := try (client_Do req) in
          match resp with
          | Err e =>
              do! mark_down (sh_ID active) (State active) (err_msg e) "write";
              mret (unavailable e)
          | Ok resp => post_answer active body resp
          end
      end
  end.

Definition ProxyPost (supplierID : Z) (body : bytes) (filename : string) : M World proxied :=
  let! active := try (repo ActiveShard) in
  match active with
  | Err e => mret (OtherError e)
  | Ok (Some active) => post_to active supplierID body filename
  | Ok None =>
      let! ensured := try EnsureActiveShard in
      match ensured with
      | Err e => mret (unavailable e)
      | Ok active => post_to active supplierID body filename
      end
  end.

(** Assigning to a nil map panics. *)
Definition nil_map : error := errorf "assignment to entry in nil map".
Definition float_id (v : any float64) : option Z := match v with AFloat f => Some (f64_int64 f) | _ => None end.

Definition ProxyGet (globalID : Z) (pathSuffix : string) : M World proxied :=
  let '(shardID, localID) := globalid.Decode globalID in
  let! shard := try (repo (GetShard shardID)) in
  match shard with
  | Err _ | Ok None => mret (StatusError 404 "shard_not_found" (errorf "shard not found"))
  | Ok (Some shard) =>
      let! req := try (NewRequest GET (ReadURL shard +:+ "/v1/packages/" +:+ Itoa localID +:+ pathSuffix) None []) in
      match req with
      | Err e => mret (OtherError e)
      | Ok req =>
          let! resp := try (client_Do req) in
          match resp with
          | Err e =>
              do! mark_down shardID (State shard) (err_msg e) "read";
              mret (StatusError 503 "shard_unavailable" e)
          | Ok resp =>
              match BodyErr resp with
              | Some e => mret (OtherError e)
              | None =>
                  let! data :=
                    if (StatusCode resp =? 200) && (ContentType resp =? "application/json")%string then
                      match json_map (Body resp) with
                      | Ok None => fail nil_map
                      | Ok (Some pkg) =>
                          mret (match json_bytes (AMap (globalize globalID float_id pkg)) with Ok b => b | Err _ => [] end)
                      | Err _ => mret (Body resp)
                      end
                    else mret (Body resp) in
                  do! mark_up shardID (State shard);
                  mret (Forward data (StatusCode resp) (ContentType resp))
              end
          end
      end
  end.
End Registry.
