(* ===== verification/RegistryInv.v ===== *)
(** * What the control plane guarantees: proofs for Registry.v

    Every handler keeps the registry's invariant and moves shards only forward
    ([wsafe]), whatever the network answers, whatever statements fail, and
    whatever the other sessions do between its statements, as long as they do not
    set a shard active unconditionally; [CheckSeal] does that itself. *)
From S2P Require Import Prelude GoLib Hash Ids Metadata ShardRepo Registry.

Section Inv.
Context `{PG} `{CoordLib}.
Context (shardMaxBytes : Z) (clusterKey : string).

(** ** Interference *)
Definition polite (op : repo_op) : bool := match op with OpSetActive _ _ => false | _ => true end.
Definition calm (w : World) : Prop := Forall (Forall (fun op => polite op = true)) (w_env w).

Lemma safe_ignore {A} (m : M CDB A) : safe m → safe (ignore m).
Proof. intros Hm db. apply Hm. Qed.

Lemma safe_run_op op : polite op = true → safe (run_op op).
Proof.
  destruct op; cbn; intros Hp; try discriminate; apply safe_ignore.
  - apply safe_RegisterShard.
  - apply safe_PromoteStandby.
  - apply safe_RepoPatchShardState.
  - apply safe_seal.
  - apply safe_MarkShardReachable.
  - apply safe_MarkShardUnreachable.
  - apply safe_InsertGlobalPackage.
  - apply safe_BootstrapFromFile.
Qed.

Lemma safe_run_ops ops : Forall (fun op => polite op = true) ops → safe (forM_ ops run_op).
Proof.
  induction 1 as [|op ops Hop _ IH]; [apply safe_ret|]. apply safe_bind; [by apply safe_run_op|done].
Qed.

(** ** Computations that keep the registry's promises *)
Definition quiet (w : World) : Prop := w_env w = [].
Definition wgrows (w w' : World) : Prop :=
  (quiet w → quiet w') ∧ (calm w → calm w' ∧ grows (w_db w) (w_db w')).

#[export] Instance wgrows_preorder : PreOrder wgrows.
Proof.
  split; [intros w; split; [done|split; [done|reflexivity]]|].
  intros a b c [Qa Ha] [Qb Hb]. split; [auto|]. intros Hc.
  destruct (Ha Hc) as [Hb1 G1]. destruct (Hb Hb1) as [? G2]. split; [done|by transitivity (w_db b)].
Qed.

Definition wsafe {A} (m : M World A) : Prop := ∀ w, wgrows w (m w).1.

Lemma wsafe_ret {A} (a : A) : wsafe (mret a).
Proof. intros w. reflexivity. Qed.
Lemma wsafe_fail {A} e : wsafe (fail (A := A) e).
Proof. intros w. reflexivity. Qed.
Lemma wsafe_lift {A} (r : result A) : wsafe (lift_result r).
Proof. intros w. reflexivity. Qed.
Lemma wsafe_gets {A} (f : World → A) : wsafe (gets f).
Proof. intros w. reflexivity. Qed.
Lemma wsafe_bind {A B} (m : M World A) (k : A → M World B) : wsafe m → (∀ a, wsafe (k a)) → wsafe (m ≫= k).
Proof.
  intros Hm Hk w. specialize (Hm w). unfold mbind, M_bind. destruct (m w) as [w1 [a|e]]; [|done].
  transitivity w1; [done|apply Hk].
Qed.
Lemma wsafe_try {A} (m : M World A) : wsafe m → wsafe (try m).
Proof. intros Hm w. specialize (Hm w). unfold try. by destruct (m w). Qed.
Lemma wsafe_ignore {A} (m : M World A) : wsafe m → wsafe (ignore m).
Proof. intros Hm w. apply Hm. Qed.
Lemma wsafe_mu f : wsafe (modify (fun w => set_mu (f (w_mu w)) w)).
Proof. intros w. split; [done|split; [done|reflexivity]]. Qed.
Lemma wsafe_client rq : wsafe (client_Do rq).
Proof. intros w. unfold client_Do. destruct (w_net w); (split; [done|split; [done|reflexivity]]). Qed.
Lemma wsafe_interfere : wsafe interfere.
Proof.
  intros w. unfold interfere, wgrows, quiet, calm. destruct (w_env w) as [|ops rest] eqn:E; cbn.
  { rw E. split; [done|split; [done|reflexivity]]. }
  split; [done|]. intros Hc. apply Forall_cons in Hc as [H1 H2]. split; [done|]. cbn. by apply safe_run_ops.
Qed.
Lemma wsafe_repo {A} (m : M CDB A) : safe m → wsafe (repo m).
Proof.
  intros Hm. apply wsafe_bind; [apply wsafe_interfere|]. intros _ w. unfold zoom. specialize (Hm (w_db w)).
  destruct (m (w_db w)) as [db r]. split; [done|]. intros Hc. by split.
Qed.

Lemma wsafe_tell f : wsafe (tell f).
Proof. intros w. split; [done|split; [done|reflexivity]]. Qed.
Lemma wsafe_mark_up id st : wsafe (mark_up id st).
Proof. apply wsafe_bind; [apply wsafe_ignore, wsafe_repo, safe_MarkShardReachable|intros _; apply wsafe_tell]. Qed.
Lemma wsafe_mark_down id st why op : wsafe (mark_down id st why op).
Proof.
  apply wsafe_bind; [apply wsafe_ignore, wsafe_repo, safe_MarkShardUnreachable|intros _].
  apply wsafe_bind; [apply wsafe_tell|intros _; apply wsafe_tell].
Qed.

Lemma wsafe_deferred {A} (m : M World A) : wsafe m → wsafe (deferred_unlock m).
Proof. intros Hm. apply wsafe_bind; [by apply wsafe_try|intros r]. apply wsafe_bind; [apply (wsafe_mu (fun mu => match mu with Held => Free | _ => Misused end))|intros _; apply wsafe_lift]. Qed.
Lemma wsafe_deref {A} (o : option A) : wsafe (deref o).
Proof. destruct o; [apply wsafe_ret|apply wsafe_fail]. Qed.
Lemma wsafe_new m url key body : wsafe (NewRequest m url key body).
Proof. apply wsafe_bind; [apply wsafe_lift|intros _; apply wsafe_ret]. Qed.
End Inv.

Create HintDb wsafe discriminated.
#[export] Hint Resolve wsafe_ret wsafe_fail wsafe_lift wsafe_gets wsafe_client wsafe_new wsafe_deref wsafe_mark_up wsafe_mark_down
  safe_GetShard safe_ActiveShard safe_StandbyShards safe_StandbyShard safe_ListShards safe_seal safe_MarkShardReachable
  safe_MarkShardUnreachable safe_InsertGlobalPackage safe_PromoteStandby safe_RegisterShard : wsafe.

Ltac wsafe_step :=
  match goal with
  | |- wsafe (_ ≫= _) => apply wsafe_bind; [|intros ?]
  | |- wsafe (try _) => apply wsafe_try
  | |- wsafe (ignore _) => apply wsafe_ignore
  | |- wsafe (tell_up _ _) => apply wsafe_tell
  | |- wsafe (tell_failure _ _) => apply wsafe_tell
  | |- wsafe (repo _) => apply wsafe_repo; solve [auto with wsafe]
  | |- wsafe (deferred_unlock _) => apply wsafe_deferred
  | |- wsafe Lock => apply (wsafe_mu (fun mu => match mu with Free => Held | _ => Misused end))
  | |- wsafe Unlock => apply (wsafe_mu (fun mu => match mu with Held => Free | _ => Misused end))
  | |- wsafe (match ?x with _ => _ end) => destruct x
  | |- wsafe (let '_ := _ in _) => cbv zeta
  | _ => solve [auto with wsafe]
  end.
Ltac wsafe := repeat wsafe_step.

Section Handlers.
Context `{PG} `{CoordLib}.
Context (shardMaxBytes : Z) (clusterKey : string).

Lemma wsafe_FetchStats url : wsafe (FetchStats clusterKey url).
Proof. unfold FetchStats. wsafe. Qed.
Hint Resolve wsafe_FetchStats : wsafe.

Lemma wsafe_sealShardRemote s op : wsafe (sealShardRemote clusterKey s op).
Proof. unfold sealShardRemote. wsafe. Qed.
Hint Resolve wsafe_sealShardRemote : wsafe.

Lemma wsafe_SealShard s : wsafe (SealShard clusterKey s).
Proof. unfold SealShard. wsafe. Qed.

Lemma wsafe_ensure_loop e l : wsafe (ensure_loop clusterKey e l).
Proof. revert e. induction l as [|s l IH]; intros e; cbn [ensure_loop]; wsafe; apply IH. Qed.
Hint Resolve wsafe_ensure_loop : wsafe.

Lemma wsafe_EnsureActiveShard : wsafe (EnsureActiveShard clusterKey).
Proof. unfold EnsureActiveShard. wsafe. Qed.
Hint Resolve wsafe_EnsureActiveShard : wsafe.

Lemma wsafe_RegRegisterShard u st p r : wsafe (RegRegisterShard clusterKey u st p r).
Proof. unfold RegRegisterShard. wsafe. Qed.

Lemma wsafe_SealAndRotate : wsafe (SealAndRotate clusterKey).
Proof. unfold SealAndRotate. wsafe. Qed.

Lemma wsafe_PatchShardState id st c : wsafe (PatchShardState clusterKey id st c).
Proof. unfold PatchShardState, patch_sealed, patch_active, promote_target. wsafe. Qed.

Lemma wsafe_ProxyPost sup body fn : wsafe (ProxyPost clusterKey sup body fn).
Proof. unfold ProxyPost, post_to, post_answer, index_package. wsafe. Qed.

Lemma wsafe_ProxyGet g suffix : wsafe (ProxyGet g suffix).
Proof. unfold ProxyGet. destruct (globalid.Decode g). wsafe. Qed.
End Handlers.

(** ** The rotation lock

    [mu_tri a m b c]: started with the lock in state [a], [m] leaves it in [b], or
    in [c] when it returns an error. *)
Section Mutex.
Context `{PG} `{CoordLib}.

Definition mu_tri {A} (a : mutex) (m : M World A) (b c : mutex) : Prop :=
  ∀ w, w_mu w = a → w_mu (m w).1 = if is_ok (m w).2 then b else c.

Lemma mu_bind {A B} a b c d (m : M World A) (k : A → M World B) :
  mu_tri a m b c → (∀ x, mu_tri b (k x) d c) → mu_tri a (m ≫= k) d c.
Proof.
  intros Hm Hk w Hw. specialize (Hm w Hw). unfold mbind, M_bind. destruct (m w) as [w1 [x|e]]; cbn in Hm |- *; [by apply Hk|done].
Qed.
Lemma mu_ret {A} a c (x : A) : mu_tri a (mret x) a c.
Proof. by intros w Hw. Qed.
Lemma mu_fail {A} a b e : mu_tri a (fail (A := A) e) b a.
Proof. by intros w Hw. Qed.
Lemma mu_lift {A} a (r : result A) : mu_tri a (lift_result r) a a.
Proof. intros w Hw. cbn. by destruct (is_ok r). Qed.
Lemma mu_try {A} a b c (m : M World A) : mu_tri a m b b → mu_tri a (try m) b c.
Proof. intros Hm w Hw. specialize (Hm w Hw). unfold try. destruct (m w) as [w1 []]; done. Qed.
Lemma mu_ignore {A} a b c (m : M World A) : mu_tri a m b b → mu_tri a (ignore m) b c.
Proof. intros Hm w Hw. specialize (Hm w Hw). unfold ignore. destruct (m w) as [w1 []]; done. Qed.
Lemma mu_gets {A} a c (f : World → A) : mu_tri a (gets f) a c.
Proof. by intros w Hw. Qed.
Lemma mu_Lock c : mu_tri Free Lock Held c.
Proof. intros w Hw. cbn. by rw Hw. Qed.
Lemma mu_Unlock c : mu_tri Held Unlock Free c.
Proof. intros w Hw. cbn. by rw Hw. Qed.
Lemma mu_repo {A} a (m : M CDB A) : mu_tri a (repo m) a a.
Proof.
  apply (mu_bind _ a).
  - intros w Hw. unfold interfere. by destruct (w_env w).
  - intros _ w Hw. unfold zoom. destruct (m (w_db w)) as [db []]; cbn; done.
Qed.
Lemma mu_client a rq : mu_tri a (client_Do rq) a a.
Proof. intros w Hw. unfold client_Do. destruct (w_net w) as [|[] ?]; cbn; done. Qed.
Lemma mu_tell a c f : mu_tri a (tell f) a c.
Proof. by intros w Hw. Qed.
Lemma mu_mark_up a c id st : mu_tri a (mark_up id st) a c.
Proof. apply (mu_bind _ a); [apply mu_ignore, mu_repo|intros _; apply mu_tell]. Qed.
Lemma mu_mark_down a c id st why op : mu_tri a (mark_down id st why op) a c.
Proof.
  apply (mu_bind _ a); [apply mu_ignore, mu_repo|intros _]. apply (mu_bind _ a); [apply mu_tell|intros _; apply mu_tell].
Qed.
Lemma mu_deferred {A} (m : M World A) : mu_tri Held m Held Held → mu_tri Held (deferred_unlock m) Free Free.
Proof.
  intros Hm. apply (mu_bind _ Held); [by apply mu_try|intros r]. apply (mu_bind _ Free); [apply mu_Unlock|intros _; apply mu_lift].
Qed.
Lemma mu_new a m url key body : mu_tri a (NewRequest m url key body) a a.
Proof. apply (mu_bind _ a); [apply mu_lift|intros _; apply mu_ret]. Qed.
Lemma mu_deref {A} a (o : option A) : mu_tri a (deref o) a a.
Proof. destruct o; [apply mu_ret|apply mu_fail]. Qed.

(** A promotion that succeeds returns a row. *)
Lemma PromoteStandby_some target tr db db' u : PromoteStandby target tr db = (db', Ok u) → is_Some u.
Proof.
  intros (_ & _ & [[_ ?]|(E & [(s & Hs & _) _] & _ & [Hu|?])])%PromoteStandby_inv; try done.
  injection Hu as ->. rw E /promoted tget_tmap Z.eqb_refl. destruct tr; [rw tget_tmap; destruct (_ =? _)|]; by rw Hs.
Qed.

Lemma mu_promote {B} target tr (k : result (option ShardInfo) → M World B) d c :
  (∀ e, mu_tri Held (k (Err e)) d c) → (∀ u, mu_tri Held (k (Ok (Some u))) d c) →
  mu_tri Held (try (repo (PromoteStandby target tr)) ≫= k) d c.
Proof.
  intros He Hu w Hw. pose proof (mu_repo Held (PromoteStandby target tr) w Hw) as Hm.
  destruct (repo (PromoteStandby target tr) w) as [w1 r] eqn:E.
  assert (w_mu w1 = Held) as Hw1 by (cbn in Hm; by destruct (is_ok r)).
  rewrite -> (bind_ok _ _ w w1 r) by (by rw /try E).
  destruct r as [u|e]; [|by apply He]. unfold repo in E.
  apply bind_inv in E as [(w2 & [] & _ & E)|(? & _ & ?)]; [|done]. unfold zoom in E.
  destruct (PromoteStandby target tr (w_db w2)) as [db2 r2] eqn:E2. injection E as <- ->.
  apply PromoteStandby_some in E2 as [u' ->]. by apply Hu.
Qed.
End Mutex.

Create HintDb mu discriminated.
#[export] Hint Resolve mu_ret mu_fail mu_lift mu_gets mu_Lock mu_Unlock mu_repo mu_client mu_new mu_deref mu_mark_up mu_mark_down : mu.
Ltac mu_step :=
  match goal with
  | |- mu_tri _ (try (repo (PromoteStandby _ _)) ≫= _) _ _ => apply mu_promote; intros ?
  | |- mu_tri _ (deref (Some _)) _ _ => apply mu_ret
  | |- mu_tri _ (_ ≫= _) _ _ => eapply mu_bind; [|intros ?]
  | |- mu_tri _ (try _) _ _ => apply mu_try
  | |- mu_tri _ (ignore _) _ _ => apply mu_ignore
  | |- mu_tri _ (tell_up _ _) _ _ => apply mu_tell
  | |- mu_tri _ (tell_failure _ _) _ _ => apply mu_tell
  | |- mu_tri _ (deferred_unlock _) _ _ => apply mu_deferred
  | |- mu_tri _ (match ?x with _ => _ end) _ _ => destruct x
  | _ => solve [eauto with mu]
  end.
Ltac mu := repeat mu_step.

Section Locking.
Context `{PG} `{CoordLib}.
Context (shardMaxBytes : Z) (clusterKey : string).

Lemma mu_FetchStats a url : mu_tri a (FetchStats clusterKey url) a a.
Proof. unfold FetchStats. mu. Qed.
Hint Resolve mu_FetchStats : mu.
Lemma mu_sealShardRemote a s op : mu_tri a (sealShardRemote clusterKey s op) a a.
Proof. unfold sealShardRemote. mu. Qed.
Hint Resolve mu_sealShardRemote : mu.
Lemma mu_ensure_loop e l : mu_tri Free (ensure_loop clusterKey e l) Free Free.
Proof. revert e. induction l as [|s l IH]; intros e; cbn [ensure_loop]; mu; apply IH. Qed.
Hint Resolve mu_ensure_loop : mu.
Lemma mu_EnsureActiveShard : mu_tri Free (EnsureActiveShard clusterKey) Free Free.
Proof. unfold EnsureActiveShard. mu. Qed.
Hint Resolve mu_EnsureActiveShard : mu.
Lemma mu_SealAndRotate : mu_tri Free (SealAndRotate clusterKey) Free Free.
Proof. unfold SealAndRotate. mu. Qed.
Hint Resolve mu_SealAndRotate : mu.
Lemma mu_PatchShardState id st c : mu_tri Free (PatchShardState clusterKey id st c) Free Free.
Proof. unfold PatchShardState, patch_sealed, patch_active, promote_target. mu. Qed.
Hint Resolve mu_PatchShardState : mu.
Lemma mu_RegRegisterShard u st p r : mu_tri Free (RegRegisterShard clusterKey u st p r) Free Free.
Proof. unfold RegRegisterShard. mu. Qed.
Lemma mu_SealShard s : mu_tri Free (SealShard clusterKey s) Free Free.
Proof. unfold SealShard. mu. Qed.
Lemma mu_CheckSeal : mu_tri Free (CheckSeal shardMaxBytes clusterKey) Free Free.
Proof. unfold CheckSeal, rotate_or_seal. mu. Qed.
Lemma mu_ProxyPost sup body fn : mu_tri Free (ProxyPost clusterKey sup body fn) Free Free.
Proof. unfold ProxyPost, post_to, post_answer, index_package. mu. Qed.
Lemma mu_ProxyGet g suffix : mu_tri Free (ProxyGet g suffix) Free Free.
Proof. unfold ProxyGet. destruct (globalid.Decode g). mu. Qed.
End Locking.

(** ** Rows the registry hands out *)
Section Rows.
Context `{PG} `{CoordLib}.
Context (shardMaxBytes : Z) (clusterKey : string).

Definition reg (w : World) : table ShardInfo := shard_registry (w_db w).
Definition sound (w : World) : Prop := calm w ∧ reg_inv (reg w).

Lemma wsafe_run {A} (m : M World A) w w' r :
  wsafe m → m w = (w', r) → sound w → sound w' ∧ evolves (reg w) (reg w') ∧ (quiet w → quiet w').
Proof.
  intros Hm E [Hc I]. destruct (Hm w) as [Hq Hs]. rw E in Hq Hs. destruct (Hs Hc) as [Hc' Hg]. destruct (Hg I) as [G1 G2 _ _].
  split; [by split|]. by split.
Qed.

(** A call of the repository: some interference, then its statements. *)
Lemma repo_call_inv {A} (m : M CDB A) w w' r :
  repo m w = (w', r) → ∃ w1 db', wgrows w w1 ∧ (quiet w → w1 = w) ∧ m (w_db w1) = (db', r) ∧ w' = set_db db' w1.
Proof.
  intros [(w1 & [] & E1 & E)|(e & E1 & ->)]%bind_inv; cycle 1.
  { unfold interfere in E1. by destruct (w_env w). }
  exists w1. unfold zoom in E. destruct (m (w_db w1)) as [db' r'] eqn:Em. injection E as <- <-. exists db'.
  split_and!; try done.
  - pose proof (wsafe_interfere w) as G. by rw E1 in G.
  - unfold interfere, quiet in *. intros Q. rw Q in E1. by injection E1 as <-.
Qed.

Lemma reg_row t k s : reg_inv t → (k, s) ∈ t → k = sh_ID s ∧ tget (sh_ID s) t = Some s.
Proof.
  intros I Hin. pose proof (rv_keys _ I _ _ Hin) as <-. split; [done|]. apply tget_elem; [|done]. apply sorted_nodup, I.
Qed.

(** The active shard's row. *)
Lemma ActiveShard_row w w' a :
  repo ActiveShard w = (w', Ok (Some a)) → sound w → State a = ShardActive ∧ tget (sh_ID a) (reg w') = Some a.
Proof.
  intros E Hs. pose proof E as (w1 & db' & Hg & _ & Ea & ->)%repo_call_inv. apply read_inv in Ea as (fs & -> & [Ha|?]); [|done].
  destruct (wsafe_run _ _ _ _ (wsafe_repo _ safe_ActiveShard) E Hs) as ([_ I] & _).
  unfold reg in *. cbn in I |- *. injection Ha as Ha. destruct (actives (shard_registry (w_db w1))) as [|[k s] l] eqn:El; [done|].
  injection Ha as ->. assert ((k, s) ∈ actives (shard_registry (w_db w1))) as Hin by (rw El; by left).
  apply list_elem_of_filter in Hin as [Hst Hin]. split; [by apply String.eqb_eq|]. by eapply reg_row.
Qed.

(** Marking a shard leaves every state alone. *)
Lemma tmap_state id f t k : (∀ s, State (f s) = State s) → State <$> tget k (tmap id f t) = State <$> tget k t.
Proof. intros Hf. rw tget_tmap. destruct (k =? id); [|done]. destruct (tget k t); cbn; [by rw Hf|done]. Qed.

(** What the handlers go by: the state, and the address they send to. *)
Definition serves (s : ShardInfo) : string * string := (State s, PrimaryURL s).
Lemma mark_serves id k db : serves <$> tget k (shard_registry (MarkShardReachable id db).1) = serves <$> tget k (shard_registry db).
Proof.
  destruct (MarkShardReachable id db) as [db' r] eqn:E. apply int2_inv in E as [[_ E]|[-> _]]; [|done].
  apply cstmt_inv in E as (fs & [[-> _]|(r1 & E & _)]); [done|]. unfold mbind, M_bind, get in E.
  apply write_inv in E as [(_ & -> & _)|[-> _]]; [|done]. cbn. rw tget_tmap. destruct (k =? id); [|done]. by destruct (tget k _).
Qed.

Lemma mark_state id k db : State <$> tget k (shard_registry (MarkShardReachable id db).1) = State <$> tget k (shard_registry db).
Proof.
  destruct (MarkShardReachable id db) as [db' r] eqn:E. apply int2_inv in E as [[_ E]|[-> _]]; [|done].
  apply cstmt_inv in E as (fs & [[-> _]|(r1 & E & _)]); [done|]. unfold mbind, M_bind, get in E.
  apply write_inv in E as [(_ & -> & _)|[-> _]]; [|done]. by apply tmap_state.
Qed.

(** A mark with its report: the report touches the gauges alone. *)
Lemma mark_up_inv id st w w' r : mark_up id st w = (w', r) →
  ∃ w1 m, ignore (repo (MarkShardReachable id)) w = (w1, Ok tt) ∧ w' = set_metrics m w1 ∧ r = Ok tt.
Proof.
  intros E. unfold mark_up in E. apply bind_inv in E as [(w1 & [] & E1 & E)|(e & E1 & _)]; [|by injection E1].
  injection E as <- <-. eauto.
Qed.

Definition active_row (w' : World) (q : Prop) (a : ShardInfo) : Prop :=
  State a = ShardActive ∧ ∃ a', tget (sh_ID a) (reg w') = Some a' ∧ row_le a a' ∧ (q → serves a' = serves a).

(** The row of a shard that was just promoted. *)
Lemma promote_row id tr w w1 u w2 :
  repo (PromoteStandby id tr) w = (w1, Ok (Some u)) → sound w →
  mark_up (sh_ID u) (State u) w1 = (w2, Ok tt) → active_row w2 (quiet w) u ∧ sh_ID u = id.
Proof.
  intros E Hs Em0. apply mark_up_inv in Em0 as (w2' & m & Em & -> & _). change (active_row w2' (quiet w) u ∧ sh_ID u = id).
  rename w2' into w2. destruct (wsafe_run _ _ _ _ (wsafe_repo _ (safe_PromoteStandby id tr)) E Hs) as (Hs1 & _ & Hq).
  destruct (wsafe_run _ _ _ _ (wsafe_ignore _ (wsafe_repo _ (safe_MarkShardReachable (sh_ID u)))) Em Hs1) as (Hs2 & Hev & _).
  apply repo_call_inv in E as (w0 & db' & _ & _ & E & ->).
  apply PromoteStandby_inv in E as (_ & _ & [[_ ?]|(Et & [(s & Hst & _) _] & _ & [Hu|?])]); try done. injection Hu as Hu.
  destruct Hs1 as [_ I]. unfold reg in *. cbn in *. pose proof Hu as Hin. symmetry in Hin. apply tget_Some_elem, (reg_row _ _ _ I) in Hin as [-> Hrow].
  assert (State u = ShardActive) as Hact.
  { rewrite -> Et in Hu. unfold promoted in Hu. rw tget_tmap Z.eqb_refl in Hu.
    symmetry in Hu. by apply fmap_Some in Hu as (? & _ & ->). }
  split; [|done]. split; [done|]. destruct (Hev _ _ Hrow) as (a' & Ha' & Hle). exists a'. split_and!; try done.
  intros Q. unfold ignore in Em. destruct (repo _ _) as [w2' r] eqn:Er. injection Em as ->.
  apply repo_call_inv in Er as (w3 & db2 & _ & Hw3 & Er & ->). rewrite -> (Hw3 (Hq Q)) in Er, Ha'. cbn in Er, Ha'.
  pose proof (mark_serves (sh_ID u) (sh_ID u) db') as Hk. rw Er in Hk. cbn [fst] in Hk. rw Ha' Hrow in Hk. cbn [fmap option_fmap option_map] in Hk. by apply (inj Some) in Hk.
Qed.

Lemma active_row_mono w (q q' : Prop) a : (q → q') → active_row w q' a → active_row w q a.
Proof. intros Hq (Hst & a' & H1 & H2 & H3). split; [done|]. exists a'. auto. Qed.

(** One more step of a run: [m] was safe, so [sound] and [quiet] go on. *)
Lemma run_bind {A B} (m : M World A) (k : A → M World B) w w' r :
  (m ≫= k) w = (w', r) → sound w → wsafe m →
  ∃ w1, sound w1 ∧ evolves (reg w) (reg w1) ∧ (quiet w → quiet w1) ∧
    ((∃ a, m w = (w1, Ok a) ∧ k a w1 = (w', r)) ∨ (∃ e, m w = (w1, Err e) ∧ w' = w1 ∧ r = Err e)).
Proof.
  intros E Hs Hm. destruct (m w) as [w1 [a|e]] eqn:E1.
  - exists w1. destruct (wsafe_run _ _ _ _ Hm E1 Hs) as (? & ? & ?). split_and!; try done. left. exists a. split; [done|].
    by rewrite -> (bind_ok _ _ _ _ _ E1) in E.
  - exists w1. destruct (wsafe_run _ _ _ _ Hm E1 Hs) as (? & ? & ?). split_and!; try done. right. exists e.
    rewrite -> (bind_err _ _ _ _ _ E1) in E. by injection E as <- <-.
Qed.
End Rows.

Ltac run_step E Hs w1 Hq1 a E1 :=
  apply run_bind in E; [|exact Hs|solve [wsafe]]; clear Hs;
  destruct E as (w1 & Hs & _ & Hq1 & [(a & E1 & E)|(? & E1 & ? & ?)]); [|try (by subst)].

Section Ensure.
Context `{PG} `{CoordLib}.
Context (shardMaxBytes : Z) (clusterKey : string).
Hint Resolve wsafe_FetchStats wsafe_sealShardRemote : wsafe.

(** The shard that [EnsureActiveShard] returns was active; its row is still there,
    and active unless another session has sealed it. *)
Lemma ensure_loop_row e l w w' a :
  ensure_loop clusterKey e l w = (w', Ok a) → sound w → active_row w' (quiet w) a.
Proof.
  revert e w. induction l as [|s l IH]; intros e w E Hs; cbn [ensure_loop] in E; [by destruct e|].
  run_step E Hs w1 Q1 st E1. destruct st as [st|er].
  - run_step E Hs w2 Q2 u2 E2. run_step E Hs w3 Q3 u3 E3. pose proof Hs as Hs3. run_step E Hs w4 Q4 up E4.
    apply try_inv in E4 as (r & E4 & [= <-]). destruct up as [[u|]|er]; [|done|].
    + run_step E Hs w5 Q5 u' E5. injection E5 as <- <-. run_step E Hs w6 Q6 u6 E6. destruct u6. run_step E Hs w7 Q7 u7 E7.
      injection E7 as <- <-. injection E as <- <-.
      apply (active_row_mono _ _ (quiet w3)); [tauto|]. by destruct (promote_row _ _ _ _ _ _ E4 Hs3 E6).
    + run_step E Hs w4' Q4' u4' E4'. run_step E Hs w5 Q5 u5 E5. destruct (error_is er ErrStateConflict).
      2:{ apply (active_row_mono _ _ (quiet w5)); [tauto|by apply (IH (Some er))]. }
      pose proof Hs as Hs5. run_step E Hs w6 Q6 act E6. destruct act as [x|].
      2:{ apply (active_row_mono _ _ (quiet w6)); [tauto|by apply (IH (Some er))]. }
      injection E as <- <-. destruct (ActiveShard_row _ _ _ E6 Hs5) as [Hst Hrow].
      split; [done|]. exists x. split_and!; done || reflexivity.
  - run_step E Hs w2 Q2 u2 E2. run_step E Hs w3 Q3 u3 E3. run_step E Hs w4 Q4 u4 E4.
    apply (active_row_mono _ _ (quiet w4)); [tauto|by apply (IH (Some er))].
Qed.

Lemma Ensure_row w w' a :
  EnsureActiveShard clusterKey w = (w', Ok a) → sound w → active_row w' (quiet w) a.
Proof.
  intros E Hs. run_step E Hs w1 Q1 u1 E1. pose proof Hs as Hs1. run_step E Hs w2 Q2 act E2.
  apply try_inv in E2 as (r & E2 & [= <-]). destruct act as [[x|]|er]; [| |done].
  - run_step E Hs w3 Q3 u3 E3. injection E3 as <- <-. injection E as <- <-.
    destruct (ActiveShard_row _ _ _ E2 Hs1) as [Hst Hrow]. split; [done|]. exists x. split_and!; done || reflexivity.
  - run_step E Hs w3 Q3 sb E3. run_step E Hs w4 Q4 u4 E4. destruct sb as [[|s l]|er]; try done.
    apply (active_row_mono _ _ (quiet w4)); [tauto|]. by eapply ensure_loop_row.
Qed.
End Ensure.

Section Lifecycle.
Context `{PG} `{CoordLib}.
Context (shardMaxBytes : Z) (clusterKey : string).
Hint Resolve wsafe_FetchStats wsafe_sealShardRemote wsafe_EnsureActiveShard wsafe_SealAndRotate wsafe_PatchShardState : wsafe.

Lemma wgrows_bind {A B} (m : M World A) (k : A → M World B) w :
  wsafe m → (∀ w1 a, m w = (w1, Ok a) → wgrows w1 (k a w1).1) → wgrows w ((m ≫= k) w).1.
Proof.
  intros Hm Hk. specialize (Hm w). unfold mbind, M_bind. destruct (m w) as [w1 [a|e]] eqn:E; [|done].
  transitivity w1; [done|by apply Hk].
Qed.

Lemma FetchStats_db url w : w_db (FetchStats clusterKey url w).1 = w_db w.
Proof.
  unfold FetchStats, NewRequest. munfold. destruct (url_parse _); [|done]. unfold client_Do.
  destruct (w_net w) as [|[e|r] l]; try done. by destruct (negb _).
Qed.

(** A shard may be set active when it is. *)
Lemma SetShardState_active id total db s :
  tget id (shard_registry db) = Some s → State s = ShardActive →
  grows db (SetShardState id ShardActive total None db).1.
Proof.
  intros Hs Hst. unfold SetShardState, int2_arg. destruct (int2 id); [|reflexivity]. apply grows_cstmt. intros fs.
  unfold checked. destruct (text_ok _ _); [|reflexivity]. apply grows_tmap; [done|]. cbn. rw Hs. intros ? [= <-].
  split_and!; try done. left. by rw Hst.
Qed.

Definition has_active (id : Z) (w : World) : Prop := ∃ s, tget id (reg w) = Some s ∧ State s = ShardActive.

Lemma Mark_active id st w : quiet w → has_active id w → has_active id (mark_up id st w).1.
Proof.
  intros Q (s & Hs & Hst). destruct (mark_up id st w) as [w' r0] eqn:E0. apply mark_up_inv in E0 as (w2 & m & Em & -> & _).
  change (has_active id w2). replace w2 with (ignore (repo (MarkShardReachable id)) w).1 by (by rewrite -> Em). unfold ignore. destruct (repo _ w) as [w1 r] eqn:E.
  apply repo_call_inv in E as (w0 & db & _ & Hw & E & ->). rewrite -> (Hw Q) in E. cbn. unfold has_active, reg. cbn.
  pose proof (mark_state id id (w_db w)) as Hk. rw E in Hk. cbn in Hk. unfold reg in Hs. rw Hs in Hk. cbn in Hk.
  destruct (tget id (shard_registry db)) as [s'|]; [|done]. injection Hk as Hk. exists s'. by rw Hk.
Qed.

(** With nobody interfering, the check keeps the promises too. *)
Lemma CheckSeal_quiet w : sound w → quiet w → wgrows w (CheckSeal shardMaxBytes clusterKey w).1.
Proof.
  intros Hs Q. unfold CheckSeal. apply wgrows_bind; [wsafe|]. intros w1 act E1.
  destruct (wsafe_run _ _ _ _ (wsafe_repo _ safe_ActiveShard) E1 Hs) as (Hs1 & _ & Q1). specialize (Q1 Q).
  apply wgrows_bind; [wsafe|]. intros w2 act2 E2.
  destruct act2 as [a|]; [|reflexivity].
  assert (quiet w2 ∧ has_active (sh_ID a) w2) as [Q2 Ha].
  { destruct act as [x|].
    - injection E2 as <- ->. split; [done|]. destruct (ActiveShard_row _ _ _ E1 Hs) as [? ?]. by exists a.
    - run_step E2 Hs1 w3 Q3 en E3. injection E2 as <- E2. apply try_inv in E3 as (r & E3 & [= <-]).
      destruct en as [x|]; [|done]. injection E2 as ->.
      destruct (Ensure_row _ _ _ _ E3 ltac:(by destruct (wsafe_run _ _ _ _ (wsafe_repo _ safe_ActiveShard) E1 Hs))) as (Hst & a' & Ha' & _ & Hq).
      split; [auto|]. exists a'. split; [done|]. specialize (Hq Q1). injection Hq as Hq _. congruence. }
  apply wgrows_bind; [wsafe|]. intros w3 st E3. destruct (wsafe_FetchStats clusterKey (PrimaryURL a) w2) as [Q3 _].
  pose proof (FetchStats_db (PrimaryURL a) w2) as D3. unfold try in E3. destruct (FetchStats _ _ w2) as [w3' r3]. injection E3 as -> ->.
  cbn in D3, Q3. specialize (Q3 Q2). assert (has_active (sh_ID a) w3) as Ha3 by (unfold has_active, reg; by rw D3).
  destruct st as [st|e]; [|apply (wsafe_bind _ _ (wsafe_mark_down _ _ _ _) (fun _ => wsafe_fail _))].
  apply wgrows_bind; [wsafe|]. intros w4 [] E4. pose proof (Mark_active _ (State a) _ Q3 Ha3) as Ha4. rw E4 in Ha4. cbn [fst] in Ha4.
  assert (quiet w4) as Q4. { pose proof (wsafe_mark_up (sh_ID a) (State a) w3) as [G _]. rw E4 in G. auto. }
  assert (wsafe (if (0 <? shardMaxBytes) && (shardMaxBytes <=? ss_TotalBytes st) then rotate_or_seal clusterKey a else mret tt)) as Hend
    by (unfold rotate_or_seal; wsafe).
  assert (wgrows w4 (ignore (repo (SetShardState (sh_ID a) ShardActive (ss_TotalBytes st) None)) w4).1) as Hset.
  { unfold ignore. destruct (repo _ w4) as [w5 r5] eqn:E5. apply repo_call_inv in E5 as (w0 & db & _ & Hw & E5 & ->).
    rewrite -> (Hw Q4) in *. destruct Ha4 as (s & Hrow & Hst). pose proof (SetShardState_active _ (ss_TotalBytes st) _ _ Hrow Hst) as G. rw E5 in G.
    split; [done|]. by intros Hc; split. }
  revert Hset. unfold mbind at 1, M_bind, ignore. cbn. intros Hset. etransitivity; [exact Hset|apply Hend].
Qed.
End Lifecycle.
