(* ===== verification/Control.v ===== *)
(** * The coordinator at work

    Runs of the control plane: what every sequence of requests keeps, what a
    rotation and a promotion do, where uploads and downloads are routed. *)
From S2P Require Import Prelude GoLib Hash Ids Metadata ShardRepo Metrics Registry RegistryInv.

(** ** The requests the coordinator serves *)
Inductive command : Type :=
  | CmdRegister (shardUUID state primaryURL : string) (replicaURL : option string)
  | CmdPatch (shardID : Z) (nextState : string) (confirm : bool)
  | CmdRotate
  | CmdEnsure
  | CmdSeal (shard : ShardInfo)
  | CmdCheck
  | CmdPost (supplierID : Z) (body : bytes) (filename : string)
  | CmdGet (globalID : Z) (pathSuffix : string).

Definition is_check (c : command) : bool := match c with CmdCheck => true | _ => false end.

Section Control.
Context `{PG} `{CoordLib}.
Context (shardMaxBytes : Z) (clusterKey : string).

Definition perform (c : command) : M World unit :=
  match c with
  | CmdRegister u st p r => ignore (RegRegisterShard clusterKey u st p r)
  | CmdPatch id st c => ignore (PatchShardState clusterKey id st c)
  | CmdRotate => ignore (SealAndRotate clusterKey)
  | CmdEnsure => ignore (EnsureActiveShard clusterKey)
  | CmdSeal s => ignore (SealShard clusterKey s)
  | CmdCheck => ignore (CheckSeal shardMaxBytes clusterKey)
  | CmdPost sup body fn => ignore (ProxyPost clusterKey sup body fn)
  | CmdGet g suf => ignore (ProxyGet g suf)
  end.

Lemma wsafe_perform c : is_check c = false → wsafe (perform c).
Proof.
  destruct c; cbn; intros; try discriminate; apply wsafe_ignore.
  - apply wsafe_RegRegisterShard.
  - apply wsafe_PatchShardState.
  - apply wsafe_SealAndRotate.
  - apply wsafe_EnsureActiveShard.
  - apply wsafe_SealShard.
  - apply wsafe_ProxyPost.
  - apply wsafe_ProxyGet.
Qed.

Lemma perform_grows c w : sound w → (is_check c = true → quiet w) → wgrows w (perform c w).1.
Proof.
  intros Hs Hq. destruct (is_check c) eqn:E; [|by apply wsafe_perform].
  destruct c; try discriminate. apply CheckSeal_quiet; auto.
Qed.

Lemma perform_ok c w : ∃ w', perform c w = (w', Ok tt).
Proof. destruct c; by eexists. Qed.

(** C10: the registry moves forward only.  From a registry with at most one active
    shard, unique uuids and rows under their ids, every sequence of requests,
    whatever the shards answer, whichever statements fail or lose their answer
    and whatever other sessions do in between, leads to one again; every shard
    keeps its row, uuid and creation time, and goes from standby to active to
    sealed, never back; no entry of the package index is lost.  The periodic seal
    check is the exception: it needs that nobody interferes. *)
Theorem registry_lifecycle cmds w :
  reg_inv (shard_registry (w_db w)) →
  (w_env w = [] ∨ (calm w ∧ forallb (fun c => negb (is_check c)) cmds = true)) →
  grew (w_db w) (w_db (forM_ cmds perform w).1).
Proof.
  revert w. induction cmds as [|c cmds IH]; intros w I Hw.
  { cbn. split; done || reflexivity. }
  assert (calm w) as Hc by (destruct Hw as [E|[? _]]; [by rw /calm E|done]).
  assert (is_check c = true → quiet w) as Hq.
  { intros E. destruct Hw as [?|[_ Hf]]; [done|]. cbn in Hf. by rw E in Hf. }
  destruct (perform_grows c w (conj Hc I) Hq) as [Q G]. destruct (G Hc) as [Hc' Hg]. specialize (Hg I).
  destruct (perform_ok c w) as [w1 E1]. rw E1 in Q Hc' Hg. cbn [fst] in *.
  cbn [forM_]. rewrite -> (bind_ok _ _ _ _ _ E1).
  assert (grew (w_db w1) (w_db (forM_ cmds perform w1).1)) as G1.
  { apply IH; [apply Hg|]. destruct Hw as [?|[_ Hf]]; [left; by apply Q|right; split; [done|]]. cbn in Hf. by apply andb_prop in Hf as [_ ?]. }
  destruct Hg as [A1 A2 A3 A4], G1 as [B1 B2 B3 B4]. split; auto. by transitivity (shard_registry (w_db w1)).
Qed.

(** C14: no request leaves the rotation lock held, takes it twice or releases it
    when it is free, whatever fails on the way. *)
Theorem lock_released cmds w : w_mu w = Free → w_mu (forM_ cmds perform w).1 = Free.
Proof.
  revert w. induction cmds as [|c cmds IH]; intros w Hw; [done|]. destruct (perform_ok c w) as [w1 E1].
  cbn [forM_]. rewrite -> (bind_ok _ _ _ _ _ E1). apply IH.
  assert (mu_tri Free (perform c) Free Free) as Hm.
  { destruct c; apply mu_ignore; [apply mu_RegRegisterShard|apply mu_PatchShardState|apply mu_SealAndRotate|
      apply mu_EnsureActiveShard|apply mu_SealShard|apply mu_CheckSeal|apply mu_ProxyPost|apply mu_ProxyGet]. }
  specialize (Hm w Hw). by rw E1 in Hm.
Qed.
End Control.

(** ** What each step does to the network *)
Section Net.
Context `{PG} `{CoordLib}.
Context (shardMaxBytes : Z) (clusterKey : string).

Definition offline (w w' : World) : Prop := w_net w' = w_net w ∧ w_log w' = w_log w ∧ w_now w' = w_now w.

Lemma repo_offline {A} (m : M CDB A) w w' r : repo m w = (w', r) → offline w w'.
Proof.
  intros [(w1 & [] & E1 & E)|(e & E1 & ->)]%bind_inv; unfold interfere in E1; destruct (w_env w); try done;
    injection E1 as <-; unfold zoom in E; destruct (m _); injection E as <- <-; done.
Qed.
Lemma ignore_offline {A} (m : M CDB A) w w' r : ignore (repo m) w = (w', r) → offline w w'.
Proof. unfold ignore. destruct (repo m w) as [w1 r1] eqn:E. intros [= <- <-]. by eapply repo_offline. Qed.

Lemma mark_up_offline id st w w' r : mark_up id st w = (w', r) → offline w w'.
Proof. intros (w1 & m & E & -> & _)%mark_up_inv. by apply ignore_offline in E. Qed.

Lemma deferred_inv {A} (m : M World A) w w' r :
  deferred_unlock m w = (w', r) → ∃ w1 mu, m w = (w1, r) ∧ w' = set_mu mu w1.
Proof.
  unfold deferred_unlock, try. munfold. destruct (m w) as [w1 r1]. cbn. intros [= <- <-]. eauto.
Qed.

Lemma client_inv rq w w' r : client_Do rq w = (w', r) →
  w_log w' = w_log w ++ [(rq, reg w)] ∧ w_now w' = w_now w ∧ w_db w' = w_db w ∧ w_env w' = w_env w ∧
  ∀ a, r = Ok a → w_net w = Answer a :: w_net w'.
Proof.
  unfold client_Do. destruct (w_net w) as [|[e|a] l]; intros [= <- <-]; split_and!; try done. by intros ? [= ->].
Qed.

Definition stats_request (url : string) : Request := MkReq GET (url +:+ "/v1/internal/stats") (setInternalAuth clusterKey) [].
Definition seal_request (url : string) : Request := MkReq POST (url +:+ "/v1/internal/seal") (setInternalAuth clusterKey) [].

Lemma NewRequest_inv m url key body w w' rq :
  NewRequest m url key body w = (w', Ok rq) → w' = w ∧ rq = MkReq m url key body.
Proof. unfold NewRequest. munfold. destruct (url_parse url); intros [= <- <-]. done. Qed.

Lemma FetchStats_ok url w w' st : FetchStats clusterKey url w = (w', Ok st) →
  ∃ a, w_net w = Answer a :: w_net w' ∧ StatusCode a = 200 ∧ w_log w' = w_log w ++ [(stats_request url, reg w)] ∧ w_now w' = w_now w ∧
    w_db w' = w_db w ∧ w_env w' = w_env w.
Proof.
  intros [(w1 & rq & [-> ->]%NewRequest_inv & E)|(? & _ & ?)]%bind_inv; [|done].
  apply bind_inv in E as [(w2 & a & (L & N & D & V & Hn)%client_inv & E)|(? & _ & ?)]; [|done].
  destruct (StatusCode a =? 200) eqn:Es; [|done]. injection E as <- _. exists a. split_and!; auto. lia.
Qed.

Lemma FetchStats_log url w w' r : FetchStats clusterKey url w = (w', r) → (∃ l, w_log w' = w_log w ++ l) ∧ w_now w' = w_now w.
Proof.
  intros [(w1 & rq & E1 & E)|(e & E1 & ->)]%bind_inv.
  - apply NewRequest_inv in E1 as [-> ->].
    apply bind_inv in E as [(w2 & a & (L & N & _)%client_inv & E)|(e & (L & N & _)%client_inv & ->)]; [|eauto].
    destruct (negb _); injection E as <- _; eauto.
  - unfold NewRequest in E1. munfold. destruct (url_parse _); [done|]. injection E1 as <- _. split; [exists []; by rw app_nil_r|done].
Qed.

(** A shard counts as sealed after it has said so. *)
Lemma sealShardRemote_ok s op w w' ts : sealShardRemote clusterKey s op w = (w', Ok ts) →
  ∃ a rest l, w_net w = Answer a :: rest ∧ StatusCode a = 200 ∧
    w_log w' = w_log w ++ (seal_request (PrimaryURL s), reg w) :: l ∧ w_now w' = w_now w ∧ ts.2 = w_now w.
Proof.
  intros [(w1 & rq & [-> ->]%NewRequest_inv & E)|(? & _ & ?)]%bind_inv; [|done].
  apply bind_inv in E as [(w2 & ra & E1 & E)|(? & _ & ?)]; [|done].
  apply try_inv in E1 as (r & E1 & [= <-]). apply client_inv in E1 as (L & N & _ & _ & Hn).
  destruct ra as [a|e]; cycle 1. { by apply bind_inv in E as [(? & ? & _ & ?)|(? & ? & ?)]. }
  destruct (StatusCode a =? 200) eqn:Es; cycle 1. { by apply bind_inv in E as [(? & ? & _ & ?)|(? & ? & ?)]. }
  apply bind_inv in E as [(w3 & now & [= <- <-] & E)|(? & _ & ?)]; [|done].
  apply bind_inv in E as [(w4 & st & E4 & E)|(? & _ & ?)]; [|done].
  apply try_inv in E4 as (r & E4 & [= <-]). apply FetchStats_log in E4 as [(l & L4) N4].
  apply bind_inv in E as [(w5 & [] & (_ & L5 & N5)%mark_up_offline & E)|(? & _ & ?)]; [|done]. injection E as <- <-.
  exists a, (w_net w2), l. split_and!; [by apply Hn|lia| |congruence|done]. by rw L5 L4 L -app_assoc.
Qed.
End Net.

(** ** Rotation *)
Section Rotation.
Context `{PG} `{CoordLib}.
Context (shardMaxBytes : Z) (clusterKey : string).
Hint Resolve wsafe_FetchStats wsafe_sealShardRemote : wsafe.

(** The fields a mark does not touch. *)
Definition same_state (s s' : ShardInfo) : Prop :=
  State s' = State s ∧ SealedAt s' = SealedAt s ∧ sh_TotalBytes s' = sh_TotalBytes s.

Lemma mark_row id k s db :
  tget k (shard_registry db) = Some s →
  ∃ s', tget k (shard_registry (MarkShardReachable id db).1) = Some s' ∧ same_state s s'.
Proof.
  intros Hs. destruct (MarkShardReachable id db) as [db' r] eqn:E. cbn [fst].
  assert (shard_registry db' = shard_registry db ∨ shard_registry db' = tmap id (with_seen (c_clock db)) (shard_registry db)) as [-> | ->].
  { apply int2_inv in E as [[_ E]|[-> _]]; [|auto].
    apply cstmt_inv in E as (fs & [[-> _]|(r1 & E & _)]); [auto|]. unfold mbind, M_bind, get in E.
    apply write_inv in E as [(_ & -> & _)|[-> _]]; auto. }
  - by exists s.
  - rw tget_tmap Hs. destruct (k =? id); eexists; by split_and!.
Qed.

Lemma mark_rows id w w' r k s :
  ignore (repo (MarkShardReachable id)) w = (w', r) → quiet w → tget k (reg w) = Some s →
  ∃ s', tget k (reg w') = Some s' ∧ same_state s s'.
Proof.
  intros E Q Hs. unfold ignore in E. destruct (repo _ w) as [w1 r1] eqn:Er. injection E as <- <-.
  apply repo_call_inv in Er as (w0 & db & _ & Hw & Er & ->). rewrite -> (Hw Q) in *.
  pose proof (mark_row id k s (w_db w) Hs) as Hm. by rw Er in Hm.
Qed.

Lemma promote_rows target tr w w' u :
  repo (PromoteStandby target (Some tr)) w = (w', Ok u) → sound w → quiet w →
  ∃ rs ra, u = Some rs ∧ tget target (reg w') = Some rs ∧ State rs = ShardActive ∧ sh_ID rs = target ∧
    tget (st_ShardID tr) (reg w') = Some ra ∧ State ra = ShardSealed ∧ SealedAt ra = Some (st_SealedAt tr) ∧
    sh_TotalBytes ra = st_TotalBytes tr.
Proof.
  intros E [_ I] Q. apply repo_call_inv in E as (w0 & db & _ & Hw & E & ->). rewrite -> (Hw Q) in *.
  apply PromoteStandby_inv in E as (_ & _ & [[_ ?]|(Et & P & _ & [Hu|?])]); try done. injection Hu as ->.
  unfold reg in *. cbn [w_db set_db]. pose proof (promotable_other _ _ _ I P) as Hne. pose proof P as [(s & Hs & _) Ho].
  destruct (other_active target _) as [c|] eqn:Hc; [|done]. injection Ho as Ho.
  apply other_active_spec in Hc as (k & Hk & _ & _). apply (reg_row _ _ _ I) in Hk as [-> Hk].
  rw Et !tget_promoted //. rw Z.eqb_refl. replace (st_ShardID tr =? target) with false by lia. rw Z.eqb_refl Hs -Ho Hk. cbn.
  exists (activate s), (sealed_by tr c). split_and!; try done. by apply tget_Some_elem, (reg_row _ _ _ I) in Hs as [-> _].
Qed.

(** The critical section at the end of a rotation. *)
Definition rotated (a s : Z) (now : Z) (w : World) : Prop :=
  ∃ rs ra, tget s (reg w) = Some rs ∧ State rs = ShardActive ∧ tget a (reg w) = Some ra ∧ State ra = ShardSealed ∧
    SealedAt ra = Some now.

(** Reading the registry leaves it alone. *)
Lemma ActiveShard_kept w w' r : repo ActiveShard w = (w', r) → quiet w → reg w' = reg w.
Proof.
  intros (w1 & db' & _ & Hw & Ea & ->)%repo_call_inv Q. rewrite -> (Hw Q) in *. by apply read_inv in Ea as (fs & -> & _).
Qed.
Lemma StandbyShard_row w w' s : repo StandbyShard w = (w', Ok (Some s)) → sound w →
  State s = ShardStandby ∧ tget (sh_ID s) (reg w') = Some s ∧ evolves (reg w) (reg w') ∧ (quiet w → reg w' = reg w).
Proof.
  intros E Hs. destruct (wsafe_run _ _ _ _ (wsafe_repo _ safe_StandbyShard) E Hs) as ([_ I] & V & _).
  apply repo_call_inv in E as (w1 & db' & _ & Hw & E & ->). unfold StandbyShard in E.
  apply bind_inv in E as [(db1 & l & E1 & E)|(e & _ & ?)]; [|done]. munfold. injection E as <- Hl.
  apply read_inv in E1 as (fs & -> & [Hr|?]); [|done]. injection Hr as ->. unfold reg in *. cbn in *.
  apply head_Some_elem_of in Hl. apply list_elem_of_fmap in Hl as ([k x] & -> & [Hst Hin]%list_elem_of_filter).
  split; [by apply String.eqb_eq|]. destruct (reg_row _ _ _ I Hin) as [_ ?].
  split; [done|]. split; [done|]. intros Q. by rewrite -> (Hw Q).
Qed.

Lemma mark_rotated id st w w' r a s now :
  mark_up id st w = (w', r) → quiet w → rotated a s now w → rotated a s now w'.
Proof.
  intros (w1 & m & E & -> & _)%mark_up_inv Q (rs & ra & H1 & H2 & H3 & H4 & H5). change (rotated a s now w1).
  destruct (mark_rows _ _ _ _ _ _ E Q H1) as (rs' & G1 & G2 & _). destruct (mark_rows _ _ _ _ _ _ E Q H3) as (ra' & G3 & G4 & G5 & _).
  exists rs', ra'. split_and!; congruence.
Qed.

(** C12: a rotation that succeeds has asked the standby shard for its statistics and
    then the active shard to seal itself, at the addresses the registry had for
    them, and both answered 200, before the registry changed: the rows were the same
    when either request was sent, with the standby shard's among them, and with no
    other session interfering they were those the rotation began with.  In that case
    the shard that was active is sealed as of now in the end, and the standby shard
    is the only active one. *)
Theorem SealAndRotate_spec w w' :
  sound w → SealAndRotate clusterKey w = (w', Ok tt) →
  ∃ a s r1 r2 rest rows l, w_net w = Answer r1 :: Answer r2 :: rest ∧ StatusCode r1 = 200 ∧ StatusCode r2 = 200 ∧
    w_log w' = w_log w ++ [(stats_request clusterKey (PrimaryURL s), rows); (seal_request clusterKey (PrimaryURL a), rows)] ++ l ∧
    State a = ShardActive ∧ State s = ShardStandby ∧ tget (sh_ID s) rows = Some s ∧ evolves (reg w) rows ∧
    (∃ a', tget (sh_ID a) rows = Some a' ∧ row_le a a') ∧
    (quiet w → rows = reg w ∧ tget (sh_ID a) rows = Some a ∧
       rotated (sh_ID a) (sh_ID s) (w_now w) w' ∧ ∃ rs, actives (reg w') = [(sh_ID s, rs)]).
Proof.
  intros Hs E. assert (reg_inv (reg w')) as I'.
  { by destruct (wsafe_run _ _ _ _ (wsafe_SealAndRotate clusterKey) E Hs) as ([_ ?] & _). }
  run_step E Hs w1 Q1 u1 E1. injection E1 as <- _. pose proof Hs as Hs1. run_step E Hs w2 Q2 act E2.
  apply try_inv in E2 as (r & E2 & [= <-]). destruct act as [[a|]|er]; try done.
  destruct (ActiveShard_row _ _ _ E2 Hs1) as [Ha Hra]. destruct (wsafe_run _ _ _ _ (wsafe_repo _ safe_ActiveShard) E2 Hs1) as (_ & V2 & _).
  pose proof (ActiveShard_kept _ _ _ E2) as K2. apply repo_offline in E2 as (N2 & L2 & T2). pose proof Hs as Hs2.
  run_step E Hs w3 Q3 sb E3. apply try_inv in E3 as (r & E3 & [= <-]). destruct sb as [[s|]|er]; try done.
  destruct (StandbyShard_row _ _ _ E3 Hs2) as (Hsb & Hrs & V3 & K3). apply repo_offline in E3 as (N3 & L3 & T3).
  run_step E Hs w4 Q4 u4 E4. injection E4 as <- _. run_step E Hs w5 Q5 st E5. apply try_inv in E5 as (r & E5 & [= <-]).
  destruct st as [st|er]; cycle 1.
  { run_step E Hs w6 Q6 u6 E6. run_step E Hs w7 Q7 u7 E7. run_step E Hs w8 Q8 u8 E8. done. }
  apply FetchStats_ok in E5 as (r1 & N5 & S5 & L5 & T5 & D5 & _).
  run_step E Hs w6 Q6 ts E6. apply sealShardRemote_ok in E6 as (r2 & rest & l & N6 & S6 & L6 & T6 & Hts).
  run_step E Hs w7 Q7 u7 E7. injection E7 as <- _. apply deferred_inv in E as (w8 & mu & E & ->).
  run_step E Hs w9 Q9 ca E9. destruct ca as [ca|]; [|done]. apply repo_offline in E9 as (N9 & L9 & T9).
  destruct (negb _ || _); [done|]. run_step E Hs w10 Q10 cs E10. destruct cs as [cs|]; [|done]. apply repo_offline in E10 as (N10 & L10 & T10).
  destruct (negb _); [done|]. run_step E Hs w11 Q11 u11 E11. apply mark_up_offline in E11 as (N11 & L11 & T11). pose proof Hs as Hs11.
  run_step E Hs w12 Q12 nx E12. apply try_inv in E12 as (r & E12 & [= <-]). destruct nx as [nx|]; [|by apply bind_inv in E as [(? & ? & _ & ?)|(? & _ & ?)]].
  pose proof (repo_offline _ _ _ _ E12) as (N12 & L12 & T12).
  run_step E Hs w13 Q13 u13 E13. pose proof (mark_up_offline _ _ _ _ _ E13) as (N13 & L13 & T13).
  run_step E Hs w14 Q14 nx' E14. destruct nx as [nx|]; [|done]. injection E14 as <- <-. pose proof (mark_up_offline _ _ _ _ _ E) as (N14 & L14 & T14).
  cbn in *. assert (reg w5 = reg w3) as R5 by (unfold reg; by rw D5). rw R5 in L6.
  exists a, s, r1, r2, rest, (reg w3), l. split_and!; try done.
  - congruence.
  - rw L14 L13 L12 L11 L10 L9 L6 L5 L3 L2 -!app_assoc. done.
  - intros k x Hx. destruct (V2 k x Hx) as (x2 & Hx2 & Le2). destruct (V3 k x2 Hx2) as (x3 & Hx3 & Le3). exists x3. split; [done|]. by etransitivity.
  - by apply V3.
  - intros Q. assert (reg w3 = reg w) as R3 by (rewrite -> K3 by tauto; by apply K2). split; [done|].
    split; [rewrite -> K3 by tauto; done|]. pose proof (Q11 ltac:(tauto)) as Qp.
    destruct (promote_rows _ _ _ _ _ E12 Hs11 Qp) as (rs & ra & [= ->] & P1 & P2 & P3 & P4 & P5 & P6 & P7). cbn in P4, P6.
    assert (rotated (sh_ID a) (sh_ID s) (w_now w) (set_mu mu w8)) as Hrot.
    { eapply (mark_rotated _ _ w13 w8); [exact E|tauto|]. eapply mark_rotated; [exact E13|tauto|].
      exists rs, ra. split_and!; try done. rw P6. congruence. }
    split; [done|]. destruct Hrot as (x & _ & R1 & R2 & _). exists x. apply active_only; [apply I'|by apply tget_Some_elem|done].
Qed.
End Rotation.

(** ** Activation of a standby shard *)
Section Activation.
Context `{PG} `{CoordLib}.
Context (shardMaxBytes : Z) (clusterKey : string).

Definition no_active (t : table ShardInfo) : Prop := ∀ k s, (k, s) ∈ t → State s ≠ ShardActive.

Lemma uuids_tmap id f t : (∀ s, ShardUUID (f s) = ShardUUID s) → uuids (tmap id f t) = uuids t.
Proof.
  intros Hf. unfold uuids, tmap. induction t as [|[k s] t IH]; [done|]. cbn. cbn in IH.
  destruct (k =? id); cbn; rw ?Hf; destruct (ShardUUID s); by rw IH.
Qed.

Lemma actives_cons k s t : actives ((k, s) :: t) = if is_state ShardActive s then (k, s) :: actives t else actives t.
Proof. unfold actives. cbn. destruct (is_state ShardActive s); cbn; by case_decide. Qed.

Lemma no_active_cons k s t : no_active ((k, s) :: t) → is_state ShardActive s = false ∧ no_active t.
Proof.
  intros Hn. split; [|intros k' s' ?; eapply Hn; by right].
  destruct (is_state ShardActive s) eqn:E; [|done]. apply String.eqb_eq in E. by destruct (Hn k s ltac:(by left)).
Qed.

Lemma actives_none t : no_active t → actives t = [].
Proof.
  induction t as [|[k s] t IH]; [done|]. intros [Hs Hn]%no_active_cons. rw actives_cons Hs. auto.
Qed.

Lemma actives_activate id t : no_active t → NoDup t.*1 → zlen (actives (tmap id activate t)) <= 1.
Proof.
  induction t as [|[k s] t IH]; [done|]. intros [Hs Hn]%no_active_cons [Hk Hd]%NoDup_cons. cbn [fst] in Hk.
  unfold tmap. rw fmap_cons. fold (tmap id activate t). cbn [fst snd]. destruct (Z.eqb_spec k id) as [->|Hne]; rw actives_cons.
  - assert (tmap id activate t = t) as ->.
    { clear -Hk. unfold tmap. induction t as [|[k s] t IH]; [done|]. cbn in Hk |- *.
      apply not_elem_of_cons in Hk as [? Hk]. replace (k =? id) with false by lia. by rw IH. }
    by rewrite -> (actives_none t Hn).
  - rw Hs. auto.
Qed.

(** With nothing in its way a promotion succeeds. *)
Lemma PromoteStandby_succeeds id s db :
  reg_inv (shard_registry db) → no_active (shard_registry db) → c_faults db = [] → int2 id = true →
  tget id (shard_registry db) = Some s → State s = ShardStandby →
  PromoteStandby id None db = (set_registry (tmap id activate) db, Ok (Some (activate s))).
Proof.
  intros I Hn Hf Hi Hs Hst. assert (other_active id (shard_registry db) = None) as Ho.
  { destruct (other_active id (shard_registry db)) as [c|] eqn:E; [|done].
    apply other_active_spec in E as (k & Hk & _ & Ha). by apply Hn in Hk. }
  assert (indexes_ok (tmap id activate (shard_registry db)) = true) as Hx.
  { apply andb_true_intro. split; [apply Z.leb_le, actives_activate; [done|apply sorted_nodup, I]|].
    rw uuids_tmap //. pose proof (rv_index _ I) as Hi'. by apply andb_prop in Hi' as [_ ?]. }
  unfold PromoteStandby, ctx, GetShard, int2_arg. rw Hi.
  unfold cstmt, write, commit. munfold. rw Hf /=. rw Hf Hs /=. rw /is_state Hst /=. rw Hf Ho Hf Hx /=. rw Hf /=. rw Hf tget_tmap Z.eqb_refl Hs. done.
Qed.

(** A database in order, with no active shard, and nobody else at work. *)
Record ready (w : World) : Prop := {
  rd_inv : reg_inv (reg w); rd_none : no_active (reg w); rd_faults : c_faults (w_db w) = []; rd_quiet : quiet w }.

(** [m] changes at most what [MarkShardReachable] and [MarkShardUnreachable] do. *)
Definition marks (m : M CDB unit) : Prop :=
  safe m ∧ ∀ db, c_faults db = [] → ∃ id f, (∀ s, State (f s) = State s) ∧
    ((m db).1 = db ∨ (m db).1 = set_registry (tmap id f) db).

Lemma marks_reachable id : marks (MarkShardReachable id).
Proof.
  split; [apply safe_MarkShardReachable|]. intros db Hf. exists id, (with_seen (c_clock db)). split; [done|].
  unfold MarkShardReachable, int2_arg, cstmt. destruct (int2 id); [|auto]. rw Hf. unfold mbind, M_bind, get, write.
  destruct (indexes_ok _); auto.
Qed.
Lemma marks_unreachable id e : marks (MarkShardUnreachable id e).
Proof.
  split; [apply safe_MarkShardUnreachable|]. intros db Hf. exists id, (with_error (Some e)). split; [done|].
  unfold MarkShardUnreachable, int2_arg, cstmt, checked. destruct (int2 id); [|auto]. rw Hf.
  destruct (text_ok _ _); [|auto]. unfold write. destruct (indexes_ok _); auto.
Qed.

Lemma elem_reg t k s : reg_inv t → (k, s) ∈ t ↔ tget k t = Some s.
Proof. intros I. split; [|apply tget_Some_elem]. intros Hin. destruct (reg_row _ _ _ I Hin) as [-> ?]. done. Qed.

Lemma mark_ready m w : marks m → ready w → ∃ w', ignore (repo m) w = (w', Ok tt) ∧ ready w' ∧ w_net w' = w_net w ∧
  ∀ k, State <$> tget k (reg w') = State <$> tget k (reg w).
Proof.
  intros [Hsafe Hm] [I Hn Hf Q]. unfold ignore. destruct (repo m w) as [w' r] eqn:E. exists w'. split; [done|].
  pose proof (repo_offline _ _ _ _ E) as (N & _). apply repo_call_inv in E as (w0 & db & _ & Hw & E & ->). rewrite -> (Hw Q) in *.
  destruct (Hm _ Hf) as (id & g & Hg & Hdb). pose proof (Hsafe (w_db w)) as G. rewrite -> E in Hdb, G. cbn [fst] in *.
  unfold reg in *. cbn [w_db set_db] in *. specialize (G I). destruct G as [I' _ _ _].
  assert (∀ k, State <$> tget k (shard_registry db) = State <$> tget k (shard_registry (w_db w))) as Hst.
  { intros k. destruct Hdb as [-> | ->]; [done|by apply tmap_state]. }
  split_and!; try done. split; try done.
  - unfold reg. cbn. intros k s Hin%(elem_reg _ _ _ I'). specialize (Hst k). rw Hin in Hst. cbn in Hst.
    destruct (tget k (shard_registry (w_db w))) as [s0|] eqn:E0; [|done]. injection Hst as ->. by apply (elem_reg _ _ _ I), Hn in E0.
  - cbn. by destruct Hdb as [-> | ->].
Qed.

Lemma ready_metrics mt w : ready w → ready (set_metrics mt w).
Proof. intros [I N F Q]. by split. Qed.
Lemma mark_up_ready id st w : ready w → ∃ w', mark_up id st w = (w', Ok tt) ∧ ready w' ∧ w_net w' = w_net w ∧
  ∀ k, State <$> tget k (reg w') = State <$> tget k (reg w).
Proof.
  intros R. destruct (mark_ready _ _ (marks_reachable id) R) as (w1 & E & R1 & N & S). eexists.
  split; [unfold mark_up; erewrite bind_ok by exact E; reflexivity|]. by split; [apply ready_metrics|].
Qed.
Lemma mark_down_ready id st why op w : ready w → ∃ w', mark_down id st why op w = (w', Ok tt) ∧ ready w' ∧ w_net w' = w_net w ∧
  ∀ k, State <$> tget k (reg w') = State <$> tget k (reg w).
Proof.
  intros R. destruct (mark_ready _ _ (marks_unreachable id why) R) as (w1 & E & R1 & N & S). eexists.
  split; [unfold mark_down; erewrite bind_ok by exact E; reflexivity|]. by split; [apply ready_metrics, ready_metrics|].
Qed.

(** The answers a shard can give to the request for its statistics. *)
Definition stats_of (a : reply) : option shardStats :=
  match a with
  | NoAnswer _ => None
  | Answer r => if StatusCode r =? 200 then match json_stats (Body r) (BodyErr r) with Ok st => Some st | Err _ => None end else None
  end.

Lemma FetchStats_run url w a rest :
  url_parse (url +:+ "/v1/internal/stats") = Ok tt → w_net w = a :: rest →
  ∃ w' r, FetchStats clusterKey url w = (w', r) ∧ w_db w' = w_db w ∧ w_env w' = w_env w ∧ w_net w' = rest ∧
    is_ok r = bool_decide (is_Some (stats_of a)).
Proof.
  intros Hu Hn. unfold FetchStats, NewRequest, client_Do. munfold. rw Hu Hn. destruct a as [e|r]; cbn.
  { do 2 eexists. split_and!; try done. }
  destruct (StatusCode r =? 200); cbn; [|do 2 eexists; by split_and!].
  do 2 eexists. split_and!; try done. by destruct (json_stats _ _).
Qed.

Lemma ready_net w w' : w_db w' = w_db w → w_env w' = w_env w → ready w → ready w'.
Proof. intros D V [R1 R2 R3 R4]. split; unfold reg, quiet in *; by rw ?D ?V. Qed.

Lemma ready_mu mu w : ready w → ready (set_mu mu w).
Proof. by apply ready_net. Qed.

Lemma repo_ready {A} (m : M CDB A) w : ready w → repo m w = zoom w_db set_db m w.
Proof. intros [_ _ _ Q]. unfold repo, interfere, quiet in *. unfold mbind, M_bind. by rw Q. Qed.

Lemma ensure_loop_promotes pre s post bads a rest lastErr w :
  ready w → length bads = length pre → w_net w = bads ++ a :: rest →
  Forall (fun b => stats_of b = None) bads → is_Some (stats_of a) →
  (∀ x, x ∈ pre ++ [s] → url_parse (PrimaryURL x +:+ "/v1/internal/stats") = Ok tt) →
  int2 (sh_ID s) = true → State <$> tget (sh_ID s) (reg w) = Some ShardStandby →
  ∃ w' u, ensure_loop clusterKey lastErr (pre ++ s :: post) w = (w', Ok u) ∧ sh_ID u = sh_ID s.
Proof.
  intros Hr Hl Hn Hb Ha Hu Hi Hst. revert bads lastErr w Hr Hl Hn Hb Hst. induction pre as [|x pre IH]; intros bads lastErr w Hr Hl Hn Hb Hst.
  - destruct bads; [|done]. cbn [app ensure_loop] in Hn |- *.
    destruct (FetchStats_run (PrimaryURL s) w a rest) as (w1 & r & E1 & D1 & V1 & _ & Hok); [by apply Hu; left|done|].
    rewrite -> bool_decide_true in Hok by done. destruct r as [st|]; [|done].
    erewrite bind_ok by (by rw /try E1). cbv beta iota. erewrite bind_ok by done. set (w2 := set_mu _ w1).
    assert (ready w2) as R2 by by eapply ready_mu, ready_net.
    destruct (mark_up_ready (sh_ID s) (State s) _ R2) as (w3 & E3 & R3 & _ & S3). erewrite bind_ok by exact E3.
    specialize (S3 (sh_ID s)). unfold reg in S3 at 2. cbn [w2 w_db set_mu] in S3. rewrite -> D1 in S3. fold (reg w) in S3. rewrite -> Hst in S3.
    destruct (tget (sh_ID s) (reg w3)) as [s3|] eqn:Hs3; [|done]. injection S3 as S3.
    pose proof (PromoteStandby_succeeds _ s3 _ (rd_inv _ R3) (rd_none _ R3) (rd_faults _ R3) Hi Hs3 S3) as Ep.
    erewrite bind_ok by (rw /try (repo_ready _ _ R3) /zoom Ep; reflexivity). cbv beta iota. cbn [deref].
    erewrite bind_ok by done. unfold mark_up, ignore, tell_up, tell. erewrite bind_ok by (erewrite bind_ok by done; reflexivity). erewrite bind_ok by done. do 2 eexists. split; [done|].
    cbn. by apply tget_Some_elem, (reg_row _ _ _ (rd_inv _ R3)) in Hs3 as [-> _].
  - destruct bads as [|b bads]; [done|]. apply Forall_cons in Hb as [Hb0 Hb]. cbn [app ensure_loop length] in Hn, Hl |- *.
    destruct (FetchStats_run (PrimaryURL x) w b (bads ++ a :: rest)) as (w1 & r & E1 & D1 & V1 & N1 & Hok); [by apply Hu; left|done|].
    rewrite -> Hb0, bool_decide_false in Hok by (by intros []). destruct r as [|e]; [done|].
    erewrite bind_ok by (by rw /try E1). cbv beta iota. erewrite bind_ok by done. set (w2 := set_mu _ w1).
    assert (ready w2) as R2 by by eapply ready_mu, ready_net.
    destruct (mark_down_ready (sh_ID x) (State x) (err_msg e) "ensure_active" _ R2) as (w3 & E3 & R3 & N3 & S3).
    erewrite bind_ok by exact E3. erewrite bind_ok by done. apply (IH ltac:(intros y Hy; apply Hu; by right) bads); try done.
    + by apply ready_mu.
    + lia.
    + cbn. rw N3. done.
    + cbn. unfold reg at 1. cbn. fold (reg w3). rw S3. unfold reg. cbn. by rw D1.
Qed.

(** C13: uploads find a shard again.  With no active shard, a database that answers and
    nobody interfering, [EnsureActiveShard] asks the standby shards in order of
    their ids and promotes the first one that gives its statistics: it returns
    that shard, which is now the only active one. *)
Theorem EnsureActiveShard_promotes w pre s post bads a rest :
  reg_inv (reg w) → actives (reg w) = [] → c_faults (w_db w) = [] → quiet w →
  (filter (fun ks => is_state ShardStandby ks.2 = true) (reg w)).*2 = pre ++ s :: post →
  w_net w = bads ++ a :: rest → length bads = length pre →
  Forall (fun b => stats_of b = None) bads → is_Some (stats_of a) →
  (∀ x, x ∈ pre ++ [s] → url_parse (PrimaryURL x +:+ "/v1/internal/stats") = Ok tt) → int2 (sh_ID s) = true →
  ∃ w' u row, EnsureActiveShard clusterKey w = (w', Ok u) ∧ sh_ID u = sh_ID s ∧ State u = ShardActive ∧
    actives (reg w') = [(sh_ID s, row)].
Proof.
  intros I Hact Hf Q Hsb Hn Hl Hb Ha Hu Hi.
  assert (ready w) as R.
  { split; try done. intros k x Hin Hx. assert ((k, x) ∈ actives (reg w)) as Hin'.
    { apply list_elem_of_filter. split; [by rw /is_state Hx|done]. }
    rw Hact in Hin'. by apply not_elem_of_nil in Hin'. }
  assert (∃ k, (k, s) ∈ reg w ∧ State s = ShardStandby) as (k & Hin & Hst).
  { assert (s ∈ (filter (fun ks : Z * ShardInfo => is_state ShardStandby ks.2 = true) (reg w)).*2) as Hin by (rw Hsb; set_solver).
    apply list_elem_of_fmap in Hin as ([k s'] & -> & [Hst Hin]%list_elem_of_filter). exists k. split; [done|]. by apply String.eqb_eq. }
  destruct (reg_row _ _ _ I Hin) as [-> Hrow].
  destruct (EnsureActiveShard clusterKey w) as [w' r] eqn:E.
  assert (∃ u, r = Ok u ∧ sh_ID u = sh_ID s) as (u & -> & Hid).
  { revert E. unfold EnsureActiveShard. erewrite bind_ok by done. set (w1 := set_mu _ w).
    assert (ready w1) as R1 by by apply ready_mu.
    erewrite bind_ok by (rw /try (repo_ready _ _ R1) /zoom /ActiveShard /cstmt Hf; reflexivity). cbn [w1 w_db set_mu].
    fold (reg w). rw Hact. cbn [fmap option_fmap option_map head]. change (set_db (w_db w) w1) with w1.
    erewrite bind_ok by (rw /try (repo_ready _ _ R1) /zoom /StandbyShards /cstmt Hf; reflexivity). cbn [w1 w_db set_mu].
    fold (reg w). rw Hsb. change (set_db (w_db w) w1) with w1. erewrite bind_ok by done.
    destruct (ensure_loop_promotes pre s post bads a rest None (set_mu (match w_mu w1 with Held => Free | _ => Misused end) w1))
      as (w2 & u & E2 & Hid); try done; [by apply ready_mu| |].
    { change (State <$> tget (sh_ID s) (reg w) = Some ShardStandby). rw Hrow. cbn. by rw Hst. }
    intros E. exists u. split; [|done]. destruct (pre ++ s :: post) eqn:Ep; [by destruct pre|]. congruence. }
  assert (sound w) as Hs by (split; [by rw /calm Q|done]).
  destruct (Ensure_row _ _ _ _ E Hs) as (Hua & row & Hrow' & _ & Hra). specialize (Hra Q). injection Hra as Hra _. rw Hid in Hrow'. rewrite -> Hua in Hra.
  exists w', u, row. split_and!; try done. apply active_only; [|by apply tget_Some_elem|done].
  by destruct (wsafe_run _ _ _ _ (wsafe_EnsureActiveShard clusterKey) E Hs) as ([_ []] & _).
Qed.
End Activation.

(** ** Routing of uploads and downloads *)
Section Routing.
Context `{PG} `{CoordLib}.
Context (shardMaxBytes : Z) (clusterKey : string).

(** The coordinator's index, which only an upload adds to. *)
Definition gindex (w : World) : gmap Z GlobalPackageIndex := global_package_index (w_db w).
Definition unindexed {A} (m : M CDB A) : Prop := ∀ db, global_package_index (m db).1 = global_package_index db.
Definition still {A} (m : M World A) : Prop := ∀ w, quiet w → quiet (m w).1 ∧ gindex (m w).1 = gindex w.

Lemma unindexed_stmt z g (text : bool) :
  unindexed (int2_arg z (cstmt (checked text (write g)))).
Proof.
  intros db. destruct (int2_arg z _ db) as [db' r] eqn:E. apply int2_inv in E as [[_ E]|[-> _]]; [|done].
  apply cstmt_inv in E as (fs & [[-> _]|(r1 & E & _)]); [done|]. unfold checked in E. destruct text; [|by injection E as <- _].
  by apply write_inv in E as [(_ & -> & _)|[-> _]].
Qed.
Lemma unindexed_read {A} (f : table ShardInfo → A) : unindexed (cstmt (let! t := registry in mret (f t))).
Proof. intros db. destruct (cstmt _ db) as [db' r] eqn:E. by apply read_inv in E as (fs & -> & _). Qed.
Lemma unindexed_reachable id : unindexed (MarkShardReachable id).
Proof.
  intros db. destruct (MarkShardReachable id db) as [db' r] eqn:E. apply int2_inv in E as [[_ E]|[-> _]]; [|done].
  apply cstmt_inv in E as (fs & [[-> _]|(r1 & E & _)]); [done|]. unfold mbind, M_bind, get in E. by apply write_inv in E as [(_ & -> & _)|[-> _]].
Qed.
Lemma unindexed_promote id tr : unindexed (PromoteStandby id tr).
Proof. intros db. destruct (PromoteStandby id tr db) as [db' r] eqn:E. by apply PromoteStandby_inv in E as (? & _). Qed.

Lemma still_pure {A} (m : M World A) : (∀ w, w_env (m w).1 = w_env w ∧ w_db (m w).1 = w_db w) → still m.
Proof. intros Hm w Q. destruct (Hm w) as [E D]. unfold quiet, gindex. by rw E D. Qed.
Lemma still_bind {A B} (m : M World A) (k : A → M World B) : still m → (∀ a, still (k a)) → still (m ≫= k).
Proof.
  intros Hm Hk w Q. destruct (Hm w Q) as [Q1 G1]. munfold. destruct (m w) as [w1 [a|e]]; [|done]. cbn in *.
  destruct (Hk a w1 Q1) as [Q2 G2]. split; [done|]. by rw G2.
Qed.
Lemma still_try {A} (m : M World A) : still m → still (try m).
Proof. intros Hm w Q. specialize (Hm w Q). unfold try. by destruct (m w). Qed.
Lemma still_ignore {A} (m : M World A) : still m → still (ignore m).
Proof. intros Hm w Q. specialize (Hm w Q). unfold ignore. by destruct (m w). Qed.
Lemma still_repo {A} (m : M CDB A) : unindexed m → still (repo m).
Proof.
  intros Hm w Q. destruct (repo m w) as [w' r] eqn:E. apply repo_call_inv in E as (w1 & db & _ & Hw & E & ->). rewrite -> (Hw Q) in *.
  specialize (Hm (w_db w)). rw E in Hm. by split.
Qed.
Lemma still_client rq : still (client_Do rq).
Proof. apply still_pure. intros w. unfold client_Do. by destruct (w_net w) as [|[]]. Qed.

Ltac still :=
  repeat match goal with
  | |- still (_ ≫= _) => apply still_bind; [|intros ?]
  | |- still (try _) => apply still_try
  | |- still (ignore _) => apply still_ignore
  | |- still (client_Do _) => apply still_client
  | |- still (repo (MarkShardReachable _)) => apply still_repo, unindexed_reachable
  | |- still (repo (MarkShardUnreachable _ _)) => apply still_repo; unfold MarkShardUnreachable; apply unindexed_stmt
  | |- still (repo (PromoteStandby _ _)) => apply still_repo, unindexed_promote
  | |- still (repo ActiveShard) => apply still_repo, unindexed_read
  | |- still (repo StandbyShards) => apply still_repo, unindexed_read
  | |- still (match ?x with _ => _ end) => destruct x
  | _ => apply still_pure; intros ?; by split
  end.




Section Post.
Context (w0 : World) (sup : Z) (fn : string) (a : ShardInfo) (body : bytes).
Let url := url_with (PrimaryURL a +:+ "/v1/packages") (("supplier_id", Itoa sup) :: (if (fn =? "")%string then [] else [("filename", fn)])).



End Post.




End Routing.

(** ** The race of the seal check *)
Section Race.
Context `{PG} `{CoordLib}.
Context (shardMaxBytes : Z) (clusterKey : string).

(** At most the shard [id] is active. *)
Definition lone (id : Z) (t : table ShardInfo) : Prop :=
  NoDup t.*1 ∧ NoDup (uuids t) ∧ ∀ k s, (k, s) ∈ t → k ≠ id → State s ≠ ShardActive.

Lemma tmap_elem id f (t : table ShardInfo) k s : (k, s) ∈ tmap id f t → k ≠ id → (k, s) ∈ t.
Proof.
  unfold tmap. intros ([k' s'] & E & Hin)%list_elem_of_fmap Hk. cbn in E. destruct (Z.eqb_spec k' id) as [->|_]; [by injection E as -> _|].
  by injection E as -> ->.
Qed.

Lemma lone_tmap id f t : (∀ s, ShardUUID (f s) = ShardUUID s) → lone id t → lone id (tmap id f t).
Proof.
  intros Hf (K & U & L). split; [by rw tmap_keys|]. split; [by rw uuids_tmap|]. intros k s Hin Hk. eapply L; [|done]. by eapply tmap_elem.
Qed.

Lemma lone_ok id t : lone id t → indexes_ok t = true.
Proof.
  intros (K & U & L). apply andb_true_intro. split; [|by apply bool_decide_eq_true].
  induction t as [|[k s] t IH]; [done|]. rw actives_cons. cbn in K. apply NoDup_cons in K as [Hk K].
  assert (∀ k s, (k, s) ∈ t → k ≠ id → State s ≠ ShardActive) as L' by (intros k' s' ?; apply L; by right).
  assert (NoDup (uuids t)) as U'.
  { unfold uuids in *. cbn in U. destruct (ShardUUID s); [by apply NoDup_cons in U as [_ ?]|done]. }
  destruct (is_state ShardActive s) eqn:Es; [|by apply IH].
  assert (k = id) as ->. { destruct (decide (k = id)); [done|]. apply String.eqb_eq in Es. by destruct (L k s ltac:(by left)). }
  rewrite -> (actives_none t); [done|]. intros k' s' Hin. apply (L' k' s' Hin). intros ->. apply Hk. apply list_elem_of_fmap. by exists (id, s').
Qed.

(** A statement on the row of the shard that is alone. *)
Lemma write_lone id g db : lone id (shard_registry db) → c_faults db = [] → (∀ s, ShardUUID (g s) = ShardUUID s) →
  cstmt (write (tmap id g)) db = (set_registry (tmap id g) db, Ok tt) ∧ lone id (shard_registry (set_registry (tmap id g) db)).
Proof.
  intros L Hf Hg. pose proof (lone_tmap id g _ Hg L) as L'. split; [|done]. unfold cstmt, write. rw Hf. by rewrite -> (lone_ok _ _ L').
Qed.

Lemma SetShardState_lone id st total at_ db : lone id (shard_registry db) → c_faults db = [] → int2 id = true → text_ok (Some 10) st = true →
  SetShardState id st total at_ db = (set_registry (tmap id (with_state st total at_)) db, Ok tt) ∧
  lone id (shard_registry (set_registry (tmap id (with_state st total at_)) db)).
Proof. intros L Hf Hi Ht. unfold SetShardState, int2_arg, checked. rw Hi Ht. by apply write_lone. Qed.

(** A call of the repository after a batch of other sessions. *)
Lemma repo_batch {A} (m : M CDB A) w ops later db' r : w_env w = ops :: later → m (forM_ ops run_op (w_db w)).1 = (db', r) →
  ∃ w', repo m w = (w', r) ∧ w_db w' = db' ∧ w_env w' = later ∧ w_net w' = w_net w.
Proof.
  intros Hv E. unfold repo, interfere, mbind, M_bind. rw Hv. unfold zoom. cbn [w_db]. rw E. by eexists.
Qed.

(** C39: the periodic check can undo a seal.  The check finds the active shard (the
    registry is sound, so there is no other), the shard answers it with its
    statistics, below the limit, and another session seals the shard in the registry
    just before the check's next write; no statement fails.  Then the check, which
    writes back the state it read, without the lock and without looking at the row
    again, makes the shard active in the registry once more and clears its sealing
    time: for every such registry, shard and answer. *)
Theorem CheckSeal_undoes_seal w a total sealedAt later resp rest st :
  reg_inv (reg w) → tget (sh_ID a) (reg w) = Some a → State a = ShardActive → c_faults (w_db w) = [] → int2 (sh_ID a) = true →
  text_ok (Some 10) ShardActive = true → text_ok (Some 10) ShardSealed = true →
  w_env w = [] :: [] :: [OpSeal (sh_ID a) total (Some sealedAt)] :: later →
  url_parse (PrimaryURL a +:+ "/v1/internal/stats") = Ok tt → w_net w = Answer resp :: rest →
  StatusCode resp = 200 → json_stats (Body resp) (BodyErr resp) = Ok st → (shardMaxBytes <= 0 ∨ ss_TotalBytes st < shardMaxBytes) →
  (∃ s, tget (sh_ID a) (shard_registry (run_op (OpSeal (sh_ID a) total (Some sealedAt)) (w_db w)).1) = Some s ∧
     State s = ShardSealed ∧ SealedAt s = Some sealedAt) ∧
  ∃ w' s, CheckSeal shardMaxBytes clusterKey w = (w', Ok tt) ∧ tget (sh_ID a) (reg w') = Some s ∧ State s = ShardActive ∧ SealedAt s = None.
Proof.
  intros I Ha Hst Hf Hi T1 T2 Hv Hu Hn Hr Hj Hmax. set (id := sh_ID a) in *.
  assert (lone id (reg w)) as L.
  { split; [apply sorted_nodup, I|]. split; [by pose proof (rv_index _ I) as [_ ?%bool_decide_eq_true]%andb_prop|].
    intros k s Hin Hk Hs. pose proof (active_only _ _ _ (rv_index _ I) Hin Hs) as E1.
    pose proof (active_only _ _ _ (rv_index _ I) (tget_Some_elem _ _ _ Ha) Hst) as E2. congruence. }
  split.
  { destruct (SetShardState_lone id ShardSealed total (Some sealedAt) _ L Hf Hi T2) as [E _]. cbn [run_op]. unfold ignore. rw E. cbn.
    rw tget_tmap Z.eqb_refl. unfold reg in Ha. rw Ha. eexists. by split_and!. }
  unfold CheckSeal. destruct (repo_batch ActiveShard w [] ([] :: [OpSeal id total (Some sealedAt)] :: later) (w_db w) (Ok (Some a)) Hv) as (w1 & E1 & D1 & V1 & N1).
  { cbn [forM_]. unfold ActiveShard, cstmt. rw Hf. munfold. cbn. fold (reg w).
    by rewrite -> (active_only _ _ _ (rv_index _ I) (tget_Some_elem _ _ _ Ha) Hst). }
  erewrite bind_ok by exact E1. erewrite bind_ok by reflexivity. cbv beta iota.
  assert (∃ w2, FetchStats clusterKey (PrimaryURL a) w1 = (w2, Ok st) ∧ w_db w2 = w_db w ∧ w_env w2 = w_env w1) as (w2 & E2 & D2 & V2).
  { eexists. split; [unfold FetchStats, NewRequest, client_Do; munfold; rw Hu N1 Hn; cbn; rw Hr /= Hj; reflexivity|by split]. }
  erewrite bind_ok by (unfold try; rewrite -> E2; reflexivity). cbv beta iota.
  destruct (write_lone id (with_seen (c_clock (w_db w))) (w_db w) L Hf ltac:(done)) as [Em L1].
  set (db1 := set_registry (tmap id (with_seen (c_clock (w_db w)))) (w_db w)) in *.
  destruct (repo_batch (MarkShardReachable id) w2 [] ([OpSeal id total (Some sealedAt)] :: later) db1 (Ok tt)) as (w3 & E3 & D3 & V3 & _); [congruence| |].
  { cbn [forM_]. unfold MarkShardReachable, int2_arg, cstmt in *. rewrite -> Hi. munfold. cbn. rewrite -> D2, Hf in *. exact Em. }
  set (w4 := set_metrics (SetCoordinatorShardUp (Itoa id) (State a) true (w_metrics w3)) w3).
  assert (mark_up id (State a) w2 = (w4, Ok tt)) as E4.
  { unfold mark_up, ignore, tell_up, tell, modify, mbind, M_bind. rewrite -> E3. reflexivity. }
  change (sh_ID a) with id. erewrite bind_ok by exact E4.
  destruct (SetShardState_lone id ShardSealed total (Some sealedAt) db1 L1 Hf Hi T2) as [S2 L2]. set (db2 := set_registry _ db1) in *.
  destruct (SetShardState_lone id ShardActive (ss_TotalBytes st) None db2 L2 Hf Hi T1) as [S3 L3]. set (db3 := set_registry _ db2) in *.
  destruct (repo_batch (SetShardState id ShardActive (ss_TotalBytes st) None) w4 [OpSeal id total (Some sealedAt)] later db3 (Ok tt)) as (w5 & E5 & D5 & _); [exact V3| |].
  { subst w4. cbn [w_db set_metrics]. rewrite -> D3. cbn [forM_ run_op]. unfold ignore, mbind, M_bind. rewrite -> S2. exact S3. }
  erewrite bind_ok by (unfold ignore; rewrite -> E5; reflexivity).
  replace ((0 <? shardMaxBytes) && (shardMaxBytes <=? ss_TotalBytes st)) with false by lia.
  eexists _, _. split; [reflexivity|]. unfold reg. cbn [fst]. rewrite -> D5. unfold db3, db2, db1, set_registry. cbn [shard_registry]. rewrite -> !tget_tmap, Z.eqb_refl. unfold reg in Ha. rewrite -> Ha. by split_and!.
Qed.
End Race.
