(* ===== verification/ControlDemo.v ===== *)
(** * Concrete runs of the coordinator

    A small instance of the library functions, and runs on two shards: the
    theorems' hypotheses hold here, and a race in the seal check shows. *)
From S2P Require Import Prelude GoLib Hash Ids Metadata ShardRepo Metrics Registry RegistryInv Control.

(** ** Library functions: JSON of one-byte numbers *)
Definition demo_map (d : bytes) : list (string * any Z) :=
  match d with
  | [l; s] => [("package_id", AFloat (bN l)); ("supplier_id", AFloat (bN s)); ("links", AMap [])]
  | _ => []
  end.
Definition demo_print (v : any Z) : bytes :=
  match v with
  | AMap m => match jget "package_id" m with AInt g => bs (Itoa g) | _ => [] end
  | _ => []
  end.
#[export] Instance demo_lib : CoordLib := {|
  float64 := Z;
  f64_int64 := fun z => z;
  json_map := fun d => Ok (Some (demo_map d));
  json_bytes := fun v => Ok (demo_print v);
  json_stats := fun d e => match d, e with [b], None => Ok (MkStats 0 "primary" false (bN b)) | _, _ => Err (errorf "invalid character") end;
  url_parse := fun u => if strings.HasPrefix u "http" then Ok tt else Err (errorf "unsupported protocol scheme");
  url_with := fun u q => u +:+ "?" +:+ String.concat "&" ((fun kv => kv.1 +:+ "=" +:+ kv.2) <$> q);
  rfc3339 := fun _ => None;
|}.
#[export] Instance demo_pg : PG := {| text_ok _ _ := true |}.

Definition ok_body (b : bytes) : reply := Answer (MkResp 200 "200 OK" "application/json" b None).
Definition created (b : bytes) : reply := Answer (MkResp 201 "201 Created" "application/json" b None).
Definition down : reply := NoAnswer (errorf "connection refused").

Definition demo_world (rows : table ShardInfo) (net : list reply) (env : list (list repo_op)) : World :=
  MkWorld (MkCDB rows ∅ ∅ 100 []) net [] env 200 Free coordinator_init.
Definition two_shards : table ShardInfo := [(1, demo_shard 1 ShardActive); (2, demo_shard 2 ShardStandby)].
Definition two_standbys : table ShardInfo := [(1, demo_shard 1 ShardStandby); (2, demo_shard 2 ShardStandby)].

Lemma two_shards_inv : reg_inv two_shards.
Proof. apply (demo_reg_inv []). Qed.
Lemma two_standbys_inv : reg_inv two_standbys.
Proof.
  split; [by vm_compute| |repeat constructor; lia].
  intros id s [[= -> ->]|[[= -> ->]|[]%not_elem_of_nil]%elem_of_cons]%elem_of_cons; done.
Qed.

Lemma demo_sound net : sound (demo_world two_shards net []).
Proof. split; [constructor|apply two_shards_inv]. Qed.

(** ** Witnesses *)
Definition busy : World :=
  demo_world two_shards [ok_body [x07]; ok_body []; ok_body [x09]] [[]; [OpRegister "uuid-9" "http://nine" None]].

Lemma registry_lifecycle_witness :
  let w' := (forM_ [CmdRotate; CmdGet 5 ""] (perform 0 "key") busy).1 in
  grew (w_db busy) (w_db w') ∧ State <$> tget 1 (reg w') = Some ShardSealed ∧ length (reg w') = 3%nat.
Proof.
  split; [|by vm_compute]. apply registry_lifecycle; [apply two_shards_inv|]. right.
  split; [repeat constructor|by vm_compute].
Defined.

Lemma lock_released_witness :
  w_mu (forM_ [CmdRotate; CmdCheck; CmdPatch 1 ShardActive true] (perform 5 "key") busy).1 = Free.
Proof. apply lock_released. reflexivity. Defined.

Definition rotating : World := demo_world two_shards [ok_body [x07]; ok_body []; ok_body [x09]] [].

Lemma SealAndRotate_spec_witness :
  let x := SealAndRotate "key" rotating in
  x.2 = Ok tt ∧ ∃ a s rows l,
    w_log x.1 = [(stats_request "key" (PrimaryURL s), rows); (seal_request "key" (PrimaryURL a), rows)] ++ l ∧
    rows = two_shards ∧ tget (sh_ID a) two_shards = Some a ∧ tget (sh_ID s) two_shards = Some s ∧
    rotated (sh_ID a) (sh_ID s) 200 x.1 ∧ ∃ rs, actives (reg x.1) = [(sh_ID s, rs)].
Proof.
  intros x. assert (x.2 = Ok tt) as Hok by by vm_compute. split; [exact Hok|].
  destruct (SealAndRotate_spec "key" rotating x.1) as (a & s & r1 & r2 & rest & rows & l & _ & _ & _ & L & _ & _ & Hs & _ & _ & Hq).
  - apply demo_sound.
  - fold x. rewrite <- Hok. apply surjective_pairing.
  - destruct (Hq eq_refl) as (Hr & Ha & Rot & Act). rewrite -> Hr in Ha, Hs. exists a, s, rows, l. by split_and!.
Defined.

Definition waking : World := demo_world two_standbys [down; ok_body [x09]] [].

Lemma EnsureActiveShard_promotes_witness :
  ∃ w' u row, EnsureActiveShard "key" waking = (w', Ok u) ∧ sh_ID u = 2 ∧ State u = ShardActive ∧
    actives (reg w') = [(2, row)].
Proof.
  apply (EnsureActiveShard_promotes "key" waking [demo_shard 1 ShardStandby] (demo_shard 2 ShardStandby) [] [down] (ok_body [x09]) []).
  - apply two_standbys_inv.
  - reflexivity.
  - reflexivity.
  - reflexivity.
  - by vm_compute.
  - reflexivity.
  - reflexivity.
  - by repeat constructor.
  - by eexists.
  - intros x [->|[->|[]%not_elem_of_nil]%elem_of_cons]%elem_of_cons; by vm_compute.
  - reflexivity.
Defined.



(** ** The race of the seal check *)
Definition racing : World :=
  demo_world [(1, demo_shard 1 ShardActive)] [ok_body [x09]; created [x07; x03]] [[]; []; [OpSeal 1 9 (Some 150)]].
Lemma racing_inv : reg_inv (reg racing).
Proof. split; [by vm_compute| |repeat constructor]. intros id s [[= -> ->]|[]%not_elem_of_nil]%elem_of_cons. done. Qed.

(** The next upload goes to the shard that was sealed. *)
Lemma CheckSeal_undoes_seal_witness :
  ∃ w' s, CheckSeal 1000 "key" racing = (w', Ok tt) ∧ tget 1 (reg w') = Some s ∧ State s = ShardActive ∧ SealedAt s = None ∧
    rq_url ∘ fst <$> last (w_log (ProxyPost "key" 3 [x41] "" w').1) = Some "http://shard-1/v1/packages?supplier_id=3".
Proof.
  destruct (CheckSeal_undoes_seal 1000 "key" racing (demo_shard 1 ShardActive) 9 150 [] (MkResp 200 "200 OK" "application/json" [x09] None)
    [created [x07; x03]] (MkStats 0 "primary" false 9)) as (_ & w' & s & E & Hs & H1 & H2).
  - exact racing_inv.
  - reflexivity.
  - reflexivity.
  - reflexivity.
  - reflexivity.
  - reflexivity.
  - reflexivity.
  - reflexivity.
  - reflexivity.
  - reflexivity.
  - reflexivity.
  - reflexivity.
  - right. reflexivity.
  - exists w', s. split; [exact E|]. split; [exact Hs|]. split; [exact H1|]. split; [exact H2|].
    replace w' with (CheckSeal 1000 "key" racing).1 by (by rewrite -> E). vm_compute. reflexivity.
Defined.
