(* ===== verification/Availability.v ===== *)
(** * The availability gauge against the registry

    Every handler that learns whether a shard answers writes it twice: into the
    shard's row and to the availability gauge.  In a coordinator that has the
    database to itself the two agree whenever no handler is at work.  [held X K C]
    is the assertion of a small program logic for the handlers of Registry.v: the
    gauge agrees with the registry except on the shards [X], the shards of [K] are
    in the states named there, and those of [C] have no recorded error. *)
From S2P Require Import Prelude GoLib Hash Ids Metadata Metrics ShardRepo Registry RegistryInv.

Section Agreement.
Context `{PG} `{CoordLib}.

(** The messages the handlers may record about what a shard answered.  They quote the
    answer's body, and PostgreSQL refuses one that is no text. *)
Inductive complaint : reply → string → Prop :=
  | cp_none e : complaint (NoAnswer e) (err_msg e)
  | cp_stats a : complaint (Answer a) ("stats " +:+ rs_Status a +:+ ": " +:+ str (Body a))
  | cp_json a e : json_stats (Body a) (BodyErr a) = Err e → complaint (Answer a) (err_msg e)
  | cp_seal a : complaint (Answer a) ("seal " +:+ rs_Status a +:+ ": " +:+ str (Body a))
  | cp_status a : complaint (Answer a) ("active shard returned status " +:+ Itoa (StatusCode a)).
Definition storable (msg : string) : Prop := text_ok None msg = true.
Definition legible (r : reply) : Prop := ∀ msg, complaint r msg → storable msg.
Definition unreachable : reply := NoAnswer (errorf "connection refused").

(** A coordinator that has its database to itself, a database that answers, and shards
    that give no answer whose complaint the column [last_error] would refuse. *)
Record steady (w : World) : Prop := {
  sd_quiet : quiet w;
  sd_faults : c_faults (w_db w) = [];
  sd_inv : reg_inv (reg w);
  sd_ids : ∀ id s, tget id (reg w) = Some s → int2 id = true;
  sd_net : ∀ r, r ∈ unreachable :: w_net w → legible r;
  sd_urls : ∀ u e, url_parse u = Err e → storable (err_msg e);
}.

(** What the last report of a shard says, against its row. *)
Definition agrees (st : string) (up : bool) (s : ShardInfo) : Prop :=
  State s = st ∧ (up = true → LastError s = None) ∧ (up = false → LastError s ≠ None).
Definition faithful (X : list Z) (t : table ShardInfo) (r : reports) : Prop :=
  ∀ id st up, r !! Itoa id = Some (st, up) → id ∉ X → ∃ s, tget id t = Some s ∧ agrees st up s.

Record held (X : list Z) (K : list (Z * string)) (C : list Z) (w : World) : Prop := {
  hd_steady : steady w;
  hd_gauge : ∃ r, shows r (w_metrics w) ∧ faithful X (reg w) r;
  hd_known : ∀ id st, (id, st) ∈ K → ∃ s, tget id (reg w) = Some s ∧ State s = st;
  hd_clear : ∀ id, id ∈ C → ∃ s, tget id (reg w) = Some s ∧ LastError s = None;
}.

Lemma held_weaken X K C X' K' C' w : held X K C w → X ⊆ X' → K' ⊆ K → C' ⊆ C → held X' K' C' w.
Proof.
  intros [H1 (r & Hr & Hf) H3 H4] HX HK HC. split; [done| |auto|auto]. exists r. split; [done|]. intros id st up E Hn. apply (Hf id); auto.
Qed.

(** The assertion looks at the database, the other sessions, the answers to come and
    the gauges only. *)
Definition alike (w w' : World) : Prop :=
  w_db w' = w_db w ∧ w_env w' = w_env w ∧ w_metrics w' = w_metrics w ∧ w_net w' ⊆ w_net w.
Lemma held_alike X K C w w' : alike w w' → held X K C w → held X K C w'.
Proof.
  intros (Ed & Ee & Em & En) [[S1 S2 S3 S4 S5 S6] H2 H3 H4]. unfold quiet, reg in *.
  split; [split|..]; unfold quiet, reg; rw ?Ed ?Ee ?Em; try done. intros r Hr. apply S5. set_solver.
Qed.

(** ** The table changes *)

(** What a change of the table keeps of the rows outside [D]. *)
Definition undisturbed (D : list Z) (t t' : table ShardInfo) : Prop :=
  ∀ id s, id ∉ D → tget id t = Some s → ∃ s', tget id t' = Some s' ∧ State s' = State s ∧ LastError s' = LastError s.

Lemma held_change D X K C w db :
  held X K C w → c_faults db = [] → reg_inv (shard_registry db) →
  (∀ id s, tget id (shard_registry db) = Some s → int2 id = true) → undisturbed D (reg w) (shard_registry db) →
  held (D ++ X) (filter (fun e => e.1 ∉ D) K) (filter (fun id => id ∉ D) C) (set_db db w).
Proof.
  intros [[S1 S2 S3 S4 S5 S6] (r & Hr & Hf) HK HC] Hdb Hi Hids U. split.
  - by split.
  - exists r. split; [done|]. intros id st up E Hn. destruct (Hf id st up E) as (s & Hs & A); [set_solver|].
    destruct (U id s) as (s' & Hs' & U1 & U2); [set_solver|done|]. exists s'. split; [done|]. unfold agrees. by rw U1 U2.
  - intros id st [Hn Hin]%list_elem_of_filter. destruct (HK _ _ Hin) as (s & Hs & <-). destruct (U id s) as (s' & ? & ? & _); eauto.
  - intros id [Hn Hin]%list_elem_of_filter. destruct (HC _ Hin) as (s & Hs & He). destruct (U id s) as (s' & ? & _ & ?); [done..|].
    exists s'. split; [done|congruence].
Qed.

(** More knowledge, from the registry itself. *)
Lemma held_learn X K C K' C' w : held X K C w →
  (∀ id st, (id, st) ∈ K' → ∃ s, tget id (reg w) = Some s ∧ State s = st) →
  (∀ id, id ∈ C' → ∃ s, tget id (reg w) = Some s ∧ LastError s = None) → held X (K' ++ K) (C' ++ C) w.
Proof.
  intros [H1 H2 H3 H4] HK HC. split; [done|done| |].
  - intros id st [?|?]%elem_of_app; auto.
  - intros id [?|?]%elem_of_app; auto.
Qed.

(** Reports: the gauge agrees with the row it was told of. *)
Lemma held_tell X K C w id st up s : held X K C w → tget id (reg w) = Some s → agrees st up s →
  held (filter (fun i => i ≠ id) X) K C (set_metrics (SetCoordinatorShardUp (Itoa id) st up (w_metrics w)) w).
Proof.
  intros [[S1 S2 S3 S4 S5 S6] (r & Hr & Hf) HK HC] Hs A. split; [by split| |done|done].
  exists (report r (MUp (Itoa id) st up)). split; [apply (mrun_shows _ _ (MUp (Itoa id) st up) Hr)|].
  intros i st' up' E Hn. cbn in E. destruct (decide (i = id)) as [->|Hne].
  - rewrite -> lookup_insert_eq in E. injection E as <- <-. by exists s.
  - rewrite -> lookup_insert_ne in E by (by intros ?%(inj Itoa)). apply (Hf i); [done|]. intros Hx. destruct Hn. by apply list_elem_of_filter.
Qed.
Lemma held_fail X K C w id op : held X K C w → held X K C (set_metrics (IncCoordinatorShardFailures id op (w_metrics w)) w).
Proof.
  intros [[S1 S2 S3 S4 S5 S6] (r & Hr & Hf) HK HC]. split; [by split| |done|done]. exists r. split; [|done].
  apply (mrun_shows _ _ (MFail id op) Hr).
Qed.
End Agreement.

(** No handler at work: the gauge agrees with the registry on every shard. *)
Notation settled := (held [] [] []).

(** ** The statements on a steady database *)
Section Statements.
Context `{PG} `{CoordLib}.

Lemma repo_steady {A} (m : M CDB A) w : steady w → repo m w = (set_db (m (w_db w)).1 w, (m (w_db w)).2).
Proof.
  intros Hs. unfold repo, interfere, zoom. munfold. rewrite -> (sd_quiet _ Hs). by destruct (m (w_db w)).
Qed.

Lemma set_db_id w : set_db (w_db w) w = w.
Proof. by destruct w. Qed.

Lemma repo_query {A} (f : table ShardInfo → A) w : steady w →
  repo (cstmt (let! t := registry in mret (f t))) w = (w, Ok (f (reg w))).
Proof. intros Hs. rewrite -> repo_steady by done. unfold cstmt. rewrite -> (sd_faults _ Hs). cbn. by rw set_db_id. Qed.

Lemma repo_GetShard id w : steady w →
  repo (GetShard id) w = (w, if int2 id then Ok (tget id (reg w)) else Err int_error).
Proof.
  intros Hs. unfold GetShard, int2_arg. destruct (int2 id); [by apply repo_query|]. rewrite -> repo_steady by done. cbn. by rw set_db_id.
Qed.

(** A statement that changes one row in place. *)
Lemma tmap_uuids id f t : (∀ s, ShardUUID (f s) = ShardUUID s) → uuids (tmap id f t) = uuids t.
Proof.
  intros Hf. unfold uuids, tmap. induction t as [|[k s] t IH]; [done|]. cbn. rw IH. destruct (k =? id); cbn; by rw ?Hf.
Qed.
Lemma tmap_actives id f t : (∀ s, State (f s) = State s) → zlen (actives (tmap id f t)) = zlen (actives t).
Proof.
  intros Hf. unfold actives, tmap, table in *. induction t as [|[k s] t IH]; [done|].
  rewrite -> fmap_cons, !filter_cons. cbn [fst snd]. destruct (k =? id); cbn [snd]; unfold is_state; rw ?Hf;
    case_decide; rw ?zlen_cons ?IH; done.
Qed.
Lemma tmap_indexes id f t : (∀ s, State (f s) = State s ∧ ShardUUID (f s) = ShardUUID s) → indexes_ok (tmap id f t) = indexes_ok t.
Proof. intros Hf. unfold indexes_ok. rewrite -> tmap_actives, tmap_uuids by apply Hf. done. Qed.

Lemma tmap_inv id f t : reg_inv t → (∀ s, sh_ID (f s) = sh_ID s) → indexes_ok (tmap id f t) = true → reg_inv (tmap id f t).
Proof.
  intros I Hid Hx. split; [done| |rw tmap_keys; apply I].
  intros k s (b & Hb & ->)%elem_tmap. apply (rv_keys _ I) in Hb as <-. destruct (_ =? _); [apply Hid|done].
Qed.
Lemma tmap_undisturbed id f t : undisturbed [id] t (tmap id f t).
Proof.
  intros k s Hk Hs. rw tget_tmap. assert (k ≠ id) by set_solver. replace (k =? id) with false by lia. eauto.
Qed.
Lemma tmap_ids id f (t : table ShardInfo) : (∀ k s, tget k t = Some s → int2 k = true) → ∀ k s, tget k (tmap id f t) = Some s → int2 k = true.
Proof. intros Hi k s. rw tget_tmap. destruct (k =? id); [intros (s0 & Hs0 & _)%fmap_Some|]; eauto. Qed.

Lemma held_tmap id f X K C w :
  held X K C w → (∀ s, sh_ID (f s) = sh_ID s) → indexes_ok (tmap id f (reg w)) = true →
  held (id :: X) (filter (fun e => e.1 ≠ id) K) (filter (fun i => i ≠ id) C) (set_db (set_registry (tmap id f) (w_db w)) w).
Proof.
  intros Hh Hid Hx. pose proof (hd_steady _ _ _ _ Hh) as [S1 S2 S3 S4 S5 S6].
  eapply held_weaken; [eapply (held_change [id]); [exact Hh|done|by apply tmap_inv|by apply tmap_ids|apply tmap_undisturbed]|done|..].
  - intros e [? ?]%list_elem_of_filter. apply list_elem_of_filter. set_solver.
  - intros e [? ?]%list_elem_of_filter. apply list_elem_of_filter. set_solver.
Qed.

(** What is known of one row after such a change. *)
Lemma held_row id f X K C w s K' C' :
  held X K C w → tget id (reg w) = Some s → (∀ s, sh_ID (f s) = sh_ID s) → indexes_ok (tmap id f (reg w)) = true →
  (∀ st, (id, st) ∈ K' → State (f s) = st) → (∀ e, e ∈ K' → e.1 ≠ id → e ∈ K) →
  (id ∈ C' → LastError (f s) = None) → (∀ i, i ∈ C' → i ≠ id → i ∈ C) →
  held (id :: X) K' C' (set_db (set_registry (tmap id f) (w_db w)) w) ∧
  tget id (tmap id f (reg w)) = Some (f s).
Proof.
  intros Hh Hs Hid Hx H1 H2 H3 H4. assert (tget id (tmap id f (reg w)) = Some (f s)) as Hs' by (rw tget_tmap Z.eqb_refl Hs; done).
  split; [|done]. pose proof (held_tmap id f X K C w Hh Hid Hx) as Hm.
  eapply held_weaken; [eapply (held_learn _ _ _ (filter (fun e => e.1 = id) K') (filter (fun i => i = id) C')); [exact Hm|..]|done|..].
  - intros i st [E Hin]%list_elem_of_filter. cbn in E. subst i. exists (f s). split; [done|]. by apply H1.
  - intros i [-> Hin]%list_elem_of_filter. exists (f s). split; [done|]. by apply H3.
  - intros e He. apply elem_of_app. destruct (decide (e.1 = id)); [left|right]; apply list_elem_of_filter; auto.
  - intros e He. apply elem_of_app. destruct (decide (e = id)); [left|right]; apply list_elem_of_filter; auto.
Qed.
End Statements.

(** ** The logic *)
Section Logic.
Context `{PG} `{CoordLib}.

(** From a world of [P], [m] returns in one of [Q]; when it fails, all is settled. *)
Definition tri {A} (P : World → Prop) (m : M World A) (Q : A → World → Prop) : Prop :=
  ∀ w, P w → match m w with (w', Ok a) => Q a w' | (w', Err _) => settled w' end.

Lemma tri_bind {A B} P (m : M World A) R (k : A → M World B) Q :
  tri P m R → (∀ a, tri (R a) (k a) Q) → tri P (m ≫= k) Q.
Proof.
  intros Hm Hk w Hw. specialize (Hm w Hw). unfold mbind, M_bind. destruct (m w) as [w1 [a|e]]; [by apply Hk|done].
Qed.
Lemma tri_post {A} P (m : M World A) (Q Q' : A → World → Prop) : tri P m Q' → (∀ a w, Q' a w → Q a w) → tri P m Q.
Proof. intros Hm HQ w Hw. specialize (Hm w Hw). destruct (m w) as [w1 [a|e]]; auto. Qed.
Lemma tri_ret {A} (P : World → Prop) (a : A) (Q : A → World → Prop) : (∀ w, P w → Q a w) → tri P (mret a) Q.
Proof. intros HQ w Hw. by apply HQ. Qed.
Lemma tri_fail {A} (P : World → Prop) e (Q : A → World → Prop) : (∀ w, P w → settled w) → tri P (fail e) Q.
Proof. intros HP w Hw. by apply HP. Qed.
Lemma tri_pure {A} (φ : Prop) (P : World → Prop) (m : M World A) Q : (φ → tri P m Q) → tri (fun w => φ ∧ P w) m Q.
Proof. intros Hm w [? Hw]. by apply Hm. Qed.
Lemma tri_void {A} (m : M World A) Q : tri (fun _ => False) m Q.
Proof. by intros w. Qed.
Lemma tri_try {A} P (m : M World A) Q : tri P m Q → tri P (try m) (fun r w => match r with Ok a => Q a w | Err _ => settled w end).
Proof. intros Hm w Hw. specialize (Hm w Hw). unfold try. by destruct (m w) as [w1 []]. Qed.
Lemma tri_deref {A B} P (a : A) (k : A → M World B) Q : tri P (k a) Q → tri P (deref (Some a) ≫= k) Q.
Proof. done. Qed.
Lemma tri_untry {A} P (m : M World A) R :
  tri P (try m) R → (∀ e w, R (Err e) w → settled w) → tri P m (fun a w => R (Ok a) w).
Proof. intros Hm He w Hw. specialize (Hm w Hw). unfold try in Hm. destruct (m w) as [w1 [a|e]]; eauto. Qed.
Lemma tri_ignore {A} P (m : M World A) : tri P m (fun _ => settled) → tri P (ignore m) (fun _ => settled).
Proof. intros Hm w Hw. specialize (Hm w Hw). unfold ignore. by destruct (m w) as [w1 []]. Qed.

(** Steps that leave the database and the gauges alone. *)
Definition inert {A} (m : M World A) : Prop := ∀ w, alike w (m w).1.
Lemma inert_ret {A} (a : A) : inert (mret a).
Proof. by intros w. Qed.
Lemma inert_fail {A} e : inert (fail (A := A) e).
Proof. by intros w. Qed.
Lemma inert_lift {A} (r : result A) : inert (lift_result r).
Proof. by intros w. Qed.
Lemma inert_gets {A} (f : World → A) : inert (gets f).
Proof. by intros w. Qed.
Lemma inert_mu f : inert (modify (fun w => set_mu (f (w_mu w)) w)).
Proof. by intros w. Qed.
Lemma inert_client rq : inert (client_Do rq).
Proof. intros w. unfold client_Do. destruct (w_net w) as [|r l] eqn:E; unfold alike; cbn; rw E; split_and!; set_solver. Qed.
Lemma inert_bind {A B} (m : M World A) (k : A → M World B) : inert m → (∀ a, inert (k a)) → inert (m ≫= k).
Proof.
  intros Hm Hk w. specialize (Hm w). unfold mbind, M_bind. destruct (m w) as [w1 [a|e]]; [|done].
  destruct Hm as (E1 & E2 & E3 & E4). destruct (Hk a w1) as (F1 & F2 & F3 & F4). unfold alike. cbn in *.
  split_and!; [congruence..|]. by etransitivity.
Qed.
Lemma inert_FetchStats key url : inert (FetchStats key url).
Proof.
  unfold FetchStats, NewRequest. apply inert_bind; [apply inert_bind; [apply inert_lift|intros; apply inert_ret]|intros rq].
  apply inert_bind; [apply inert_client|intros a]. destruct (negb _); [apply inert_fail|apply inert_lift].
Qed.
Lemma inert_new m url key body : inert (NewRequest m url key body).
Proof. apply inert_bind; [apply inert_lift|intros; apply inert_ret]. Qed.

(** A request: what it says of an answer, or of there being none, can be recorded. *)
Lemma tri_client X K C rq : tri (held X K C) (try (client_Do rq)) (fun r w =>
  match r with Ok a => legible (Answer a) ∧ held X K C w | Err e => storable (err_msg e) ∧ held X K C w end).
Proof.
  intros w Hw. pose proof (inert_client rq w) as Ha. pose proof (sd_net _ (hd_steady _ _ _ _ Hw)) as Hn.
  unfold try. unfold client_Do in *. destruct (w_net w) as [|r l]; cbn in *.
  - split; [|by eapply held_alike]. apply (Hn unreachable); [by left|constructor].
  - pose proof (Hn r ltac:(set_solver)) as Hr. destruct r as [e|a]; (split; [|by eapply held_alike]); [apply Hr; constructor|done].
Qed.
Lemma tri_FetchStats X K C key url : tri (held X K C) (try (FetchStats key url)) (fun r w =>
  match r with Ok _ => held X K C w | Err e => storable (err_msg e) ∧ held X K C w end).
Proof.
  intros w Hw. pose proof (tri_client X K C (MkReq GET (url +:+ "/v1/internal/stats") (setInternalAuth key) []) w Hw) as Hc.
  unfold FetchStats, NewRequest, try in *. munfold.
  pose proof (sd_urls _ (hd_steady _ _ _ _ Hw) (url +:+ "/v1/internal/stats")) as Hu.
  destruct (url_parse _) as [[]|e]; [|by split; [apply Hu|]].
  destruct (client_Do _ w) as [w1 [a|e]]; [|done]. destruct Hc as [Ha Hw1].
  destruct (negb _); [split; [apply Ha; constructor|done]|]. unfold lift_result.
  destruct (json_stats _ _) as [x|e] eqn:E; [done|]. split; [apply Ha; by constructor|done].
Qed.

Lemma tri_inert_try {A} X K C (m : M World A) : inert m → tri (held X K C) (try m) (fun _ => held X K C).
Proof. intros Hm w Hw. specialize (Hm w). unfold try. destruct (m w) as [w1 r]. by eapply held_alike. Qed.
Lemma held_settled K C w : held [] K C w → settled w.
Proof. intros Hw. eapply held_weaken; [done|done|set_solver|set_solver]. Qed.
Lemma tri_inert {A} K C (m : M World A) : inert m → tri (held [] K C) m (fun _ => held [] K C).
Proof. intros Hm. apply (tri_untry _ _ (fun _ => held [] K C)); [by apply tri_inert_try|]. intros _ w. apply held_settled. Qed.
Lemma tri_mu X K C f : tri (held X K C) (modify (fun w => set_mu (f (w_mu w)) w)) (fun _ => held X K C).
Proof. intros w. by apply held_alike. Qed.
Lemma tri_deferred {A} P (m : M World A) (Q : A → World → Prop) :
  tri P m Q → (∀ a w mu, Q a w → Q a (set_mu mu w)) → tri P (deferred_unlock m) Q.
Proof.
  intros Hm HQ w Hw. specialize (Hm w Hw). unfold deferred_unlock, try. munfold. destruct (m w) as [w1 [a|e]]; [by apply HQ|].
  by eapply held_alike; [|exact Hm].
Qed.

(** ** Marks and reports *)
Implicit Types (X C : list Z) (K : list (Z * string)).

Lemma write_runs g w : steady w → indexes_ok (g (reg w)) = true → repo (cstmt (write g)) w = (set_db (set_registry g (w_db w)) w, Ok tt).
Proof. intros Hs Hx. rewrite -> repo_steady by done. unfold cstmt, write, reg in *. rewrite -> (sd_faults _ Hs), Hx. done. Qed.

Lemma held_tell_up X X' K C w id st up s : held X K C w → tget id (reg w) = Some s → agrees st up s →
  (∀ i, i ∈ X → i = id ∨ i ∈ X') → held X' K C (set_metrics (SetCoordinatorShardUp (Itoa id) st up (w_metrics w)) w).
Proof.
  intros Hw Hs A HX. eapply held_weaken; [by eapply held_tell|..]; [|done|done]. intros i [Hn Hin]%list_elem_of_filter.
  by destruct (HX i Hin).
Qed.

Lemma tri_tell_up X X' K C id st : (id, st) ∈ K → id ∈ C → (∀ i, i ∈ X → i = id ∨ i ∈ X') →
  tri (held X K C) (tell_up id st) (fun _ => held X' K C).
Proof.
  intros HK HC HX w Hw. cbn. destruct (hd_known _ _ _ _ Hw _ _ HK) as (s & Hs & Hst).
  destruct (hd_clear _ _ _ _ Hw _ HC) as (s' & Hs' & He). eapply held_tell_up; [exact Hw|exact Hs| |done].
  split_and!; [done|intros _; congruence|done].
Qed.
Lemma tri_tell_failure X K C id op : tri (held X K C) (tell_failure id op) (fun _ => held X K C).
Proof. intros w. apply held_fail. Qed.

Lemma tri_mark_up X X' K C id st : (id, st) ∈ K → (∀ i, i ∈ X → i = id ∨ i ∈ X') →
  tri (held X K C) (mark_up id st) (fun _ => held X' K (id :: C)).
Proof.
  intros HK HX w Hw. pose proof (hd_steady _ _ _ _ Hw) as Hsd. destruct (hd_known _ _ _ _ Hw _ _ HK) as (s & Hs & Hst).
  set (f := with_seen (c_clock (w_db w))).
  assert (indexes_ok (tmap id f (reg w)) = true) as Hx by (rewrite -> tmap_indexes; [apply Hsd|done]).
  assert (repo (MarkShardReachable id) w = (set_db (set_registry (tmap id f) (w_db w)) w, Ok tt)) as E.
  { unfold MarkShardReachable, int2_arg. rewrite -> (sd_ids _ Hsd _ _ Hs). rewrite <- (write_runs (tmap id f) w) by done.
    rewrite -> !repo_steady by done. unfold cstmt. by rewrite -> (sd_faults _ Hsd). }
  unfold mark_up, ignore. munfold. rewrite -> E. cbn.
  destruct (held_row id f X K C w s K (id :: C) Hw Hs) as [Hh Hs']; try done.
  - intros st' (s' & Hs' & <-)%(hd_known _ _ _ _ Hw). cbn. congruence.
  - set_solver.
  - apply (held_tell_up _ X' _ _ _ _ st true _ Hh Hs'); [by split_and!|set_solver].
Qed.

Lemma tri_mark_down X X' K C id st why op : storable why → (id, st) ∈ K → (∀ i, i ∈ X → i = id ∨ i ∈ X') →
  tri (held X K C) (mark_down id st why op) (fun _ => held X' K []).
Proof.
  intros Et HK HX w Hw. pose proof (hd_steady _ _ _ _ Hw) as Hsd. destruct (hd_known _ _ _ _ Hw _ _ HK) as (s & Hs & Hst).
  set (f := with_error (Some why)). unfold mark_down, ignore. munfold.
  assert (indexes_ok (tmap id f (reg w)) = true) as Hx by (rewrite -> tmap_indexes; [apply Hsd|done]).
  assert (repo (MarkShardUnreachable id why) w = (set_db (set_registry (tmap id f) (w_db w)) w, Ok tt)) as E.
  { unfold MarkShardUnreachable, int2_arg, checked. rewrite -> (sd_ids _ Hsd _ _ Hs), Et. by apply write_runs. }
  rewrite -> E. destruct (held_row id f X K C w s K [] Hw Hs) as [Hh Hs']; try done.
  - intros st' (s' & Hs' & <-)%(hd_known _ _ _ _ Hw). cbn. congruence.
  - set_solver.
  - set_solver.
  - refine (held_fail _ _ _ _ _ _ (held_tell_up _ X' _ _ _ _ st false _ Hh Hs' _ _)); [|set_solver]. by split_and!.
Qed.
End Logic.

(** ** The repository's methods *)
Section Methods.
Context `{PG} `{CoordLib}.
Implicit Types (X C : list Z) (K : list (Z * string)).

Definition label (s : ShardInfo) : Z * string := (sh_ID s, State s).

Lemma held_rows X K C w l : held X K C w → (∀ s, s ∈ l → ∃ k, (k, s) ∈ reg w) → held X ((label <$> l) ++ K) C w.
Proof.
  intros Hw Hl. apply (held_learn X K C (label <$> l) []); [done| |set_solver].
  intros id st (s & [= -> ->] & Hs)%list_elem_of_fmap. destruct (Hl s Hs) as (k & Hk). exists s. split; [|done].
  eapply reg_row; [apply Hw|done].
Qed.

Lemma tri_read {A} X K C (f : table ShardInfo → A) (Q : result A → World → Prop) :
  (∀ w, held X K C w → Q (Ok (f (reg w))) w) → tri (held X K C) (try (repo (cstmt (let! t := registry in mret (f t))))) Q.
Proof. intros HQ w Hw. unfold try. rewrite -> repo_query by apply Hw. by apply HQ. Qed.

Lemma tri_ActiveShard X K C : tri (held X K C) (try (repo ActiveShard)) (fun r w =>
  match r with Ok (Some a) => State a = ShardActive ∧ held X (label a :: K) C w | _ => held X K C w end).
Proof.
  apply tri_read. intros w Hw. destruct (actives (reg w)) as [|[k s] l] eqn:El; [done|].
  assert ((k, s) ∈ actives (reg w)) as Hin by (rw El; by left). apply list_elem_of_filter in Hin as [Hst Hin]. cbn.
  split; [by apply String.eqb_eq|]. apply (held_rows X K C w [s]); [done|]. intros s' ->%list_elem_of_singleton. eauto.
Qed.

Lemma tri_StandbyShards X K C : tri (held X K C) (try (repo StandbyShards)) (fun r w =>
  match r with Ok l => held X ((label <$> l) ++ K) C w | _ => held X K C w end).
Proof.
  apply tri_read. intros w Hw. apply held_rows; [done|]. intros s ([k s'] & -> & Hin)%list_elem_of_fmap.
  apply list_elem_of_filter in Hin as [_ ?]. eauto.
Qed.

Lemma tri_StandbyShard X K C : tri (held X K C) (try (repo StandbyShard)) (fun r w =>
  match r with Ok (Some s) => held X (label s :: K) C w | _ => held X K C w end).
Proof.
  intros w Hw. pose proof (tri_StandbyShards X K C w Hw) as Hl. unfold try in *. unfold StandbyShard.
  rewrite -> repo_steady in Hl by apply Hw. rewrite -> repo_steady by apply Hw. unfold mbind, M_bind. destruct (StandbyShards (w_db w)) as [db [[|s l]|e]]; cbn in *; [exact Hl| |exact Hl].
  eapply held_weaken; [exact Hl|done|set_solver|done].
Qed.

Lemma tri_GetShard X K C id : tri (held X K C) (try (repo (GetShard id))) (fun r w =>
  match r with Ok (Some s) => sh_ID s = id ∧ held X (label s :: K) C w | _ => held X K C w end).
Proof.
  intros w Hw. unfold try. rewrite -> repo_GetShard by apply Hw. destruct (int2 id); [|done].
  destruct (tget id (reg w)) as [s|] eqn:Hs; [|done]. apply tget_Some_elem in Hs. split.
  - eapply rv_keys; [apply Hw|done].
  - apply (held_rows X K C w [s]); [done|]. intros s' ->%list_elem_of_singleton. eauto.
Qed.

Lemma tri_InsertGlobalPackage X K C e : tri (held X K C) (try (repo (InsertGlobalPackage e))) (fun _ => held X K C).
Proof.
  intros w Hw. unfold try. rewrite -> repo_steady by apply Hw. unfold InsertGlobalPackage, int2_arg, cstmt.
  pose proof Hw as [[S1 S2 S3 S4 S5 S6] H2 H3 H4].
  destruct (int2 _); [destruct (int4 _)|]; cbn beta; rewrite -> ?S2; (split; [by split|done..]).
Qed.

(** A state change: refused by the index, or done. *)
Lemma SetShardState_steady id st total at_ w : steady w →
  let f := with_state st total at_ in
  (∃ e, repo (SetShardState id st total at_) w = (w, Err e)) ∨
  (repo (SetShardState id st total at_) w = (set_db (set_registry (tmap id f) (w_db w)) w, Ok tt) ∧ indexes_ok (tmap id f (reg w)) = true).
Proof.
  intros Hs f. pose proof (sd_faults _ Hs) as Hf. rewrite -> repo_steady by done. unfold SetShardState, int2_arg, checked, cstmt, write.
  destruct (int2 id); [|left; eexists; cbn; by rw set_db_id]. cbn beta. rewrite -> Hf.
  destruct (text_ok _ st); [|left; eexists; cbn; by rw set_db_id]. fold f. unfold reg.
  destruct (indexes_ok _) eqn:Hx; [by right|left; eexists; cbn; by rw set_db_id].
Qed.

Lemma held_set_state X K C id st total at_ w s C' :
  held X K C w → tget id (reg w) = Some s → indexes_ok (tmap id (with_state st total at_) (reg w)) = true → C' ⊆ C →
  held (id :: X) [(id, st)] C' (set_db (set_registry (tmap id (with_state st total at_)) (w_db w)) w).
Proof.
  intros Hw Hs Hx HC. destruct (held_row id (with_state st total at_) X K C w s [(id, st)] C' Hw Hs) as [Hh _]; try done.
  - set_solver.
  - set_solver.
  - intros Hin. cbn. destruct (hd_clear _ _ _ _ Hw id (HC _ Hin)) as (s' & Hs' & He). congruence.
  - set_solver.
Qed.

Lemma tri_SetShardState K C id st0 st total at_ : (id, st0) ∈ K →
  tri (held [] K C) (try (repo (SetShardState id st total at_))) (fun r w =>
    match r with Ok _ => held [id] [(id, st)] C w | Err _ => held [] K C w end).
Proof.
  intros HK w Hw. unfold try. destruct (hd_known _ _ _ _ Hw _ _ HK) as (s & Hs & _).
  destruct (SetShardState_steady id st total at_ w (hd_steady _ _ _ _ Hw)) as [[e E]|[E Hx]]; rewrite -> E; [done|].
  by eapply held_set_state.
Qed.

(** Writing the state the row has changes nothing that is looked at. *)
Lemma tri_same_state K C id st total at_ : (id, st) ∈ K →
  tri (held [] K C) (ignore (repo (SetShardState id st total at_))) (fun _ => held [] K []).
Proof.
  intros HK w Hw. unfold ignore. destruct (hd_known _ _ _ _ Hw _ _ HK) as (s & Hs & Hst). pose proof (hd_steady _ _ _ _ Hw) as [S1 S2 S3 S4 S5 S6].
  destruct (SetShardState_steady id st total at_ w (hd_steady _ _ _ _ Hw)) as [[e E]|[E Hx]]; rewrite -> E.
  { eapply held_weaken; [done|done|done|set_solver]. }
  assert (∀ k x, tget k (reg w) = Some x → ∃ x', tget k (tmap id (with_state st total at_) (reg w)) = Some x' ∧ State x' = State x ∧ LastError x' = LastError x) as U.
  { intros k x Hk. rw tget_tmap. destruct (Z.eqb_spec k id) as [->|]; [|eauto]. rewrite -> Hs in Hk |- *. injection Hk as <-. eexists. by split_and!. }
  eapply held_weaken; [apply (held_change [] [] K C); [done|done|by apply tmap_inv|by apply tmap_ids|intros k x _; apply U]|done| |set_solver].
  intros e He. apply list_elem_of_filter. set_solver.
Qed.

Definition sealed_ids (tr : option SealedShardTransition) : list Z := match tr with Some tr => [st_ShardID tr] | None => [] end.

Lemma promoted_rows target tr t : reg_inv t → promotable target tr t →
  (∃ s, tget target (promoted target tr t) = Some (activate s) ∧ sh_ID s = target) ∧
  (∀ id, id ∈ sealed_ids tr → ∃ s, tget id (promoted target tr t) = Some s ∧ State s = ShardSealed ∧ LastError s = None) ∧
  undisturbed (target :: sealed_ids tr) t (promoted target tr t) ∧
  (∀ id s, tget id (promoted target tr t) = Some s → is_Some (tget id t)).
Proof.
  intros I P. pose proof P as [(s & Hs & _) Ho]. split_and!.
  - exists s. rw tget_promoted // Z.eqb_refl Hs. split; [done|]. by apply tget_Some_elem, (rv_keys _ I) in Hs.
  - intros id Hid. destruct tr as [tr|]; [|set_solver]. apply list_elem_of_singleton in Hid as ->.
    pose proof (promotable_other _ _ _ I P) as Hne. destruct (other_active target t) as [c|] eqn:Hc; [|done]. injection Ho as Ho.
    apply other_active_spec in Hc as (k & Hk & _ & _). apply (reg_row _ _ _ I) in Hk as [-> Hk]. rewrite -> Ho in Hk.
    rw tget_promoted //. replace (st_ShardID tr =? target) with false by lia. rw Z.eqb_refl Hk. eexists. by split_and!.
  - intros id x Hid Hx. rw tget_promoted //. assert (id ≠ target) by set_solver. replace (id =? target) with false by lia.
    destruct tr as [tr|]; [|eauto]. cbn in Hid. assert (id ≠ st_ShardID tr) by set_solver. replace (id =? st_ShardID tr) with false by lia. eauto.
  - intros id x. rw tget_promoted //. destruct (id =? target); [by intros (? & -> & _)%fmap_Some|].
    destruct tr as [tr|]; [|eauto]. destruct (id =? _); [by intros (? & -> & _)%fmap_Some|eauto].
Qed.

Lemma tri_PromoteStandby K C target tr :
  tri (held [] K C) (try (repo (PromoteStandby target tr))) (fun r w =>
    match r with
    | Err _ => held [] K C w
    | Ok None => False
    | Ok (Some u) => (sh_ID u = target ∧ State u = ShardActive) ∧
        held (target :: sealed_ids tr) (label u :: ((fun id => (id, ShardSealed)) <$> sealed_ids tr)) (target :: sealed_ids tr) w
    end).
Proof.
  intros w Hw. unfold try. pose proof (hd_steady _ _ _ _ Hw) as [S1 S2 S3 S4 S5 S6]. rewrite -> repo_steady by done.
  destruct (PromoteStandby target tr (w_db w)) as [db r] eqn:E. cbn.
  apply PromoteStandby_healthy in E as [Hf [[-> Hr]|(Et & P & Hx & ->)]]; [rw set_db_id; by destruct r| |done].
  destruct (promoted_rows _ _ _ S3 P) as ((s & Hs & Hid) & Hseal & U & Hdom).
  change (shard_registry (w_db w)) with (reg w) in *. rewrite <- Et in Hs, Hseal, U, Hdom. rewrite -> Hs.
  split; [done|]. assert (reg_inv (shard_registry db)) as I'.
  { by apply (grows_promoted target tr (w_db w)). }
  assert (∀ id x, tget id (shard_registry db) = Some x → int2 id = true) as Hids.
  { intros id x Hi. destruct (Hdom id x Hi) as [y Hy]. by eapply S4. }
  pose proof (held_change _ [] K C w db Hw Hf I' Hids U) as Hh. rewrite -> app_nil_r in Hh.
  eapply held_weaken; [eapply (held_learn _ _ _ (label (activate s) :: ((fun id => (id, ShardSealed)) <$> sealed_ids tr)) (target :: sealed_ids tr) _ Hh)|done|..].
  - intros id st [[= -> ->]|(i & [= -> ->] & Hi)%list_elem_of_fmap]%elem_of_cons.
    + exists (activate s). cbn. rewrite -> Hid. done.
    + destruct (Hseal _ Hi) as (x & Hx1 & Hx2 & _). eauto.
  - intros id [->|Hi]%elem_of_cons; [by exists (activate s)|]. destruct (Hseal _ Hi) as (x & Hx1 & _ & Hx2). eauto.
  - set_solver.
  - set_solver.
Qed.

Lemma tri_RegisterShard u st p r : tri settled (repo (RegisterShard u st p r)) (fun sc w =>
  match sc.1 with Some s => held [sh_ID s] [label s] [sh_ID s] w | None => settled w end).
Proof.
  intros w Hw. pose proof (hd_steady _ _ _ _ Hw) as [S1 S2 S3 S4 S5 S6]. rewrite -> repo_steady by done.
  destruct (RegisterShard u st p r (w_db w)) as [db [[o c]|e]] eqn:E; cbn.
  - pose proof (safe_RegisterShard u st p r (w_db w) S3) as G. rewrite -> E in G. apply gr_inv in G. cbn in G.
    pose proof E as (s & k & -> & _ & Hin & He & Hrows)%RegisterShard_ok. destruct (Hrows S3) as [Hk Ho].
    destruct (reg_row _ _ _ G Hin) as [-> Hs].
    apply ctx_healthy in E as [Hf _]; [|done|healthy].
    assert (∀ id x, tget id (shard_registry db) = Some x → int2 id = true) as Hids.
    { intros id x Hi. destruct (decide (id = sh_ID s)) as [->|Hne]; [destruct Hk as [[y Hy]|]; eauto|]. rewrite -> Ho in Hi by done. eauto. }
    assert (undisturbed [sh_ID s] (reg w) (shard_registry db)) as U.
    { intros id x Hi Hx. rewrite -> Ho by set_solver. eauto. }
    pose proof (held_change _ [] [] [] w db Hw Hf G Hids U) as Hh. eapply held_weaken;
      [eapply (held_learn _ _ _ [label s] [sh_ID s] _ Hh)|done|set_solver|set_solver].
    + intros id st' [= -> ->]%list_elem_of_singleton. by exists s.
    + intros id ->%list_elem_of_singleton. by exists s.
  - apply ctx_healthy in E as [Hf [[-> _]|[? _]]]; [by rw set_db_id|done|done|healthy].
Qed.
End Methods.

(** ** Automation: one rule per step; membership in the lists by [set_solver] *)
Create HintDb held discriminated.
#[export] Hint Resolve held_settled : held.
Create HintDb tri discriminated.
Create HintDb inert discriminated.
#[export] Hint Resolve inert_ret inert_fail inert_lift inert_gets inert_client inert_new inert_FetchStats : inert.

Ltac held :=
  try match goal with |- ?g => match eval hnf in g with _ ∧ _ => split; [done|] end end;
  eapply held_weaken; [eassumption|set_solver..].
Ltac tri_side := solve [ set_solver | intros; cbn in *; eauto with held | intros; held | intros; cbn in *; repeat case_match; destruct_and?; eauto with held ].
Ltac tri_message :=
  solve [ assumption | match goal with H : legible _ |- storable _ => apply H; constructor end ].
Ltac tri_head :=
  match goal with
  | |- tri _ Lock _ => apply (tri_mu _ _ _ (fun mu => match mu with Free => Held | _ => Misused end))
  | |- tri _ Unlock _ => apply (tri_mu _ _ _ (fun mu => match mu with Held => Free | _ => Misused end))
  | |- tri _ (try (repo ActiveShard)) _ => apply tri_ActiveShard
  | |- tri _ (try (repo StandbyShards)) _ => apply tri_StandbyShards
  | |- tri _ (try (repo StandbyShard)) _ => apply tri_StandbyShard
  | |- tri _ (try (repo (GetShard _))) _ => apply tri_GetShard
  | |- tri _ (try (repo (InsertGlobalPackage _))) _ => apply tri_InsertGlobalPackage
  | |- tri _ (try (repo (PromoteStandby _ _))) _ => apply tri_PromoteStandby
  | |- tri _ (try (repo (SetShardState _ _ _ _))) _ => subst; eapply tri_SetShardState; solve [constructor|constructor; constructor]
  | |- tri _ (ignore (repo (SetShardState _ _ _ _))) _ => eapply tri_same_state; tri_side
  | |- tri _ (repo _) _ => eapply tri_untry; [tri_head|tri_side]
  | |- tri _ (mark_up _ _) _ => eapply (tri_mark_up _ []); tri_side
  | |- tri _ (mark_down _ _ _ _) _ => eapply (tri_mark_down _ []); [tri_message|tri_side..]
  | |- tri _ (tell_up _ _) _ => eapply (tri_tell_up _ []); tri_side
  | |- tri _ (tell_failure _ _) _ => apply tri_tell_failure
  | |- tri _ (try (client_Do _)) _ => apply tri_client
  | |- tri _ (try (FetchStats _ _)) _ => apply tri_FetchStats
  | |- tri _ (try _) _ => apply tri_inert_try; solve [auto with inert]
  | |- tri _ _ _ => apply tri_inert; solve [auto with inert]
  | |- tri _ _ _ => solve [eauto 2 with tri]
  end.
Ltac tri_step :=
  lazymatch goal with
  | |- tri (fun _ => False) _ _ => apply tri_void
  | |- tri (fun _ => match ?x with _ => _ end) _ _ => destruct x
  | |- tri (fun _ => _ ∧ _) _ _ => apply tri_pure; intros [? ?] || intros ?
  | |- tri _ (deref (Some _) ≫= _) _ => apply tri_deref
  | |- tri _ (deref ?o ≫= _) _ => destruct o
  | |- tri _ (mret _) _ => apply tri_ret; try tri_side
  | |- tri _ (fail _) _ => apply tri_fail; try tri_side
  | |- tri _ (_ ≫= _) _ => eapply tri_bind; [solve [tri_head]|intros ?; cbn beta iota]
  | |- tri _ (match ?x with _ => _ end) _ => destruct x
  | |- tri _ (deferred_unlock _) _ => apply tri_deferred; [|intros; eapply held_alike; [|eassumption]; done]
  | |- tri _ _ _ => eapply tri_post; [solve [tri_head]|tri_side]
  end.
Ltac tri := repeat tri_step.

Section Handlers.
Context `{PG} `{CoordLib}.
Context (shardMaxBytes : Z) (clusterKey : string).
Implicit Types (X C : list Z) (K : list (Z * string)).

Lemma tri_sealShardRemote K C s op : label s ∈ K →
  tri (held [] K C) (sealShardRemote clusterKey s op) (fun _ => held [] K (sh_ID s :: C)).
Proof. intros HK. unfold sealShardRemote. tri. Qed.

Hint Extern 1 (tri _ (sealShardRemote _ _ _) _) => eapply tri_sealShardRemote; tri_side : tri.

Definition ensured (a : ShardInfo) (w : World) : Prop := State a = ShardActive ∧ held [] [label a] [] w.

Lemma ensured_settled a w : ensured a w → settled w.
Proof. intros [_ Hw]. eauto with held. Qed.
Hint Resolve ensured_settled : held.

Lemma tri_ensure_loop K C e l : label <$> l ⊆ K → tri (held [] K C) (ensure_loop clusterKey e l) ensured.
Proof.
  revert C e. induction l as [|s l IH]; intros C e Hl; cbn [ensure_loop]; [tri|]. tri; try (apply IH; set_solver).
Qed.

Lemma tri_EnsureActiveShard K C : tri (held [] K C) (EnsureActiveShard clusterKey) ensured.
Proof. unfold EnsureActiveShard. tri; apply tri_ensure_loop; set_solver. Qed.

Lemma tri_RegRegisterShard u st p r : tri settled (RegRegisterShard clusterKey u st p r) (fun _ => settled).
Proof.
  unfold RegRegisterShard. eapply tri_bind; [apply tri_RegisterShard|]. intros [[s|] c]; cbn [fst snd]; tri.
  - eapply tri_bind; [apply tri_try, tri_EnsureActiveShard|]. intros [?|?]; tri.
  - eapply tri_bind; [apply tri_try, tri_EnsureActiveShard|]. intros [?|?]; tri.
Qed.

Lemma tri_SealAndRotate K C : tri (held [] K C) (SealAndRotate clusterKey) (fun _ => settled).
Proof.
  unfold SealAndRotate. tri. cbn [sealed_ids fmap list_fmap st_ShardID]. eapply tri_bind; [apply (tri_mark_up _ [sh_ID s0]); set_solver|]. intros ?. cbn beta. tri.
Qed.

Lemma tri_patch_sealed K C id : tri (held [] K C) (patch_sealed clusterKey id) (fun _ => settled).
Proof. unfold patch_sealed. tri. Qed.

Lemma tri_promote_target K C target tr : label target ∈ K →
  tri (held [] K C) (promote_target (sh_ID target) target tr) (fun _ => settled).
Proof.
  intros HK. unfold promote_target. tri. apply (tri_bind _ _ (fun _ => held [sh_ID target] [label s0] [])).
  - destruct tr as [tr|]; [|apply tri_ret; intros; held].
    eapply tri_post; [apply (tri_tell_up _ [sh_ID target]); set_solver|intros; cbn in *; held].
  - intros ?. tri.
Qed.

Lemma tri_patch_active K C id confirm : tri (held [] K C) (patch_active clusterKey id confirm) (fun _ => settled).
Proof.
  unfold patch_active. tri; [|subst; apply tri_promote_target; set_solver].
  apply (tri_bind _ _ (fun _ => held [] (label s :: K) [])); [|intros ?; subst; apply tri_promote_target; set_solver].
  destruct (negb _); tri.
Qed.

Lemma tri_PatchShardState K C id st confirm : tri (held [] K C) (PatchShardState clusterKey id st confirm) (fun _ => settled).
Proof. unfold PatchShardState. tri; [apply tri_patch_sealed|apply tri_patch_active]. Qed.

Lemma tri_rotate_or_seal K C a : tri (held [] K C) (rotate_or_seal clusterKey a) (fun _ => settled).
Proof.
  unfold rotate_or_seal. eapply tri_bind; [apply tri_try, tri_SealAndRotate|]. intros [?|e]; tri.
  eapply tri_bind; [apply tri_PatchShardState|]. intros ?. tri.
Qed.

(** The shard a handler works with: the active one, or one it has made active. *)
Lemma tri_ensured : tri settled (EnsureActiveShard clusterKey) ensured.
Proof. apply tri_EnsureActiveShard. Qed.

Lemma tri_CheckSeal : tri settled (CheckSeal shardMaxBytes clusterKey) (fun _ => settled).
Proof.
  unfold CheckSeal. eapply tri_bind; [tri_head|]. intros active.
  apply (tri_bind _ _ (fun o w => match o with Some a => ensured a w | None => settled w end)).
  - destruct active as [a|]; [tri|]. eapply tri_bind; [apply tri_try, tri_ensured|]. intros [a|e]; tri.
  - intros [a|]; [apply tri_pure; intros Ha|]; tri.
    eapply tri_bind; [apply tri_same_state; rewrite <- Ha; set_solver|]. intros ?. tri. apply tri_rotate_or_seal.
Qed.

Lemma tri_post_to K C a sup body fn : label a ∈ K → tri (held [] K C) (post_to a sup body fn) (fun _ => settled).
Proof. intros HK. unfold post_to, post_answer, index_package. tri. Qed.

Lemma tri_ProxyPost sup body fn : tri settled (ProxyPost clusterKey sup body fn) (fun _ => settled).
Proof.
  unfold ProxyPost. tri; [apply tri_post_to; set_solver|]. eapply tri_bind; [apply tri_try, tri_ensured|].
  intros [a|e]; [apply tri_pure; intros Ha; apply tri_post_to; set_solver|tri].
Qed.

Lemma tri_ProxyGet g suffix : tri settled (ProxyGet g suffix) (fun _ => settled).
Proof.
  unfold ProxyGet. destruct (globalid.Decode g). tri. eapply tri_bind; [apply tri_inert|intros ?; tri].
  repeat case_match; auto with inert.
Qed.

(** A refresh of the gauges. *)
Lemma tri_refresh : tri settled (coordinator_refresh w_metrics set_metrics ShardSnapshots shardMaxBytes) (fun _ => settled).
Proof.
  intros w Hw. unfold coordinator_refresh. assert (ShardSnapshots w = (w, Ok (snapshot <$> (reg w).*2))) as E.
  { unfold ShardSnapshots. by erewrite bind_ok by exact (repo_query (fun t => t.*2) w (hd_steady _ _ _ _ Hw)). }
  rewrite -> E. clear E. destruct Hw as [[S1 S2 S3 S4 S5 S6] (r & Hr & Hf) HK HC].
  set (l := snapshot <$> _). split; [by split| |done|done]. exists (report r (MShards l shardMaxBytes)).
  split; [apply (mrun_shows _ _ (MShards l shardMaxBytes) Hr)|]. intros id st up E. cbn in E.
  apply map_lookup_filter_Some in E as [E _]. by apply Hf.
Qed.
End Handlers.
