(* ===== verification/Dashboard.v ===== *)
(** * The coordinator's dashboard: the gauges of Metrics.v over the registry

    What a refresh shows after any reports, in terms of the shard registry it read. *)
From S2P Require Import Prelude GoLib Hash Ids Metadata Metrics ShardRepo Registry RegistryInv Control ControlDemo Availability.

Section Dashboard.
Context `{PG} `{CoordLib}.

(** The gauges, told from the registry [t] and the reports [r]. *)
Record pictures (t : table ShardInfo) (r : reports) (maxBytes : Z) (m : CoordMetrics) : Prop := {
  pc_info k v : CoordinatorShardInfo m !! k = Some v ↔
    ∃ id s, tget id t = Some s ∧ k = (Itoa id, State s) ∧ v = float_of_int 1;
  pc_bytes k v : CoordinatorShardBytes m !! k = Some v ↔
    ∃ id s, tget id t = Some s ∧ k = (Itoa id, State s) ∧ v = float_of_int (sh_TotalBytes s);
  pc_bar k v : CoordinatorShardBarBytes m !! k = Some v ↔
    ∃ id s, tget id t = Some s ∧ zlen (filter (fun e => id < e.1) t) < 4 ∧ k = (Itoa id, State s) ∧
      v = float_of_int (sh_TotalBytes s);
  pc_active id s : tget id t = Some s → State s = ShardActive → CoordinatorActiveShard m = float_of_int id;
  pc_none : actives t = [] → CoordinatorActiveShard m = float_of_int (-1);
  pc_max : CoordinatorShardMaxBytes m = float_of_int maxBytes;
  pc_up id st v : CoordinatorShardUp m !! (Itoa id, st) = Some v ↔
    ∃ up, r !! Itoa id = Some (st, up) ∧ v = up_value up ∧ is_Some (tget id t);
  pc_others x st : is_Some (CoordinatorShardUp m !! (x, st)) → ∃ id, x = Itoa id;
}.

Definition snapshots (t : table ShardInfo) : list ShardSnapshot := (fun e => snapshot e.2) <$> t.

Lemma ShardSnapshots_reads w w' shards : sound w → ShardSnapshots w = (w', Ok shards) →
  reg_inv (reg w') ∧ shards = snapshots (reg w').
Proof.
  intros [Hc I] [(w1 & l & E1 & E)|(e & _ & ?)]%bind_inv; [|done]. injection E as -> <-.
  apply repo_call_inv in E1 as (w0 & db' & [_ G] & _ & E1 & ->). destruct (G Hc) as [_ Hg]. specialize (Hg I).
  assert (shard_registry db' = shard_registry (w_db w0) ∧ l = (shard_registry (w_db w0)).*2) as [E2 ->].
  { unfold ListShards, cstmt, registry in E1. destruct (c_faults (w_db w0)) as [|[] fs]; munfold; simplify_eq; done. }
  unfold reg, snapshots. cbn. rewrite -> E2. split; [apply Hg|]. by rewrite <- list_fmap_compose.
Qed.

Lemma snapshots_elem t s : reg_inv t → s ∈ snapshots t ↔ ∃ id r, tget id t = Some r ∧ s = snapshot r ∧ sh_ID r = id.
Proof.
  intros I. unfold snapshots. rewrite -> list_elem_of_fmap. split.
  - intros ([id r] & -> & Hin). exists id, r. split; [by apply elem_reg|]. split; [done|]. by eapply rv_keys.
  - intros (id & r & Hr & -> & <-). exists (sh_ID r, r). split; [done|]. by apply elem_reg.
Qed.

Lemma snapshots_ex t (P : ShardSnapshot → Prop) : reg_inv t →
  (∃ s, s ∈ snapshots t ∧ P s) ↔ ∃ id r, tget id t = Some r ∧ P (MkSnapshot id (State r) (sh_TotalBytes r)).
Proof.
  intros I. split.
  - intros (s & (id & r & Hr & -> & <-)%snapshots_elem & HP); [|done]. by exists (sh_ID r), r.
  - intros (id & r & Hr & HP). destruct (reg_row t id r I ltac:(by apply elem_reg)) as [-> _].
    exists (snapshot r). split; [|done]. apply snapshots_elem; eauto.
Qed.

Lemma snapshots_ids t : reg_inv t → sn_ShardID <$> snapshots t = t.*1.
Proof.
  intros I. unfold snapshots. rewrite <- list_fmap_compose. apply list_fmap_ext. intros i [id r] Hi. cbn.
  eapply rv_keys; [done|]. by eapply list_elem_of_lookup_2.
Qed.

Lemma snapshots_newer t s : reg_inv t → zlen (newer (snapshots t) s) = zlen (filter (fun e => sn_ShardID s < e.1) t).
Proof.
  intros I. assert (∀ l, (∀ e, e ∈ l → sh_ID e.2 = e.1) → length (newer (snapshots l) s) = length (filter (fun e => sn_ShardID s < e.1) l)) as E.
  { induction l as [|[id r] l IH]; intros Hl; [done|]. unfold newer, snapshots in *. rewrite -> fmap_cons, !filter_cons.
    pose proof (Hl (id, r) ltac:(by left)) as Hid. cbn in *. rewrite -> Hid.
    specialize (IH ltac:(intros e ?; apply Hl; by right)). case_decide; cbn [length]; f_equal; apply IH. }
  unfold zlen. rewrite -> E; [done|]. intros [id r] Hin. by eapply rv_keys.
Qed.

Lemma one_active t id s id' s' : reg_inv t → tget id t = Some s → tget id' t = Some s' →
  State s = ShardActive → State s' = ShardActive → s' = s.
Proof.
  intros I Hs Hs' Ha Ha'. pose proof (rv_index _ I) as Hx. unfold indexes_ok in Hx. apply andb_prop in Hx as [Hx _].
  assert (∀ k r, tget k t = Some r → State r = ShardActive → (k, r) ∈ actives t) as Hin.
  { intros k r Hk Hr. apply list_elem_of_filter. split; [|by apply elem_reg]. cbn. unfold is_state. by rewrite -> Hr. }
  pose proof (Hin _ _ Hs Ha) as H1. pose proof (Hin _ _ Hs' Ha') as H2.
  destruct (actives t) as [|e [|]]; [by apply not_elem_of_nil in H1| |].
  - apply list_elem_of_singleton in H1, H2. congruence.
  - rewrite -> !zlen_cons in Hx. pose proof (zlen_nonneg l). lia.
Qed.

(** A refresh that reads a registry shows it. *)
Lemma refresh_pictures t r maxBytes m : reg_inv t → shows r m →
  pictures t (report r (MShards (snapshots t) maxBytes)) maxBytes (SetCoordinatorShards (snapshots t) maxBytes m).
Proof.
  intros I Hs. pose proof (mrun_shows _ _ (MShards (snapshots t) maxBytes) Hs) as [_ Hu]. cbn [mrun] in Hu.
  assert (NoDup (sn_ShardID <$> snapshots t)) as Hnd by (rewrite -> snapshots_ids by done; apply sorted_nodup, I).
  destruct (SetCoordinatorShards_mirrors (snapshots t) maxBytes m Hnd) as [H1 H2 H3 H4 H5].
  set (m' := SetCoordinatorShards _ _ _) in *. clearbody m'.
  assert (∀ id, Itoa id ∈ ids (snapshots t) ↔ is_Some (tget id t)) as Hids.
  { intros id. unfold ids. rewrite -> list_elem_of_fmap. setoid_rewrite (snapshots_elem t); [|done]. split.
    - intros (s & E & k & x & Hk & -> & Hx). apply (inj Itoa) in E. cbn in E. rewrite -> E, Hx. eauto.
    - intros [x Hx]. exists (snapshot x). destruct (reg_row t id x I ltac:(by apply elem_reg)) as [-> _]. split; [done|]. eauto. }
  split.
  - intros k v. rewrite -> H1, snapshots_ex by done. split; intros (id & s & Hi & E & Ev); exists id, s; by subst.
  - intros k v. rewrite -> H2, snapshots_ex by done. split; intros (id & s & Hi & E & Ev); exists id, s; by subst.
  - intros k v. rewrite -> H3. setoid_rewrite <- (assoc and). rewrite -> snapshots_ex by done.
    setoid_rewrite (fun s => snapshots_newer t s I).
    split; intros (id & s & Hi & Hn & E & Ev); exists id, s; by subst.
  - intros id s Hi Ha. destruct (reg_row t id s I ltac:(by apply elem_reg)) as [-> _].
    rewrite -> H4. apply (pick_active_one _ _ (snapshot s)); [apply snapshots_elem; [done|]; eauto|done|].
    intros s' (id' & x & Hx & -> & _)%snapshots_elem Ea; [|done]. f_equal. by eapply one_active.
  - intros Hn. rewrite -> H4. apply pick_active_none. intros s (id & x & Hx & -> & _)%snapshots_elem Ea; [|done].
    assert ((id, x) ∈ actives t) as Hin.
    { apply list_elem_of_filter. split; [|by apply elem_reg]. cbn in *. unfold is_state. by rewrite -> Ea. }
    rewrite -> Hn in Hin. by apply not_elem_of_nil in Hin.
  - done.
  - intros id st v. rewrite -> Hu. cbn [report] in *. split.
    + destruct (filter _ r !! Itoa id) as [[st' up]|] eqn:E; [|done]. case_decide as Hst; [subst st'|done]. intros [= <-].
      exists up. split; [done|]. split; [done|]. apply map_lookup_filter_Some_1_2 in E. by apply Hids.
    + intros (up & -> & -> & _). by rewrite -> decide_True.
  - intros x st [v Hv]. rewrite -> Hu in Hv. cbn [report] in Hv. destruct (filter _ r !! x) as [e|] eqn:E; [|done].
    apply map_lookup_filter_Some_1_2 in E. cbn [fst] in E. apply list_elem_of_fmap in E as (s & -> & _). eauto.
Qed.

(** ** The coordinator at work *)
Context (shardMaxBytes : Z) (clusterKey : string).

(** What the process does: its requests and the refreshes of its gauges. *)
Inductive task : Type := TCmd (c : command) | TRefresh.
Definition refresh : M World unit := coordinator_refresh w_metrics set_metrics ShardSnapshots shardMaxBytes.
Definition run_task (t : task) : M World unit :=
  match t with TCmd c => perform shardMaxBytes clusterKey c | TRefresh => refresh end.
Definition is_seal (c : command) : bool := match c with CmdSeal _ => true | _ => false end.
Definition is_check_task (t : task) : bool := match t with TCmd c => is_check c | TRefresh => false end.
Definition is_seal_task (t : task) : bool := match t with TCmd c => is_seal c | TRefresh => false end.

(** The gauges change by reports only. *)
Definition reporting {A} (m : M World A) : Prop := ∀ w, ∃ calls, w_metrics (m w).1 = fold_left mrun calls (w_metrics w).

Lemma reporting_same {A} (m : M World A) : (∀ w, w_metrics (m w).1 = w_metrics w) → reporting m.
Proof. intros Hm w. by exists []. Qed.
Lemma reporting_call (m : M World unit) c : (∀ w, w_metrics (m w).1 = mrun (w_metrics w) c) → reporting m.
Proof. intros Hm w. by exists [c]. Qed.
Lemma reporting_bind {A B} (m : M World A) (k : A → M World B) : reporting m → (∀ a, reporting (k a)) → reporting (m ≫= k).
Proof.
  intros Hm Hk w. specialize (Hm w) as [l1 E1]. unfold mbind, M_bind. destruct (m w) as [w1 [a|e]]; [|by exists l1].
  destruct (Hk a w1) as [l2 E2]. exists (l1 ++ l2). cbn in E1. by rw fold_left_app -E1.
Qed.
Lemma reporting_try {A} (m : M World A) : reporting m → reporting (try m).
Proof. intros Hm w. specialize (Hm w). unfold try. by destruct (m w). Qed.
Lemma reporting_ignore {A} (m : M World A) : reporting m → reporting (ignore m).
Proof. intros Hm w. apply Hm. Qed.
Lemma reporting_repo {A} (m : M CDB A) : reporting (repo m).
Proof.
  apply reporting_same. intros w. unfold repo, interfere. munfold. destruct (w_env w); by destruct (m _).
Qed.
Lemma reporting_inert {A} (m : M World A) : inert m → reporting m.
Proof. intros Hm. apply reporting_same. intros w. apply Hm. Qed.

Lemma reporting_Lock : reporting Lock.
Proof. by apply reporting_same. Qed.
Lemma reporting_Unlock : reporting Unlock.
Proof. by apply reporting_same. Qed.
Lemma reporting_up id st up : reporting (tell (SetCoordinatorShardUp (Itoa id) st up)).
Proof. by apply (reporting_call _ (MUp (Itoa id) st up)). Qed.
Lemma reporting_failure id op : reporting (tell_failure id op).
Proof. by apply (reporting_call _ (MFail (Itoa id) op)). Qed.
Lemma reporting_deferred {A} (m : M World A) : reporting m → reporting (deferred_unlock m).
Proof.
  intros Hm. apply reporting_bind; [by apply reporting_try|]. intros r.
  apply reporting_bind; [apply reporting_Unlock|]. intros _. apply reporting_inert, inert_lift.
Qed.
Lemma reporting_deref {A} (o : option A) : reporting (deref o).
Proof. by destruct o; apply reporting_same. Qed.

Ltac reporting :=
  repeat match goal with
  | |- reporting (_ ≫= _) => apply reporting_bind; [|intros ?]
  | |- reporting (try _) => apply reporting_try
  | |- reporting (ignore _) => apply reporting_ignore
  | |- reporting (repo _) => apply reporting_repo
  | |- reporting Lock => apply reporting_Lock
  | |- reporting Unlock => apply reporting_Unlock
  | |- reporting (deferred_unlock _) => apply reporting_deferred
  | |- reporting (tell_up _ _) => apply reporting_up
  | |- reporting (tell (SetCoordinatorShardUp _ _ _)) => apply reporting_up
  | |- reporting (tell_failure _ _) => apply reporting_failure
  | |- reporting (deref _) => apply reporting_deref
  | |- reporting (mark_up _ _) => unfold mark_up
  | |- reporting (mark_down _ _ _ _) => unfold mark_down
  | |- reporting (sealShardRemote _ _ _) => unfold sealShardRemote
  | |- reporting (match ?x with _ => _ end) => destruct x
  | |- reporting (let _ := _ in _) => cbv zeta
  | |- reporting _ => apply reporting_inert; solve [auto with inert]
  end.

Lemma reporting_Ensure : reporting (EnsureActiveShard clusterKey).
Proof.
  assert (∀ l e, reporting (ensure_loop clusterKey e l)) as Hl.
  { induction l as [|s l IH]; intros e; cbn [ensure_loop]; reporting; apply IH. }
  unfold EnsureActiveShard. reporting; apply Hl.
Qed.
Lemma reporting_Rotate : reporting (SealAndRotate clusterKey).
Proof. unfold SealAndRotate. reporting. Qed.
Lemma reporting_Patch id st c : reporting (PatchShardState clusterKey id st c).
Proof. unfold PatchShardState, patch_sealed, patch_active, promote_target. reporting. Qed.

Lemma reporting_perform c : reporting (perform shardMaxBytes clusterKey c).
Proof.
  destruct c; apply reporting_ignore.
  - unfold RegRegisterShard. reporting. apply reporting_Ensure.
  - apply reporting_Patch.
  - apply reporting_Rotate.
  - apply reporting_Ensure.
  - unfold SealShard. reporting.
  - unfold CheckSeal, rotate_or_seal. reporting; first [apply reporting_Ensure|apply reporting_Rotate|apply reporting_Patch].
  - unfold ProxyPost, post_to, post_answer, index_package. reporting. apply reporting_Ensure.
  - unfold ProxyGet. destruct (globalid.Decode _). reporting.
Qed.

Lemma reporting_ShardSnapshots : reporting ShardSnapshots.
Proof. unfold ShardSnapshots. reporting. Qed.

Lemma run_task_ok t w : ∃ w', run_task t w = (w', Ok tt).
Proof.
  destruct t as [c|]; [apply perform_ok|]. cbn. unfold refresh, coordinator_refresh. destruct (ShardSnapshots w) as [w' []]; eauto.
Qed.

Lemma wsafe_ShardSnapshots : wsafe ShardSnapshots.
Proof. unfold ShardSnapshots. wsafe. Qed.

Lemma run_task_grows t w : sound w → (is_check_task t = true → quiet w) → wgrows w (run_task t w).1.
Proof.
  intros Hs Hq. destruct t as [c|]; [by apply perform_grows|]. pose proof (wsafe_ShardSnapshots w) as Hw.
  cbn. unfold refresh, coordinator_refresh. by destruct (ShardSnapshots w) as [w' []].
Qed.
Lemma run_task_reports t : reporting (run_task t).
Proof.
  destruct t as [c|]; [apply reporting_perform|]. intros w. destruct (reporting_ShardSnapshots w) as [calls E].
  cbn. unfold refresh, coordinator_refresh. destruct (ShardSnapshots w) as [w' [l|e]]; cbn in *; [|by exists calls].
  exists (calls ++ [MShards l shardMaxBytes]). by rw fold_left_app -E.
Qed.
Lemma run_task_settled t : is_seal_task t = false → tri settled (run_task t) (fun _ => settled).
Proof.
  destruct t as [c|]; intros Hn; [|apply tri_refresh].
  destruct c; try discriminate; apply tri_ignore; [apply tri_RegRegisterShard|apply tri_PatchShardState|apply tri_SealAndRotate
    | |apply tri_CheckSeal|apply tri_ProxyPost|apply tri_ProxyGet].
  eapply tri_post; [apply tri_ensured|]. intros a w. apply ensured_settled.
Qed.

(** A run from a start: what holds in between. *)
Lemma run_tasks tasks w : sound w → (w_env w = [] ∨ forallb (fun t => negb (is_check_task t)) tasks = true) →
  let w1 := (forM_ tasks run_task w).1 in
  sound w1 ∧ (∃ calls, w_metrics w1 = fold_left mrun calls (w_metrics w)) ∧
  (forallb (fun t => negb (is_seal_task t)) tasks = true → settled w → settled w1).
Proof.
  revert w. induction tasks as [|t tasks IH]; intros w Hs Hq; [by split_and!; [|exists []|]|].
  destruct (run_task_ok t w) as [w1 E]. cbn [forM_]. rewrite -> (bind_ok _ _ _ _ _ E).
  assert (is_check_task t = true → quiet w) as Hc.
  { intros Ht. destruct Hq as [?|Hf]; [done|]. cbn in Hf. by rw Ht in Hf. }
  destruct (run_task_grows t w Hs Hc) as [Q G]. destruct Hs as [Hcalm I]. destruct (G Hcalm) as [Hc1 Hg]. specialize (Hg I).
  destruct (run_task_reports t w) as [l1 E1]. pose proof (run_task_settled t) as Hset. specialize (fun Hn => Hset Hn w).
  rw E in Q Hc1 Hg E1 Hset. cbn in Q, Hc1, Hg, E1, Hset.
  destruct (IH w1) as (H1 & [l2 E2] & H3); [by split; [|apply Hg]| |].
  { destruct Hq as [?|Hf]; [left; by apply Q|right]. cbn in Hf. by apply andb_prop in Hf as [_ ?]. }
  split_and!; [done|exists (l1 ++ l2); by rw fold_left_app -E1|]. cbn. intros [Ht Hts]%andb_prop Hw. apply H3; [done|].
  apply Hset; [|done]. by apply negb_true_iff.
Qed.

Lemma up_value_inj : Inj (=) (=) up_value.
Proof. intros [] []; vm_compute; congruence. Qed.

Lemma shows_unique r r' m : shows r m → shows r' m → r = r'.
Proof.
  intros [Hb Hu] [Hb' Hu']. apply map_eq. intros id. specialize (Hb id). rewrite -> Hb' in Hb.
  destruct (r !! id) as [[st up]|] eqn:E, (r' !! id) as [[st' up']|] eqn:E'; try done. injection Hb as ->.
  specialize (Hu id st). rewrite -> Hu', E, E', !decide_True in Hu by done. injection Hu as ->%up_value_inj. done.
Qed.

Lemma settled_start w : steady w → w_metrics w = coordinator_init → settled w.
Proof.
  intros Hs Hm. split; [done| |set_solver|set_solver]. exists ∅. split; [rewrite -> Hm; apply (mruns_show [])|]. by intros id st up.
Qed.

(** C24: the coordinator's dashboard shows the registry.  From the start of the
    process, after any requests and earlier refreshes, a refresh that reads the
    registry, whatever other sessions do to it meanwhile, leaves exactly one info
    and one bytes series per shard, with its state and size, bars for the shards
    with fewer than four newer ones, the id of the active shard or -1, and an
    availability series for exactly the registered shards that have been reported,
    in the state and with the value of the last report; a refresh that fails to
    read changes nothing.  (The tasks may include seal checks only when no other
    session writes the registry.)  When moreover the coordinator has the database to
    itself, no statement fails, the shard ids are smallints, the messages about what
    the shards answer are text PostgreSQL stores ([sd_net], [sd_urls]; a body quoted
    in one may not be), and [SealShard], which no handler calls, is not used, each
    availability series agrees with the row of its shard: its state is the row's, a
    shard shown up has no recorded error, and one shown down has one. *)
Theorem dashboard_mirrors_registry tasks w :
  sound w → w_metrics w = coordinator_init →
  (w_env w = [] ∨ forallb (fun t => negb (is_check_task t)) tasks = true) →
  let w1 := (forM_ tasks run_task w).1 in
  let w2 := (refresh w1).1 in
  match (ShardSnapshots w1).2 with
  | Err _ => w_metrics w2 = w_metrics w1
  | Ok shards =>
      ∃ calls, w_metrics w1 = fold_left mrun calls coordinator_init ∧
        pictures (reg w2) (fold_left report (calls ++ [MShards shards shardMaxBytes]) ∅) shardMaxBytes (w_metrics w2) ∧
        (steady w → forallb (fun t => negb (is_seal_task t)) tasks = true →
         ∀ id st v, CoordinatorShardUp (w_metrics w2) !! (Itoa id, st) = Some v →
         ∃ s up, tget id (reg w2) = Some s ∧ v = up_value up ∧ agrees st up s)
  end.
Proof.
  intros Hs Hm Hq w1 w2. destruct (run_tasks tasks w Hs Hq) as (Hs1 & [calls E1] & Hset). fold w1 in Hs1, E1, Hset.
  rewrite -> Hm in E1. pose proof (run_task_settled TRefresh eq_refl w1) as Hset2. cbn in Hset2.
  assert (w_metrics (ShardSnapshots w1).1 = w_metrics w1) as Em.
  { unfold ShardSnapshots, repo, interfere. munfold. destruct (w_env w1); by destruct (ListShards _) as [? []]. }
  unfold w2. unfold refresh, coordinator_refresh in *. destruct (ShardSnapshots w1) as [w' [shards|e]] eqn:E; cbn in *; [|done].
  destruct (ShardSnapshots_reads _ _ _ Hs1 E) as [I ->]. exists calls. split; [done|].
  rewrite -> fold_left_app. cbn [fold_left]. rewrite -> Em, E1 in *. pose proof (mruns_show calls) as Hsh.
  pose proof (refresh_pictures (reg w') _ shardMaxBytes _ I Hsh) as P. split; [exact P|].
  intros Hsd Hn id st v (up & Hr & -> & _)%(pc_up _ _ _ _ P). specialize (Hset2 (Hset Hn (settled_start _ Hsd Hm))).
  destruct (hd_gauge _ _ _ _ Hset2) as (r2 & Hr2 & Hf). cbn in Hr2.
  pose proof (mrun_shows _ _ (MShards (snapshots (reg w')) shardMaxBytes) Hsh) as Hr3.
  rewrite -> (shows_unique _ _ _ Hr3 Hr2) in Hr. destruct (Hf id st up Hr) as (s & H1 & H2); [set_solver|]. by exists s, up.
Qed.
End Dashboard.

(** Shards 1 and 2 are rotated; then a download from shard 1, now sealed, fails. *)
Definition rotated_tasks : list task := [TRefresh; TCmd CmdRotate; TCmd (CmdGet (globalid.Encode 1 5) "/original")].
Definition rotated_world : World := demo_world two_shards [ok_body [x07]; ok_body []; ok_body [x09]; down] [].

Lemma dashboard_mirrors_registry_witness :
  let w1 := (forM_ rotated_tasks (run_task 500 "key") rotated_world).1 in
  let w2 := (refresh 500 w1).1 in
  CoordinatorActiveShard (w_metrics w2) = float_of_int 2 ∧
  CoordinatorShardUp (w_metrics w2) !! ("1", "sealed") = Some (up_value false) ∧
  ∃ s up, tget 1 (reg w2) = Some s ∧ up_value false = up_value up ∧ agrees "sealed" up s ∧ LastError s = Some "connection refused".
Proof.
  intros w1 w2.
  pose proof (dashboard_mirrors_registry 500 "key" rotated_tasks rotated_world (demo_sound _) eq_refl (or_introl eq_refl)) as T.
  cbv zeta in T. fold w1 in T. fold w2 in T. assert (is_ok (ShardSnapshots w1).2 = true) as Hok by (vm_compute; reflexivity).
  destruct (ShardSnapshots w1).2 as [shards|e]; [|discriminate Hok]. destruct T as (calls & _ & P & A).
  assert (CoordinatorShardUp (w_metrics w2) !! ("1", "sealed") = Some (up_value false)) as Hup by (vm_compute; reflexivity).
  assert (steady rotated_world) as Hs.
  { split; [done|done|apply (demo_sound [])| |by intros r _ msg _|by intros u e _]. intros id s Hid%tget_Some_elem. cbn in Hid.
    apply elem_of_cons in Hid as [[= -> _]|[[= -> _]|[]%not_elem_of_nil]%elem_of_cons]; done. }
  destruct (A Hs eq_refl 1 "sealed" _ Hup) as (s & up & Hrow & Hv & Ha).
  split; [|split; [exact Hup|]].
  - assert (State <$> tget 2 (reg w2) = Some ShardActive) as Hst by (vm_compute; reflexivity).
    destruct (tget 2 (reg w2)) as [s2|] eqn:Hs2; [injection Hst as Hst|discriminate Hst]. exact (pc_active _ _ _ _ P 2 s2 Hs2 Hst).
  - assert (LastError <$> tget 1 (reg w2) = Some (Some "connection refused")) as He by (vm_compute; reflexivity).
    exists s, up. split; [exact Hrow|]. split; [exact Hv|]. split; [exact Ha|]. rewrite -> Hrow in He. injection He as He. exact He.
Defined.
