(* ===== verification/Http.v ===== *)
(** * Requests and responses

    What the handlers of both servers see of net/http and chi, and the code the
    two have in common.  A response's JSON value is kept as the Go value. *)
From S2P Require Import Prelude GoLib.

(** [h_body] is [None] for a nil body; else what can be read of it and the error
    that ends it, if not EOF. *)
Record HRequest : Type := MkHReq {
  h_method : string;
  h_path : string;
  h_params : list (string * string);
  h_query : list (string * string);
  h_header : list (string * string);
  h_body : option (bytes * option error);
  h_ContentLength : Z;
}.

Record HResponse (B : Type) : Type := MkHResp { hs_status : Z; hs_header : list (string * string); hs_body : B }.
Arguments MkHResp {B} _ _ _. Arguments hs_status {B} _. Arguments hs_header {B} _. Arguments hs_body {B} _.

(** [URLParam], [Query().Get] and [Header.Get]: the first value, or empty. *)
Fixpoint kv_get (k : string) (l : list (string * string)) : string :=
  match l with
  | [] => ""
  | (k', v) :: l' => if (k' =? k)%string then v else kv_get k l'
  end.

(** [io.ReadAll(io.LimitReader(body, n))]. *)
Definition limited_read (n : Z) (b : bytes * option error) : result bytes :=
  if n <=? 0 then Ok [] else
  if n <=? zlen b.1 then Ok (take (Z.to_nat n) b.1) else
  match b.2 with None => Ok b.1 | Some e => Err e end.

(** [readBody] of the coordinator, [readBodyLimited] of the shard. *)
Definition readBody (r : HRequest) (max : Z) : result bytes :=
  match h_body r with
  | None => Err (errorf "empty body")
  | Some b =>
      match limited_read (i64 (max + 1)) b with
      | Err e => Err e
      | Ok data =>
          if max <? zlen data then Err (errorf "payload too large") else
          if zlen data =? 0 then Err (errorf "empty body") else Ok data
      end
  end.

(** The key of a request's headers: X-Cluster-Key, or a bearer token. *)
Definition header_key (r : HRequest) : string :=
  let key := strings.TrimSpace (kv_get "X-Cluster-Key" (h_header r)) in
  if negb (key =? "")%string then key else
  let auth := strings.TrimSpace (kv_get "Authorization" (h_header r)) in
  if strings.HasPrefix (strings.ToLower auth) "bearer " then strings.TrimSpace (str (drop 7 (bs auth))) else "".

(** A body is taken whole and within the limit, or not at all. *)
Lemma readBody_ok r max data : 0 <= max < 2 ^ 63 - 1 → readBody r max = Ok data →
  ∃ e, h_body r = Some (data, e) ∧ 0 < zlen data <= max.
Proof.
  intros Hm. unfold readBody. destruct (h_body r) as [[b e]|]; [|done]. unfold limited_read. cbn [fst snd].
  rewrite -> i64_small by (unfold is_i64; lia). replace (max + 1 <=? 0) with false by lia.
  destruct (max + 1 <=? zlen b) eqn:E1.
  - assert (zlen (take (Z.to_nat (max + 1)) b) = max + 1) as Hl by (unfold zlen in *; rw length_take; lia).
    rewrite -> Hl. by replace (max <? max + 1) with true by lia.
  - destruct e as [e|]; [done|]. destruct (max <? zlen b) eqn:E2; [done|]. destruct (zlen b =? 0) eqn:E3; [done|].
    intros [= ->]. exists None. split; [done|]. pose proof (zlen_nonneg data). lia.
Qed.

(** The limit is computed with wrap-around: with the largest int64 as maximum every
    body reads as empty. *)
Lemma readBody_overflow r b : h_body r = Some b → readBody r (2 ^ 63 - 1) = Err (errorf "empty body").
Proof. unfold readBody. intros ->. reflexivity. Qed.
