(* ===== verification/CoordServer.v ===== *)
(** * The coordinator's HTTP interface: internal/coordinator (server.go, admin_requests.go, register_client.go)

    The handlers over the registry: what they check, which status they answer
    with, and that only a caller with the cluster key changes the registry.
    A handler that panics ends in [Err]; chi's Recoverer turns it into a 500.
    The second part is the client a shard registers itself with. *)
From S2P Require Import Prelude GoLib Ids Metadata ShardRepo Registry RegistryInv Control Config Http.

Record RegisterShardRequest : Set := MkRegister {
  rr_ShardUUID : string; rr_ClusterKey : string; rr_PrimaryURL : string; rr_ReplicaURL : option string; rr_StartupState : string }.
Record PatchShardStateRequest : Set := MkPatch { pr_State : string; pr_Confirm : bool; pr_ClusterKey : string }.
Record SealRotateRequest : Set := MkSealRotate { sr_ClusterKey : string }.

(** [json.NewDecoder(r.Body).Decode]; net/http never gives a handler a nil body. *)
Class AdminJSON := {
  decode_register : bytes * option error → result RegisterShardRequest;
  decode_patch : bytes * option error → result PatchShardStateRequest;
  decode_seal_rotate : bytes * option error → result SealRotateRequest;
}.
Definition decode_body {A} (dec : bytes * option error → result A) (r : HRequest) : result A :=
  match h_body r with Some b => dec b | None => Err nil_dereference end.

(** The JSON values the handlers answer with. *)
Inductive payload : Type :=
  | ErrorBody (msg : string)
  | StatusBody (msg : string)
  | ShardsBody (l : list ShardInfo)
  | ShardBody (s : option ShardInfo)
  | RegisterBody (s : ShardInfo) (registered : bool)
  | RawBody (data : bytes).
Abbreviation response := (HResponse payload).

Definition json_header : list (string * string) := [("Content-Type", "application/json")].
Definition writeJSON (status : Z) (v : payload) : response := MkHResp status json_header v.
Definition writeRaw (status : Z) (ct : string) (data : bytes) : response :=
  MkHResp status (if (ct =? "")%string then [] else [("Content-Type", ct)]) (RawBody data).

(** ** Checks *)
Definition isUUID (value : string) : bool :=
  let v := bs (strings.ToLower (strings.TrimSpace value)) in
  (length v =? 36)%nat &&
  forallb (fun ic : nat * byte =>
    if bool_decide (ic.1 ∈ [8; 13; 18; 23]%nat) then bN ic.2 =? 45
    else ((48 <=? bN ic.2) && (bN ic.2 <=? 57)) || ((97 <=? bN ic.2) && (bN ic.2 <=? 102)))
    (zip (seq 0 36) v).

Definition startupRegistrationState (raw : string) : result string :=
  if (strings.TrimSpace raw =? "")%string then Ok ShardStandby else
  match ParseShardState raw with
  | Err e => Err e
  | Ok parsed => if negb (parsed =? ShardStandby)%string then Err (errorf "startup_state must be standby") else Ok ShardStandby
  end.

Section Server.
Context `{PG} `{CoordLib} `{EnvLib} `{AdminJSON}.
Context (cfg : config.Config).

(** The registry the server was built with: cmd/coordinator/main.go. *)
Definition key : string := config.EffectiveClusterKey cfg.
Definition maxBytes : Z := config.ShardMaxBytes cfg.

Definition validateClusterKey (provided : string) : result unit :=
  let expected := config.EffectiveClusterKey cfg in
  if (expected =? "")%string then Err (errorf "cluster key is not configured") else
  if negb (provided =? expected)%string then Err (errorf "invalid cluster key") else Ok tt.

Definition clusterKeyFromRequest (explicit : string) (r : HRequest) : string :=
  let key := strings.TrimSpace explicit in
  if negb (key =? "")%string then key else header_key r.

Definition parseGlobalID (r : HRequest) : result Z := ParseInt64 (kv_get "id" (h_params r)).

(** ** Packages *)
Definition postPackage (r : HRequest) : M World response :=
  match supplier.ParseQuery (kv_get "supplier_id" (h_query r)) with
  | Err e => mret (writeJSON 400 (ErrorBody (err_msg e)))
  | Ok supplierID =>
      match readBody r (config.MaxBodyBytes cfg) with
      | Err e => mret (writeJSON (if (err_msg e =? "payload too large")%string then 413 else 400) (ErrorBody (err_msg e)))
      | Ok body =>
          let! p := ProxyPost key supplierID body (kv_get "filename" (h_query r)) in
          mret (match p with
                | StatusError status code _ => writeJSON status (ErrorBody code)
                | OtherError e => writeJSON 502 (ErrorBody (err_msg e))
                | Forward data status _ => MkHResp status json_header (RawBody data)
                end)
      end
  end.

(** The three downloads differ in the path they append. *)
Definition proxy_get (r : HRequest) (suffix : string) : M World response :=
  match parseGlobalID r with
  | Err e => mret (writeJSON 400 (ErrorBody (err_msg e)))
  | Ok id =>
      let! p := ProxyGet id suffix in
      mret (match p with
            | StatusError status code _ => writeJSON status (ErrorBody code)
            | OtherError e => writeJSON 502 (ErrorBody (err_msg e))
            | Forward data status ct => writeRaw status ct data
            end)
  end.
Definition getPackage (r : HRequest) : M World response := proxy_get r "".
Definition getFile (r : HRequest) : M World response := proxy_get r ("/files/" +:+ kv_get "file_id" (h_params r)).
Definition getOriginal (r : HRequest) : M World response := proxy_get r "/original".

(** ** Administration *)
Definition listShards (r : HRequest) : M World response :=
  let! l := try (repo ListShards) in
  mret (match l with
        | Err e => writeJSON 500 (ErrorBody (err_msg e))
        | Ok l => writeJSON 200 (ShardsBody l)
        end).

Definition sealRotate (r : HRequest) : M World response :=
  let req := match h_body r with
             | Some b => if negb (h_ContentLength r =? 0) then decode_seal_rotate b else Ok (MkSealRotate "")
             | None => Ok (MkSealRotate "")
             end in
  match req with
  | Err _ => mret (writeJSON 400 (ErrorBody "invalid json body"))
  | Ok req =>
      match validateClusterKey (clusterKeyFromRequest (sr_ClusterKey req) r) with
      | Err e => mret (writeJSON 403 (ErrorBody (err_msg e)))
      | Ok _ =>
          let! res := try (SealAndRotate key) in
          mret (match res with
                | Ok _ => writeJSON 200 (StatusBody "rotated")
                | Err e =>
                    if error_is e ErrStateConflict then writeJSON 409 (ErrorBody (err_msg e)) else
                    if error_is e ErrRotationIncomplete then writeJSON 503 (ErrorBody (err_msg e)) else
                    writeJSON 500 (ErrorBody (err_msg e))
                end)
      end
  end.

Definition registerShard (r : HRequest) : M World response :=
  match decode_body decode_register r with
  | Err _ => mret (writeJSON 400 (ErrorBody "invalid json body"))
  | Ok req =>
      match validateClusterKey (rr_ClusterKey req) with
      | Err e => mret (writeJSON 403 (ErrorBody (err_msg e)))
      | Ok _ =>
          if negb (isUUID (rr_ShardUUID req)) then mret (writeJSON 400 (ErrorBody "invalid shard_uuid")) else
          if (strings.TrimSpace (rr_PrimaryURL req) =? "")%string then mret (writeJSON 400 (ErrorBody "primary_url is required")) else
          match startupRegistrationState (rr_StartupState req) with
          | Err e => mret (writeJSON 400 (ErrorBody (err_msg e)))
          | Ok state =>
              let! res := try (RegRegisterShard key (rr_ShardUUID req) state (rr_PrimaryURL req) (rr_ReplicaURL req)) in
              match res with
              | Err e => mret (writeJSON (if error_is e ErrStateConflict then 409 else 500) (ErrorBody (err_msg e)))
              | Ok (shard, created) =>
                  let! s := deref shard in
                  mret (writeJSON (if created : bool then 201 else 200) (RegisterBody s created))
              end
          end
      end
  end.

Definition patchShardState (r : HRequest) : M World response :=
  match Atoi (kv_get "id" (h_params r)) with
  | Err _ => mret (writeJSON 400 (ErrorBody "invalid shard id"))
  | Ok id =>
      match decode_body decode_patch r with
      | Err _ => mret (writeJSON 400 (ErrorBody "invalid json body"))
      | Ok req =>
          match validateClusterKey (pr_ClusterKey req) with
          | Err e => mret (writeJSON 403 (ErrorBody (err_msg e)))
          | Ok _ =>
              match ParseShardState (pr_State req) with
              | Err e => mret (writeJSON 400 (ErrorBody (err_msg e)))
              | Ok state =>
                  let! res := try (PatchShardState key id state (pr_Confirm req)) in
                  mret (match res with
                        | Err e =>
                            if error_is e ErrShardNotFound then writeJSON 404 (ErrorBody (err_msg e)) else
                            if error_is e ErrStateConflict then writeJSON 409 (ErrorBody (err_msg e)) else
                            writeJSON 500 (ErrorBody (err_msg e))
                        | Ok shard => writeJSON 200 (ShardBody shard)
                        end)
              end
          end
      end
  end.

(** ** Routes *)
Inductive route : Set :=
  | RPostPackage | RGetPackage | RGetFile | RGetOriginal | RListShards | RRegisterShard | RSealRotate | RPatchState.
#[export] Instance route_eq_dec : EqDecision route.
Proof. solve_decision. Defined.
Definition Router (rt : route) : HRequest → M World response :=
  match rt with
  | RPostPackage => postPackage | RGetPackage => getPackage | RGetFile => getFile | RGetOriginal => getOriginal
  | RListShards => listShards | RRegisterShard => registerShard | RSealRotate => sealRotate | RPatchState => patchShardState
  end.

(** [RunSealLoop]: whether it runs at all, and what each tick does. *)
Definition seal_loop_on : bool :=
  negb (config.IsSingleNode cfg) && (0 <? config.SealCheckInterval cfg) && (0 <? config.ShardMaxBytes cfg).
Definition seal_tick : M World unit := ignore (CheckSeal maxBytes key).
Definition RunSealLoop (ticks : nat) : M World unit :=
  if seal_loop_on then forM_ (replicate ticks tt) (fun _ => seal_tick) else mret tt.
End Server.

(** ** Who may change the registry *)
Section Authorization.
Context `{PG} `{CoordLib} `{EnvLib} `{AdminJSON}.
Context (cfg : config.Config).

Definition is_admin (rt : route) : bool :=
  match rt with RListShards | RRegisterShard | RSealRotate | RPatchState => true | _ => false end.

(** The key a request to an administrative route presents, if it can be read; the
    listing takes none. *)
Definition presented (rt : route) (r : HRequest) : option string :=
  match rt with
  | RRegisterShard => match decode_body decode_register r with Ok q => Some (rr_ClusterKey q) | Err _ => None end
  | RPatchState => match decode_body decode_patch r with Ok q => Some (pr_ClusterKey q) | Err _ => None end
  | RSealRotate =>
      match h_body r with
      | Some b => if negb (h_ContentLength r =? 0)
                  then match decode_seal_rotate b with Ok q => Some (clusterKeyFromRequest (sr_ClusterKey q) r) | Err _ => None end
                  else Some (header_key r)
      | None => Some (header_key r)
      end
  | _ => None
  end.

Definition authorized (rt : route) (r : HRequest) : Prop :=
  key cfg ≠ "" ∧ presented rt r = Some (key cfg).

Lemma validate_inv p : validateClusterKey cfg p = Ok tt → key cfg ≠ "" ∧ p = key cfg.
Proof.
  unfold validateClusterKey, key. destruct (String.eqb_spec (config.EffectiveClusterKey cfg) "") as [|Hne]; [done|].
  destruct (String.eqb_spec p (config.EffectiveClusterKey cfg)); done.
Qed.

(** A refusal: 400 or 403, and the coordinator and its database are as before. *)
Definition refused (w w' : World) (out : result response) : Prop :=
  w' = w ∧ ∃ st msg, out = Ok (writeJSON st (ErrorBody msg)) ∧ (st = 400 ∨ st = 403).
(** A listing: one statement that only reads.  What other sessions did before it is
    in [interfere]; of the rest only the schedule of the database's faults moves
    on, and the answer is the rows there are, or a 500. *)
Definition listed (w w' : World) (out : result response) : Prop :=
  let w1 := (interfere w).1 in
  (∃ fs, w' = set_db (set_faults fs (w_db w1)) w1) ∧
  (out = Ok (writeJSON 200 (ShardsBody (reg w').*2)) ∨ out = Ok (writeJSON 500 (ErrorBody (err_msg db_error)))).

Lemma listShards_spec r w : listed w (listShards r w).1 (listShards r w).2.
Proof.
  unfold listed, listShards, repo, zoom. munfold.
  assert ((interfere w).2 = Ok tt) as Hi by (unfold interfere; by destruct (w_env w)).
  destruct (interfere w) as [w1 [[]|?]]; [|done]. cbn [fst].
  destruct (ListShards (w_db w1)) as [db x] eqn:E. apply read_inv in E as (fs & -> & [->| ->]); cbn; eauto.
Qed.

(** C20: only a caller with the cluster key administers the registry.  A request to
    register a shard, to set a shard's state or to seal and rotate that does not
    present the configured key (and any such request when none is configured) is
    answered with 400 or 403 and changes nothing: no statement and no request to a
    shard is sent.  The remaining administrative route, the listing of the shards,
    is served to anyone: it asks no shard and changes no row, and answers with the
    registry's rows or, when its one statement fails, with 500. *)
Theorem admin_needs_key rt r w :
  is_admin rt = true → ¬ authorized rt r →
  let '(w', out) := Router cfg rt r w in
  if decide (rt = RListShards) then listed w w' out else refused w w' out.
Proof.
  intros Ha Hn. destruct (Router cfg rt r w) as [w' out] eqn:ER. case_decide as D.
  { subst rt. pose proof (listShards_spec r w) as L. cbn [Router] in ER. by rw ER in L. }
  enough (∃ st msg, (w', out) = (w, Ok (writeJSON st (ErrorBody msg))) ∧ (st = 400 ∨ st = 403))
    as (st & msg & [= -> ->] & Hst) by (split; eauto).
  rewrite <- ER. clear ER. unfold authorized, presented in Hn. destruct rt; try discriminate; try done; cbn [Router].
  - unfold registerShard. destruct (decode_body decode_register r) as [q|e]; [|by do 2 eexists; split; [|left]].
    destruct (validateClusterKey cfg (rr_ClusterKey q)) as [[]|e] eqn:E; [|by do 2 eexists; split; [|right]].
    apply validate_inv in E as [E1 E2]. by destruct Hn; rw E2.
  - unfold sealRotate. set (req := match h_body r with Some b => _ | None => _ end).
    destruct req as [q|e] eqn:Eq; [|by do 2 eexists; split; [|left]].
    destruct (validateClusterKey cfg (clusterKeyFromRequest (sr_ClusterKey q) r)) as [[]|e] eqn:E; [|by do 2 eexists; split; [|right]].
    apply validate_inv in E as [E1 E2]. destruct Hn. split; [done|]. unfold req in Eq.
    destruct (h_body r) as [b|]; [destruct (negb _); [by rw Eq E2|]|]; injection Eq as <-; cbn in E2; by rw -E2.
  - unfold patchShardState. destruct (Atoi _) as [id|e]; [|by do 2 eexists; split; [|left]].
    destruct (decode_body decode_patch r) as [q|e]; [|by do 2 eexists; split; [|left]].
    destruct (validateClusterKey cfg (pr_ClusterKey q)) as [[]|e] eqn:E; [|by do 2 eexists; split; [|right]].
    apply validate_inv in E as [E1 E2]. by destruct Hn; rw E2.
Qed.
End Authorization.

(** ** Registration *)
Section Registration.
Context `{PG} `{CoordLib} `{EnvLib} `{AdminJSON}.
Context (cfg : config.Config).

(** C21: registering is idempotent.  A registration answered with 200 or 201 came
    with a well-formed uuid and the cluster key, and leaves exactly one row of
    the registry with that uuid: repeating it never makes a second shard. *)
Theorem registerShard_unique r w w' resp :
  sound w → registerShard cfg r w = (w', Ok resp) → hs_status resp = 200 ∨ hs_status resp = 201 →
  ∃ q, decode_body decode_register r = Ok q ∧ isUUID (rr_ShardUUID q) = true ∧ authorized cfg RRegisterShard r ∧
    ∃ k s, (k, s) ∈ reg w' ∧ ShardUUID s = Some (rr_ShardUUID q) ∧
      ∀ k' s', (k', s') ∈ reg w' → ShardUUID s' = Some (rr_ShardUUID q) → k' = k.
Proof.
  intros Hs E Hst. unfold registerShard in E. destruct (decode_body decode_register r) as [q|e] eqn:Eq; cycle 1.
  { injection E as <- <-. cbn in Hst. lia. }
  destruct (validateClusterKey cfg (rr_ClusterKey q)) as [[]|e] eqn:Ek; [|injection E as <- <-; cbn in Hst; lia].
  destruct (isUUID (rr_ShardUUID q)) eqn:Eu; [|injection E as <- <-; cbn in Hst; lia]. cbn [negb] in E.
  destruct (_ =? "")%string; [injection E as <- <-; cbn in Hst; lia|].
  destruct (startupRegistrationState _) as [st|e]; [|injection E as <- <-; cbn in Hst; lia].
  exists q. apply validate_inv in Ek as [Ek1 Ek2]. split_and!; try done.
  { split; [done|]. unfold presented. by rw Eq Ek2. }
  apply run_bind in E; [|done|apply wsafe_try, wsafe_RegRegisterShard].
  destruct E as (w1 & Hs1 & _ & _ & [(res & E1 & E)|(? & _ & _ & ?)]); [|done].
  apply try_inv in E1 as (r1 & E1 & [= <-]). destruct res as [[sh cr]|e]; cycle 1.
  { injection E as <- <-. cbn in Hst. destruct (error_is _ _); lia. }
  apply run_bind in E; [|done|by apply wsafe_deref]. destruct E as (w2 & Hs2 & _ & _ & [(x & E2 & E)|(? & _ & _ & ?)]); [|done].
  injection E as <- <-. destruct sh as [s0|]; [|done]. injection E2 as <- <-.
  apply run_bind in E1; [|done|apply wsafe_repo, safe_RegisterShard].
  destruct E1 as (w3 & Hs3 & _ & _ & [([o c] & E3 & E1)|(? & _ & _ & ?)]); [|done].
  pose proof E3 as (w0 & db & _ & _ & (s & k & -> & Hu & Hin & _)%RegisterShard_ok & ->)%repo_call_inv.
  assert (evolves (reg (set_db db w0)) (reg w1)) as Hev.
  { eapply (wsafe_run (A := option ShardInfo * bool)); [|exact E1|done]. cbn [fst].
    apply wsafe_bind; [apply wsafe_ignore, wsafe_repo, safe_MarkShardReachable|intros _].
    apply wsafe_bind; [apply wsafe_try, wsafe_EnsureActiveShard|intros en; apply wsafe_ret]. }
  destruct Hs3 as [_ I3]. destruct (reg_row _ _ _ I3 Hin) as [-> Hrow]. destruct (Hev _ _ Hrow) as (s' & Hrow' & _ & _ & Huu & _).
  exists (sh_ID s), s'. split_and!; [by apply tget_Some_elem|auto|]. intros k' s2 Hin2 Hu2.
  eapply (uuid_unique (reg w1)); [apply Hs1|done|by apply tget_Some_elem|done|auto].
Qed.
End Registration.
