(* ===== verification/RegisterClient.v ===== *)
(** * Registration of a shard: internal/coordinator/register_client.go and its use in cmd/server/main.go

    The client that a starting shard registers itself with, retrying until the
    coordinator answers, refuses for good, or the context ends.  [cl_patience] is
    the number of waits the context allows. *)
From S2P Require Import Prelude GoLib ShardRepo Registry Config Http CoordServer.

Record RegisterShardResponse : Type := MkRegistered { rp_Shard : ShardInfo; rp_Registered : bool }.

(** What can go wrong, as [shouldRetryRegister] tells it apart. *)
Inductive reg_error : Type :=
  | StatusErr (code : Z) (body : bytes)
  | NetErr (e : error)
  | OtherErr (e : error)
  | Canceled.

Definition IsRetryable (code : Z) : bool := (code =? 408) || (code =? 429) || (500 <=? code).

Definition shouldRetryRegister (e : reg_error) : bool :=
  match e with
  | StatusErr code _ => IsRetryable code
  | NetErr _ => true
  | OtherErr _ | Canceled => false
  end.

Class ClientJSON := {
  encode_register : RegisterShardRequest → bytes;
  decode_registered : bytes → result RegisterShardResponse;
  (** Whether an error that ends a response's body is a [net.Error]. *)
  is_net_error : error → bool;
}.

Record Client : Type := MkClient { cl_net : list reply; cl_sent : list Request; cl_slept : list Z }.
Definition CM (A : Type) : Type := Client → Client * (A + reg_error).

Section RegisterClient.
Context `{CoordLib} `{ClientJSON}.
Context (coordinatorURL : string) (req : RegisterShardRequest).

Definition register_url : string := strings.TrimRightSlash coordinatorURL +:+ "/v1/admin/shards".

(** [client.Do] fails with a [*url.Error], which is a [net.Error]; so is the error of
    [http.NewRequest] for an address that does not parse. *)
Definition RegisterShardOnce : CM RegisterShardResponse := fun c =>
  match url_parse register_url with
  | Err e => (c, inr (NetErr e))
  | Ok _ =>
      let '(a, rest) := match cl_net c with [] => (NoAnswer (errorf "connection refused"), []) | a :: l => (a, l) end in
      let c1 := MkClient rest (cl_sent c ++ [MkReq POST register_url None (encode_register req)]) (cl_slept c) in
      match a with
      | NoAnswer e => (c1, inr (NetErr e))
      | Answer resp =>
          match BodyErr resp with
          | Some e => (c1, inr (if is_net_error e then NetErr e else OtherErr e))
          | None =>
              if negb (StatusCode resp =? 200) && negb (StatusCode resp =? 201)
              then (c1, inr (StatusErr (StatusCode resp) (Body resp)))
              else match decode_registered (Body resp) with
                   | Ok r => (c1, inl r)
                   | Err e => (c1, inr (OtherErr e))
                   end
          end
      end
  end.

Definition next_delay (delay : Z) : Z :=
  if delay <? 15 * second then
    let d := delay * 2 in if 15 * second <? d then 15 * second else d
  else delay.

(** The loop; the context ends during the wait after [patience] of them. *)
Fixpoint register_loop (patience : nat) (delay : Z) : CM RegisterShardResponse := fun c =>
  match RegisterShardOnce c with
  | (c1, inl r) => (c1, inl r)
  | (c1, inr e) =>
      if negb (shouldRetryRegister e) then (c1, inr e) else
      match patience with
      | O => (c1, inr Canceled)
      | S n => register_loop n (next_delay delay) (MkClient (cl_net c1) (cl_sent c1) (cl_slept c1 ++ [delay]))
      end
  end.
Definition RegisterShardWithRetry (patience : nat) : CM RegisterShardResponse :=
  register_loop patience (500 * millisecond).

(** ** The schedule *)

(** The delay before the [k]-th repetition. *)
Definition backoff (k : nat) : Z := Z.min (15 * second) (500 * millisecond * 2 ^ Z.of_nat k).

Lemma next_backoff k : next_delay (backoff k) = backoff (S k).
Proof.
  unfold next_delay, backoff, second, millisecond. rewrite -> Nat2Z.inj_succ, Z.pow_succ_r by lia.
  pose proof (Z.pow_pos_nonneg 2 (Z.of_nat k)). destruct (_ <? 15 * _) eqn:E1; [destruct (_ <? _ * 2) eqn:E2|]; lia.
Qed.

Definition outcome_of (a : reply) : RegisterShardResponse + reg_error :=
  (RegisterShardOnce (MkClient [a] [] [])).2.
Definition final (o : RegisterShardResponse + reg_error) : bool :=
  match o with inl _ => true | inr e => negb (shouldRetryRegister e) end.
Definition the_request : Request := MkReq POST register_url None (encode_register req).

Lemma once_step a l sent slept : url_parse register_url = Ok tt →
  RegisterShardOnce (MkClient (a :: l) sent slept) = (MkClient l (sent ++ [the_request]) slept, outcome_of a).
Proof.
  unfold outcome_of, RegisterShardOnce. intros ->. cbn. destruct a as [e|r]; [done|].
  destruct (BodyErr r); [done|]. destruct (_ && _); [done|]. by destruct (decode_registered _).
Qed.

Lemma loop_run k bads a rest patience sent slept :
  url_parse register_url = Ok tt → Forall (fun b => final (outcome_of b) = false) bads → final (outcome_of a) = true →
  (length bads <= patience)%nat →
  register_loop patience (backoff k) (MkClient (bads ++ a :: rest) sent slept) =
    (MkClient rest (sent ++ replicate (S (length bads)) the_request) (slept ++ map backoff (seq k (length bads))), outcome_of a).
Proof.
  intros Hu. revert k patience sent slept. induction bads as [|b bads IH]; intros k patience sent slept Hb Ha Hp.
  - destruct patience; cbn [register_loop app]; rewrite -> once_step by done; destruct (outcome_of a) as [r|e]; cbn in Ha |- *;
      try rewrite -> Ha; by rewrite -> app_nil_r.
  - apply Forall_cons in Hb as [Hb0 Hb]. destruct patience as [|n]; [cbn in Hp; lia|]. cbn [register_loop app].
    rewrite -> once_step by done. destruct (outcome_of b) as [r|e]; [done|]. cbn [final] in Hb0. rewrite -> Hb0, next_backoff. cbn [cl_net cl_sent cl_slept].
    rewrite -> IH by (done || (cbn in Hp; lia)). f_equal. f_equal; cbn; by rewrite <- !app_assoc.
Qed.

(** C22: registration goes on exactly as long as it makes sense.  If the coordinator
    answers at last with success or with a refusal that repeating cannot change,
    and everything before was a temporary failure, the client returns that answer
    after one request per attempt; it waited half a second, then twice as long
    each time, and never more than 15 seconds. *)
Theorem RegisterShardWithRetry_spec bads a rest patience :
  url_parse register_url = Ok tt → Forall (fun b => final (outcome_of b) = false) bads → final (outcome_of a) = true →
  (length bads <= patience)%nat →
  RegisterShardWithRetry patience (MkClient (bads ++ a :: rest) [] []) =
    (MkClient rest (replicate (S (length bads)) the_request) (map backoff (seq 0 (length bads))), outcome_of a) ∧
  Forall (fun d => 500 * millisecond <= d <= 15 * second) (map backoff (seq 0 (length bads))).
Proof.
  intros Hu Hb Ha Hp. split; [by apply (loop_run 0)|]. apply Forall_forall. intros d (k & -> & _)%list_elem_of_fmap.
  unfold backoff, second, millisecond. pose proof (Z.pow_pos_nonneg 2 (Z.of_nat k)). lia.
Qed.

(** An address that does not parse counts as a network error, so the client asks again
    and again without sending anything, until the context ends. *)
Lemma bad_url_retried patience c e : url_parse register_url = Err e →
  (RegisterShardWithRetry patience c).2 = inr Canceled ∧ cl_sent (RegisterShardWithRetry patience c).1 = cl_sent c.
Proof.
  intros Hu. unfold RegisterShardWithRetry. generalize (500 * millisecond). revert c.
  induction patience as [|n IH]; intros c d; cbn [register_loop]; unfold RegisterShardOnce; rewrite -> Hu; [done|].
  cbn [shouldRetryRegister negb]. by destruct (IH (MkClient (cl_net c) (cl_sent c) (cl_slept c ++ [d])) (next_delay d)) as [-> ->].
Qed.
End RegisterClient.

Section Startup.
Context `{EnvLib}.

(** [startupRegistrationRequest] of cmd/server: a shard always offers itself as standby. *)
Definition startupRegistrationRequest (cfg : config.Config) : RegisterShardRequest :=
  MkRegister (config.ShardUUID cfg) (config.ClusterKey cfg) (config.ShardAdvertiseURL cfg) None ShardStandby.

(** A sealed shard comes up read-only: what [main] takes from the answer. *)
Definition after_registration (resp : RegisterShardResponse) (readOnly : bool) : Z * bool :=
  (sh_ID (rp_Shard resp), if is_state ShardSealed (rp_Shard resp) then true else readOnly).
End Startup.
