(* ===== verification/CoordDemo.v ===== *)
(** * Concrete requests to the coordinator

    Small decoders and a configuration with the key "secret"; requests with and
    without it. *)
From S2P Require Import Prelude GoLib Ids Metadata ShardRepo Registry RegistryInv Control ControlDemo Config Http CoordServer RegisterClient.

Definition demo_uuid : string := "0a1b2c3d-0000-4000-8000-00000000000f".

#[export] Instance demo_env : EnvLib := {|
  env_float := unit; ParseDuration := fun _ => None; ParseFloat := fun _ => None; float_const := fun _ => tt |}.

(** A body is the key alone. *)
#[export] Instance demo_admin : AdminJSON := {|
  decode_register := fun b => Ok (MkRegister demo_uuid (str b.1) "http://new" None "");
  decode_patch := fun b => Ok (MkPatch "sealed" true (str b.1));
  decode_seal_rotate := fun b => Ok (MkSealRotate (str b.1));
|}.

Definition demo_cfg : config.Config :=
  config.Load (fun k => if (k =? "CLUSTER_KEY")%string then " secret " else "").
Definition keyed (k : string) : HRequest := MkHReq "POST" "/v1/admin/shards" [("id", "1")] [] [] (Some (bs k, None)) (-1).

Lemma admin_needs_key_witness :
  let go rt k := Router demo_cfg rt (keyed k) rotating in
  refused rotating (go RPatchState "guess").1 (go RPatchState "guess").2 ∧
  listed rotating (go RListShards "guess").1 (go RListShards "guess").2 ∧
  State <$> tget 1 (reg (go RPatchState "secret").1) = Some ShardSealed ∧
  (hs_status <$> match (go RListShards "guess").2 with Ok x => Some x | Err _ => None end) = Some 200.
Proof.
  intros go. split_and!; try by vm_compute.
  - pose proof (admin_needs_key demo_cfg RPatchState (keyed "guess") rotating eq_refl) as T.
    unfold go. destruct (Router demo_cfg RPatchState (keyed "guess") rotating). apply T. intros [_ E]. by vm_compute in E.
  - pose proof (admin_needs_key demo_cfg RListShards (keyed "guess") rotating eq_refl) as T.
    unfold go. destruct (Router demo_cfg RListShards (keyed "guess") rotating). apply T. intros [_ E]. done.
Defined.

Lemma registerShard_unique_witness :
  let x := registerShard demo_cfg (keyed "secret") rotating in
  (∃ resp, x.2 = Ok resp ∧ hs_status resp = 201) ∧
  ∃ q, decode_body decode_register (keyed "secret") = Ok q ∧ isUUID (rr_ShardUUID q) = true ∧
    authorized demo_cfg RRegisterShard (keyed "secret") ∧
    ∃ k s, (k, s) ∈ reg x.1 ∧ ShardUUID s = Some (rr_ShardUUID q) ∧
      ∀ k' s', (k', s') ∈ reg x.1 → ShardUUID s' = Some (rr_ShardUUID q) → k' = k.
Proof.
  intros x. assert (∃ resp, x.2 = Ok resp ∧ hs_status resp = 201) as (resp & Hr & H201) by (vm_compute; by eexists).
  split; [by exists resp|]. apply (registerShard_unique demo_cfg (keyed "secret") rotating x.1 resp); [apply demo_sound| |by right].
  fold x. rewrite <- Hr. apply surjective_pairing.
Defined.

#[export] Instance demo_client : ClientJSON := {|
  encode_register := fun r => bs (rr_ShardUUID r);
  decode_registered := fun b => Ok (MkRegistered (demo_shard (zlen b) ShardStandby) true);
  is_net_error := fun _ => false;
|}.
Definition server_error : reply := Answer (MkResp 503 "503 Service Unavailable" "application/json" [] None).

Lemma RegisterShardWithRetry_spec_witness :
  let x := RegisterShardWithRetry "http://coordinator/" (startupRegistrationRequest demo_cfg) 5
             (MkClient ([down; server_error; down] ++ created [x01] :: []) [] []) in
  cl_slept x.1 = [500 * millisecond; 1 * second; 2 * second] ∧ length (cl_sent x.1) = 4%nat.
Proof.
  intros x. unfold x. rewrite -> (proj1 (RegisterShardWithRetry_spec "http://coordinator/" (startupRegistrationRequest demo_cfg)
    [down; server_error; down] (created [x01]) [] 5 ltac:(by vm_compute) ltac:(repeat constructor; by vm_compute) ltac:(by vm_compute) ltac:(cbn; lia))).
  by vm_compute.
Defined.
