(* ===== verification/Api.v ===== *)
(** * The shard's HTTP interface: internal/api (handlers.go, shard.go, body.go)

    The handlers over the ingestion service, the guard that blocks uploads on a
    sealed, replica or full shard, and the internal endpoints behind the cluster
    key.  chi's routing is [matches]: the route whose method and path the request
    has; [h_params] are the path's parameters.  The metrics endpoint is left out. *)
From S2P Require Import Prelude GoLib Hash FS Segment Ids Metadata Disk Compress Dedup BlobStore Detect Journal UnpackQueue Ingest Config Http.

(** ** The guard *)
Record ShardGuard : Type := MkGuard { g_ShardID : Z; g_Role : string; readOnly : bool; writeBlockReason : string }.
Definition NewShardGuard (shardID : Z) (role : string) (ro : bool) : ShardGuard := MkGuard shardID role ro "".
Definition SetReadOnly (v : bool) (g : ShardGuard) : ShardGuard := MkGuard (g_ShardID g) (g_Role g) v (writeBlockReason g).
Definition SetWriteBlockReason (reason : string) (g : ShardGuard) : ShardGuard :=
  MkGuard (g_ShardID g) (g_Role g) (readOnly g) (strings.TrimSpace reason).

Definition writeAllowed (g : option ShardGuard) : bool :=
  match g with
  | None => true
  | Some g => negb (readOnly g) && negb (strings.EqualFold (g_Role g) "replica") && (writeBlockReason g =? "")%string
  end.

(** ** Answers *)
Record fileResponse : Type := MkFileResp {
  fr_FileID : Z; fr_Role : string; fr_Filename : string; fr_Size : Z; fr_Sequence : option Z; fr_DownloadURL : string }.
Record packageResponse : Type := MkPkgResp {
  pk_PackageID : Z; pk_SupplierID : Z; pk_PayloadType : string; pk_StorageMode : string; pk_ReceivedAt : Z;
  pk_OriginalFilename : option string; pk_FileCount : Z; pk_Files : list fileResponse;
  pk_Self : string; pk_Original : string; pk_UnpackStatus : string; pk_UnpackError : string }.
Record shardStatsResponse : Type := MkStatsResp {
  sp_ShardID : Z; sp_Role : string; sp_ReadOnly : bool; sp_WriteBlockReason : string; sp_TotalBytes : Z }.
Record segmentFileInfo : Type := MkSegFile { sf_Name : string; sf_Size : Z; sf_SHA256 : string; sf_ModifiedUnix : Z }.

Inductive body : Type :=
  | EError (msg : string)
  | EPackage (p : packageResponse)
  | EStats (s : shardStatsResponse)
  | EStatus (s : string)
  | ESegments (l : list segmentFileInfo)
  | ERaw (data : bytes).
Abbreviation answer := (HResponse body).
Definition writeJSON (status : Z) (v : body) : answer := MkHResp status [("Content-Type", "application/json")] v.

Definition UnpackOK : string := "ok".
Definition UnpackFailed : string := "failed".
Definition UnpackSkipped : string := "skipped".
Definition UnpackPending : string := "pending".

Definition file_response (packageID : Z) (f : PackageFile) : fileResponse :=
  MkFileResp (pf_ID f) (Role f) (default "" (pf_OriginalFilename f)) (pf_Size f) (SequenceNumber f)
    ("/v1/packages/" +:+ Itoa packageID +:+ "/files/" +:+ Itoa (pf_ID f)).

Definition unpack_status (async : bool) (pkg : Package) : string * string :=
  if negb (Metadata.PayloadType pkg =? payload_string PayloadZIP)%string then ("", "") else
  if (StorageMode pkg =? StorageRawLarge)%string then (if async then UnpackPending else UnpackSkipped, "") else
  if (StorageMode pkg =? StorageZipWithMembers)%string then
    match UnpackError pkg with Some e => (UnpackFailed, e) | None => (UnpackOK, "") end
  else ("", "").

Definition buildPackageResponse (async : bool) (pkg : Package) : packageResponse :=
  MkPkgResp (p_ID pkg) (SupplierID pkg) (Metadata.PayloadType pkg) (StorageMode pkg) (ReceivedAt pkg) (OriginalFilename pkg)
    (FileCount pkg) (file_response (p_ID pkg) <$> Files pkg)
    ("/v1/packages/" +:+ Itoa (p_ID pkg)) ("/v1/packages/" +:+ Itoa (p_ID pkg) +:+ "/original")
    (unpack_status async pkg).1 (unpack_status async pkg).2.

(** [mime.FormatMediaType("attachment", {"filename": f})], empty when it cannot be written. *)
Class Mime := { FormatMediaType : string → string }.

Definition contentDisposition `{Mime} (filename : string) : string :=
  let f := if (strings.TrimSpace filename =? "")%string then "file.bin" else filename in
  let cd := FormatMediaType f in
  if negb (cd =? "")%string then cd else str (bs "attachment; filename=" ++ [x22] ++ bs "file.bin" ++ [x22]).

Definition contentTypeFor (role filename : string) : string :=
  let has suffix := strings.HasSuffix (strings.ToLower filename) suffix in
  let by_name := if has ".xml" then "application/xml" else if has ".zip" then "application/zip" else "application/octet-stream" in
  if (role =? RoleOriginal)%string then if has ".zip" then "application/zip" else by_name else
  if (role =? RoleMember)%string then if has ".xml" then "application/xml" else by_name else
  if (role =? RoleUnpackError)%string then "text/plain; charset=utf-8" else by_name.

Definition isClientError (e : error) : bool :=
  let msg := err_msg e in
  strings.Contains msg "empty" || strings.Contains msg "unsupported" || strings.Contains msg "too large" ||
  strings.Contains msg "unpacked size exceeds" || strings.Contains msg "supplier".

Definition allowedInternalSyncFile (name : string) : bool :=
  (strings.HasPrefix name "segment_" && (strings.HasSuffix name ".dat" || strings.HasSuffix name ".idx")) ||
  (name =? "ingest_journal.ndjson")%string.

(** [filepath.Base]. *)
Fixpoint until_slash (l : bytes) : bytes :=
  match l with b :: l' => if bN b =? 47 then [] else b :: until_slash l' | [] => [] end.
Definition Base (p : string) : string :=
  if (p =? "")%string then "." else
  match strings.drop_slashes (rev (bs p)) with [] => "/" | l => str (rev (until_slash l)) end.

(** [fileSHA256]: open, copy into the hash, close. *)
Definition fileSHA256 (path : string) : M FS string :=
  let! f := os.Open path in
  let! d := os.guarded (let! i := os.node_of f in mret (i_data i)) in
  mret (EncodeToString (sha256.Sum256 d)).

(** What the guard's endpoints use of the data directory. *)
Class DirOps (S : Type) := { dir_fs : ∀ {A}, M FS A → M S A; dir_total : M S Z }.
#[export] Instance disk_dir : DirOps Disk := {|
  dir_fs := fun A m => zoom d_fs (fun fs d => MkDisk (d_sm d) (d_idx d) fs) m;
  dir_total := on_segments TotalBytes |}.

Definition file_info (name : string) : M FS (list segmentFileInfo) :=
  if negb (allowedInternalSyncFile name) then mret [] else
  let! info := try (os.Stat name) in
  match info with
  | Err _ => mret []
  | Ok info =>
      let! sum := try (fileSHA256 name) in
      mret (match sum with Ok sum => [MkSegFile name info.1 sum (info.2 / second)] | Err _ => [] end)
  end.
Definition segment_name_le (a b : segmentFileInfo) : Prop := os.name_le (sf_Name a) (sf_Name b).
#[export] Instance segment_name_le_dec : RelDecision segment_name_le.
Proof. intros a b. unfold segment_name_le, os.name_le. apply _. Defined.

Definition list_files : M FS (list segmentFileInfo) :=
  let! names := os.ReadDir in
  let! files := foldM (fun acc n => let! l := file_info n in mret (acc ++ l)) [] names in
  mret (merge_sort segment_name_le files).

(** ** The server *)
Section Api.
Context {S : Type} `{DiskOps S} `{DirOps S} {K : Type} `{kvStore K} `{Bloom} `{Zstd} `{PG} `{ZipLib} `{Times}.
Context {J : Type} `{JournalOps J} `{EnvLib} `{Mime}.
Context (encoder : option Encoder) (withIndex : bool) (cfg : config.Config) (unrouted : HRequest → answer).

Notation Service := (Service S K J).

(** The settings the ingestion service reads. *)
Definition svc_cfg : Config :=
  MkConfig (config.MaxBodyBytes cfg) (config.ZipThresholdSize cfg) (config.ZipThresholdCount cfg)
    (config.MaxUnpackedZipBytes cfg) (config.LargeZipAsyncUnpack cfg).

Record Server : Type := MkServer { sv_svc : Service; sv_guard : option ShardGuard }.
Definition NewServer (svc : Service) : Server := MkServer svc None.
Definition NewShardServer (svc : Service) : Server :=
  MkServer svc (Some (NewShardGuard (config.ShardID cfg) (config.ShardRole cfg) (config.ShardReadOnly cfg))).
Definition on_svc {A} (m : M Service A) : M Server A := zoom sv_svc (fun s sv => MkServer s (sv_guard sv)) m.
Definition on_dir {A} (m : M FS A) : M Server A := on_svc (on_store (on_disk (dir_fs m))).

Definition internal_error (e : error) : answer := writeJSON 500 (EError (err_msg e)).

Definition postPackage (r : HRequest) : M Server answer :=
  match supplier.ParseQuery (kv_get "supplier_id" (h_query r)) with
  | Err e => mret (writeJSON 400 (EError (err_msg e)))
  | Ok supplierID =>
      match readBody r (config.MaxBodyBytes cfg) with
      | Err e =>
          mret (if strings.Contains (err_msg e) "too large" then writeJSON 413 (EError "payload_too_large")
                else writeJSON 400 (EError (err_msg e)))
      | Ok body =>
          let fn := kv_get "filename" (h_query r) in
          let filename := if (fn =? "")%string then None else Some fn in
          let! res := try (on_svc (ProcessPackage encoder withIndex svc_cfg supplierID body filename)) in
          match res with
          | Err e => mret (writeJSON (if isClientError e then 400 else 500) (EError (err_msg e)))
          | Ok None => fail nil_dereference
          | Ok (Some pkg) => mret (writeJSON 201 (EPackage (buildPackageResponse (config.LargeZipAsyncUnpack cfg) pkg)))
          end
      end
  end.

Definition parsePackageID (r : HRequest) : result Z := ParseInt64 (kv_get "id" (h_params r)).

Definition getPackage (r : HRequest) : M Server answer :=
  match parsePackageID r with
  | Err e => mret (writeJSON 400 (EError (err_msg e)))
  | Ok id =>
      let! pkg := try (on_svc (repo (GetPackage id))) in
      mret (match pkg with
            | Err e => internal_error e
            | Ok None => writeJSON 404 (EError "package not found")
            | Ok (Some pkg) => writeJSON 200 (EPackage (buildPackageResponse (config.LargeZipAsyncUnpack cfg) pkg))
            end)
  end.

Definition file_headers (f : PackageFile) (data : bytes) : list (string * string) :=
  let filename := default "file" (pf_OriginalFilename f) in
  [("Content-Type", contentTypeFor (Role f) filename); ("Content-Length", Itoa (zlen data));
   ("Content-Disposition", contentDisposition filename)].

Definition serveFile (packageID fileID : Z) : M Server answer :=
  let! file := try (on_svc (repo (GetPackageFile packageID fileID))) in
  match file with
  | Err e => mret (internal_error e)
  | Ok None => mret (writeJSON 404 (EError "file not found"))
  | Ok (Some f) =>
      let! blob := try (on_svc (repo (RepoGetBlob (BlobHash f)))) in
      match blob with
      | Err _ | Ok None => mret (writeJSON 500 (EError "blob not found"))
      | Ok (Some blob) =>
          let! data := try (on_svc (on_store (ReadBlob encoder blob))) in
          mret (match data with
                | Err e => internal_error e
                | Ok data => MkHResp 200 (file_headers f data) (ERaw data)
                end)
      end
  end.

Definition getFile (r : HRequest) : M Server answer :=
  match parsePackageID r with
  | Err e => mret (writeJSON 400 (EError (err_msg e)))
  | Ok id =>
      match ParseInt64 (kv_get "file_id" (h_params r)) with
      | Err _ => mret (writeJSON 400 (EError "invalid file_id"))
      | Ok fileID => serveFile id fileID
      end
  end.

Definition getOriginal (r : HRequest) : M Server answer :=
  match parsePackageID r with
  | Err e => mret (writeJSON 400 (EError (err_msg e)))
  | Ok id =>
      let! file := try (on_svc (repo (GetOriginalFile id))) in
      match file with
      | Err e => mret (internal_error e)
      | Ok None => mret (writeJSON 404 (EError "original not found"))
      | Ok (Some f) => serveFile id (pf_ID f)
      end
  end.

(** ** Internal endpoints *)
Definition internalAuthKey : string :=
  let k := strings.TrimSpace (config.ClusterKey cfg) in
  if negb (k =? "")%string then k else strings.TrimSpace (config.ShardClusterKey cfg).

Definition requireClusterKey (next : M Server answer) (r : HRequest) : M Server answer :=
  if (internalAuthKey =? "")%string then
    mret (writeJSON 503 (EError "internal endpoints disabled: cluster key not configured"))
  else if negb (header_key r =? internalAuthKey)%string then mret (writeJSON 401 (EError "invalid or missing cluster key"))
  else next.

Definition stats (g : ShardGuard) : M Server answer :=
  let! total := try (on_svc (on_store (on_disk dir_total))) in
  mret (match total with
        | Err e => internal_error e
        | Ok total => writeJSON 200 (EStats (MkStatsResp (g_ShardID g) (g_Role g) (readOnly g) (writeBlockReason g) total))
        end).

Definition seal (g : ShardGuard) : M Server answer :=
  if negb (strings.EqualFold (g_Role g) "primary") then mret (writeJSON 403 (EError "only primary can seal")) else
  do! modify (fun s => MkServer (sv_svc s) (Some (SetReadOnly true g)));
  mret (writeJSON 200 (EStatus "sealed")).

Definition list_segments : M Server answer :=
  let! l := try (on_dir list_files) in
  mret (match l with Err e => internal_error e | Ok l => writeJSON 200 (ESegments l) end).

Definition get_segment (name : string) : M Server answer :=
  if negb (Base name =? name)%string || negb (allowedInternalSyncFile name) then mret (writeJSON 404 (EError "segment not found")) else
  let! data := try (on_dir (os.ReadFile name)) in
  mret (match data with
        | Err _ => writeJSON 404 (EError "segment not found")
        | Ok data => MkHResp 200 [("Content-Type", "application/octet-stream")] (ERaw data)
        end).

(** ** Routes *)
Inductive route : Set :=
  | RPost | RPackage | RFile | ROriginal | RStats | RSeal | RSegments | RSegment.

Definition path_of (rt : route) (r : HRequest) : string * string :=
  let p k := kv_get k (h_params r) in
  match rt with
  | RPost => ("POST", "/v1/packages")
  | RPackage => ("GET", "/v1/packages/" +:+ p "id")
  | RFile => ("GET", "/v1/packages/" +:+ p "id" +:+ "/files/" +:+ p "file_id")
  | ROriginal => ("GET", "/v1/packages/" +:+ p "id" +:+ "/original")
  | RStats => ("GET", "/v1/internal/stats")
  | RSeal => ("POST", "/v1/internal/seal")
  | RSegments => ("GET", "/v1/internal/segments")
  | RSegment => ("GET", "/v1/internal/segments/" +:+ p "name")
  end.
Definition matches (r : HRequest) (rt : route) : bool :=
  (h_method r =? (path_of rt r).1)%string && (h_path r =? (path_of rt r).2)%string.

Definition is_internal (rt : route) : bool := match rt with RStats | RSeal | RSegments | RSegment => true | _ => false end.
Definition routes (g : option ShardGuard) : list route :=
  [RPost; RPackage; RFile; ROriginal] ++ (if g is Some _ then [RStats; RSeal; RSegments; RSegment] else []).

Definition handle (rt : route) (r : HRequest) : M Server answer :=
  let! g := gets sv_guard in
  let internal (next : ShardGuard → M Server answer) :=
    match g with Some g => requireClusterKey (next g) r | None => fail nil_dereference end in
  match rt with
  | RPost => postPackage r
  | RPackage => getPackage r
  | RFile => getFile r
  | ROriginal => getOriginal r
  | RStats => internal stats
  | RSeal => internal seal
  | RSegments => internal (fun _ => list_segments)
  | RSegment => internal (fun _ => get_segment (kv_get "name" (h_params r)))
  end.

(** The guard's middleware, then the route. *)
Definition blocked (r : HRequest) (g : option ShardGuard) : bool :=
  (h_method r =? "POST")%string && strings.HasPrefix (h_path r) "/v1/packages" && negb (writeAllowed g).

(** [unrouted] is chi's own answer to a request without a route (404, or 405). *)
(** An [Err] is a panic of the handler, which the Recoverer middleware answers with 500. *)
Definition serve (r : HRequest) : M Server answer :=
  let! g := gets sv_guard in
  if blocked r g then
    mret (if strings.EqualFold (match g with Some g => writeBlockReason g | None => "" end) "disk_full"
          then writeJSON 507 (EError "insufficient_storage") else writeJSON 403 (EError "shard is read-only"))
  else
    match find (matches r) (routes g) with
    | Some rt => handle rt r
    | None => mret (unrouted r)
    end.
End Api.
Arguments Server S K {_} J.
