(* ===== verification/DiskGate.v ===== *)
(** * The disk gate: runDiskWriteGate of cmd/server and internal/diskspace

    A primary measures its free disk space at an interval; below the minimum it
    blocks uploads, and lets them through again once a measurement reaches the
    minimum plus the hysteresis.  The operating system is a parameter. *)
From S2P Require Import Prelude GoLib FS Config Http Ids Metadata Ingest Api.

(** [os.Stat] (whether the path is there) and [statfs]: available blocks and block size. *)
Class DiskProbe (W : Type) := { probe_stat : string → M W unit; Statfs : string → M W (Z * Z) }.

(** The Windows build's measurement: a bare drive letter gets its root directory. *)
Class WindowsProbe (W : Type) := {
  filepath_Clean : string → string;
  UTF16PtrFromString : string → result unit;
  GetDiskFreeSpaceEx : string → M W Z }.

Definition drive_root (target : string) : string :=
  match bs target with [_; x3a] => target +:+ "\" | _ => target end.
Definition windows_availableBytes {W} `{WindowsProbe W} (path : string) : M W Z :=
  let target := drive_root (filepath_Clean path) in
  do! lift_result (UTF16PtrFromString target);
  let! freeAvailable := GetDiskFreeSpaceEx target in
  mret (i64 freeAvailable).

Section Gate.
Context {W : Type} `{DiskProbe W}.

(** Unsigned counters converted to [int64], multiplied with wrap-around. *)
Definition availableBytes (path : string) : M W Z :=
  let! stat := Statfs path in
  mret (i64 (i64 stat.1 * i64 stat.2)).

(** One path of the loop: [hasPath]/[minFree] as an option. *)
Definition min_path (acc : option Z) (p : string) : M W (option Z) :=
  if (p =? "")%string then mret acc else
  let! st := try (probe_stat p) in
  match st with
  | Err e => if error_is e ErrNotExist then mret acc else fail (wrapf ("stat path " +:+ p) e)
  | Ok _ =>
      let! free := wrap_err ("available bytes for " +:+ p) (availableBytes p) in
      mret (Some (match acc with None => free | Some m => if free <? m then free else m end))
  end.

Definition MinAvailableBytes (paths : list string) : M W Z :=
  let! acc := foldM min_path None paths in
  match acc with
  | None => fail (errorf "no existing paths provided")
  | Some m => mret m
  end.

Context `{EnvLib} (cfg : config.Config).

Definition resumeThreshold : Z := i64 (config.MinFreeDiskBytes cfg + config.DiskResumeHysteresisBytes cfg).

(** What a measurement does to the guard. *)
Definition gate_step (m : result Z) (g : ShardGuard) : ShardGuard :=
  match m with
  | Err _ => g
  | Ok free =>
      if free <? config.MinFreeDiskBytes cfg then SetWriteBlockReason "disk_full" g else
      if (writeBlockReason g =? "disk_full")%string && (resumeThreshold <=? free) then SetWriteBlockReason "" g else g
  end.

Definition gate_paths : list string := [config.DataDir cfg; config.RocksDBPath cfg].

Record Gate : Type := MkGate { gt_os : W; gt_guard : ShardGuard }.
Definition on_os {A} (m : M W A) : M Gate A := zoom gt_os (fun w g => MkGate w (gt_guard g)) m.

Definition evaluate : M Gate unit :=
  let! m := try (on_os (MinAvailableBytes gate_paths)) in
  modify (fun g => MkGate (gt_os g) (gate_step m (gt_guard g))).

Definition gate_on (role : string) : bool :=
  (0 <? config.MinFreeDiskBytes cfg) && (0 <? config.DiskCheckInterval cfg) && (role =? "primary")%string.

(** The gate after [n] ticks of its timer. *)
Definition runDiskWriteGate (n : nat) : M Gate unit :=
  if gate_on (config.ShardRole cfg) then do! evaluate; forM_ (seq 0 n) (fun _ => evaluate) else mret tt.

(** ** The hysteresis *)

(** The measurements of the first [n] evaluations. *)
Fixpoint measurements (n : nat) (w : W) : list (result Z) :=
  match n with
  | O => []
  | Datatypes.S n => let '(w', m) := MinAvailableBytes gate_paths w in m :: measurements n w'
  end.

(** The reference: some measurement was below the minimum and none after it
    reached the level at which uploads resume. *)
Definition stays_low (m : result Z) : Prop :=
  match m with Ok free => free < Z.max (config.MinFreeDiskBytes cfg) resumeThreshold | Err _ => True end.
Definition disk_full (ms : list (result Z)) : Prop :=
  ∃ before free after, ms = before ++ Ok free :: after ∧ free < config.MinFreeDiskBytes cfg ∧ Forall stays_low after.

Definition gates (ms : list (result Z)) (g : ShardGuard) : ShardGuard := fold_left (fun g m => gate_step m g) ms g.

Lemma evaluate_run w g : evaluate (MkGate w g) =
  (MkGate (MinAvailableBytes gate_paths w).1 (gate_step (MinAvailableBytes gate_paths w).2 g), Ok tt).
Proof.
  unfold evaluate, on_os, zoom, try, modify. munfold. cbn [gt_os]. by destruct (MinAvailableBytes gate_paths w) as [w' m].
Qed.

Lemma ticks_run n k w g : (forM_ (seq k n) (fun _ => evaluate) (MkGate w g)).2 = Ok tt ∧
  gt_guard (forM_ (seq k n) (fun _ => evaluate) (MkGate w g)).1 = gates (measurements n w) g.
Proof.
  revert k w g; induction n as [|n IH]; intros k w g; cbn [seq forM_ measurements]; [done|].
  erewrite bind_ok by apply evaluate_run. destruct (MinAvailableBytes gate_paths w) as [w' m]. cbn [fst snd]. apply IH.
Qed.

Lemma disk_full_snoc ms m : disk_full (ms ++ [m]) ↔
  (∃ free, m = Ok free ∧ free < config.MinFreeDiskBytes cfg) ∨ (disk_full ms ∧ stays_low m).
Proof.
  split.
  - intros (l1 & f & l2 & E & Hf & Hl). destruct l2 as [|m' l2 _] using rev_ind.
    + apply app_inj_tail in E as [_ ->]. left. eauto.
    + rewrite -> app_comm_cons, app_assoc in E. apply app_inj_tail in E as [-> ->].
      apply Forall_app in Hl as [Hl Hm]. right. split; [|by eapply Forall_inv]. by exists l1, f, l2.
  - intros [(f & -> & Hf)|[(l1 & f & l2 & -> & Hf & Hl) Hm]].
    + by exists ms, f, [].
    + exists l1, f, (l2 ++ [m]). rewrite <- app_assoc. split; [done|]. split; [done|]. apply Forall_app. by split; [|constructor].
Qed.

Lemma gates_reason ms g : writeBlockReason g = "" →
  let g' := gates ms g in
  readOnly g' = readOnly g ∧ g_Role g' = g_Role g ∧
  (writeBlockReason g' = "disk_full" ∧ disk_full ms ∨ writeBlockReason g' = "" ∧ ¬ disk_full ms).
Proof.
  intros Hg. induction ms as [|m ms IH] using rev_ind; cbn zeta in *.
  { split; [done|]. split; [done|]. right. split; [done|]. intros (l1 & f & l2 & E & _). by destruct l1. }
  unfold gates in *. rewrite -> fold_left_app. cbn [fold_left]. destruct IH as (IH1 & IH2 & IH3).
  set (g1 := fold_left _ ms g) in *. rewrite -> disk_full_snoc. unfold gate_step, stays_low.
  destruct m as [free|e].
  - destruct (free <? config.MinFreeDiskBytes cfg) eqn:E1.
    + split; [done|]. split; [done|]. left. split; [done|]. left. exists free. split; [done|lia].
    + assert (¬ ∃ f, Ok free = Ok f ∧ f < config.MinFreeDiskBytes cfg) as Hn by (intros (f & [= <-] & ?); lia).
      destruct IH3 as [[Hw IH3]|[Hw IH3]]; rw Hw; cbn [String.eqb andb].
      * destruct (resumeThreshold <=? free) eqn:E2; cbn.
        -- split; [done|]. split; [done|]. right. split; [done|]. intros [?|[_ ?]]; [done|lia].
        -- split; [done|]. split; [done|]. left. split; [done|]. right. split; [done|lia].
      * split; [done|]. split; [done|]. right. split; [done|]. by intros [?|[? _]].
  - split; [done|]. split; [done|].
    assert (¬ ∃ f, Err e = Ok f ∧ f < config.MinFreeDiskBytes cfg) as Hn by (by intros (f & ? & _)).
    destruct IH3 as [[Hw IH3]|[Hw IH3]]; [left|right]; (split; [done|]); [by right|]. by intros [?|[? _]].
Qed.
End Gate.

(** C25: the disk gate is its hysteresis.  On a primary that writes and starts with
    no block, after any number of ticks and whatever the measurements gave (errors
    included), uploads are blocked exactly when some measurement was below
    MIN_FREE_DISK_BYTES and every later one stayed under the level at which
    writes resume; the reason is then disk_full. *)
Theorem disk_gate_hysteresis {W} `{DiskProbe W} `{EnvLib} cfg n (w : W) g :
  gate_on cfg (config.ShardRole cfg) = true → g_Role g = "primary" → readOnly g = false → writeBlockReason g = "" →
  let g' := gt_guard (runDiskWriteGate cfg n (MkGate w g)).1 in
  (writeAllowed (Some g') = false ↔ disk_full cfg (measurements cfg (Datatypes.S n) w)) ∧
  (writeAllowed (Some g') = false → writeBlockReason g' = "disk_full").
Proof.
  intros Hon Hp Hr Hb. unfold runDiskWriteGate. rw Hon. erewrite bind_ok by apply evaluate_run. cbn zeta beta.
  destruct (ticks_run cfg n 0 (MinAvailableBytes (gate_paths cfg) w).1 (gate_step cfg (MinAvailableBytes (gate_paths cfg) w).2 g)) as [_ E].
  rw E. replace (gates _ _ _) with (gates cfg (measurements cfg (Datatypes.S n) w) g)
    by (cbn [measurements]; by destruct (MinAvailableBytes _ w)).
  destruct (gates_reason cfg (measurements cfg (Datatypes.S n) w) g Hb) as (E1 & E2 & E3). unfold writeAllowed. rw E1 E2 Hr Hp.
  destruct E3 as [[-> E3]|[-> E3]]; cbn; by split.
Qed.
