(* ===== verification/Restart.v ===== *)
(** * Restarting a shard: what a crash and a start keep

    PostgreSQL keeps the tables, the data directory what is durable (Ledger.v);
    together they keep the whole service, for encoders that read each other's
    records. *)
From S2P Require Import Prelude GoLib Hash Record FS Segment SegmentScan SegmentStore SegmentDurable Metadata MetadataInv Disk Ledger Compress Dedup BlobStore Detect Journal UnpackQueue Ingest IngestInv IngestSafe.

Section Service.
Context {S S' : Type} `{DiskOps S} `{DiskOps S'} {K K' J J' : Type} `{kvStore K} `{kvStore K'} `{Bloom} `{ZstdLaws}.

(** Encoders with the same dictionary read each other's records. *)
Definition same_decoder (encoder encoder' : option Encoder) : Prop :=
  ∀ magic payload, decode encoder' magic payload = decode encoder magic payload.

Lemma same_dict_decoder e e' : e_dict e' = e_dict e → e_open e' = e_open e → same_decoder (Some e) (Some e').
Proof. intros E1 E2 magic payload. unfold decode, Decompress. by rewrite -> E1, E2. Qed.

(** The tables are sound over any directory that has kept what was stored. *)
Lemma svc_inv_moved encoder encoder' debt (s : Service S K J) (s' : Service S' K' J') :
  svc_inv encoder debt s → same_decoder encoder encoder' →
  same_but_faults (b_db (sv_store s)) (b_db (sv_store s')) → aborted (b_db (sv_store s')) = false → dk_inv (b_disk (sv_store s')) →
  (∀ id off m p, dk_stored (b_disk (sv_store s)) id off (EncodeRecord m p) → dk_stored (b_disk (sv_store s')) id off (EncodeRecord m p)) →
  svc_inv encoder' debt s'.
Proof.
  intros [[I1 I2 I3] O [Hi _]] Hd (T & P & F & _ & X) Ha I' Hst. split; [split|..]; rewrite -> ?T, ?P, ?F; try done; [|split; congruence].
  intros h b Hb. destruct (I3 h b Hb) as (data & magic & payload & A1 & A2 & A3 & A4 & A5 & A6).
  exists data, magic, payload. split_and!; try done; [by apply Hst|by rewrite -> Hd].
Qed.
End Service.
