(* ===== verification/ApiInv.v ===== *)
(** * The shard's HTTP interface: what any sequence of requests keeps

    [sstep] is what can happen to a running shard: a request, an upload that the
    guard has let through at an earlier time, a background unpack job or recovery
    scan, a measurement of the disk gate; [lstep] keeps the uploads that are between
    the guard and their processing.  Both are about one process: the read-only flag
    is in memory, a start takes it from the settings or from the coordinator's
    answer (Startup.start_registration).  The handlers that only
    read keep the tables ([keeps]); uploads are runs of the ingestion service;
    [DirLaws] says that looking at the data directory does not change it. *)
From stdpp Require Import relations.
From S2P Require Import Prelude GoLib Hash Record FS Segment SegmentStore SegmentDurable Ids Metadata MetadataInv Disk Compress Dedup BlobStore Detect Journal UnpackQueue Ingest IngestInv IngestSafe Config Http Api DiskGate.

(** ** Reading the directory *)
Definition reads {A} (m : M FS A) : Prop := ∀ fs fs' r, m fs = (fs', r) → fs_core fs' = fs_core fs.

Lemma reads_ret {A} (a : A) : reads (mret a).
Proof. by intros fs fs' r [= <- _]. Qed.
Lemma reads_bind {A B} (m : M FS A) (k : A → M FS B) : reads m → (∀ a, reads (k a)) → reads (m ≫= k).
Proof.
  intros Hm Hk fs fs' r E. apply bind_inv in E as [(fs1 & a & E1 & E)|(e & E1 & ->)]; [|by eapply Hm].
  apply Hm in E1. apply Hk in E. congruence.
Qed.
Lemma reads_try {A} (m : M FS A) : reads m → reads (try m).
Proof. intros Hm fs fs' r E. apply try_inv in E as (r' & E & _). by eapply Hm. Qed.
Lemma reads_foldM {A B} (f : B → A → M FS B) xs acc : (∀ b a, reads (f b a)) → reads (foldM f acc xs).
Proof. intros Hf. revert acc; induction xs as [|x xs IH]; intros acc; cbn; [apply reads_ret|]. by apply reads_bind. Qed.
Lemma reads_guarded {A} (m : M FS A) : (∀ fs, (m fs).1 = fs) → reads (os.guarded m).
Proof. intros Hm fs fs' r. by apply read_core. Qed.
Lemma reads_Stat p : reads (os.Stat p).
Proof. apply reads_guarded. intros fs. by case_match. Qed.
Lemma reads_ReadFile p : reads (os.ReadFile p).
Proof. apply reads_guarded. intros fs. by case_match. Qed.
Lemma reads_ReadDir : reads os.ReadDir.
Proof. by apply reads_guarded. Qed.
Lemma reads_Open p : reads (os.Open p).
Proof. apply reads_guarded. intros fs. by case_match. Qed.
Lemma reads_fileSHA256 p : reads (fileSHA256 p).
Proof.
  apply reads_bind; [apply reads_Open|]. intros f. apply reads_bind; [|intros; apply reads_ret].
  apply reads_guarded. intros fs. munfold. unfold os.node_of. by repeat case_match; simplify_eq.
Qed.
Lemma reads_list_files : reads list_files.
Proof.
  apply reads_bind; [apply reads_ReadDir|]. intros names. apply reads_bind; [|intros; apply reads_ret].
  apply reads_foldM. intros acc n. apply reads_bind; [|intros; apply reads_ret]. unfold file_info.
  destruct (negb _); [apply reads_ret|]. apply reads_bind; [apply reads_try, reads_Stat|].
  intros [info|e]; [|apply reads_ret]. apply reads_bind; [apply reads_try, reads_fileSHA256|]. intros; apply reads_ret.
Qed.

(** What the endpoints rely on of the data directory. *)
Class DirLaws (S : Type) `{DiskOps S} `{DirOps S} : Prop := {
  dir_total_law : ∀ s s' r, dk_inv s → dir_total s = (s', r) → dk_le s s';
  dir_fs_law : ∀ A (m : M FS A) s s' r, reads m → dk_inv s → dir_fs m s = (s', r) → dk_le s s';
}.

Lemma core_dk_le (d : Disk) fs : dk_inv d → fs_core fs = fs_core (d_fs d) → dk_le d (MkDisk (d_sm d) (d_idx d) fs).
Proof.
  intros I Hc. destruct (read_post_fs (seg_of d) fs I Hc) as (I' & _). split; [exact I'|].
  unfold fs_core in Hc. injection Hc as Hd Hn _ _. intros id off b. cbn. unfold holds, seg_of, seg_node. cbn. by rw Hd Hn.
Qed.

(** Adding up the sizes only looks. *)
Lemma TotalBytes_core s s' r : TotalBytes s = (s', r) → sg s' = sg s ∧ fs_core (sg_fs s') = fs_core (sg_fs s).
Proof.
  assert (∀ A (m : M FS A) s s' r, reads m → on_fs m s = (s', r) → sg s' = sg s ∧ fs_core (sg_fs s') = fs_core (sg_fs s)) as Hfs.
  { intros A m s0 s0' r0 Hm E. unfold on_fs, zoom in E. destruct (m (sg_fs s0)) as [fs0 x] eqn:Em. injection E as <- _. by apply Hm in Em. }
  intros E1. unfold TotalBytes in E1.
  apply bind_inv in E1 as [(s2 & names & E2 & E1)|(e & E2 & ->)]; apply Hfs in E2 as [A1 A2]; try apply reads_ReadDir; [|done].
  rw -A1 -A2. clear A1 A2. revert s2 E1. generalize 0. induction names as [|n names IH]; intros t s2 E1; cbn [foldM] in E1.
  { munfold. by injection E1 as <- _. }
  apply bind_inv in E1 as [(s3 & v & E3 & E1)|(e & E3 & ->)].
  + apply IH in E1 as [-> ->]. apply bind_inv in E3 as [(s4 & i & E4 & E3)|(e & E4 & ?)]; [|done].
    munfold. injection E3 as <- _. by apply Hfs in E4; [|apply reads_Stat].
  + apply bind_inv in E3 as [(s4 & i & E4 & E3)|(e' & E4 & ?)]; [munfold; done|]. by apply Hfs in E4; [|apply reads_Stat].
Qed.

(** Both calls leave the directory, apart from the failures they met. *)
Lemma dir_total_core (d d' : Disk) r : dir_total d = (d', r) →
  ∃ fs, d' = MkDisk (d_sm d) (d_idx d) fs ∧ fs_core fs = fs_core (d_fs d).
Proof.
  cbn. unfold on_segments, zoom. destruct (TotalBytes _) as [s1 r1] eqn:E. intros [= <- _].
  apply TotalBytes_core in E as [-> Hc]. by exists (sg_fs s1).
Qed.
Lemma dir_fs_core {A} (m : M FS A) (d d' : Disk) r : reads m → dir_fs m d = (d', r) →
  ∃ fs, d' = MkDisk (d_sm d) (d_idx d) fs ∧ fs_core fs = fs_core (d_fs d).
Proof. intros Hm. cbn. unfold zoom. destruct (m (d_fs d)) as [fs x] eqn:E. intros [= <- _]. exists fs. split; [done|]. by eapply Hm. Qed.

#[export] Instance disk_dir_laws : DirLaws Disk.
Proof.
  split.
  - intros d d' r I E. apply dir_total_core in E as (fs & -> & Hc). by apply core_dk_le.
  - intros A m d d' r Hm I E. apply dir_fs_core in E as (fs & -> & Hc); [|done]. by apply core_dk_le.
Qed.

#[export] Instance route_eq_dec : EqDecision route.
Proof. solve_decision. Defined.

(** ** Handlers *)
Section Server.
Context {S : Type} `{DiskLaws S} `{DirOps S} `{!DirLaws S} {K : Type} `{kvStore K} `{Bloom} `{ZstdLaws} `{PG} `{ZipLib} `{Times}.
Context {J : Type} `{JournalOps J} `{EnvLib} `{Mime}.
Context (encoder : option Encoder) (withIndex : bool) (cfg : config.Config) (unrouted : HRequest → answer).
Context (Henc : ∀ e, encoder = Some e → enc_ok e).

Notation Service := (Ingest.Service S K J).
Notation Server := (Api.Server S K J).
Notation svc_inv := (IngestSafe.svc_inv (S := S) (K := K) (J := J) encoder).
Notation srun := (IngestSafe.srun (S := S) (K := K) (J := J) encoder).
Notation serve := (Api.serve encoder withIndex cfg unrouted).

(** A handler that stores nothing, whatever fails. *)
Definition kept (debt : bytes → Z) (s s' : Server) : Prop :=
  srun debt [] (sv_svc s) (sv_svc s') ∧ sv_tables (sv_svc s') = sv_tables (sv_svc s) ∧ sv_guard s' = sv_guard s.
Definition keeps {A} (m : M Server A) : Prop := ∀ debt (s s' : Server) r,
  svc_inv debt (sv_svc s) → m s = (s', r) → kept debt s s'.

Lemma kept_trans debt s1 s2 s3 : kept debt s1 s2 → kept debt s2 s3 → kept debt s1 s3.
Proof.
  intros (R1 & T1 & G1) (R2 & T2 & G2). split; [exact (srun_trans _ _ _ _ _ _ _ _ R1 R2)|]. split; congruence.
Qed.

Lemma keeps_ret {A} (a : A) : keeps (mret a).
Proof. intros debt s s' r I [= <- _]. split; [by apply srun_refl|done]. Qed.
Lemma keeps_fail {A} e : keeps (fail e : M Server A).
Proof. intros debt s s' r I [= <- _]. split; [by apply srun_refl|done]. Qed.

Lemma api_keeps_bind {A B} (m : M Server A) (k : A → M Server B) : keeps m → (∀ a, keeps (k a)) → keeps (m ≫= k).
Proof.
  intros Hm Hk debt s s' r I E. apply bind_inv in E as [(s1 & a & E1 & E)|(e & E1 & ->)]; [|by eapply Hm].
  apply (Hm debt) in E1; [|done]. eapply kept_trans; [exact E1|]. eapply Hk; [|exact E]. apply E1.
Qed.

Lemma api_keeps_try {A} (m : M Server A) : keeps m → keeps (try m).
Proof. intros Hm debt s s' r I E. apply try_inv in E as (r' & E & _). by eapply Hm. Qed.

Lemma on_svc_inv {A} (m : M Service A) (s s' : Server) r :
  on_svc m s = (s', r) → ∃ v, m (sv_svc s) = (v, r) ∧ s' = MkServer v (sv_guard s).
Proof. unfold on_svc, zoom. destruct (m (sv_svc s)). intros [= <- <-]. eauto. Qed.

Lemma keeps_repo {A} (g : Tables → A) : keeps (on_svc (repo (stmt (let! t := tables in mret (g t))))).
Proof.
  intros debt s s' r I E. apply on_svc_inv in E as (v & E & ->).
  destruct (repo_quiet encoder _ debt _ _ _ (read_quiet g) I E) as (R & _ & _).
  apply repo_inv in E as (db & E & ->). apply stmt_read in E as [E _]. split; [done|]. split; [|done]. apply E.
Qed.

Lemma keeps_GetPackage id : keeps (on_svc (repo (GetPackage id))).
Proof.
  intros debt s s' r I E. apply on_svc_inv in E as (v & E & ->).
  destruct (repo_quiet encoder _ debt _ _ _ (GetPackage_quiet id) I E) as (R & _ & _).
  apply repo_inv in E as (db & E & ->). apply GetPackage_inv in E as (_ & T & _). by split_and!.
Qed.

(** Calls on the data directory. *)
Lemma keeps_disk {A} (m : M S A) :
  (∀ d d' r, dk_inv d → m d = (d', r) → dk_le d d') → keeps (on_svc (on_store (on_disk m))).
Proof.
  intros Hm debt s s' r I E. apply on_svc_inv in E as (v & E & ->). unfold on_store, zoom in E.
  destruct (on_disk m (sv_store (sv_svc s))) as [st x] eqn:E1. injection E as <- _.
  apply (on_disk_step encoder _ debt) in E1 as (I' & L & D & _); [|apply I|].
  2:{ intros d' r' Ed. eapply Hm; [apply (sv_ok _ _ _ I)|exact Ed]. }
  destruct I as [I1 I2 I3]. unfold kept. cbn. rw D. split; [|done]. split; [split; cbn; rw ?D; done|]. split; cbn; [done| |rw D; apply tables_le_refl].
  split; [apply L|]. by rw D.
Qed.

Lemma serve_blob_kept debt (s s' : Server) f r :
  svc_inv debt (sv_svc s) →
  (let! blob := try (on_svc (repo (RepoGetBlob (BlobHash f)))) in
   match blob with
   | Err _ | Ok None => mret (writeJSON 500 (EError "blob not found"))
   | Ok (Some blob) =>
       let! data := try (on_svc (on_store (ReadBlob encoder blob))) in
       mret (match data with
             | Err e => internal_error e
             | Ok data => MkHResp 200 (file_headers f data) (ERaw data)
             end)
   end) s = (s', r) → kept debt s s'.
Proof.
  intros I E. apply bind_inv in E as [(s1 & o & E1 & E)|(e & E1 & ->)]; apply try_inv in E1 as (r1 & E1 & Hr); [|done].
  injection Hr as ->. pose proof (keeps_repo (fun t => content_blobs t !! BlobHash f) debt _ _ _ I E1) as K1.
  destruct r1 as [[blob|]|e]; try (munfold; by injection E as <- _).
  apply bind_inv in E as [(s2 & d & E2 & E)|(e & E2 & ->)]; apply try_inv in E2 as (r2 & E2 & Hr); [|done].
  munfold. injection E as <- _. eapply kept_trans; [exact K1|]. apply on_svc_inv in E2 as (v & E2 & ->).
  apply (read_run encoder Henc debt) in E2 as [R T]; [by split_and!|apply K1|].
  exists (BlobHash f). destruct K1 as (_ & -> & _). apply on_svc_inv in E1 as (v1 & E1 & ->).
  apply repo_inv in E1 as (db & E1 & _). by apply GetBlob_inv in E1 as (_ & _ & Hb).
Qed.

Lemma keeps_serveFile id fid : keeps (serveFile encoder id fid).
Proof.
  unfold serveFile. apply api_keeps_bind.
  - apply api_keeps_try, (keeps_repo (fun t => head (filter (fun f => pf_ID f = fid) (files_of t id)))).
  - intros [[f|]|e]; [|apply keeps_ret..]. intros debt s s' r I E. by eapply serve_blob_kept.
Qed.

Lemma keeps_read rt r g :
  keeps (match rt with
    | RPackage => getPackage cfg r | RFile => getFile encoder r | ROriginal => getOriginal encoder r
    | RStats => requireClusterKey cfg (stats g) r | RSegments => requireClusterKey cfg list_segments r
    | RSegment => requireClusterKey cfg (get_segment (kv_get "name" (h_params r))) r
    | _ => mret (unrouted r)
    end).
Proof.
  unfold requireClusterKey. destruct rt; try apply keeps_ret.
  - unfold getPackage. destruct (parsePackageID r); [|apply keeps_ret].
    apply api_keeps_bind; [apply api_keeps_try, keeps_GetPackage|intros; apply keeps_ret].
  - unfold getFile. destruct (parsePackageID r); [|apply keeps_ret]. destruct (ParseInt64 _); [|apply keeps_ret].
    apply keeps_serveFile.
  - unfold getOriginal. destruct (parsePackageID r) as [id|e]; [|apply keeps_ret]. apply api_keeps_bind.
    + apply api_keeps_try, (keeps_repo (fun t => head (filter (fun f => Role f = "original"%string) (files_of t id)))).
    + intros [[f|]|e]; [apply keeps_serveFile|apply keeps_ret..].
  - destruct (_ =? _)%string; [apply keeps_ret|]. destruct (negb _); [apply keeps_ret|].
    apply api_keeps_bind; [|intros; apply keeps_ret]. apply api_keeps_try, keeps_disk. intros d d' x I E. by eapply dir_total_law.
  - destruct (_ =? _)%string; [apply keeps_ret|]. destruct (negb _); [apply keeps_ret|].
    apply api_keeps_bind; [|intros; apply keeps_ret]. apply api_keeps_try, keeps_disk. intros d d' x I E.
    eapply dir_fs_law; [apply reads_list_files|done|exact E].
  - destruct (_ =? _)%string; [apply keeps_ret|]. destruct (negb _); [apply keeps_ret|].
    unfold get_segment. destruct (_ || _); [apply keeps_ret|].
    apply api_keeps_bind; [|intros; apply keeps_ret]. apply api_keeps_try, keeps_disk. intros d d' x I E.
    eapply dir_fs_law; [apply reads_ReadFile|done|exact E].
Qed.
(** What a request does to the guard: nothing, or it seals the shard. *)
Definition guard_le (g g' : option ShardGuard) : Prop :=
  g' = g ∨ ∃ x, g = Some x ∧ g' = Some (SetReadOnly true x).

(** The packages that come from the body of [r]: at most one. *)
Definition comes_from (r : HRequest) (new : list Z) (t : Tables) : Prop :=
  new = [] ∨ ∃ body id, readBody r (config.MaxBodyBytes cfg) = Ok body ∧ new = [id] ∧ new_package id (Sum256 body) t.

(** An upload, whatever fails. *)
Lemma post_run debt r (s s' : Server) res :
  svc_inv debt (sv_svc s) → postPackage encoder withIndex cfg r s = (s', res) →
  sv_guard s' = sv_guard s ∧
  ∃ debt' new, debt_le debt debt' ∧ srun debt' new (sv_svc s) (sv_svc s') ∧ comes_from r new (sv_tables (sv_svc s')) ∧
    ∀ a pk, res = Ok a → hs_body a = EPackage pk → ∃ body pkg, readBody r (config.MaxBodyBytes cfg) = Ok body ∧
      pk = buildPackageResponse (config.LargeZipAsyncUnpack cfg) pkg ∧
      uploaded (Sum256 body) (sv_tables (sv_svc s')) (Ok (Some pkg)).
Proof.
  intros I E. pose proof (srun_refl encoder debt _ I) as R0. unfold postPackage in E.
  assert (∀ a, (∀ pk, hs_body a ≠ EPackage pk) → (s', res) = (s, Ok a) → sv_guard s' = sv_guard s ∧
    ∃ debt' new, debt_le debt debt' ∧ srun debt' new (sv_svc s) (sv_svc s') ∧ comes_from r new (sv_tables (sv_svc s')) ∧
      ∀ a pk, res = Ok a → hs_body a = EPackage pk → ∃ body pkg, readBody r (config.MaxBodyBytes cfg) = Ok body ∧
        pk = buildPackageResponse (config.LargeZipAsyncUnpack cfg) pkg ∧
        uploaded (Sum256 body) (sv_tables (sv_svc s')) (Ok (Some pkg))) as Herr.
  { intros a Ha [= -> ->]. split; [done|]. exists debt, []. split; [done|]. split; [done|]. split; [by left|].
    intros a' pk [= <-] Hpk. by destruct (Ha pk). }
  destruct (supplier.ParseQuery _) as [sup|e]; [|by eapply Herr; [|symmetry; exact E]].
  destruct (readBody r _) as [body|e] eqn:Ebody; [|eapply Herr; [|symmetry; exact E]; by destruct (strings.Contains _ _)]. clear Herr.
  apply bind_inv in E as [(s1 & o & E1 & E)|(e & E1 & ->)]; apply try_inv in E1 as (r1 & E1 & Hr); [|done].
  injection Hr as ->. apply on_svc_inv in E1 as (v & E1 & ->).
  apply (Process_run encoder withIndex (svc_cfg cfg) Henc debt) in E1 as (d & new & Hd & R & U & _ & _ & A); [|done].
  assert (comes_from r new (sv_tables v)) as Hc by (destruct A as [->|(id & -> & N)]; [by left|right; by exists body, id]).
  destruct r1 as [[pkg|]|e]; munfold; injection E as <- <-; (split; [done|]); exists d, new; (split; [done|]); (split; [done|]); (split; [done|]);
    intros a pk; [intros [= <-] [= <-]; by exists body, pkg|done|intros [= <-]; by destruct (isClientError e)].
Qed.

Lemma matches_post r : matches r RPost = true → h_method r = "POST" ∧ h_path r = "/v1/packages".
Proof. unfold matches. intros [E1 E2]%andb_prop. by apply String.eqb_eq in E1, E2. Qed.

Lemma blocked_post r g : matches r RPost = true → blocked r g = negb (writeAllowed g).
Proof. intros [E1 E2]%matches_post. unfold blocked. by rw E1 E2. Qed.

(** A request, whatever fails: when uploads are blocked it creates no package. *)
Lemma serve_run debt r (s s' : Server) res :
  svc_inv debt (sv_svc s) → serve r s = (s', res) →
  guard_le (sv_guard s) (sv_guard s') ∧
  ∃ debt' new, debt_le debt debt' ∧ srun debt' new (sv_svc s) (sv_svc s') ∧ (writeAllowed (sv_guard s) = false → new = []) ∧
    ∀ a pk, matches r RPost = true → res = Ok a → hs_body a = EPackage pk → ∃ body pkg, readBody r (config.MaxBodyBytes cfg) = Ok body ∧
      pk = buildPackageResponse (config.LargeZipAsyncUnpack cfg) pkg ∧
      uploaded (Sum256 body) (sv_tables (sv_svc s')) (Ok (Some pkg)).
Proof.
  intros I E. unfold Api.serve, gets in E. erewrite bind_ok in E by reflexivity. cbv beta iota in E.
  assert (kept debt s s' → (matches r RPost = true → ∀ a pk, res = Ok a → hs_body a ≠ EPackage pk) →
    guard_le (sv_guard s) (sv_guard s') ∧ ∃ debt' new, debt_le debt debt' ∧ srun debt' new (sv_svc s) (sv_svc s') ∧
    (writeAllowed (sv_guard s) = false → new = []) ∧ ∀ a pk, matches r RPost = true → res = Ok a → hs_body a = EPackage pk →
      ∃ body pkg, readBody r (config.MaxBodyBytes cfg) = Ok body ∧
      pk = buildPackageResponse (config.LargeZipAsyncUnpack cfg) pkg ∧
      uploaded (Sum256 body) (sv_tables (sv_svc s')) (Ok (Some pkg))) as Hkept.
  { intros (R & T & G) Hno. split; [by left|]. exists debt, []. split; [done|]. split; [done|]. split; [done|].
    intros a pk Hp Ha Hb. by destruct (Hno Hp a pk Ha). }
  destruct (blocked r (sv_guard s)) eqn:Eb.
  { apply Hkept; [by eapply keeps_ret|]. munfold. injection E as <- <-. intros _ a pk [= <-]. by destruct (strings.EqualFold _ _). }
  destruct (matches r RPost) eqn:Ep.
  - cbn [routes app find] in E. rw Ep in E. unfold handle, gets in E. erewrite bind_ok in E by reflexivity. cbv beta iota zeta in E.
    apply (post_run debt) in E as (G & d & new & Hd & R & _ & U); [|done]. split; [by left|]. exists d, new.
    split; [done|]. split; [done|]. rw blocked_post // in Eb. split; [by destruct (writeAllowed _)|]. eauto.
  - assert (false = true → ∀ a pk, res = Ok a → hs_body a ≠ EPackage pk) as Hno by done.
    destruct (find (matches r) (routes (sv_guard s))) as [rt|] eqn:Ef; [|apply Hkept; [by eapply keeps_ret|done]].
    apply find_some in Ef as [_ Hm]. unfold handle, gets in E. erewrite bind_ok in E by reflexivity. cbv beta iota zeta in E.
    destruct (decide (rt = RPost)) as [->|H1']; [congruence|]. destruct (decide (rt = RSeal)) as [->|H2'].
    + destruct (sv_guard s) as [g|] eqn:Eg; [|apply Hkept; [by eapply keeps_fail|done]]. unfold requireClusterKey in E.
      destruct (_ =? _)%string; [apply Hkept; [by eapply keeps_ret|done]|]. destruct (negb _); [apply Hkept; [by eapply keeps_ret|done]|].
      unfold seal in E. destruct (negb _); [apply Hkept; [by eapply keeps_ret|done]|]. unfold modify in E.
      erewrite bind_ok in E by reflexivity. munfold. injection E as <- <-. cbn. split; [right; by exists g|].
      exists debt, []. split; [done|]. split; [by apply srun_refl|]. done.
    + apply Hkept; [|done]. destruct (sv_guard s) as [g|]; [pose proof (keeps_read rt r g) as Hk|pose proof (keeps_read rt r (MkGuard 0 "" false "")) as Hk];
        destruct rt; try done; try (eapply Hk; done); by eapply keeps_fail.
Qed.
(** ** Downloads *)

(** Nothing is going to fail. *)
Definition healthy (s : Server) : Prop :=
  dk_readable (b_disk (sv_store (sv_svc s))) ∧ db_faults (b_db (sv_store (sv_svc s))) = [].

Lemma repo_read {A} (g : Tables → A) debt (s : Server) : svc_inv debt (sv_svc s) → healthy s →
  on_svc (repo (stmt (let! t := tables in mret (g t)))) s = (s, Ok (g (sv_tables (sv_svc s)))).
Proof.
  intros [_ _ [_ Ha]] [_ Hf]. destruct s as [[[d h db] j q] gd]. cbn in *.
  unfold on_svc, repo, on_store, on_db, zoom, stmt. cbn. rw Ha Hf. unfold tables. munfold. cbn. by destruct db; cbn in *; subst.
Qed.

(** The request for a file of an answer. *)
Definition asks (get : HRequest) (pk : packageResponse) (f : fileResponse) : Prop :=
  h_method get = "GET" ∧ h_path get = fr_DownloadURL f ∧
  h_params get = [("id", Itoa (pk_PackageID pk)); ("file_id", Itoa (fr_FileID f))].
Definition int64_id (z : Z) : Prop := 0 <= z < 2 ^ 63.

Lemma asks_route get id fid g :
  h_method get = "GET" → h_path get = "/v1/packages/" +:+ Itoa id +:+ "/files/" +:+ Itoa fid →
  h_params get = [("id", Itoa id); ("file_id", Itoa fid)] → find (matches get) (routes g) = Some RFile.
Proof.
  intros Hm Hp Hq. cbn [routes app find]. unfold matches, path_of. cbn [fst snd]. rw Hm Hp Hq. cbn [kv_get String.eqb Ascii.eqb Bool.eqb andb].
  rewrite -> String.eqb_refl. destruct (String.eqb_spec ("/v1/packages/" +:+ Itoa id +:+ "/files/" +:+ Itoa fid) ("/v1/packages/" +:+ Itoa id)) as [E|E]; [|done].
  exfalso. apply (f_equal (fun s => length (bs s))) in E. rw !bs_app !length_app in E. cbn in E. lia.
Qed.

Lemma files_of_row t ps fs debt id f : db_inv t ps fs debt → f ∈ files_of t id →
  ∃ f0, (pf_ID f, f0) ∈ package_files t ∧ PackageID f0 = id ∧ BlobHash f0 = BlobHash f ∧ with_size t f0 = Some f.
Proof.
  intros D. unfold files_of. intros (g & Hg & E)%list_elem_of_omap. apply list_elem_of_filter in Hg as [Hid Hg].
  apply list_elem_of_fmap in Hg as ([k g'] & -> & Hg). cbn in *. exists g'. destruct (ri_file _ _ _ _ D k g' Hg) as (Hk & _).
  pose proof E as E'. unfold with_size in E'. destruct (content_blobs t !! BlobHash g'); [|done]. injection E' as <-. cbn [pf_ID BlobHash]. subst k. by split_and!.
Qed.

Lemma files_of_unique t ps fs debt id f : db_inv t ps fs debt → f ∈ files_of t id →
  head (filter (fun g => pf_ID g = pf_ID f) (files_of t id)) = Some f.
Proof.
  intros D Hf. assert (f ∈ filter (fun g => pf_ID g = pf_ID f) (files_of t id)) as Hin by (by apply list_elem_of_filter).
  destruct (filter _ _) as [|g l] eqn:E; [by apply not_elem_of_nil in Hin|]. cbn. f_equal.
  assert (g ∈ filter (fun g => pf_ID g = pf_ID f) (files_of t id)) as Hg by (rw E; by left).
  apply list_elem_of_filter in Hg as [Hid Hg]. destruct (files_of_row _ _ _ _ _ _ D Hg) as (g0 & Hg0 & _ & _ & Eg).
  destruct (files_of_row _ _ _ _ _ _ D Hf) as (f0 & Hf0 & _ & _ & Ef). rw Hid in Hg0.
  pose proof (tget_elem _ _ _ (ri_fkeys _ _ _ _ D) Hg0) as T1. pose proof (tget_elem _ _ _ (ri_fkeys _ _ _ _ D) Hf0). congruence.
Qed.

Lemma files_of_le new t t' id f : tables_le new t t' → f ∈ files_of t id → f ∈ files_of t' id.
Proof.
  intros L. unfold files_of. intros (g & Hg & E)%list_elem_of_omap. apply list_elem_of_omap. exists g.
  apply list_elem_of_filter in Hg as [Hid Hg]. split.
  - apply list_elem_of_filter. split; [done|]. apply list_elem_of_fmap in Hg as (kf & -> & Hg). apply list_elem_of_fmap.
    exists kf. split; [done|]. by apply (tl_files _ _ _ L).
  - unfold with_size in *. destruct (content_blobs t !! BlobHash g) as [b|] eqn:Eb; [|done].
    destruct (tl_blobs _ _ _ L _ _ Eb) as (b' & -> & _ & Es & _). cbn in *. by rw Es.
Qed.

(** A file of a healthy shard is served with its content. *)
Lemma get_file_ok debt (s : Server) pk pid f get :
  svc_inv debt (sv_svc s) → healthy s → f ∈ files_of (sv_tables (sv_svc s)) pid →
  pk_PackageID pk = pid → int64_id pid → int64_id (pf_ID f) → asks get pk (file_response pid f) →
  ∃ hd d, (serve get s).2 = Ok (MkHResp 200 hd (ERaw d)) ∧ Sum256 d = BlobHash f ∧ zlen d = pf_Size f.
Proof.
  intros I Hh Hf <- H1' H2' (A1 & A2 & A3). set (pid := pk_PackageID pk) in *.
  destruct (files_of_row _ _ _ _ _ _ (si_db _ _ _ (sv_ok _ _ _ I)) Hf) as (f0 & Hin & _ & Hbf & Hws).
  destruct (ri_file _ _ _ _ (si_db _ _ _ (sv_ok _ _ _ I)) _ _ Hin) as (_ & _ & [b Hb] & _). rw Hbf in Hb.
  destruct (ReadBlob_ok encoder debt (sv_store (sv_svc s)) _ b (sv_ok _ _ _ I) (proj1 Hh) Hb) as (d & Ed & Hd & Hs).
  exists (file_headers f d), d. split; [|split; [done|]].
  2:{ unfold with_size in Hws. rw Hbf Hb in Hws. injection Hws as <-. done. }
  unfold Api.serve, gets. erewrite bind_ok by reflexivity. cbv beta iota.
  replace (blocked get (sv_guard s)) with false by (unfold blocked; by rw A1).
  rw (asks_route get pid (pf_ID f) _ A1 A2 A3). unfold handle, gets. erewrite bind_ok by reflexivity. cbv beta iota zeta.
  unfold getFile, parsePackageID. rw A3. cbn [kv_get String.eqb Ascii.eqb Bool.eqb fr_FileID file_response].
  rw (Atoi_Itoa pid H1' : ParseInt64 _ = _) (Atoi_Itoa (pf_ID f) H2' : ParseInt64 _ = _).
  unfold serveFile. erewrite bind_ok by (apply try_run, (repo_read _ debt _ I Hh)). cbv beta iota.
  rw (files_of_unique _ _ _ _ _ _ (si_db _ _ _ (sv_ok _ _ _ I)) Hf).
  erewrite bind_ok by (apply try_run, (repo_read _ debt _ I Hh)). cbv beta iota. rw Hb.
  unfold on_svc, on_store, zoom, try. munfold. by destruct (ReadBlob encoder b _) as [st r]; cbn in *; subst.
Qed.

(** ** A running shard *)
Notation exec := (IngestSafe.exec encoder withIndex (svc_cfg cfg)).

Inductive sstep : Server → Server → Prop :=
  | step_request r s : sstep s (serve r s).1
  | step_admitted r s : sstep s (postPackage encoder withIndex cfg r s).1
  | step_background o s : is_upload o = false → sstep s (MkServer (exec o (sv_svc s)) (sv_guard s))
  | step_gate m s : sstep s (MkServer (sv_svc s) (gate_step cfg m <$> sv_guard s)).

(** With the uploads that the guard has let through and that are not processed yet. *)
Record Live : Type := MkLive { lv_srv : Server; lv_posts : list HRequest }.
Inductive lstep : Live → Live → Prop :=
  | live_admit r s ps : matches r RPost = true → blocked r (sv_guard s) = false → lstep (MkLive s ps) (MkLive s (ps ++ [r]))
  | live_post r s ps ps' : lstep (MkLive s (ps ++ r :: ps')) (MkLive (postPackage encoder withIndex cfg r s).1 (ps ++ ps'))
  | live_request r s ps : matches r RPost = false ∨ blocked r (sv_guard s) = true → lstep (MkLive s ps) (MkLive (serve r s).1 ps)
  | live_background o s ps : is_upload o = false → lstep (MkLive s ps) (MkLive (MkServer (exec o (sv_svc s)) (sv_guard s)) ps)
  | live_gate m s ps : lstep (MkLive s ps) (MkLive (MkServer (sv_svc s) (gate_step cfg m <$> sv_guard s)) ps).

Lemma lstep_sstep l l' : lstep l l' → lv_srv l' = lv_srv l ∨ sstep (lv_srv l) (lv_srv l').
Proof. intros [r s ps Hm Hb|r s ps ps'|r s ps Hr|o s ps Ho|m s ps]; [by left|right; by constructor..]. Qed.

Definition sealed (s : Server) : Prop := ∃ g, sv_guard s = Some g ∧ readOnly g = true.

Lemma sealed_blocked s : sealed s → writeAllowed (sv_guard s) = false.
Proof. intros (g & -> & Hg). cbn. by rw Hg. Qed.

Lemma gate_readOnly m g : readOnly (gate_step cfg m g) = readOnly g.
Proof. unfold gate_step. destruct m; [|done]. by repeat case_match. Qed.

Lemma sstep_run debt s s' : svc_inv debt (sv_svc s) → sstep s s' →
  ∃ debt' new, debt_le debt debt' ∧ srun debt' new (sv_svc s) (sv_svc s').
Proof.
  intros I St. destruct St as [r s|r s|o s Ho|m s].
  - destruct (serve r s) as [s' res] eqn:E. apply (serve_run debt) in E as (_ & d & new & Hd & R & _); [|done]. by exists d, new.
  - destruct (postPackage _ _ _ r s) as [s' res] eqn:E. apply (post_run debt) in E as (_ & d & new & Hd & R & _); [|done]. by exists d, new.
  - destruct (exec_run encoder withIndex (svc_cfg cfg) Henc debt o (sv_svc s) I) as (d & new & Hd & R & _). by exists d, new.
  - exists debt, []. split; [done|]. by apply srun_refl.
Qed.

Lemma ssteps_run debt s s' : svc_inv debt (sv_svc s) → rtc sstep s s' →
  ∃ debt' new, debt_le debt debt' ∧ srun debt' new (sv_svc s) (sv_svc s').
Proof.
  intros I St. revert debt I. induction St as [s|s s1 s' St _ IH]; intros debt I.
  - exists debt, []. split; [done|]. by apply srun_refl.
  - destruct (sstep_run debt s s1 I St) as (d1 & n1 & D1 & R1).
    destruct (IH d1 (sr_inv _ _ _ _ _ R1)) as (d2 & n2 & D2 & R2). exists d2, (n1 ++ n2).
    split; [by etrans|]. exact (srun_trans _ _ _ _ _ _ _ _ R1 R2).
Qed.

(** ** A sealed shard *)

(** What a sealed shard does: no upload is let through any more, and the packages
    that appear come from the uploads that were let through before. *)
Definition frozen (debt : bytes → Z) (l l' : Live) : Prop :=
  ∃ debt' new, debt_le debt debt' ∧ srun debt' new (sv_svc (lv_srv l)) (sv_svc (lv_srv l')) ∧ sealed (lv_srv l') ∧
    lv_posts l' ⊆+ lv_posts l ∧ (length new + length (lv_posts l') <= length (lv_posts l))%nat ∧
    ∀ id, id ∈ new → ∃ post body, post ∈ lv_posts l ∧ readBody post (config.MaxBodyBytes cfg) = Ok body ∧
      new_package id (Sum256 body) (sv_tables (sv_svc (lv_srv l'))).

Lemma frozen_quiet debt debt' s s' ps : debt_le debt debt' → srun debt' [] (sv_svc s) (sv_svc s') → sealed s' →
  frozen debt (MkLive s ps) (MkLive s' ps).
Proof. intros Hd R Hs. exists debt', []. split_and!; try done. by intros id ?%not_elem_of_nil. Qed.

Lemma frozen_trans debt l1 l2 l3 : frozen debt l1 l2 → (∀ d, svc_inv d (sv_svc (lv_srv l2)) → frozen d l2 l3) → frozen debt l1 l3.
Proof.
  intros (d1 & n1 & D1 & R1 & S1 & P1 & L1 & N1) H23. destruct (H23 d1 (sr_inv _ _ _ _ _ R1)) as (d2 & n2 & D2 & R2 & S2 & P2 & L2 & N2).
  exists d2, (n1 ++ n2). split; [by etrans|]. split; [exact (srun_trans _ _ _ _ _ _ _ _ R1 R2)|]. split; [done|]. split; [by etrans|].
  rewrite -> length_app. split; [lia|]. intros id [Hid|Hid]%elem_of_app.
  - destruct (N1 id Hid) as (post & body & Hp & Hb & Hn). exists post, body. split_and!; try done. eapply new_package_le; [apply R2|done].
  - destruct (N2 id Hid) as (post & body & Hp & Hb & Hn). exists post, body. split_and!; try done. by eapply elem_of_submseteq.
Qed.

Lemma lstep_frozen debt l l' : svc_inv debt (sv_svc (lv_srv l)) → sealed (lv_srv l) → lstep l l' → frozen debt l l'.
Proof.
  intros I Hs St. destruct St as [r s ps Hm Hb|r s ps ps'|r s ps Hr|o s ps Ho|m s ps]; cbn [lv_srv] in *.
  - by rw blocked_post // sealed_blocked in Hb.
  - destruct (postPackage _ _ _ r s) as [s' res] eqn:E. apply (post_run debt) in E as (G & d & new & Hd & R & C & _); [|done].
    exists d, new. cbn. split_and!; try done; [unfold sealed; by rw G|apply submseteq_app; [done|by apply submseteq_cons]| |].
    + rewrite -> !length_app. cbn. destruct C as [->|(body & id & _ & -> & _)]; cbn; lia.
    + intros id Hid. destruct C as [->|(body & id' & Hb & -> & N)]; [by apply not_elem_of_nil in Hid|].
      apply list_elem_of_singleton in Hid as ->. exists r, body. split_and!; try done. apply elem_of_app. right. by left.
  - destruct (serve r s) as [s' res] eqn:E. apply (serve_run debt) in E as (G & d & new & Hd & R & Hn & _); [|done].
    rewrite -> (Hn (sealed_blocked _ Hs)) in R. eapply frozen_quiet; [exact Hd|exact R|].
    destruct G as [G|(g & G1 & G2)]; [unfold sealed; by rw G|by exists (SetReadOnly true g)].
  - destruct (exec_run encoder withIndex (svc_cfg cfg) Henc debt o (sv_svc s) I) as (d & new & Hd & R & Hn). rewrite -> (Hn Ho) in R.
    by eapply frozen_quiet.
  - eapply frozen_quiet; [reflexivity|by apply srun_refl|]. destruct Hs as (g & Hg & Hr). exists (gate_step cfg m g). cbn. by rw Hg gate_readOnly.
Qed.

Lemma lsteps_frozen debt l l' : svc_inv debt (sv_svc (lv_srv l)) → sealed (lv_srv l) → rtc lstep l l' → frozen debt l l'.
Proof.
  intros I Hs St. revert debt I Hs. induction St as [[s ps]|l l1 l' St _ IH]; intros debt I Hs.
  - by eapply frozen_quiet; [reflexivity|by apply srun_refl|].
  - pose proof (lstep_frozen debt l l1 I Hs St) as F. eapply frozen_trans; [exact F|]. intros d Id. apply IH; [done|]. by destruct F as (_ & _ & _ & _ & ? & _).
Qed.
End Server.

Section Claims.
Context {S : Type} `{DiskLaws S} `{DirOps S} `{!DirLaws S} {K : Type} `{kvStore K} `{Bloom} `{ZstdLaws} `{PG} `{ZipLib} `{Times}.
Context {J : Type} `{JournalOps J} `{EnvLib} `{Mime}.
Context (encoder : option Encoder) (withIndex : bool) (cfg : config.Config) (unrouted : HRequest → answer).
Notation Server := (Api.Server S K J).
Notation serve := (Api.serve encoder withIndex cfg unrouted).
Notation sstep := (ApiInv.sstep (S := S) (K := K) (J := J) encoder withIndex cfg unrouted).
Notation lstep := (ApiInv.lstep (S := S) (K := K) (J := J) encoder withIndex cfg unrouted).

(** C5: sealing is final until the process ends.  Once the seal endpoint has answered
    200, whatever requests, processing of uploads, background jobs, recovery scans
    and disk measurements follow and whatever fails: the shard stays read-only; no
    further upload gets past the guard, each is refused with 403 or 507 and changes
    nothing; the packages that still appear come from the bodies of the uploads that
    were past the guard when the seal answered, at most one from each of those that
    have been processed since (none appears if there was none); no package, file or
    blob is lost. *)
Theorem sealed_shard_frozen debt r (s s1 : Server) a posts l2 :
  (∀ e, encoder = Some e → enc_ok e) → svc_inv encoder debt (sv_svc s) →
  find (matches r) (routes (sv_guard s)) = Some RSeal → serve r s = (s1, Ok a) → hs_status a = 200 → rtc lstep (MkLive s1 posts) l2 →
  sealed (lv_srv l2) ∧ lv_posts l2 ⊆+ posts ∧
  (∃ new, tables_le new (sv_tables (sv_svc s1)) (sv_tables (sv_svc (lv_srv l2))) ∧ (length new + length (lv_posts l2) <= length posts)%nat ∧
    ∀ id, id ∈ new → ∃ post body p, post ∈ posts ∧ readBody post (config.MaxBodyBytes cfg) = Ok body ∧
      tget id (packages (sv_tables (sv_svc (lv_srv l2)))) = Some p ∧ p_PackageHash p = Sum256 body) ∧
  ∀ post, matches post RPost = true → ∃ a', serve post (lv_srv l2) = (lv_srv l2, Ok a') ∧ (hs_status a' = 403 ∨ hs_status a' = 507).
Proof.
  intros He I Hf E Ha St.
  assert (sealed s1 ∧ svc_inv encoder debt (sv_svc s1)) as [Hs I1].
  { unfold Api.serve, gets in E. erewrite bind_ok in E by reflexivity. cbv beta iota in E.
    destruct (blocked _ _); [munfold; injection E as <- <-; by destruct (strings.EqualFold _ _)|].
    rw Hf in E. unfold handle, gets in E. erewrite bind_ok in E by reflexivity. cbv beta iota zeta in E.
    destruct (sv_guard s) as [g|]; [|done]. unfold requireClusterKey in E.
    destruct (_ =? _)%string; [by injection E as <- <-|]. destruct (negb _); [by injection E as <- <-|].
    unfold seal in E. destruct (negb _); [by injection E as <- <-|]. unfold modify in E.
    erewrite bind_ok in E by reflexivity. munfold. injection E as <- <-. split; [|done]. by exists (SetReadOnly true g). }
  destruct (lsteps_frozen encoder withIndex cfg unrouted He debt (MkLive s1 posts) l2 I1 Hs St) as (d & new & Hd & R & Hs2 & Hsub & Hlen & Hnew).
  split; [done|]. split; [done|]. split.
  { exists new. split; [apply R|]. split; [done|]. intros id Hid. destruct (Hnew id Hid) as (post & body & Hp & Hb & _ & p & Ep & Eh). by exists post, body, p. }
  intros post Hp. unfold Api.serve, gets.
  erewrite bind_ok by reflexivity. cbv beta iota. rw blocked_post // (sealed_blocked _ Hs2). cbn [negb].
  munfold. eexists. split; [done|]. destruct (strings.EqualFold _ _); auto.
Qed.
(** C3: an upload answered 201 can be downloaded.  When POST /v1/packages answers
    with a package, then after any further requests, background jobs, disk
    measurements and failures, as soon as disk and database work again, a GET of
    the download URL of any file of the answer gets 200 and as many bytes as the
    answer said; one of the files is the original, whose bytes have the SHA-256
    of the request's body. *)
Theorem http_upload_download debt r (s s1 s2 : Server) a pk :
  (∀ e, encoder = Some e → enc_ok e) → svc_inv encoder debt (sv_svc s) →
  matches r RPost = true → serve r s = (s1, Ok a) → hs_body a = EPackage pk →
  int64_id (pk_PackageID pk) → Forall (fun f => int64_id (fr_FileID f)) (pk_Files pk) →
  rtc sstep s1 s2 → healthy s2 →
  (∀ f get, f ∈ pk_Files pk → asks get pk f →
     ∃ hd d, (serve get s2).2 = Ok (MkHResp 200 hd (ERaw d)) ∧ zlen d = fr_Size f) ∧
  ∃ f body, f ∈ pk_Files pk ∧ fr_Role f = RoleOriginal ∧ readBody r (config.MaxBodyBytes cfg) = Ok body ∧
    ∀ get, asks get pk f → ∃ hd d, (serve get s2).2 = Ok (MkHResp 200 hd (ERaw d)) ∧ Sum256 d = Sum256 body.
Proof.
  intros He I Hm E Hb Hid Hfs St Hh.
  apply (serve_run encoder withIndex cfg unrouted He debt) in E as (_ & d & new & Hd & R & _ & U); [|done].
  destruct (U a pk Hm eq_refl Hb) as (body & pkg & Hbody & -> & pkg' & f0 & p & [= <-] & _ & Hf0 & Hr0 & Hb0 & _ & _ & Hfiles).
  destruct (ssteps_run encoder withIndex cfg unrouted He d s1 s2 (sr_inv _ _ _ _ _ R) St) as (d2 & n2 & Hd2 & R2).
  assert (∀ f get, f ∈ Files pkg → asks get (buildPackageResponse (config.LargeZipAsyncUnpack cfg) pkg) (file_response (p_ID pkg) f) →
    ∃ hd d, (serve get s2).2 = Ok (MkHResp 200 hd (ERaw d)) ∧ Sum256 d = BlobHash f ∧ zlen d = pf_Size f) as Hget.
  { intros f get Hf. apply (get_file_ok encoder withIndex cfg unrouted d2 s2 _ (p_ID pkg)); [apply R2|done| |done|done|].
    - eapply files_of_le; [apply R2|]. by rw -Hfiles.
    - cbn in Hfs. rewrite -> Forall_fmap, Forall_forall in Hfs. by apply Hfs. }
  split.
  - intros fr get Hf Ha. cbn in Hf. apply list_elem_of_fmap in Hf as (f & -> & Hf).
    destruct (Hget f get Hf Ha) as (hd & x & Ex & _ & Hz). by exists hd, x.
  - exists (file_response (p_ID pkg) f0), body. split; [cbn; apply list_elem_of_fmap; by exists f0|]. split; [done|]. split; [done|].
    intros get Ha. destruct (Hget f0 get Hf0 Ha) as (hd & x & Ex & Hz & _). exists hd, x. by rw -Hb0.
Qed.
End Claims.
