(* ===== verification/ApiDemo.v ===== *)
(** * Concrete requests to a shard

    A new shard server with the key "secret": it takes an upload, serves it, is
    sealed, and its disk gate closes and opens. *)
From stdpp Require Import relations.
From S2P Require Import Prelude GoLib Hash FS Segment SegmentStore SegmentDurable Metadata MetadataInv Disk Compress Dedup BlobStore Detect Journal UnpackQueue Ingest IngestInv IngestSafe IngestDemo Config Http Api DiskGate ApiInv.

#[local] Existing Instances demo_times demo_json bad_zip.
Definition shard_env : EnvLib := {|
  env_float := unit; ParseDuration := fun _ => None; ParseFloat := fun _ => None; float_const := fun _ => tt |}.
Definition plain_mime : Mime := {| FormatMediaType f := "attachment; filename=" +:+ f |}.
#[local] Existing Instances shard_env plain_mime.

Definition shard_cfg : config.Config :=
  config.Load (fun k =>
    if (k =? "CLUSTER_KEY")%string then "secret" else if (k =? "MIN_FREE_DISK_BYTES")%string then "100" else
    if (k =? "DISK_RESUME_HYSTERESIS_BYTES")%string then "50" else "").
Definition chi_404 (_ : HRequest) : answer := MkHResp 404 [] (EError "404 page not found").

Notation DemoServer := (Server Disk (gmap bytes Entry) Journal).
Definition shard : DemoServer := NewShardServer shard_cfg (demo_service []).
Definition ask : HRequest → M DemoServer answer := serve demo_encoder true shard_cfg chi_404.

Definition post_xml : HRequest :=
  MkHReq "POST" "/v1/packages" [] [("supplier_id", "7")] [] (Some (demo_xml, None)) (zlen demo_xml).
Definition seal_it : HRequest := MkHReq "POST" "/v1/internal/seal" [] [] [("X-Cluster-Key", "secret")] None 0.
Definition get_first : HRequest := MkHReq "GET" "/v1/packages/1/files/1" [("id", "1"); ("file_id", "1")] [] [] None 0.

(** An upload is past the guard when the seal answers, and is stored afterwards. *)
Lemma sealed_shard_frozen_witness :
  let s1 := (ask seal_it shard).1 in let s2 := (postPackage demo_encoder true shard_cfg post_xml s1).1 in
  sealed s2 ∧ (length (packages (sv_tables (sv_svc s1))) = 0 ∧ length (packages (sv_tables (sv_svc s2))) = 1)%nat ∧
  ∃ a', ask post_xml s2 = (s2, Ok a') ∧ (hs_status a' = 403 ∨ hs_status a' = 507).
Proof.
  intros s1 s2. assert ((ask seal_it shard).2 = Ok (writeJSON 200 (EStatus "sealed"))) as E2 by (vm_compute; reflexivity).
  assert (ask seal_it shard = (s1, Ok (writeJSON 200 (EStatus "sealed")))) as E by (unfold s1; rewrite <- E2; apply surjective_pairing).
  assert (length (packages (sv_tables (sv_svc s1))) = 0 ∧ length (packages (sv_tables (sv_svc s2))) = 1)%nat as L by (split; vm_compute; reflexivity).
  clearbody s1.
  destruct (sealed_shard_frozen demo_encoder true shard_cfg chi_404 no_debt seal_it shard s1
    (writeJSON 200 (EStatus "sealed")) [post_xml] (MkLive s2 []) demo_encoder_ok demo_service_inv ltac:(vm_compute; reflexivity) E eq_refl
    (rtc_once _ _ (live_post _ _ _ _ post_xml s1 [] []))) as (A1 & _ & _ & A2).
  split; [exact A1|]. split; [exact L|]. apply A2. reflexivity.
Defined.

Lemma http_upload_download_witness :
  let s1 := (ask post_xml shard).1 in
  ∃ hd d, (ask get_first s1).2 = Ok (MkHResp 200 hd (ERaw d)) ∧ Sum256 d = Sum256 demo_xml.
Proof.
  intros s1.
  assert (∃ a pk, (ask post_xml shard).2 = Ok a ∧ hs_body a = EPackage pk ∧ pk_PackageID pk = 1 ∧
    (fun f => (fr_FileID f, fr_DownloadURL f)) <$> pk_Files pk = [(1, "/v1/packages/1/files/1")]) as (a & pk & E2 & Hb & Hid & Hf).
  { vm_compute. do 2 eexists. split; [reflexivity|]. split; [reflexivity|]. split; reflexivity. }
  assert (ask post_xml shard = (s1, Ok a)) as E by (unfold s1; rewrite <- E2; apply surjective_pairing).
  assert (healthy s1) as Hh by (split; [apply (demo_readable (sv_svc s1)); vm_compute; reflexivity|vm_compute; reflexivity]).
  clearbody s1. destruct (pk_Files pk) as [|f [|? ?]] eqn:Ef; [discriminate Hf| |discriminate Hf]. injection Hf as Hf1 Hf2.
  destruct (http_upload_download demo_encoder true shard_cfg chi_404 no_debt post_xml shard s1 s1 a pk demo_encoder_ok
    demo_service_inv eq_refl E Hb) as [_ (f' & body & Hin & _ & Hbody & Hget)].
  - rewrite -> Hid. unfold int64_id. lia.
  - rewrite -> Ef. constructor; [|constructor]. rewrite -> Hf1. unfold int64_id. lia.
  - apply rtc_refl.
  - exact Hh.
  - rewrite -> Ef in Hin. apply list_elem_of_singleton in Hin. subst f'.
    assert (Ok demo_xml = Ok body) as [= <-] by (rewrite <- Hbody; vm_compute; reflexivity).
    apply (Hget get_first). split; [done|]. split; [by rewrite -> Hf2|]. rewrite -> Hid, Hf1. vm_compute. reflexivity.
Defined.

(** A disk that reports these measurements, one per evaluation. *)
Definition probe : DiskProbe (list Z) := {|
  probe_stat p := if (p =? config.DataDir shard_cfg)%string then mret tt else fail not_exist;
  Statfs _ := fun w => match w with [] => ([], Err (errorf "input/output error")) | n :: w => (w, Ok (n, 1)) end |}.
#[local] Existing Instance probe.
Definition primary_guard : ShardGuard := NewShardGuard 1 "primary" false.

Lemma disk_gate_hysteresis_witness :
  let gate n := gt_guard (runDiskWriteGate shard_cfg n (MkGate [200; 90; 120; 160] primary_guard)).1 in
  writeAllowed (Some (gate 1%nat)) = false ∧ writeAllowed (Some (gate 2%nat)) = false ∧ writeAllowed (Some (gate 3%nat)) = true ∧
  writeBlockReason (gate 2%nat) = "disk_full".
Proof.
  intros gate. destruct (disk_gate_hysteresis shard_cfg 2 [200; 90; 120; 160] primary_guard eq_refl eq_refl eq_refl eq_refl) as [E1 E2].
  assert (disk_full shard_cfg (measurements shard_cfg 3 [200; 90; 120; 160])) as Hfull.
  { exists [Ok 200], 90, [Ok 120]. vm_compute. split; [reflexivity|]. split; [reflexivity|]. repeat constructor. }
  split; [vm_compute; reflexivity|]. split; [apply E1, Hfull|]. split; [vm_compute; reflexivity|]. apply E2, E1, Hfull.
Defined.
