(* ===== verification/Typed.v ===== *)
(** * The types of the rows

    What values the rows of a shard's tables can have, beyond what the schema
    checks, and that every operation of the service keeps to them.  [yields m Q] is
    a typing judgement of a computation: on a state of typed rows it leaves a state
    of typed rows, and a result it returns satisfies [Q].  The rules for the
    monad's constructs are in the hint database [yields]. *)
From stdpp Require Import relations.
From S2P Require Import Prelude GoLib Hash Ids Record FS Metadata MetadataInv Disk Compress Dedup BlobStore Detect Journal UnpackQueue Ingest IngestInv IngestSafe Config Http Api DiskGate ApiInv.

(** ** Row types *)
Definition is_hash (h : bytes) : Prop := length h = 32%nat.
Definition is_count (n : Z) : Prop := 1 <= n < 2 ^ 31.

Record blob_type (h : bytes) (b : ContentBlob) : Prop := {
  bt_hash : is_hash h;
  bt_key : ContentHash b = h;
  bt_size : 0 <= cb_Size b < 2 ^ 31;
  bt_stored : RecordOverhead <= StoredSize b < 2 ^ 31;
  bt_refs : 1 <= RefCount b;
}.

Definition roles : list string := [RoleOriginal; RoleMember; RoleUnpackError].
(** A member has its place in the archive, the others have none; the text of an
    unpack error has its fixed name. *)
Record file_type (role : string) (hash : bytes) (name : option string) (seq : option Z) : Prop := {
  ft_role : role ∈ roles;
  ft_hash : is_hash hash;
  ft_seq : match seq with Some n => role = RoleMember ∧ 0 <= n < 2 ^ 31 | None => role ≠ RoleMember end;
  ft_name : role = RoleUnpackError → name = Some unpackErrorFilename;
}.
Definition row_type (f : PackageFile) : Prop :=
  file_type (Role f) (BlobHash f) (pf_OriginalFilename f) (SequenceNumber f) ∧ 0 <= pf_Size f < 2 ^ 31.

(** Only an unpacked archive has more than one file, or an unpack error, which then
    is the second of two. *)
Definition mode_type (mode : string) (count : Z) (err : option string) : Prop :=
  (mode = StorageSingle ∨ mode = StorageRawLarge) ∧ count = 1 ∧ err = None ∨
  mode = StorageZipWithMembers ∧ is_count count ∧ (is_Some err → count = 2).
Record package_type (sup : Z) (hash : bytes) (payload mode : string) (count : Z) (err : option string) : Prop := {
  pt_supplier : 1 <= sup <= supplier.MaxID;
  pt_hash : is_hash hash;
  pt_payload : payload ∈ ["xml"; "zip"];
  pt_mode : mode_type mode count err;
}.
Definition pkg_type (p : Package) : Prop :=
  package_type (SupplierID p) (p_PackageHash p) (Metadata.PayloadType p) (StorageMode p) (FileCount p) (UnpackError p) ∧ Forall row_type (Files p).

(** ** Typed states *)
Class Typed (W : Type) := typed : W → Prop.
#[export] Instance typed_tables : Typed Tables := fun t =>
  map_Forall blob_type (content_blobs t) ∧ Forall (fun kp => pkg_type kp.2) (packages t) ∧ Forall (fun kf => row_type kf.2) (package_files t).
#[export] Instance typed_DB : Typed DB := fun db => typed (db_tables db).

Definition yields {W A} `{Typed W} (m : M W A) (Q : A → Prop) : Prop :=
  ∀ w w' r, typed w → m w = (w', r) → typed w' ∧ ∀ a, r = Ok a → Q a.
Definition any {A} (_ : A) : Prop := True.
Create HintDb yields.

Section Rules.
Context {W : Type} `{Typed W}.

Lemma yields_ret {A} (a : A) (Q : A → Prop) : Q a → yields (mret a) Q.
Proof. by intros HQ w w' r Hw [= <- <-]; split; [|intros ? [= <-]]. Qed.
Lemma yields_fail {A} e (Q : A → Prop) : yields (fail e) Q.
Proof. by intros w w' r Hw [= <- <-]. Qed.
Lemma yields_lift {A} (x : result A) (Q : A → Prop) : (∀ a, x = Ok a → Q a) → yields (lift_result x) Q.
Proof. intros HQ w w' r Hw [= <- <-]. by split. Qed.
Lemma yields_gets {A} (f : W → A) (Q : A → Prop) : (∀ w, typed w → Q (f w)) → yields (gets f) Q.
Proof. intros HQ w w' r Hw [= <- <-]. split; [done|]. intros ? [= <-]. by apply HQ. Qed.
Lemma yields_modify (f : W → W) : (∀ w, typed w → typed (f w)) → yields (modify f) any.
Proof. intros Hf w w' r Hw [= <- <-]. split; [by apply Hf|done]. Qed.
Lemma yields_bind {A B} (m : M W A) (k : A → M W B) P Q : yields m P → (∀ a, P a → yields (k a) Q) → yields (m ≫= k) Q.
Proof.
  intros Hm Hk w w' r Hw E. apply bind_inv in E as [(w1 & a & E1 & E)|(e & E1 & ->)]; destruct (Hm _ _ _ Hw E1) as [Hw1 HP]; [|done].
  by eapply Hk; [apply HP|exact Hw1|exact E].
Qed.
Lemma yields_weaken {A} (m : M W A) (P Q : A → Prop) : yields m P → (∀ a, P a → Q a) → yields m Q.
Proof. intros Hm HPQ w w' r Hw E. destruct (Hm _ _ _ Hw E) as [? HP]. split; [done|]. intros a Ha. by apply HPQ, HP. Qed.
Lemma yields_any {A} (m : M W A) Q : yields m Q → yields m any.
Proof. intros Hm. by eapply yields_weaken. Qed.
Lemma yields_try {A} (m : M W A) Q : yields m Q → yields (try m) (fun r => ∀ a, r = Ok a → Q a).
Proof. intros Hm w w' r Hw E. apply try_inv in E as (r1 & E & ->). destruct (Hm _ _ _ Hw E). split; [done|]. by intros ? [= <-]. Qed.
Lemma yields_ignore {A} (m : M W A) Q : yields m Q → yields (ignore m) any.
Proof. intros Hm w w' r Hw E. unfold ignore in E. destruct (m w) as [w1 r1] eqn:E1. injection E as <- _. by destruct (Hm _ _ _ Hw E1). Qed.
Lemma yields_wrap {A} pre (m : M W A) Q : yields m Q → yields (wrap_err pre m) Q.
Proof.
  intros Hm w w' r Hw E. apply wrap_err_inv in E as (r1 & E & Hr). destruct (Hm _ _ _ Hw E) as [? HQ]. split; [done|].
  intros a ->. destruct r1; [|done]. injection Hr as ->. by apply HQ.
Qed.
Lemma yields_forM {A} (f : A → M W unit) xs Q : (∀ x, x ∈ xs → yields (f x) Q) → yields (forM_ xs f) any.
Proof.
  induction xs as [|x xs IH]; intros Hf; [by apply yields_ret|]. cbn. eapply yields_bind; [apply Hf; by left|].
  intros _ _. apply IH. intros y Hy. apply Hf. by right.
Qed.
Lemma yields_foldM {A B} (f : B → A → M W B) xs (P : B → Prop) b : P b → (∀ b x, x ∈ xs → P b → yields (f b x) P) → yields (foldM f b xs) P.
Proof.
  revert b. induction xs as [|x xs IH]; intros b Hb Hf; [by apply yields_ret|]. cbn. eapply yields_bind; [apply Hf; [by left|done]|].
  intros b' Hb'. apply IH; [done|]. intros c y Hy. apply Hf. by right.
Qed.
(** A component whose rows are those of the state, and one that has none. *)
Lemma yields_zoom {V A} `{Typed V} (pr : W → V) up (m : M V A) Q :
  (∀ w, typed w → typed (pr w)) → (∀ v w, typed w → typed v → typed (up v w)) → yields m Q → yields (zoom pr up m) Q.
Proof.
  intros Hp Hu Hm w w' r Hw E. unfold zoom in E. destruct (m (pr w)) as [v r1] eqn:E1. injection E as <- <-.
  destruct (Hm _ _ _ (Hp w Hw) E1). split; [by apply Hu|done].
Qed.
Lemma yields_aside {V A} (pr : W → V) up (m : M V A) : (∀ v w, typed w → typed (up v w)) → yields (zoom pr up m) any.
Proof. intros Hu w w' r Hw E. unfold zoom in E. destruct (m (pr w)) as [v r1]. injection E as <- <-. by split; [apply Hu|]. Qed.
End Rules.
#[export] Hint Resolve yields_fail yields_ret : yields.

(** The next construct of the computation. *)
Ltac yield :=
  first [ eapply yields_bind | apply yields_ret | apply yields_fail | apply yields_lift | eapply yields_try
        | eapply yields_ignore | eapply yields_wrap | eapply yields_forM ].

(** ** The statements *)
Lemma Forall_tput {A} (P : A → Prop) id a (t : table A) : P a → Forall (fun ka => P ka.2) t → Forall (fun ka => P ka.2) (tput id a t).
Proof.
  intros Ha. induction 1 as [|[k b] t Hb Ht IH]; cbn; [by repeat constructor|].
  destruct (id <? k); [by repeat constructor|]. destruct (k =? id); by repeat constructor.
Qed.
Lemma Forall_tmap {A} (P : A → Prop) id g (t : table A) : (∀ a, P a → P (g a)) → Forall (fun ka => P ka.2) t → Forall (fun ka => P ka.2) (tmap id g t).
Proof. intros Hg Ht. unfold tmap. apply Forall_fmap. eapply Forall_impl; [exact Ht|]. intros [k a] Ha. cbn. destruct (k =? id); cbn; [by apply Hg|done]. Qed.
Lemma Forall_tget {A} (P : A → Prop) id a (t : table A) : Forall (fun ka => P ka.2) t → tget id t = Some a → P a.
Proof. intros Ht Hg. apply tget_Some_elem in Hg. rewrite -> Forall_forall in Ht. by apply (Ht (id, a)). Qed.

Lemma Forall_filtered {A} (P Q : A → Prop) `{∀ a, Decision (Q a)} l : Forall P l → Forall P (filter Q l).
Proof. rewrite -> !Forall_forall. intros Hl a [_ Ha]%list_elem_of_filter. by apply Hl. Qed.

Section Statements.
Context `{PG}.

Lemma yields_stmt {A} (m : M DB A) Q : yields m Q → yields (stmt m) Q.
Proof.
  intros Hm w w' r Hw E. unfold stmt in E. destruct (aborted w); [by injection E as <- <-|].
  destruct (match db_faults w with [] => _ | f :: fs => _ end) as [fault rest]. destruct fault; [by injection E as <- <-|].
  destruct (m _) as [w1 [a|e]] eqn:E1; apply Hm in E1 as [Hw1 HQ]; try done; injection E as <- <-; by split.
Qed.
Lemma yields_int4 {A} zs (m : M DB A) Q : (Forall (fun z => - 2 ^ 31 <= z < 2 ^ 31) zs → yields m Q) → yields (int4_args zs m) Q.
Proof.
  intros Hm. unfold int4_args. destruct (forallb int4 zs) eqn:E; [|apply yields_fail]. apply Hm, Forall_forall. intros z Hz.
  rewrite -> forallb_forall in E. specialize (E z). unfold int4 in E. rewrite <- list_elem_of_In in E. specialize (E Hz). lia.
Qed.
Lemma yields_tables : yields tables typed.
Proof. by apply yields_gets. Qed.
Lemma yields_upd g : (∀ t, typed t → typed (g t)) → yields (upd_tables g) any.
Proof. intros Hg. apply yields_modify. intros db Hdb. by apply (Hg (db_tables db)). Qed.
(** A query. *)
Lemma yields_query {A} (f : Tables → A) (Q : A → Prop) : (∀ t, typed t → Q (f t)) → yields (stmt (let! t := tables in mret (f t))) Q.
Proof. intros HQ. apply yields_stmt. eapply yields_bind; [apply yields_tables|]. intros t Ht. by apply yields_ret, HQ. Qed.

Definition opt {A} (P : A → Prop) (o : option A) : Prop := ∀ a, o = Some a → P a.

Lemma yields_GetBlob h : yields (GetBlob h) (opt (blob_type h)).
Proof. apply yields_query. intros t (Hb & _) b Hh. by apply Hb. Qed.

Lemma typed_incr h t : typed t → typed (set_blobs (alter incr h) t).
Proof.
  intros (Hb & Hp & Hf). split_and!; [|done..]. intros k b Hk. cbn in Hk. apply lookup_alter_Some in Hk as [(-> & b0 & Hk & ->)|[_ Hk]]; [|by apply Hb].
  destruct (Hb _ _ Hk). by split; cbn; try lia.
Qed.
Lemma yields_IncrementRefCount h : yields (IncrementRefCount h) any.
Proof. apply yields_stmt, yields_upd. intros t. apply typed_incr. Qed.
Lemma yields_IncrementRefCountIfExists h : yields (IncrementRefCountIfExists h) any.
Proof.
  apply yields_stmt. eapply yields_bind; [apply yields_tables|]. intros t _. eapply yields_bind; [apply yields_upd; intros t'; apply typed_incr|].
  intros _ _. by apply yields_ret.
Qed.
Lemma yields_IncrementRefCounts hs : yields (IncrementRefCounts hs) any.
Proof. eapply yields_forM. intros h _. apply yields_IncrementRefCount. Qed.

Lemma yields_InsertBlobOrIncrement blob :
  is_hash (ContentHash blob) → 0 <= cb_Size blob → RecordOverhead <= StoredSize blob → RefCount blob = 1 → yields (InsertBlobOrIncrement blob) any.
Proof.
  intros Hh Hs Hst Hr. apply yields_int4. intros Hi. repeat (apply Forall_cons in Hi as [? Hi]). apply yields_stmt.
  eapply yields_bind; [apply yields_tables|]. intros t _. destruct (_ !! _); (eapply yields_bind; [|intros _ _; by apply yields_ret]); apply yields_upd.
  - intros t'. apply typed_incr.
  - intros t' (Hb & Hp & Hf). split_and!; [|done..]. apply map_Forall_insert_2; [|done]. split; try done; lia.
Qed.

Lemma yields_CreatePackage i :
  (cp_FileCount i < 2 ^ 31 → package_type (cp_SupplierID i) (cp_PackageHash i) (cp_PayloadType i) (cp_StorageMode i) (cp_FileCount i) (cp_UnpackError i)) →
  yields (CreatePackage i) any.
Proof.
  intros Ht. apply yields_int4. intros [_ [Hc _]%Forall_cons]%Forall_cons. specialize (Ht (proj2 Hc)). apply yields_stmt. eapply yields_bind; [by apply (yields_gets _ any)|]. intros db _.
  eapply yields_bind; [by apply yields_modify|]. intros _ _. destruct (negb _); [apply yields_fail|]. cbv zeta. destruct (negb _); [apply yields_fail|].
  destruct (bool_decide _); [apply yields_fail|]. eapply yields_bind; [|intros _ _; by apply yields_ret].
  apply yields_upd. intros t (Hb & Hp & Hf). split_and!; [done| |done]. apply Forall_tput; [|done]. by split.
Qed.

Lemma yields_CreatePackageFile id i : file_type (cf_Role i) (cf_BlobHash i) (cf_OriginalFilename i) (cf_SequenceNumber i) → yields (CreatePackageFile id i) any.
Proof.
  intros Ht. apply yields_int4. intros _. apply yields_stmt. eapply yields_bind; [by apply (yields_gets _ any)|]. intros db _.
  eapply yields_bind; [by apply yields_modify|]. intros _ _. eapply yields_bind; [by apply (yields_lift _ any)|]. intros _ _.
  destruct (bool_decide _); [apply yields_fail|]. eapply yields_bind; [|intros _ _; by apply yields_ret].
  apply yields_upd. intros t (Hb & Hp & Hf). split_and!; [done..|]. apply Forall_tput; [|done]. by split.
Qed.

Lemma yields_GetPackageForUpdate id : yields (GetPackageForUpdate id) (opt pkg_type).
Proof. apply yields_query. intros t (_ & Hp & _) p. by apply Forall_tget. Qed.

Lemma yields_UpdatePackageAfterUnpack id mode count err : (count < 2 ^ 31 → mode_type mode count err) → yields (UpdatePackageAfterUnpack id mode count err) any.
Proof.
  intros Ht. apply yields_int4. intros [Hc _]%Forall_cons. specialize (Ht (proj2 Hc)). apply yields_stmt. eapply yields_bind; [apply yields_tables|]. intros t _.
  destruct (tget _ _); [|by apply yields_ret]. destruct (_ =? _)%string; [|by apply yields_ret]. destruct (negb _); [apply yields_fail|].
  eapply yields_bind; [|intros _ _; by apply yields_ret]. apply yields_upd. intros t' (Hb & Hp & Hf). split_and!; [done| |done].
  apply Forall_tmap; [|done]. intros q [[A1 A2 A3 A4] Hfs]. by split.
Qed.

Lemma files_typed t id : typed t → Forall row_type (files_of t id).
Proof.
  intros (Hb & _ & Hf). unfold files_of. apply Forall_forall. intros f Hin. apply list_elem_of_omap in Hin as (g & Hg & Hw).
  apply list_elem_of_filter in Hg as [_ Hg]. apply list_elem_of_fmap in Hg as ([k g'] & -> & Hg). rewrite -> Forall_forall in Hf.
  destruct (Hf _ Hg) as [Ht _]. unfold with_size in Hw. destruct (content_blobs t !! _) as [b|] eqn:Eb; [|done]. injection Hw as <-.
  split; [done|]. apply (bt_size _ _ (Hb _ _ Eb)).
Qed.
Lemma yields_ListPackageFiles id : yields (ListPackageFiles id) (Forall row_type).
Proof. apply yields_query. intros t. apply files_typed. Qed.
Lemma yields_GetPackage id : yields (GetPackage id) (opt pkg_type).
Proof.
  eapply yields_bind; [apply (yields_query _ (opt pkg_type)); intros t (_ & Hp & _) p; by apply Forall_tget|].
  intros [p|] Hp; [|by apply yields_ret]. eapply yields_bind; [apply yields_ListPackageFiles|]. intros fs Hfs. apply yields_ret.
  intros q [= <-]. destruct (Hp p eq_refl). by split.
Qed.
Lemma yields_file (f : Tables → list PackageFile) : (∀ t, typed t → Forall row_type (f t)) → yields (stmt (let! t := tables in mret (head (f t)))) (opt row_type).
Proof.
  intros Hf. apply (yields_query (fun t => head (f t))). intros t Ht g Hg. specialize (Hf t Ht). destruct (f t); [done|]. injection Hg as ->. by apply Forall_inv in Hf.
Qed.
Lemma yields_GetPackageFile id fid : yields (GetPackageFile id fid) (opt row_type).
Proof. apply (yields_file (fun t => filter (fun f => pf_ID f = fid) (files_of t id))). intros t Ht. apply Forall_filtered. by apply files_typed. Qed.
Lemma yields_GetOriginalFile id : yields (GetOriginalFile id) (opt row_type).
Proof. apply (yields_file (fun t => filter (fun f => Role f = "original"%string) (files_of t id))). intros t Ht. apply Forall_filtered. by apply files_typed. Qed.
Lemma yields_FindCanonicalPackageID h : yields (FindCanonicalPackageID h) any.
Proof. by apply yields_query. Qed.
Lemma yields_ListClonePackageIDs id : yields (ListClonePackageIDs id) any.
Proof. by apply yields_query. Qed.
Lemma yields_ListPendingLargePackages : yields ListPendingLargePackages any.
Proof. by apply yields_query. Qed.
Lemma yields_RecordSupplierIngest a b c d : yields (RecordSupplierIngest a b c d) any.
Proof.
  apply yields_int4. intros _. apply yields_stmt. eapply yields_bind; [by apply (yields_gets _ any)|]. intros db _. by apply yields_upd.
Qed.
End Statements.
#[export] Hint Resolve yields_GetBlob yields_IncrementRefCount yields_IncrementRefCountIfExists yields_IncrementRefCounts
  yields_CreatePackage yields_CreatePackageFile yields_GetPackageForUpdate yields_UpdatePackageAfterUnpack yields_GetPackage
  yields_GetPackageFile yields_GetOriginalFile yields_FindCanonicalPackageID yields_ListClonePackageIDs
  yields_ListPendingLargePackages yields_RecordSupplierIngest : yields.

(** ** The blob store and the service *)
Section Service.
Context {S : Type} `{DiskOps S} {K : Type} `{kvStore K} `{Bloom} `{Zstd} `{PG} `{ZipLib} `{Times}.
Context {J : Type} `{JournalOps J}.
Context (encoder : option Encoder) (withIndex : bool) (cfg : Config).
Notation Store := (BlobStore.Store S K).
Notation TxState := (Ingest.TxState S K).
Notation Service := (Ingest.Service S K J).

#[export] Instance typed_store : Typed Store := fun s => typed (b_db s).
#[export] Instance typed_txstate : Typed TxState := fun t => typed (tx_store t).
#[export] Instance typed_member : Typed (TxState * Z) := fun tn => typed tn.1 ∧ 0 <= tn.2.
#[export] Instance typed_service : Typed Service := fun s => typed (sv_store s).

Lemma yields_on_db {A} (m : M DB A) Q : yields m Q → yields (on_db (S := S) (K := K) m) Q.
Proof. by apply yields_zoom. Qed.
Lemma yields_on_disk {A} (m : M S A) : yields (on_disk (K := K) m) any.
Proof. by apply yields_aside. Qed.
Lemma yields_on_hot {A} (m : M (Hot K) A) : yields (on_hot (S := S) m) any.
Proof. by apply yields_aside. Qed.
Lemma yields_in_store {A} (m : M Store A) Q : yields m Q → yields (in_store m) Q.
Proof. by apply yields_zoom. Qed.
Lemma yields_tx {A} (m : M DB A) Q : yields m Q → yields (tx (S := S) (K := K) m) Q.
Proof. intros Hm. by apply yields_in_store, yields_on_db. Qed.
Lemma yields_on_store {A} (m : M Store A) Q : yields m Q → yields (on_store (J := J) m) Q.
Proof. by apply yields_zoom. Qed.
Lemma yields_repo {A} (m : M DB A) Q : yields m Q → yields (repo (S := S) (K := K) (J := J) m) Q.
Proof. intros Hm. by apply yields_on_store, yields_on_db. Qed.
#[local] Hint Resolve yields_on_db yields_on_disk yields_on_hot yields_in_store yields_tx yields_on_store yields_repo : yields.
#[local] Ltac call := eapply yields_bind; [solve [eauto with yields]|].

Lemma encodeRecord_size data rt : RecordOverhead <= zlen (encodeRecord encoder data rt).
Proof.
  assert (∀ m p, RecordOverhead <= zlen (EncodeRecord m p)) as Hp.
  { intros m p. rewrite -> zlen_EncodeRecord. pose proof (zlen_nonneg p). lia. }
  unfold encodeRecord. repeat (case_match; try apply Hp).
Qed.

Lemma yields_storeNew hash data rt sup : is_hash hash → yields (storeNew encoder withIndex hash data rt sup) (fun hc => hc.1 = hash).
Proof.
  intros Hh. unfold storeNew. call. intros loc _. eapply yields_bind; [by apply (yields_gets _ any)|]. intros now _.
  eapply yields_bind.
  { apply yields_wrap, yields_on_db, yields_InsertBlobOrIncrement; cbn; [done|apply zlen_nonneg|apply encodeRecord_size|done]. }
  intros ins _. destruct (negb ins); [by apply yields_ret|]. eapply yields_bind; [destruct withIndex; [by auto with yields|by apply (yields_ret _ any)]|].
  intros _ _. eapply yields_bind; [unfold indexPut; by auto with yields|]. intros _ _. by apply yields_ret.
Qed.

Lemma yields_StoreOrRef data rt sup : yields (StoreOrRef encoder withIndex data rt sup) (fun hc => is_hash hc.1).
Proof.
  assert (is_hash (ContentHashOf data)) as Hh by apply sha256.Sum256_length. unfold StoreOrRef.
  assert (yields (storeNew encoder withIndex (ContentHashOf data) data rt sup) (fun hc => is_hash hc.1)) as Hn.
  { eapply yields_weaken; [by apply yields_storeNew|]. intros [h c]. cbn. by intros ->. }
  call. intros might _. destruct (negb might); [exact Hn|]. call. intros hit _.
  eapply yields_bind; [destruct hit; [by auto with yields|by apply (yields_ret _ any)]|]. intros dn _. destruct dn; [by apply yields_ret|].
  call. intros [b|] _; [|exact Hn]. call. intros _ _. eapply yields_bind; [unfold indexPut; by auto with yields|]. intros _ _. by apply yields_ret.
Qed.

Lemma yields_withTx {A} (fn : M TxState A) Q : yields fn Q → yields (withTx (J := J) fn) (fun r => Q r.1).
Proof.
  intros Hf s s' r Hs E. unfold withTx, WithTx in E. cbn [tx_store] in E.
  assert (∀ db db' r, typed db → begin_tx db = (db', r) → typed db') as Hb.
  { intros db db' r' Hdb Eb. apply (yields_stmt _ any) in Eb; [by destruct Eb|by apply yields_modify|done]. }
  destruct (begin_tx _) as [db1 [u|e]] eqn:E1; apply Hb in E1; try done; [|by injection E as <- <-].
  destruct (fn _) as [t [a|e]] eqn:E2; apply Hf in E2 as [Ht HQ]; try done; [|by injection E as <- <-].
  unfold commit_tx in E. destruct (stmt (mret tt) _) as [db2 r2] eqn:E3.
  apply (yields_stmt _ any) in E3 as [Hd _]; [|by apply yields_ret|done].
  destruct r2 as [u2|e2]; [injection E as <- <-; split; [done|]; intros ? [= <-]; by apply HQ|].
  destruct (aborted _); [by injection E as <- <-|]. destruct (match db_faults db2 with [] => _ | _ => _ end) as [[] rest]; by injection E as <- <-.
Qed.

Lemma yields_journalPackage p : yields (journalPackage (S := S) (K := K) (J := J) p) any.
Proof.
  intros s s' r Hs E. unfold journalPackage in E. destruct (sv_journal s); [|by injection E as <- _].
  destruct p; [|by injection E as <- _]. destruct (jr_append _ _). by injection E as <- _.
Qed.
Lemma yields_loadAndJournal id : yields (loadAndJournal (S := S) (K := K) (J := J) id) (opt pkg_type).
Proof. unfold loadAndJournal. call. intros p Hp. eapply yields_bind; [apply yields_journalPackage|]. intros _ _. by apply yields_ret. Qed.
Lemma yields_recordIngest a b c d : yields (recordIngest (S := S) (K := K) (J := J) a b c d) any.
Proof. eapply yields_ignore. eauto with yields. Qed.
Lemma yields_store data rt sup : yields (store encoder withIndex data rt sup) is_hash.
Proof.
  unfold store. eapply yields_bind; [apply yields_in_store, yields_StoreOrRef|]. intros hc Hh.
  eapply yields_bind; [by apply yields_modify|]. intros _ _. by apply yields_ret.
Qed.
#[local] Hint Resolve yields_store yields_loadAndJournal yields_recordIngest : yields.

Lemma file_original h name : is_hash h → file_type RoleOriginal h name None.
Proof. intros Hh. split; try done; [unfold roles; set_solver]. Qed.
Lemma yields_persistUnpackError id sup e : yields (persistUnpackError encoder withIndex id sup e) any.
Proof.
  unfold persistUnpackError. call. intros h Hh. eapply yields_bind; [|intros _ _; by apply (yields_ret _ any)].
  apply yields_tx, yields_CreatePackageFile. split; cbn; try done. unfold roles. set_solver.
Qed.

Lemma yields_fst {A} (m : M TxState A) Q : yields m Q → yields (zoom fst (fun t (p : TxState * Z) => (t, p.2)) m) Q.
Proof. apply yields_zoom; [by intros [t n] []|by intros t [t0 n] [_ ?] ?]. Qed.

(** The place of a member is a number that the driver has taken for an INT column. *)
Lemma yields_CreateMember id h name seq : is_hash h → 0 <= seq → yields (CreatePackageFile id (MkCreateFile h RoleMember name (Some seq))) any.
Proof.
  intros Hh Hs w w' r Hw E. destruct (decide (seq < 2 ^ 31)) as [Hlt|Hge].
  - eapply yields_CreatePackageFile; [|exact Hw|exact E]. split; cbn; try done. unfold roles. set_solver.
  - unfold CreatePackageFile, int4_args, int4 in E. cbn in E. replace (seq <? 2 ^ 31) with false in E by lia.
    by destruct (_ <=? seq); injection E as <- <-.
Qed.
Lemma yields_persistMember id sup name data : yields (persistMember encoder withIndex id sup name data) any.
Proof.
  unfold persistMember. eapply yields_bind; [apply yields_fst, yields_store|]. intros h Hh.
  eapply yields_bind; [apply (yields_gets snd (fun n => 0 <= n)); by intros [t n] []|]. intros seq Hs.
  eapply yields_bind; [apply yields_modify; intros [t n] [Ht Hn]; split; [done|cbn in *; lia]|]. intros _ _.
  eapply yields_bind; [|intros _ _; by apply (yields_ret _ any)]. apply yields_fst, yields_tx. by apply yields_CreateMember.
Qed.

(** What the members' transaction hands on: a count, and two with an error. *)
Definition members_type (fc : Z * option string) : Prop := fc.1 < 2 ^ 31 → mode_type StorageZipWithMembers fc.1 fc.2.
Lemma yields_persistZipMembers id sup zip max : yields (persistZipMembers encoder withIndex id sup zip max) members_type.
Proof.
  intros t t' r Ht E. unfold persistZipMembers in E.
  destruct (ForEachZipMember _ _ _ _) as [[t1 n] res] eqn:E1.
  assert (typed (t1, n)) as [Ht1 Hn].
  { apply (ForEachZipMember_rule typed typed) in E1; [by destruct (is_ok res)| |done|by split].
    intros name data w w' r' Hw E'. apply yields_persistMember in E' as [? _]; [|done]. by destruct (is_ok r'). }
  destruct res as [u|e].
  - injection E as <- <-. split; [done|]. intros ? [= <-] Hlt. right. cbn in *. split; [done|]. split; [unfold is_count; lia|]. by intros [? ?].
  - revert E. eapply yields_bind; [apply yields_persistUnpackError| |exact Ht1].
    intros _ _. apply yields_ret. intros _. right. cbn. split; [done|]. split; [unfold is_count; lia|done].
Qed.

Lemma mode_single mode : mode = StorageSingle ∨ mode = StorageRawLarge → mode_type mode 1 None.
Proof. by left. Qed.
Lemma hash_type body : is_hash (Sum256 body).
Proof. apply sha256.Sum256_length. Qed.
Lemma payload_type pt : payload_string pt ∈ ["xml"; "zip"].
Proof. destruct pt; set_solver. Qed.

(** A copy of a row is as well typed as the row. *)
Lemma yields_copy id f : row_type f →
  yields (tx (S := S) (K := K) (CreatePackageFile id (MkCreateFile (BlobHash f) (Role f) (pf_OriginalFilename f) (SequenceNumber f)))) any.
Proof. intros [Hf _]. by apply yields_tx, yields_CreatePackageFile. Qed.

Section Upload.
Context (sup : Z) (Hsup : 1 <= sup <= supplier.MaxID).

Lemma yields_clonePackage h pt fn c : is_hash h → yields (clonePackage (S := S) (K := K) (J := J) sup h pt fn c) (opt pkg_type).
Proof.
  intros Hh. unfold clonePackage. call. intros [p|] Hp; [|apply yields_fail]. destruct (Hp p eq_refl) as [[_ _ _ Hm] Hf].
  eapply yields_bind; [|intros r _; by eauto with yields]. apply (yields_withTx _ any).
  eapply yields_bind; [apply yields_tx, yields_CreatePackage; split; cbn; try done; apply payload_type|]. intros id _.
  eapply yields_bind.
  { apply (yields_forM _ _ any). intros f Hin. rewrite -> Forall_forall in Hf.
    eapply yields_bind; [by apply yields_copy, Hf|]. intros _ _. by apply yields_ret. }
  intros _ _. call. intros _ _. by apply yields_ret.
Qed.

Lemma yields_ingest_single h body rt pt mode fn : is_hash h → mode = StorageSingle ∨ mode = StorageRawLarge →
  yields (ingest_single encoder withIndex sup h body rt pt mode fn) any.
Proof.
  intros Hh Hm. unfold ingest_single. call. intros k Hk.
  eapply yields_bind; [apply yields_tx, yields_CreatePackage; split; cbn; try done; [apply payload_type|by apply mode_single]|]. intros id _.
  eapply yields_bind; [by apply yields_tx, yields_CreatePackageFile, file_original|]. intros _ _. by apply yields_ret.
Qed.

Lemma yields_ingestXML h body fn : is_hash h → yields (ingestXML (J := J) encoder withIndex sup h body fn) (opt pkg_type).
Proof.
  intros Hh. unfold ingestXML. eapply yields_bind; [by apply yields_withTx, yields_ingest_single; [|left]|]. intros r _.
  call. intros _ _. by eauto with yields.
Qed.

Lemma yields_ingestLargeZIP h body fn : is_hash h → yields (ingestLargeZIP (J := J) encoder withIndex cfg sup h body fn) (opt pkg_type).
Proof.
  intros Hh. unfold ingestLargeZIP. eapply yields_bind; [by apply yields_withTx, yields_ingest_single; [|right]|]. intros r _.
  call. intros _ _. eapply yields_bind; [by apply yields_modify|]. intros _ _. by eauto with yields.
Qed.

Lemma yields_ingestSmallZIP h body fn : is_hash h → yields (ingestSmallZIP (J := J) encoder withIndex cfg sup h body fn) (opt pkg_type).
Proof.
  intros Hh. unfold ingestSmallZIP. cbv zeta.
  set (unpackErr := match CountZipEntries body with Ok _ => _ | Err e => Some e end).
  set (n := match CountZipEntries body with Ok n => n | Err _ => 0 end).
  assert (0 <= n) as Hn. { unfold n, CountZipEntries. destruct (zipReader body); [apply zlen_nonneg|done]. }
  eapply yields_bind; [|intros r _; call; intros _ _; by eauto with yields]. apply (yields_withTx _ any).
  call. intros k Hk. eapply yields_bind.
  { apply yields_tx, yields_CreatePackage. cbn. intros Hc. split; cbn; try done; [set_solver|].
    right. split; [done|]. destruct unpackErr; cbn in *; (split; [unfold is_count; lia|]); [done|by intros []]. }
  intros id _. eapply yields_bind; [by apply yields_tx, yields_CreatePackageFile, file_original|]. intros _ _.
  eapply yields_bind; [|intros _ _; by apply yields_ret].
  destruct unpackErr; [apply yields_persistUnpackError|]. eapply yields_bind; [apply yields_persistZipMembers|]. intros _ _. by apply yields_ret.
Qed.

Lemma yields_ProcessPackage body fn : yields (ProcessPackage (J := J) encoder withIndex cfg sup body fn) (opt pkg_type).
Proof.
  pose proof (hash_type body) as Hh. unfold ProcessPackage. destruct (_ =? _); [apply yields_fail|]. destruct (_ <? _); [apply yields_fail|].
  cbv zeta. eapply yields_bind; [by apply (yields_lift _ any)|]. intros pt _. call. intros [c|] _.
  - eapply yields_bind; [by apply yields_clonePackage|]. intros [p|] Hp; [|apply yields_fail]. call. intros _ _. by apply yields_ret.
  - destruct pt; [|by apply yields_ingestXML]. unfold ingestZIP. destruct (_ || _); [by apply yields_ingestLargeZIP|by apply yields_ingestSmallZIP].
Qed.
End Upload.

(** *** Background work *)
Lemma yields_propagateToClone canonical extra id : mode_type StorageZipWithMembers (FileCount canonical) (UnpackError canonical) → Forall row_type extra →
  yields (propagateToClone (S := S) (K := K) (J := J) canonical extra id) any.
Proof.
  intros Hm Hf. unfold propagateToClone. call. intros [p|] _; [|by apply yields_ret]. destruct (negb _); [by apply yields_ret|].
  eapply yields_bind; [|intros _ _; by apply (yields_ret _ any)]. apply (yields_withTx _ any).
  eapply yields_bind.
  { apply (yields_foldM _ _ any); [done|]. intros [ex hs] f Hin _. unfold add_missing. destruct (bool_decide _); [by apply yields_ret|].
    rewrite -> Forall_forall in Hf. eapply yields_bind; [by apply yields_copy, Hf|]. intros _ _. by apply yields_ret. }
  intros acc _. call. intros _ _. eapply yields_bind; [by apply yields_tx, yields_UpdatePackageAfterUnpack|]. intros _ _. by apply yields_ret.
Qed.

Lemma mode_unpacked mode count err : mode_type mode count err → mode = StorageZipWithMembers → mode_type StorageZipWithMembers count err.
Proof. by intros Hm <-. Qed.
Lemma yields_propagate_and_journal id : yields (propagate_and_journal (S := S) (K := K) (J := J) id) any.
Proof.
  unfold propagate_and_journal. eapply yields_bind; [|intros _ _; call; intros _ _; by apply (yields_ret _ any)].
  unfold propagateUnpackToClones. call. intros [p|] Hp; [|by apply (yields_ret _ any)]. destruct (Hp p eq_refl) as [[_ _ _ Hm] Hf].
  destruct (String.eqb_spec (StorageMode p) StorageZipWithMembers) as [Em|]; [|by apply yields_ret]. cbn [negb].
  call. intros ids _. apply (yields_forM _ _ any). intros c _. apply yields_propagateToClone; [by eapply mode_unpacked|]. by apply Forall_filtered.
Qed.

Lemma yields_unpack_tx id zip : yields (unpack_tx encoder withIndex cfg id zip) any.
Proof.
  unfold unpack_tx. call. intros [p|] _; [|apply yields_fail]. destruct (negb _); [apply yields_fail|].
  eapply yields_bind; [apply yields_persistZipMembers|]. intros fc Hfc.
  eapply yields_bind; [by apply yields_tx, yields_UpdatePackageAfterUnpack|]. intros u _. destruct (negb u); [apply yields_fail|by apply yields_ret].
Qed.

Lemma yields_ReadBlob b : yields (ReadBlob (S := S) (K := K) encoder b) any.
Proof.
  unfold ReadBlob. call. intros [m p] _. destruct (IsCompressedXML m); [|by apply yields_ret].
  destruct encoder; [by apply (yields_lift _ any)|apply yields_fail].
Qed.

Lemma yields_UnpackLargePackage id : yields (UnpackLargePackage (J := J) encoder withIndex cfg id) any.
Proof.
  pose proof (yields_propagate_and_journal id) as Hpj. unfold UnpackLargePackage. call. intros [p|] _; [|apply yields_fail].
  destruct (_ =? _)%string; [done|]. destruct (negb _); [by apply yields_ret|]. call. intros [o|] _; [|apply yields_fail].
  call. intros [b|] _; [|apply yields_fail]. eapply yields_bind; [apply yields_on_store, yields_ReadBlob|]. intros z _.
  eapply yields_bind; [apply yields_try, yields_withTx, yields_unpack_tx|]. intros [r|e] _; [done|].
  destruct (error_is _ _); [done|apply yields_fail].
Qed.

Lemma typed_exec o (s : Service) : is_upload o = false → typed s → typed (IngestSafe.exec encoder withIndex cfg o s).
Proof.
  intros Ho Hs. destruct o as [|id|]; [done| |].
  - cbn. unfold run_job. destruct (UnpackLargePackage _ _ _ _ _) as [s' r] eqn:E. cbn. by apply yields_UnpackLargePackage in E as [? _].
  - cbn. destruct (recoverPending s) as [s' r] eqn:E. cbn.
    assert (yields (recoverPending (S := S) (K := K) (J := J)) any) as Hy; [|by apply Hy in E as [? _]].
    unfold recoverPending. eapply yields_bind; [apply yields_try, yields_repo, yields_ListPendingLargePackages|].
    intros [ids|e] _; [by apply yields_modify|by apply yields_ret].
Qed.
End Service.

#[export] Hint Resolve yields_on_db yields_on_disk yields_on_hot yields_on_store yields_repo : yields.

(** ** The server *)
Record file_answer_type (f : fileResponse) : Prop := {
  fa_role : fr_Role f ∈ roles;
  fa_size : 0 <= fr_Size f < 2 ^ 31;
  fa_seq : is_Some (fr_Sequence f) ↔ fr_Role f = RoleMember;
}.
Record answer_type (pk : packageResponse) : Prop := {
  at_supplier : 1 <= pk_SupplierID pk <= supplier.MaxID;
  at_payload : pk_PayloadType pk ∈ ["xml"; "zip"];
  at_mode : pk_StorageMode pk ∈ [StorageSingle; StorageZipWithMembers; StorageRawLarge];
  at_count : is_count (pk_FileCount pk);
  at_status : pk_UnpackStatus pk ∈ [""; UnpackOK; UnpackFailed; UnpackSkipped; UnpackPending];
  at_failed : pk_UnpackStatus pk = UnpackFailed → pk_StorageMode pk = StorageZipWithMembers ∧ pk_FileCount pk = 2;
  at_files : Forall file_answer_type (pk_Files pk);
}.

Lemma build_typed async p : pkg_type p → answer_type (buildPackageResponse async p).
Proof.
  intros [[A1 A2 A3 A4] Hf]. assert (is_count (FileCount p)) as Hc.
  { destruct A4 as [(_ & -> & _)|(_ & Hc & _)]; [unfold is_count; lia|exact Hc]. }
  split; cbn; try done.
  - destruct A4 as [([->| ->] & _)|(-> & _)]; set_solver.
  - unfold unpack_status. repeat case_match; cbn; set_solver.
  - unfold unpack_status. destruct (negb _); [done|]. destruct (_ =? _)%string; [by destruct async|].
    destruct (String.eqb_spec (StorageMode p) StorageZipWithMembers) as [Em|]; [|done]. destruct (UnpackError p) eqn:Ee; [|done]. intros _.
    split; [done|]. destruct A4 as [(_ & _ & ?)|(_ & _ & ->)]; done.
  - apply Forall_fmap. eapply Forall_impl; [exact Hf|]. intros f [[B1 B2 B3 B4] Hs]. split; cbn; try done.
    destruct (SequenceNumber f); [destruct B3 as [-> _]; by split|]. split; [by intros []|done].
Qed.

Section Server.
Context {S : Type} `{DiskOps S} `{DirOps S} {K : Type} `{kvStore K} `{Bloom} `{Zstd} `{PG} `{ZipLib} `{Times}.
Context {J : Type} `{JournalOps J} `{EnvLib} `{Mime}.
Context (encoder : option Encoder) (withIndex : bool) (cfg : config.Config) (unrouted : HRequest → answer).
Notation Server := (Api.Server S K J).
Notation serve := (Api.serve (S := S) (K := K) (J := J) encoder withIndex cfg unrouted).

#[export] Instance typed_server : Typed Server := fun s => typed (sv_svc s).
Definition well_answered (a : answer) : Prop := ∀ pk, hs_body a = EPackage pk → answer_type pk.

Lemma yields_on_svc {A} (m : M (Service S K J) A) Q : yields m Q → yields (on_svc m) Q.
Proof. by apply yields_zoom. Qed.
#[local] Hint Resolve yields_on_svc : yields.
#[local] Ltac call := eapply yields_bind; [eapply yields_try; solve [eauto with yields]|].

Lemma yields_answer (a : answer) : (∀ pk, hs_body a ≠ EPackage pk) → yields (mret a : M Server answer) well_answered.
Proof. intros Ha. apply yields_ret. intros pk Hb. by destruct (Ha pk). Qed.
#[local] Ltac answer := by apply yields_answer; intros; repeat case_match.

Lemma yields_postPackage r : yields (Api.postPackage (S := S) (K := K) (J := J) encoder withIndex cfg r) well_answered.
Proof.
  unfold Api.postPackage. destruct (supplier.ParseQuery _) as [sup|e] eqn:Es; [|answer]. apply supplier.ParseQuery_range in Es.
  destruct (readBody r _); [|answer]. eapply yields_bind; [by eapply yields_try, yields_on_svc, yields_ProcessPackage|].
  intros [[p|]|e] Hp; [|apply yields_fail|answer]. apply yields_ret. intros pk [= <-]. apply build_typed. by eapply Hp.
Qed.

Lemma yields_serveFile i j : yields (Api.serveFile (S := S) (K := K) (J := J) encoder i j) well_answered.
Proof.
  unfold Api.serveFile. call. intros [[f|]|e] _; [|answer..]. call. intros [[b|]|e] _; [|answer..].
  eapply yields_bind; [by eapply yields_try, yields_on_svc, yields_on_store, yields_ReadBlob|]. intros d _. answer.
Qed.

Lemma yields_handle rt r : yields (Api.handle (S := S) (K := K) (J := J) encoder withIndex cfg rt r) well_answered.
Proof.
  assert (∀ g (next : ShardGuard → M Server answer), (∀ g, yields (next g) well_answered) →
    yields match g with Some g => Api.requireClusterKey (S := S) (K := K) (J := J) cfg (next g) r | None => fail nil_dereference end well_answered) as Hint.
  { intros [g|] next Hn; [|apply yields_fail]. unfold Api.requireClusterKey. destruct (_ =? _)%string; [answer|]. destruct (negb _); [answer|done]. }
  assert (∀ A (m : M FS A), yields (on_dir (S := S) (K := K) (J := J) m) any) as Hdir.
  { intros A m. apply yields_on_svc, yields_on_store. eauto with yields. }
  unfold Api.handle. eapply yields_bind; [by apply (yields_gets _ any)|]. intros g _. destruct rt; [apply yields_postPackage| | | |apply Hint..].
  - unfold Api.getPackage. destruct (parsePackageID r) as [id|e]; [|answer]. call. intros [[p|]|e] Hp; [|answer..].
    apply yields_ret. intros pk [= <-]. apply build_typed. by eapply Hp.
  - unfold Api.getFile. destruct (parsePackageID r); [|answer]. destruct (ParseInt64 _); [apply yields_serveFile|answer].
  - unfold Api.getOriginal. destruct (parsePackageID r); [|answer]. call. intros [[f|]|e] _; [apply yields_serveFile|answer..].
  - intros g'. unfold Api.stats. call. intros t _. answer.
  - intros g'. unfold Api.seal. destruct (negb _); [answer|]. eapply yields_bind; [by apply yields_modify|]. intros _ _. answer.
  - intros g'. unfold Api.list_segments. eapply yields_bind; [eapply yields_try, Hdir|]. intros l _. answer.
  - intros g'. unfold Api.get_segment. destruct (_ || _); [answer|]. eapply yields_bind; [eapply yields_try, Hdir|]. intros l _. answer.
Qed.

Lemma yields_serve r : yields (serve r) any.
Proof.
  unfold Api.serve. eapply yields_bind; [by apply (yields_gets _ any)|]. intros g _. destruct (blocked _ _); [by apply yields_ret|].
  destruct (find _ _); [eapply yields_any, yields_handle|by apply yields_ret].
Qed.

(** C31: The rows of a shard and its answers are well typed.  Whatever requests,
    background jobs, recovery scans and disk measurements there are, and whatever
    fails: every hash has 32 bytes and every blob at least one reference; every
    package has a supplier in 1..1000000, a known payload type and storage mode, and
    more than one file or an unpack error only when it is an unpacked archive; every
    file has a known role, and a sequence number exactly when it is a member.  The
    JSON of a package that a route answers is of the corresponding type. *)
Theorem rows_typed (s s' : Server) : typed s → rtc (ApiInv.sstep encoder withIndex cfg unrouted) s s' →
  typed s' ∧ ∀ rt r a pk, find (matches r) (routes (sv_guard s')) = Some rt → (serve r s').2 = Ok a → hs_body a = EPackage pk → answer_type pk.
Proof.
  intros Hs St. assert (typed s') as Hs'.
  { induction St as [|s s1 s' St _ IH]; [done|]. apply IH. destruct St as [r s|r s|o s Ho|m s]; [| |by apply typed_exec|done].
    2:{ destruct (Api.postPackage _ _ _ r s) as [s1 res] eqn:E. by apply yields_postPackage in E as [? _]. }
    destruct (serve r s) as [s1 res] eqn:E. by apply yields_serve in E as [? _]. }
  split; [done|]. intros rt r a pk Hf E Hb. unfold Api.serve, gets in E. erewrite bind_ok in E by reflexivity. cbv beta iota in E.
  destruct (blocked _ _); [munfold; injection E as <-; by destruct (strings.EqualFold _ _)|]. rewrite -> Hf in E.
  destruct (Api.handle _ _ _ _ _ _) as [s1 res] eqn:Eh. apply yields_handle in Eh as [_ HQ]; [|done]. by eapply HQ.
Qed.
End Server.
