(* ===== verification/Buffered.v ===== *)
(** * Appending through the write buffer: SegmentManager.Append

    The server attaches a write buffer to its segment manager (it does so by
    default); [Append] then enqueues the record and waits.  [Buffered] is the
    manager with the buffer attached or not, and with what the other goroutines of
    the process will do: at each append or index write, a list of their steps, in
    which the ticker fires, the server closes the manager or the caller's context
    ends.  The caller's own [Flush] is one step, and so is each step of the others.
    A caller who has not been told its outcome when the list runs out waits for
    ever; that the list is long enough is the hypothesis [answering] of the theorem
    that an append is answered.  The instance of [DiskOps] makes every theorem about
    the ingestion service one about the service behind the buffer. *)
From S2P Require Import Prelude GoLib Hash Record FS Segment SegmentScan SegmentStore SegmentDurable WriteBuffer SegmentIndex Disk Ledger Api ApiInv.

(** A step of another goroutine: a caller enqueues, a flusher takes what is pending,
    a flusher runs its batch, the ticker of [flushLoop] fires, [SegmentManager.Close]
    closes the buffer and then the segments; or the waiting caller's context ends. *)
Inductive event : Type :=
  | EAppend (record : bytes)
  | ETake
  | ERun (k : nat)
  | ETick
  | EStop
  | EClose
  | ECancel.

Definition with_sm {S} (sm : S) (wb : WriteBuffer S) : WriteBuffer S :=
  MkWB (wb_maxSize wb) (wb_pending wb) (wb_bufSize wb) (wb_flight wb) (wb_done wb) (wb_log wb) (wb_stopped wb) sm.

Record Buffered : Type := MkBuffered {
  bf_wb : WriteBuffer Logged;
  bf_on : bool;                       (** [sm.buffer != nil] *)
  bf_others : list (list event);      (** what the other goroutines will do *)
}.
Definition bf_log (b : Buffered) : Logged := wb_sm (bf_wb b).
Definition on_sm {A} (m : M Logged A) : M Buffered A :=
  zoom bf_log (fun l b => MkBuffered (with_sm l (bf_wb b)) (bf_on b) (bf_others b)) m.

Definition play (on : bool) (wb : WriteBuffer Logged) (e : event) : WriteBuffer Logged :=
  match e with
  | EAppend r => if on then (enqueue r wb).1 else with_sm (dk_append r (wb_sm wb)).1 wb
  | ETake => take_pending wb
  | ERun k => run_batch k wb
  | ETick => if on then flushLoop_tick wb else wb
  | EStop => if on then wb_Close wb else wb
  | EClose => with_sm (on_disk (on_segments Segment.Close) (wb_sm wb)).1 wb
  | ECancel => wb
  end.

Definition turn : M Buffered (list event) := fun b =>
  (MkBuffered (bf_wb b) (bf_on b) (tail (bf_others b)), Ok (default [] (head (bf_others b)))).
Definition others (evs : list event) : M Buffered unit :=
  modify (fun b => MkBuffered (fold_left (play (bf_on b)) evs (bf_wb b)) (bf_on b) (bf_others b)).

(** The [select] of [Append]: when both cases are ready Go takes either, here the
    one the environment asks for.  [blocked] is no error of the code: it stands for
    a caller that never returns. *)
Definition blocked : error := errorf "waits for ever".
Definition canceled : error := Error "context canceled" [ErrCanceled].
Definition answer_of (pw : pendingWrite) : result Location :=
  match pw_err pw with Some e => Err e | None => Ok (pw_loc pw) end.
Fixpoint await (evs : list event) (id : nat) (wb : WriteBuffer Logged) : WriteBuffer Logged * result Location :=
  match evs with
  | ECancel :: _ => (wb, Err canceled)
  | e :: evs' =>
      match wb_done wb !! id with
      | Some pw => (wb, answer_of pw)
      | None => await evs' id (play true wb e)
      end
  | [] => (wb, match wb_done wb !! id with Some pw => answer_of pw | None => Err blocked end)
  end.

(** [WriteBuffer.Append]: enqueue, flush when the buffer is full, and wait. *)
Definition buffer_Append (record : bytes) (evs : list event) : M Buffered Location := fun b =>
  let '(wb, id) := WriteBuffer.Append record (bf_wb b) in
  let '(wb', r) := await evs id wb in
  (MkBuffered wb' (bf_on b) (bf_others b), r).

(** [SegmentManager.Append]. *)
Definition sm_Append (record : bytes) : M Buffered Location :=
  let! evs := turn in
  let! on := gets bf_on in
  if on : bool then buffer_Append record evs
  else do! others evs; on_sm (dk_append record).

(** [SegmentManager.SetWriteBuffer] with a new buffer, and [Close], which closes the
    buffer first. *)
Definition SetWriteBuffer (maxSize : Z) (b : Buffered) : Buffered :=
  MkBuffered (NewWriteBuffer (bf_log b) maxSize) true (bf_others b).
Definition sm_Close : M Buffered unit :=
  do! modify (fun b => if bf_on b then MkBuffered (wb_Close (bf_wb b)) true (bf_others b) else b);
  on_sm (on_disk (on_segments Segment.Close)).

#[export] Instance buffered_ops : DiskOps Buffered := {
  dk_append := sm_Append;
  dk_read id off := on_sm (dk_read id off);
  dk_index id e := let! evs := turn in do! others evs; on_sm (dk_index id e);
  dk_inv b := wb_ok (bf_wb b);
  dk_readable b := dk_readable (bf_log b);
  dk_stored b := dk_stored (bf_log b);
}.

(** ** The laws *)
Lemma with_sm_ok (wb : WriteBuffer Logged) l : wb_ok wb → dk_le (wb_sm wb) l → wb_ok (with_sm l wb).
Proof.
  intros [H1 H2 H3 H4 H5 H6] [I K]. split; try done. intros id pw Hd. destruct (H5 id pw Hd) as [? Hs].
  split; [done|]. intros He. cbn. apply K. by apply Hs.
Qed.

Lemma on_sm_le {A} (m : M Logged A) b b' r :
  (∀ l l' r, dk_inv l → m l = (l', r) → dk_le l l') → dk_inv b → on_sm m b = (b', r) → dk_le b b'.
Proof.
  intros Hm W H. unfold on_sm, zoom in H. destruct (m (bf_log b)) as [l r1] eqn:E. injection H as <- <-.
  assert (dk_le (bf_log b) l) as L by (eapply Hm; [apply (ok_sm _ W)|exact E]). split; [by apply with_sm_ok|]. apply L.
Qed.

Lemma finalize_clean s s' r : SegInv s → clean s → finalizeLocked s = (s', r) → clean s'.
Proof.
  intros I Hc H. destruct (finalizeLocked_inv _ _ _ I H) as (I' & X & Hsg). destruct (inv_some _ I) as [f Ef].
  destruct (f_open f) eqn:Eo.
  - destruct (ext_active _ _ _ I X Ef Eo) as (i & i' & Hi & Hi' & Ht). intros j Hj. rewrite -> Hsg in Hj |- *.
    assert (j = i') as -> by congruence. rewrite -> Ht. by apply Hc.
  - apply (clean_same s); [rewrite -> Hsg; unfold with_reads; by destruct (sg s)| |done].
    unfold finalizeLocked, gets in H. erewrite bind_ok in H by reflexivity. cbn in H. rw Ef in H.
    destruct (activeOffset (sg s) =? 0); [munfold; by injection H as <- _|].
    apply bind_inv in H as [(s1 & n & H1 & H)|(e & H1 & ->)]; apply on_fs_inv in H1 as (fs1 & H1 & ->);
      apply WriteAt_closed in H1 as [Hcore Hr]; try done. by apply seg_node_core.
Qed.

(** Closing keeps everything stored: the footer goes behind the active offset. *)
Lemma close_segments_le l l' r : dk_inv l → on_disk (on_segments Segment.Close) l = (l', r) → dk_le l l'.
Proof.
  intros [I Hc] H. unfold on_disk, zoom, on_segments, zoom in H. destruct (Segment.Close _) as [s1 r1] eqn:E. injection H as <- <-.
  assert (SegInv s1 ∧ ext (lg_seg l) s1 ∧ (clean (lg_seg l) → clean s1)) as (I1 & X1 & C1).
  { unfold Segment.Close in E. apply bind_inv in E as [(s2 & u & E2 & E)|(e & E2 & ->)];
      pose proof (fun C => finalize_clean _ _ _ I C E2) as Cf; apply finalizeLocked_inv in E2 as (I2 & X2 & _); try exact I; [|done].
    unfold set_sm, modify in E. injection E as <- _.
    match goal with |- SegInv (MkSeg ?sm _) ∧ _ => destruct (fields_step s2 sm) as [I3 X3]; try done end.
    - destruct (inv_some _ I2) as [f ->]. cbn. by eauto.
    - intros f Hf Ho. apply fmap_Some in Hf as (f0 & _ & ->). done.
    - intros id f Hf. apply lookup_fmap_Some in Hf as (f0 & <- & Hf). cbn [os.Close f_ino]. exact (inv_reads _ I2 id f0 Hf).
    - split; [exact I3|]. split; [by etrans|]. intros C. exact (Cf C). }
  split.
  - split; [by destruct s1|]. intros O. destruct s1. apply C1, Hc. exact O.
  - intros id off b Hb. eapply lg_stored_ext; [exact Hb| |done]. by destruct s1.
Qed.

(** The steps of the others: any of them, in any order. *)
Lemma play_ok on (wb : WriteBuffer Logged) e : wb_ok wb → wb_ok (play on wb e) ∧
  wb_log wb `prefix_of` wb_log (play on wb e) ∧ ∀ id off d, dk_stored (wb_sm wb) id off d → dk_stored (wb_sm (play on wb e)) id off d.
Proof.
  intros W.
  assert (∀ wb', rtc wb_step wb wb' → wb_ok wb' ∧ wb_log wb `prefix_of` wb_log wb' ∧
    ∀ id off d, dk_stored (wb_sm wb) id off d → dk_stored (wb_sm wb') id off d) as Hst.
  { intros wb' St. destruct (wb_steps_keeps _ _ St W) as (W' & L & K). split; [done|]. split; [done|].
    intros id off d. apply (K (MkLocation id off 0)). }
  assert (∀ l, dk_le (wb_sm wb) l → wb_ok (with_sm l wb) ∧ wb_log wb `prefix_of` wb_log (with_sm l wb) ∧
    ∀ id off d, dk_stored (wb_sm wb) id off d → dk_stored (wb_sm (with_sm l wb)) id off d) as Hle.
  { intros l L. split; [by apply with_sm_ok|]. split; [done|]. apply L. }
  destruct e as [r| |k| | | |]; cbn [play]; [|apply Hst, rtc_once, wb_take|apply Hst, rtc_once, wb_run|..|done].
  - destruct on; [apply Hst, rtc_once, wb_enqueue|]. destruct (dk_append r (wb_sm wb)) as [l res] eqn:E.
    apply Hle, (dk_append_law _ _ _ _ (ok_sm _ W) E).
  - destruct on; [apply Hst, tick_steps|done].
  - destruct on; [apply Hst, close_steps|done].
  - destruct (on_disk _ (wb_sm wb)) as [l r] eqn:E. eapply Hle, close_segments_le; [apply (ok_sm _ W)|exact E].
Qed.

Lemma plays_ok on evs : ∀ wb : WriteBuffer Logged, wb_ok wb → wb_ok (fold_left (play on) evs wb) ∧
  ∀ id off d, dk_stored (wb_sm wb) id off d → dk_stored (wb_sm (fold_left (play on) evs wb)) id off d.
Proof.
  induction evs as [|e evs IH]; intros wb W; [done|]. cbn. destruct (play_ok on wb e W) as (W1 & _ & K1).
  destruct (IH _ W1) as [W2 K2]. split; [done|]. intros id off d Hs. by apply K2, K1.
Qed.

Lemma others_le evs b : dk_inv b → dk_le b (others evs b).1 ∧ (others evs b).2 = Ok tt.
Proof. intros W. split; [|done]. by apply plays_ok. Qed.

(** One event of the wait: the context ends, the outcome is there, or the wait goes on. *)
Lemma await_cons e evs id wb wb' r : await (e :: evs) id wb = (wb', r) →
  (e = ECancel ∧ wb' = wb ∧ r = Err canceled) ∨ (∃ pw, wb_done wb !! id = Some pw ∧ wb' = wb ∧ r = answer_of pw) ∨
  (wb_done wb !! id = None ∧ await evs id (play true wb e) = (wb', r)).
Proof.
  cbn [await]. intros H. destruct e; [..|left; by injection H as <- <-]; right;
    (destruct (wb_done wb !! id) as [pw|]; [left; exists pw; by injection H as <- <-|by right]).
Qed.

Lemma await_ok evs id : ∀ (wb wb' : WriteBuffer Logged) r, wb_ok wb → await evs id wb = (wb', r) →
  wb_ok wb' ∧ wb_log wb `prefix_of` wb_log wb' ∧
  (∀ i off d, dk_stored (wb_sm wb) i off d → dk_stored (wb_sm wb') i off d) ∧
  ((∃ e, r = Err e) ∨ ∃ pw, wb_done wb' !! id = Some pw ∧ r = answer_of pw).
Proof.
  induction evs as [|e evs IH]; intros wb wb' r W H; cbn [await] in H.
  - injection H as <- <-. split_and!; try done. destruct (wb_done wb !! id) as [pw|]; [right; by exists pw|left; by eexists].
  - destruct (play_ok true wb e W) as (W1 & L1 & K1). destruct (await_cons e evs id wb wb' r H) as [(-> & -> & ->)|[(pw & Hpw & -> & ->)|[_ H']]].
    { split_and!; try done. left. by eexists. }
    { split_and!; try done. right. by exists pw. }
    destruct (IH _ _ _ W1 H') as (W' & L & K & Hr). split; [done|]. split; [by etrans|]. split; [|done]. intros i off d Hs. by apply K, K1.
Qed.

Lemma append_started record (wb : WriteBuffer Logged) : wb_ok wb →
  wb_ok (WriteBuffer.Append record wb).1 ∧ wb_log (WriteBuffer.Append record wb).1 !! (WriteBuffer.Append record wb).2 = Some record ∧
  (∀ i off d, dk_stored (wb_sm wb) i off d → dk_stored (wb_sm (WriteBuffer.Append record wb).1) i off d).
Proof.
  intros W. unfold WriteBuffer.Append. destruct (enqueue record wb) as [wb1 f] eqn:E.
  assert (wb1 = (enqueue record wb).1) as H1 by (by rewrite -> E).
  assert (rtc wb_step wb1 (if f then Flush wb1 else wb1)) as St by (destruct f; [apply flush_steps|done]).
  pose proof (enqueue_ok record wb W) as W1. rewrite <- H1 in W1.
  destruct (wb_steps_keeps _ _ St W1) as (W2 & L & K). cbn [fst snd]. split; [done|]. split.
  - eapply prefix_lookup_Some; [|exact L]. rewrite -> H1. cbn. by rw lookup_app_r ?Nat.sub_diag.
  - intros i off d Hs. apply (K (MkLocation i off 0)). by rewrite -> H1.
Qed.

Lemma sm_Append_law record b b' r : dk_inv b → sm_Append record b = (b', r) →
  dk_le b b' ∧ match r with Ok loc => dk_stored b' (SegmentID loc) (Offset loc) record | Err _ => True end.
Proof.
  intros W H. unfold sm_Append, turn, gets in H. do 2 erewrite bind_ok in H by reflexivity. cbn [bf_on bf_wb bf_others] in H.
  set (evs := default [] _) in H. destruct (bf_on b) eqn:Eon.
  - unfold buffer_Append in H. cbn [bf_on bf_wb bf_others] in H. destruct (append_started record (bf_wb b) W) as (W1 & L1 & K1).
    destruct (WriteBuffer.Append record (bf_wb b)) as [wb1 id]. cbn [fst snd] in *.
    destruct (await evs id wb1) as [wb2 r2] eqn:E2. destruct (await_ok _ _ _ _ _ W1 E2) as (W2 & L2 & K2 & Hr).
    injection H as <- <-. split; [split; [done|intros i off d Hs; apply K2; by apply K1]|].
    destruct r2 as [loc|e]; [|done]. destruct Hr as [[? ?]|(pw & Hpw & Hr)]; [done|].
    destruct (ok_done _ W2 id pw Hpw) as [Hl Hs]. rewrite -> (prefix_lookup_Some _ _ _ _ L1 L2) in Hl. injection Hl as ->.
    unfold answer_of in Hr. destruct (pw_err pw); [done|]. injection Hr as ->. by apply Hs.
  - set (b0 := MkBuffered (bf_wb b) (bf_on b) (tail (bf_others b))).
    destruct (others_le evs b0 W) as [L1 E1]. destruct (others evs b0) as [b1 r1] eqn:Eo. cbn [fst snd] in *. subst r1.
    unfold b0 in Eo. rewrite -> Eon in Eo. erewrite bind_ok in H by exact Eo. unfold on_sm, zoom in H. destruct (dk_append record (bf_log b1)) as [l r1] eqn:E. injection H as <- <-.
    destruct (dk_append_law _ _ _ _ (ok_sm _ (proj1 L1)) E) as [L Hst].
    split; [eapply dk_le_trans; [exact L1|]; split; [apply with_sm_ok; [apply L1|exact L]|apply L]|]. by destruct r1.
Qed.

#[export] Instance buffered_laws : DiskLaws Buffered.
Proof.
  split.
  - apply sm_Append_law.
  - intros id e b b' r W H. cbn in H. unfold turn in H. erewrite bind_ok in H by reflexivity.
    set (b0 := MkBuffered _ _ _) in H. destruct (others_le (default [] (head (bf_others b))) b0 W) as [L1 E1].
    destruct (others _ b0) as [b1 r1] eqn:Eo. cbn in L1, E1. subst r1. erewrite bind_ok in H by exact Eo.
    eapply (dk_le_trans b b1); [exact L1|]. eapply on_sm_le; [|apply L1|exact H]. intros l l' r0 I E. exact (dk_index_law id e l l' r0 I E).
  - intros id off b b' r W Hid H. eapply on_sm_le; [|exact W|exact H]. intros l l' r0 I E. exact (dk_read_law id off l l' r0 I Hid E).
  - intros id off b m p W Hr Hm Hp Hst. change (dk_read id off b) with (on_sm (dk_read id off) b). unfold on_sm, zoom.
    pose proof (dk_read_ok id off (bf_log b) m p (ok_sm _ W) Hr Hm Hp Hst) as E. by destruct (dk_read id off (bf_log b)).
  - intros b id off d Hst. exact (dk_stored_id (bf_log b) id off d Hst).
Qed.

(** ** The directory behind the endpoints *)
#[export] Instance buffered_dir : DirOps Buffered := {|
  dir_fs := fun A m => on_sm (on_disk (dir_fs m));
  dir_total := on_sm (on_disk dir_total) |}.

Lemma looks_le {A} (m : M Disk A) l l' r : dk_inv l →
  (∀ d d' r, m d = (d', r) → ∃ fs, d' = MkDisk (d_sm d) (d_idx d) fs ∧ fs_core fs = fs_core (d_fs d)) →
  on_disk m l = (l', r) → dk_le l l'.
Proof.
  intros I Hm H. unfold on_disk, zoom in H. destruct (m (lg_disk l)) as [d x] eqn:E. injection H as <- _.
  destruct (Hm _ _ _ E) as (fs & -> & Hc). destruct (read_post_fs (lg_seg l) fs (proj1 I) Hc) as (I' & X & _).
  apply kept_logged; try done; [|by apply seg_node_core]. cbn. unfold with_reads. by destruct (d_sm (lg_disk l)).
Qed.

#[export] Instance buffered_dir_laws : DirLaws Buffered.
Proof.
  split.
  - intros b b' r W H. eapply on_sm_le; [|exact W|exact H]. intros l l' r' I E. eapply looks_le; [done| |exact E]. apply dir_total_core.
  - intros A m b b' r Hm W H. eapply on_sm_le; [|exact W|exact H]. intros l l' r' I E. eapply looks_le; [done| |exact E].
    intros d d' r0. by apply dir_fs_core.
Qed.

(** ** A caller is answered *)

(** The events that flush what is pending: a tick of a loop that runs, and [Close]. *)
Definition flushes (wb : WriteBuffer Logged) (e : event) : Prop :=
  match e with ETick => wb_stopped wb = false | EStop => True | _ => False end.
(** A schedule under which the waiters of [wb] are answered: at some point the pending
    writes are flushed, and in the end every batch that was taken has been run. *)
Definition answering (wb : WriteBuffer Logged) (evs : list event) : Prop :=
  (∃ evs1 e evs2, evs = evs1 ++ e :: evs2 ∧ flushes (fold_left (play true) evs1 wb) e) ∧
  wb_flight (fold_left (play true) evs wb) = [].

Lemma flush_empty (wb : WriteBuffer Logged) : wb_pending (Flush wb) = [].
Proof.
  unfold Flush. destruct (wb_pending wb) as [|e es] eqn:E; [done|]. unfold take_pending. rewrite -> E. unfold run_batch.
  destruct (_ !! _); [by destruct (ba_run _ _)|done].
Qed.
Lemma flush_fields (wb : WriteBuffer Logged) :
  wb_pending (Flush wb) = [] ∧ wb_stopped (Flush wb) = wb_stopped wb ∧ wb_maxSize (Flush wb) = wb_maxSize wb.
Proof.
  split; [apply flush_empty|]. unfold Flush, take_pending, run_batch. destruct (wb_pending wb) as [|e es]; [done|].
  destruct (_ !! _); [by destruct (ba_run _ _)|done].
Qed.
Lemma flushes_empty wb e : flushes wb e → wb_pending (play true wb e) = [].
Proof.
  destruct e; try done; cbn; [|intros _; apply flush_empty]. unfold flushLoop_tick. intros ->. apply flush_empty.
Qed.

(** Who is not pending never is again; only new callers are. *)
Definition not_pending (id : nat) (wb : WriteBuffer Logged) : Prop := (id < length (wb_log wb))%nat ∧ id ∉ e_id <$> wb_pending wb.
Lemma flush_pending_nil id (wb : WriteBuffer Logged) : (id < length (wb_log wb))%nat → wb_pending wb = [] → not_pending id wb.
Proof. intros Hl Hp. split; [done|]. rewrite -> Hp. apply not_elem_of_nil. Qed.
Lemma play_length (wb : WriteBuffer Logged) e : wb_ok wb → (length (wb_log wb) ≤ length (wb_log (play true wb e)))%nat.
Proof. intros W. destruct (play_ok true wb e W) as (_ & L & _). by apply prefix_length. Qed.
Lemma play_not_pending id (wb : WriteBuffer Logged) e : wb_ok wb → not_pending id wb → not_pending id (play true wb e).
Proof.
  intros W [Hl Hn]. split; [pose proof (play_length wb e W); lia|]. destruct e; cbn; try done.
  - rewrite -> fmap_app. cbn. intros [?| ->%list_elem_of_singleton]%elem_of_app; [done|lia].
  - unfold take_pending. destruct (wb_pending wb) eqn:E; [by rewrite -> E in *|]. apply not_elem_of_nil.
  - unfold run_batch. destruct (_ !! _); [|done]. by destruct (ba_run _ _).
  - unfold flushLoop_tick. destruct (wb_stopped wb); [done|]. rewrite -> flush_empty. apply not_elem_of_nil.
  - unfold wb_Close. rewrite -> flush_empty. apply not_elem_of_nil.
Qed.

(** A caller whose context does not end gets the outcome of its own write, also when
    it does not fill the buffer, if the schedule goes on long enough. *)
Lemma await_answers evs id : ∀ (wb wb' : WriteBuffer Logged) r, wb_ok wb → (id < length (wb_log wb))%nat →
  ECancel ∉ evs → (not_pending id wb ∨ ∃ evs1 e evs2, evs = evs1 ++ e :: evs2 ∧ flushes (fold_left (play true) evs1 wb) e) →
  wb_flight (fold_left (play true) evs wb) = [] → await evs id wb = (wb', r) → ∃ pw, wb_done wb' !! id = Some pw ∧ r = answer_of pw.
Proof.
  induction evs as [|e evs IH]; intros wb wb' r W Hid Hc Hfl Hfin H.
  - destruct Hfl as [[_ Hnp]|([|] & ? & ? & ? & _)]; [|done..]. cbn [await fold_left] in *.
    destruct (wb_done wb !! id) as [pw|] eqn:Ed; [injection H as <- <-; by exists pw|]. exfalso. apply Hnp.
    assert (id ∈ e_id <$> open_entries wb) as Ho by (by apply (ok_part _ W)).
    unfold open_entries in Ho. rewrite -> Hfin in Ho. by rewrite -> app_nil_r in Ho.
  - apply not_elem_of_cons in Hc as [He Hc]. destruct (await_cons _ _ _ _ _ _ H) as [(-> & _)|[(pw & Hpw & -> & ->)|[_ H']]]; [done|by exists pw|].
    assert (id < length (wb_log (play true wb e)))%nat as Hid' by (pose proof (play_length wb e W); lia).
    eapply IH; [by apply play_ok|exact Hid'|done| |exact Hfin|exact H'].
    destruct Hfl as [Hnp|([|e1 evs1] & e' & evs2 & [= -> ->] & Hf)].
    + left. by apply play_not_pending.
    + left. apply flush_pending_nil; [done|]. by apply flushes_empty.
    + right. by exists evs1, e', evs2.
Qed.

(** C27: An append through the write buffer comes back with its own outcome.  Whatever the
    other callers and flushers of the process do meanwhile and whatever fails on
    disk, a caller whose context does not end is answered, once, with what became of
    the very record it gave, provided that while it waits the ticker of the running
    [flushLoop] fires or the buffer is closed, and that the flushers finish the
    batches they have taken; with a location, the record is there in the file and in
    what a crash preserves, and everything stored before still is. *)
Theorem append_answered record b b' r :
  dk_inv b → bf_on b = true → ECancel ∉ default [] (head (bf_others b)) →
  answering (WriteBuffer.Append record (bf_wb b)).1 (default [] (head (bf_others b))) → sm_Append record b = (b', r) →
  dk_le b b' ∧ ∃ pw, wb_done (bf_wb b') !! length (wb_log (bf_wb b)) = Some pw ∧ pw_record pw = record ∧ r = answer_of pw ∧
    ∀ loc, r = Ok loc → holds i_data (lg_seg (bf_log b')) (SegmentID loc) (Offset loc) record ∧
      holds i_stable (lg_seg (bf_log b')) (SegmentID loc) (Offset loc) record.
Proof.
  intros W Hon Hc [Hfl Hfin] H. destruct (sm_Append_law _ _ _ _ W H) as [L Hst]. split; [done|].
  unfold sm_Append, turn, gets in H. do 2 erewrite bind_ok in H by reflexivity. cbn [bf_on bf_wb bf_others] in H. rewrite -> Hon in H.
  unfold buffer_Append in H. cbn [bf_on bf_wb bf_others] in H. destruct (append_started record (bf_wb b) W) as (W1 & L1 & _).
  assert ((WriteBuffer.Append record (bf_wb b)).2 = length (wb_log (bf_wb b))) as Hid by (unfold WriteBuffer.Append; by destruct (enqueue _ _)).
  destruct (WriteBuffer.Append record (bf_wb b)) as [wb1 id]. cbn [fst snd] in *. subst id.
  destruct (await _ _ wb1) as [wb2 r2] eqn:E2. destruct (await_ok _ _ _ _ _ W1 E2) as (W2 & L2 & _).
  apply lookup_lt_Some in L1 as Hlt. destruct (await_answers _ _ _ _ _ W1 Hlt Hc (or_intror Hfl) Hfin E2) as (pw & Hpw & Hr). injection H as <- <-.
  exists pw. split; [done|]. destruct (ok_done _ W2 _ pw Hpw) as [Hl _]. rewrite -> (prefix_lookup_Some _ _ _ _ L1 L2) in Hl. injection Hl as ->.
  split; [done|]. split; [done|]. intros loc ->. destruct Hst as [Hd _]. exact Hd.
Qed.

(** ** Closing *)
Lemma sm_Close_le b b' r : dk_inv b → sm_Close b = (b', r) → dk_le b b'.
Proof.
  intros W H. unfold sm_Close, modify in H. erewrite bind_ok in H by reflexivity.
  set (b1 := if bf_on b then _ else b) in H.
  assert (dk_le b b1) as L1.
  { unfold b1. destruct (bf_on b); [|by apply dk_le_refl]. destruct (wb_steps_keeps _ _ (close_steps (bf_wb b)) W) as (W' & _ & K).
    split; [exact W'|]. intros id off d. apply (K (MkLocation id off 0)). }
  eapply dk_le_trans; [exact L1|]. eapply on_sm_le; [|apply L1|exact H]. apply close_segments_le.
Qed.

(** ** After [Close] *)

(** The steps of the others that neither append, flush a full buffer, close once more
    nor end the caller's context. *)
Definition idle (e : event) : Prop := match e with ETick | ERun _ | EClose => True | _ => False end.

Lemma idle_stays id (wb : WriteBuffer Logged) e : wb_ok wb → wb_stopped wb = true → id ∈ e_id <$> wb_pending wb → idle e →
  wb_stopped (play true wb e) = true ∧ id ∈ e_id <$> wb_pending (play true wb e).
Proof.
  intros W Hs Hp He. destruct e; try done; cbn.
  - unfold run_batch. destruct (_ !! _); [|done]. by destruct (ba_run _ _).
  - unfold flushLoop_tick. by rewrite -> Hs.
Qed.

Lemma idle_blocks id evs : ∀ wb : WriteBuffer Logged, wb_ok wb → wb_stopped wb = true → id ∈ e_id <$> wb_pending wb →
  Forall idle evs → (await evs id wb).2 = Err blocked.
Proof.
  induction evs as [|e evs IH]; intros wb W Hs Hp Hi.
  all: assert (wb_done wb !! id = None) as Hd by
    (apply (ok_part _ W); unfold open_entries; rewrite -> fmap_app; apply elem_of_app; by left).
  - cbn. by rewrite -> Hd.
  - apply Forall_cons in Hi as [He Hi]. destruct (idle_stays id wb e W Hs Hp He) as [Hs' Hp'].
    destruct (await (e :: evs) id wb) as [wb' r] eqn:E. cbn.
    destruct (await_cons _ _ _ _ _ _ E) as [(-> & _)|[(pw & Hpw & _)|[_ H']]]; [done|congruence|].
    rewrite <- (IH (play true wb e)) by (done || by apply play_ok). by rewrite -> H'.
Qed.

(** C40: after [Close] a write that does not fill the buffer is never answered.  The loop
    that flushes is gone, so a caller of [Append] whose record is smaller than the
    buffer waits for ever, whatever else fails, unless its context ends, the
    manager is closed again or another caller appends. *)
Theorem append_after_close_waits record b :
  dk_inv b → bf_on b = true → zlen record < wb_maxSize (bf_wb b) → Forall idle (default [] (head (bf_others b))) →
  (sm_Append record (sm_Close b).1).2 = Err blocked.
Proof.
  intros W Hon Hz Hi. destruct (sm_Close b) as [b1 r1] eqn:Ec. pose proof (proj1 (sm_Close_le _ _ _ W Ec)) as W1.
  assert (bf_on b1 = true ∧ bf_others b1 = bf_others b ∧ wb_stopped (bf_wb b1) = true ∧
    wb_pending (bf_wb b1) = [] ∧ wb_maxSize (bf_wb b1) = wb_maxSize (bf_wb b)) as (Hon1 & Ho & Hs & Hp & Hm).
  { unfold sm_Close, modify in Ec. erewrite bind_ok in Ec by reflexivity. rewrite -> Hon in Ec. unfold on_sm, zoom in Ec.
    destruct (on_disk _ _) as [l r]. injection Ec as <- _. cbn. unfold wb_Close. destruct (flush_fields (close_stop (bf_wb b))) as (-> & -> & ->).
    done. }
  cbn [fst]. unfold sm_Append, turn, gets. do 2 erewrite bind_ok by reflexivity. cbn [bf_on bf_wb bf_others]. rewrite -> Hon1, Ho.
  unfold buffer_Append. cbn [bf_wb bf_on bf_others]. unfold WriteBuffer.Append. destruct (enqueue record (bf_wb b1)) as [wb2 f] eqn:Ee.
  pose proof (enqueue_ok record (bf_wb b1) W1) as W2. rewrite -> Ee in W2. cbn [fst] in W2.
  pose proof (ok_size _ W1) as Hb. rewrite -> Hp in Hb. cbn in Hb.
  unfold enqueue in Ee. cbn [wb_bufSize] in Ee. rewrite -> Hb, Hm in Ee.
  replace (wb_maxSize (bf_wb b) <=? 0 + zlen record) with false in Ee by lia. injection Ee as <- <-.
  pose proof (idle_blocks (length (wb_log (bf_wb b1))) (default [] (head (bf_others b))) _ W2) as T.
  destruct (await _ _ _) as [wb3 r3]. cbn. apply T; [exact Hs| |exact Hi]. cbn. rewrite -> Hp. by left.
Qed.
