(* ===== verification/HttpMetrics.v ===== *)
(** * Request metrics: internal/metrics/http.go, and the middleware of both routers

    [Middleware] counts a request and its duration after the handler has returned.
    A handler is a function to [M S]; an [Err] is a panic, which unwinds through
    [Middleware] to chi's Recoverer.  Prometheus keeps a counter per label values
    and the durations observed.  The chi router's pattern of a request it has no
    route for, and Recoverer's answer, are arguments. *)
From Stdlib Require Import Floats.SpecFloat.
From S2P Require Import Prelude GoLib Hash Ids FS Metadata MetadataInv Disk Compress Dedup BlobStore Detect Journal UnpackQueue Ingest IngestInv IngestSafe Metrics ShardRepo Registry Config Http CoordServer RegisterClient Api ApiInv.

(** [Duration.Seconds]. *)
Definition Seconds (d : Z) : float :=
  SFadd 53 1024 (float_of_int (Z.quot d second)) (fdiv (float_of_int (Z.rem d second)) (float_of_int 1000000000)).

Record HttpMetrics : Type := MkHttpMetrics {
  httpRequestsTotal : gmap (string * string * string) Z;           (** labels method, route, code *)
  httpRequestDuration : gmap (string * string) (list float);       (** labels method, route *)
}.
Definition Inc (l : string * string * string) (m : HttpMetrics) : HttpMetrics :=
  MkHttpMetrics (<[l := default 0 (httpRequestsTotal m !! l) + 1]> (httpRequestsTotal m)) (httpRequestDuration m).
Definition Observe (l : string * string) (v : float) (m : HttpMetrics) : HttpMetrics :=
  MkHttpMetrics (httpRequestsTotal m) (<[l := default [] (httpRequestDuration m !! l) ++ [v]]> (httpRequestDuration m)).

(** ** The middleware *)
Section Stack.
Context {S B : Type}.
Context (handler : HRequest → M S (HResponse B)) (pattern : HRequest → S → string) (recovered : HRequest → HResponse B).

Definition route_label (p : string) : string := if (p =? "")%string then "unknown" else p.
Definition label (r : HRequest) (s : S) (resp : HResponse B) : string * string * string :=
  (h_method r, route_label (pattern r s), Itoa (hs_status resp)).

(** [took] is what the clock has moved when the handler returns; the pattern is the
    one the router has put into the request's context. *)
Definition Middleware (took : Z) (r : HRequest) : M (HttpMetrics * S) (HResponse B) :=
  let! s := gets snd in
  let! resp := zoom snd (fun s x => (x.1, s)) (handler r) in
  let route := route_label (pattern r s) in
  let code := Itoa (hs_status resp) in
  do! modify (fun x => (Inc (h_method r, route, code) x.1, x.2));
  do! modify (fun x => (Observe (h_method r, route) (Seconds took) x.1, x.2));
  mret resp.
Definition Recoverer (took : Z) (r : HRequest) : M (HttpMetrics * S) (HResponse B) :=
  let! res := try (Middleware took r) in
  mret (match res with Ok resp => resp | Err _ => recovered r end).
Definition served (rs : list (Z * HRequest)) : M (HttpMetrics * S) (list (HResponse B)) :=
  foldM (fun acc x => let! resp := Recoverer x.1 x.2 in mret (acc ++ [resp])) [] rs.

(** The handlers alone: the state, and per request its labels and answer; [None]
    for a panic. *)
Definition one (x : Z * HRequest) (s : S) : option (string * string * string * HResponse B) :=
  match (handler x.2 s).2 with Ok resp => Some (label x.2 s resp, resp) | Err _ => None end.
Fixpoint plain (rs : list (Z * HRequest)) (s : S) : S * list (option (string * string * string * HResponse B)) :=
  match rs with
  | [] => (s, [])
  | x :: rs' => let '(s', l) := plain rs' (handler x.2 s).1 in (s', one x s :: l)
  end.
Definition answer_of (x : Z * HRequest) (o : option (string * string * string * HResponse B)) : HResponse B :=
  match o with Some (_, resp) => resp | None => recovered x.2 end.

(** How many answers carry a label; the durations of the requests of a series. *)
Definition counted (l : string * string * string) (os : list (option (string * string * string * HResponse B))) : Z :=
  zlen (filter (fun o => fst <$> o = Some l) os).
Definition timed (l : string * string) (rs : list (Z * HRequest)) (os : list (option (string * string * string * HResponse B))) : list float :=
  (fun xo => Seconds xo.1.1) <$> filter (fun xo => (fst ∘ fst) <$> xo.2 = Some l) (zip rs os).

Definition total (l : string * string * string) (m : HttpMetrics) : Z := default 0 (httpRequestsTotal m !! l).
Definition durations (l : string * string) (m : HttpMetrics) : list float := default [] (httpRequestDuration m !! l).

Lemma Recoverer_one x m s :
  Recoverer x.1 x.2 (m, s) =
    ((match one x s with Some (l, _) => Observe l.1 (Seconds x.1) (Inc l m) | None => m end, (handler x.2 s).1), Ok (answer_of x (one x s))).
Proof.
  unfold Recoverer, Middleware, one, label. munfold. unfold gets, zoom, try, modify. cbn [fst snd].
  destruct (handler x.2 s) as [s' [resp|e]]; reflexivity.
Qed.

Lemma served_cons x rs m s acc :
  foldM (fun acc x => let! resp := Recoverer x.1 x.2 in mret (acc ++ [resp])) acc (x :: rs) (m, s) =
  foldM (fun acc x => let! resp := Recoverer x.1 x.2 in mret (acc ++ [resp])) (acc ++ [answer_of x (one x s)]) rs
    (match one x s with Some (l, _) => Observe l.1 (Seconds x.1) (Inc l m) | None => m end, (handler x.2 s).1).
Proof. cbn [foldM]. by erewrite bind_ok by (erewrite bind_ok by apply Recoverer_one; reflexivity). Qed.

Lemma total_Inc l l' m : total l (Inc l' m) = total l m + (if decide (l' = l) then 1 else 0).
Proof. unfold total, Inc. cbn. case_decide as E; [subst; by rw lookup_insert_eq|]. rw lookup_insert_ne //. lia. Qed.
Lemma durations_Observe l l' v m : durations l (Observe l' v m) = durations l m ++ (if decide (l' = l) then [v] else []).
Proof. unfold durations, Observe. cbn. case_decide as E; [subst; by rw lookup_insert_eq|]. by rw lookup_insert_ne // app_nil_r. Qed.

Lemma counted_cons l o os : counted l (o :: os) = (if decide (fst <$> o = Some l) then 1 else 0) + counted l os.
Proof. unfold counted. rw filter_cons. case_decide; [|done]. unfold zlen. cbn [length]. lia. Qed.
Lemma timed_cons l x rs o os : timed l (x :: rs) (o :: os) = (if decide ((fst ∘ fst) <$> o = Some l) then [Seconds x.1] else []) ++ timed l rs os.
Proof. unfold timed. cbn [zip_with]. rw filter_cons. cbn [snd]. by case_decide. Qed.

Lemma served_spec rs m s acc : ∃ m',
  foldM (fun acc x => let! resp := Recoverer x.1 x.2 in mret (acc ++ [resp])) acc rs (m, s) =
    ((m', (plain rs s).1), Ok (acc ++ zip_with answer_of rs (plain rs s).2)) ∧
  (∀ l, total l m' = total l m + counted l (plain rs s).2) ∧
  (∀ l, durations l m' = durations l m ++ timed l rs (plain rs s).2).
Proof.
  revert m s acc. induction rs as [|x rs IH]; intros m s acc.
  - exists m. cbn. rw app_nil_r. split; [done|]. split; [intros l; change (counted l []) with 0; lia|]. intros l. by rw app_nil_r.
  - rewrite -> served_cons. destruct (IH (match one x s with Some (l, _) => Observe l.1 (Seconds x.1) (Inc l m) | None => m end)
      (handler x.2 s).1 (acc ++ [answer_of x (one x s)])) as (m' & E & C & D).
    exists m'. rewrite -> E. cbn [plain]. destruct (plain rs (handler x.2 s).1) as [s' os]. cbn [fst snd zip_with] in *.
    rewrite <- (assoc_L (++)). split; [done|]. split; intros l.
    + rw C counted_cons. destruct (one x s) as [[l' resp]|]; cbn [option_fmap option_map fmap fst snd]; [|by case_decide]. change (total l (Observe _ _ ?m)) with (total l m).
      rw total_Inc. repeat case_decide; simplify_eq; lia.
    + rw D timed_cons. destruct (one x s) as [[l' resp]|]; cbn; [|done]. rw durations_Observe.
      change (durations l (Inc l' m)) with (durations l m). rewrite <- (assoc_L (++)). repeat case_decide; simplify_eq; done.
Qed.
End Stack.

(** ** The shard's router *)
Section Shard.
Context {S : Type} `{DiskLaws S} `{DirOps S} `{!DirLaws S} {K : Type} `{kvStore K} `{Bloom} `{ZstdLaws} `{PG} `{ZipLib} `{Times}.
Context {J : Type} `{JournalOps J} `{EnvLib} `{Mime}.
Context (encoder : option Encoder) (withIndex : bool) (cfg : config.Config).
Context (unrouted : HRequest → answer) (unrouted_pattern : HRequest → string) (recovered : HRequest → answer).
Notation Server := (Api.Server S K J).
Notation serve := (Api.serve encoder withIndex cfg unrouted).

Definition shard_pattern (rt : Api.route) : string :=
  match rt with
  | RPost => "/v1/packages"
  | RPackage => "/v1/packages/{id}"
  | RFile => "/v1/packages/{id}/files/{file_id}"
  | ROriginal => "/v1/packages/{id}/original"
  | RStats => "/v1/internal/stats"
  | RSeal => "/v1/internal/seal"
  | RSegments => "/v1/internal/segments"
  | RSegment => "/v1/internal/segments/{name}"
  end.
(** The guard answers before the router has looked for a route. *)
Definition shard_matched (r : HRequest) (s : Server) : string :=
  if blocked r (sv_guard s) then "" else
  match find (matches r) (routes (sv_guard s)) with Some rt => shard_pattern rt | None => unrouted_pattern r end.

Definition shard_Router : list (Z * HRequest) → M (HttpMetrics * Server) (list answer) := served serve shard_matched recovered.

(** A handler that catches what it calls does not panic. *)
Definition calm {A} (m : M Server A) : Prop := ∀ s, is_ok (m s).2 = true.
Lemma calm_ret {A} (a : A) : calm (mret a).
Proof. by intros s. Qed.
Lemma calm_try {A B} (m : M Server A) (k : result A → M Server B) : (∀ r, calm (k r)) → calm (try m ≫= k).
Proof. intros Hk s. unfold mbind, M_bind, try. destruct (m s) as [s' r]. apply Hk. Qed.

Lemma calm_serveFile i j : calm (Api.serveFile (S := S) (K := K) (J := J) encoder i j).
Proof.
  apply calm_try. intros [[f|]|e]; [|apply calm_ret..]. apply calm_try. intros [[b|]|e]; [|apply calm_ret..].
  apply calm_try. intros [d|e]; apply calm_ret.
Qed.

Lemma calm_read rt r : rt ≠ RPost → is_internal rt = false → calm (Api.handle (S := S) (K := K) (J := J) encoder withIndex cfg rt r).
Proof.
  intros Hp Hi s. unfold Api.handle, gets. erewrite bind_ok by reflexivity. cbv beta iota. destruct rt; try done; revert s.
  - unfold Api.getPackage. destruct (parsePackageID r); [|apply calm_ret]. apply calm_try. intros. apply calm_ret.
  - unfold Api.getFile. destruct (parsePackageID r); [|apply calm_ret]. destruct (ParseInt64 _); [apply calm_serveFile|apply calm_ret].
  - unfold Api.getOriginal. destruct (parsePackageID r); [|apply calm_ret]. apply calm_try. intros [[f|]|e]; [apply calm_serveFile|apply calm_ret..].
Qed.

Lemma calm_internal rt r s g : is_internal rt = true → sv_guard s = Some g →
  is_ok (Api.handle (S := S) (K := K) (J := J) encoder withIndex cfg rt r s).2 = true.
Proof.
  intros Hi Hg. unfold Api.handle, gets. erewrite bind_ok by reflexivity. cbv beta iota zeta. rewrite -> Hg.
  assert (∀ next : M Server answer, calm next → calm (Api.requireClusterKey (S := S) (K := K) (J := J) cfg next r)) as Hk.
  { intros next Hn. unfold Api.requireClusterKey. destruct (_ =? _)%string; [apply calm_ret|]. destruct (negb _); [apply calm_ret|done]. }
  destruct rt; try done; apply Hk.
  - apply calm_try. intros. apply calm_ret.
  - unfold Api.seal. destruct (negb _); [apply calm_ret|by intros s'].
  - apply calm_try. intros. apply calm_ret.
  - unfold Api.get_segment. destruct (_ || _); [apply calm_ret|]. apply calm_try. intros. apply calm_ret.
Qed.

Lemma post_calm debt r (s : Server) : (∀ e, encoder = Some e → enc_ok e) → svc_inv encoder debt (sv_svc s) →
  is_ok (Api.postPackage encoder withIndex cfg r s).2 = true.
Proof.
  intros He I. unfold Api.postPackage. destruct (supplier.ParseQuery _); [|done].
  destruct (readBody r _) as [body|e]; [|by destruct (strings.Contains _ _)]. unfold mbind at 1, M_bind at 1, try, on_svc, zoom.
  destruct (ProcessPackage _ _ _ _ _ _ _) as [v res] eqn:E.
  apply (Process_run encoder withIndex _ He debt) in E as (d & new & _ & _ & U & _); [|done].
  destruct res as [[pkg|]|e]; [done| |done]. by destruct U as (pkg & f & p & [=] & _).
Qed.

Lemma serve_calm debt r (s : Server) : (∀ e, encoder = Some e → enc_ok e) → svc_inv encoder debt (sv_svc s) → ∃ a, (serve r s).2 = Ok a.
Proof.
  intros He I. assert (is_ok (serve r s).2 = true) as Hok; [|destruct (serve r s).2 as [a|e]; [by exists a|done]].
  unfold Api.serve, gets. erewrite bind_ok by reflexivity. cbv beta iota. destruct (blocked _ _); [done|].
  destruct (find _ _) as [rt|] eqn:Hf; [|done]. apply find_some in Hf as [Hin _]. apply list_elem_of_In in Hin.
  destruct (is_internal rt) eqn:Hi.
  - destruct (sv_guard s) as [g|] eqn:Hg; [by eapply calm_internal|]. unfold routes in Hin. rw app_nil_r in Hin. set_unfold in Hin. destruct_or? Hin; by subst.
  - destruct rt; try done; [by eapply post_calm|apply calm_read..]; done.
Qed.

Lemma plain_calm debt rs (s : Server) : (∀ e, encoder = Some e → enc_ok e) → svc_inv encoder debt (sv_svc s) →
  ∃ os, plain serve shard_matched rs s = ((plain serve shard_matched rs s).1, Some <$> os) ∧ length os = length rs.
Proof.
  intros He. revert debt s. induction rs as [|x rs IH]; intros debt s I; [by exists []|]. cbn [plain].
  destruct (serve_calm debt x.2 s He I) as [a Ha]. unfold one. rewrite -> Ha.
  destruct (serve x.2 s) as [s1 res] eqn:E. cbn [fst snd] in *.
  destruct (serve_run encoder withIndex cfg unrouted He debt x.2 s s1 res I E) as (_ & d & new & _ & R & _).
  destruct (IH d s1 (sr_inv _ _ _ _ _ R)) as (os & Ep & Hl). rewrite -> Ep. eexists (_ :: os). split; [reflexivity|]. cbn. by rewrite -> Hl.
Qed.

(** C38: Every request to a shard is counted once.  From a sound state, whatever the
    requests and whatever fails on the disk, in the database, the hot index and the
    journal, no handler panics and each request is answered as the handlers alone
    answer it; the counter of a method, route and code has grown by the number of
    requests answered with them, and the latency series of a method and route has
    got exactly the durations of its requests, in their order. *)
Theorem requests_counted debt rs m (s : Server) :
  (∀ e, encoder = Some e → enc_ok e) → svc_inv encoder debt (sv_svc s) →
  ∃ m' s' os, shard_Router rs (m, s) = ((m', s'), Ok os.*2) ∧
    plain serve shard_matched rs s = (s', Some <$> os) ∧ length os = length rs ∧
    (∀ l, total l m' = total l m + zlen (filter (fun o => o.1 = l) os)) ∧
    (∀ l, durations l m' = durations l m ++ ((fun xo => Seconds xo.1.1) <$> filter (fun xo => xo.2.1.1 = l) (zip rs os))).
Proof.
  intros He I. destruct (plain_calm debt rs s He I) as (os & Ep & Hl).
  destruct (served_spec serve shard_matched recovered rs m s []) as (m' & E & C & D). rewrite -> Ep in E, C, D. cbn [fst snd app] in E, C, D.
  exists m', (plain serve shard_matched rs s).1, os. split; [|split; [done|split; [done|]]].
  - unfold shard_Router, served. rewrite -> E. do 2 f_equal. clear -Hl. revert rs Hl. induction os as [|[l a] os IH]; intros [|x rs] [=]; [done|].
    cbn. f_equal. by apply IH.
  - split; intros l; [rewrite -> C|rewrite -> D]; f_equal; clear -Hl; revert rs Hl.
    + unfold counted. induction os as [|[l' a] os IH]; intros [|x rs] [=]; [done|]. rw fmap_cons !filter_cons. cbn [fst snd fmap option_fmap option_map].
      specialize (IH rs ltac:(done)). unfold zlen in *. repeat case_decide; simplify_eq; cbn [length]; lia.
    + unfold timed. induction os as [|[l' a] os IH]; intros [|x rs] [=]; [done|]. cbn [zip_with fmap list_fmap]. rw !filter_cons. cbn [fst snd].
      specialize (IH rs ltac:(done)). cbn. repeat case_decide; simplify_eq; cbn; by rewrite -> ?IH.
Qed.
End Shard.

(** ** The coordinator's router *)
Section Coordinator.
Context `{PG} `{CoordLib} `{EnvLib} `{AdminJSON}.
Context (cfg : config.Config) (unrouted : HRequest → CoordServer.response) (unrouted_pattern : HRequest → string).
Context (recovered : HRequest → CoordServer.response).

Definition coord_path (rt : CoordServer.route) (p : string → string) : string * string :=
  match rt with
  | RPostPackage => ("POST", "/v1/packages")
  | RGetPackage => ("GET", "/v1/packages/" +:+ p "id")
  | RGetFile => ("GET", "/v1/packages/" +:+ p "id" +:+ "/files/" +:+ p "file_id")
  | RGetOriginal => ("GET", "/v1/packages/" +:+ p "id" +:+ "/original")
  | RListShards => ("GET", "/v1/admin/shards")
  | RRegisterShard => ("POST", "/v1/admin/shards")
  | RSealRotate => ("POST", "/v1/admin/seal-rotate")
  | RPatchState => ("PATCH", "/v1/admin/shards/" +:+ p "id" +:+ "/state")
  end.
Definition coord_matches (r : HRequest) (rt : CoordServer.route) : bool :=
  let '(m, path) := coord_path rt (fun k => kv_get k (h_params r)) in (h_method r =? m)%string && (h_path r =? path)%string.
Definition coord_routes : list CoordServer.route :=
  [RPostPackage; RGetPackage; RGetFile; RGetOriginal; RListShards; RRegisterShard; RSealRotate; RPatchState].
Definition coord_serve (r : HRequest) : M World CoordServer.response :=
  match find (coord_matches r) coord_routes with
  | Some rt => CoordServer.Router cfg rt r
  | None => mret (unrouted r)
  end.
(** The pattern has the parameters' names in braces. *)
Definition coord_matched (r : HRequest) (_ : World) : string :=
  match find (coord_matches r) coord_routes with
  | Some rt => (coord_path rt (fun k => "{" +:+ k +:+ "}")).2
  | None => unrouted_pattern r
  end.
Definition coord_Router : list (Z * HRequest) → M (HttpMetrics * World) (list CoordServer.response) := served coord_serve coord_matched recovered.
End Coordinator.
