(* ===== verification/HttpDemo.v ===== *)
(** * Requests to a shard and to the coordinator, on concrete traffic: typed answers, counted requests *)
From stdpp Require Import relations.
From S2P Require Import Prelude GoLib Hash FS Segment SegmentStore SegmentDurable Ids Metadata MetadataInv Disk Compress Dedup BlobStore Detect Journal UnpackQueue Ingest IngestInv IngestSafe IngestDemo Metrics ShardRepo Registry RegistryInv Control ControlDemo Config Http CoordServer RegisterClient CoordDemo Api ApiInv ApiDemo Typed HttpMetrics.

Definition no_metrics : HttpMetrics := MkHttpMetrics ∅ ∅.
Definition no_pattern (_ : HRequest) : string := "".

(** An upload, its download, sealing, and an upload that the guard refuses. *)
Section ShardTraffic.
#[local] Existing Instances demo_times demo_json bad_zip shard_env plain_mime.
Definition traffic : list (Z * HRequest) :=
  [(40 * millisecond, post_xml); (3 * millisecond, get_first); (millisecond, seal_it); (millisecond, post_xml)].
Definition chi_500 (_ : HRequest) : answer := MkHResp 500 [] (EError "").

Lemma requests_counted_witness :
  ∃ m' s' (os : list (string * string * string * answer)), shard_Router demo_encoder true shard_cfg chi_404 no_pattern chi_500 traffic (no_metrics, shard) = ((m', s'), Ok os.*2) ∧
    length os = 4%nat ∧ total ("POST", "/v1/packages", "201") m' = 1 ∧ total ("POST", "unknown", "403") m' = 1.
Proof.
  destruct (requests_counted demo_encoder true shard_cfg chi_404 no_pattern chi_500 no_debt traffic no_metrics shard demo_encoder_ok demo_service_inv)
    as (m' & s' & os & E & _ & Hl & _).
  exists m', s', os. split; [exact E|]. split; [exact Hl|].
  assert ((fun m => (total ("POST", "/v1/packages", "201") m, total ("POST", "unknown", "403") m)) <$>
    Some (shard_Router demo_encoder true shard_cfg chi_404 no_pattern chi_500 traffic (no_metrics, shard)).1.1 = Some (1, 1)) as T by (vm_compute; reflexivity).
  rewrite -> E in T. cbn [fst fmap option_fmap option_map] in T. injection T as T1 T2. by split.
Defined.

Definition get_package : HRequest := MkHReq "GET" "/v1/packages/1" [("id", "1")] [] [] None 0.
Lemma rows_typed_witness :
  let s' := (ask post_xml shard).1 in
  typed s' ∧ size (content_blobs (db_tables (b_db (sv_store (sv_svc s'))))) = 1%nat ∧
  ∃ a pk, (ask get_package s').2 = Ok a ∧ hs_body a = EPackage pk ∧ answer_type pk.
Proof.
  intros s'. assert (typed shard) as Ht by (split_and!; [apply map_Forall_empty|constructor..]).
  assert (∃ a pk, (ask get_package s').2 = Ok a ∧ hs_body a = EPackage pk) as (a & pk & Ha & Hb).
  { vm_compute. do 2 eexists. split; reflexivity. }
  assert (find (matches get_package) (routes (sv_guard s')) = Some RPackage) as Hf by (vm_compute; reflexivity).
  assert (size (content_blobs (db_tables (b_db (sv_store (sv_svc s'))))) = 1%nat) as Hz by (vm_compute; reflexivity).
  assert (rtc (sstep demo_encoder true shard_cfg chi_404) shard s') as St by (apply rtc_once, step_request).
  clearbody s'. destruct (rows_typed demo_encoder true shard_cfg chi_404 shard s' Ht St) as [Ht' Hr].
  split; [exact Ht'|]. split; [exact Hz|]. exists a, pk. split; [exact Ha|]. split; [exact Hb|]. exact (Hr RPackage get_package a pk Hf Ha Hb).
Defined.
End ShardTraffic.

(** A download from a shard that answers with the JSON value null, then a listing. *)
Section CoordTraffic.
#[local] Instance null_json : CoordLib := {|
  float64 := Z; f64_int64 := fun z => z; json_map := fun _ => Ok None; json_bytes := fun v => Ok [];
  json_stats := fun d e => Err (errorf "invalid character"); url_parse := fun _ => Ok tt; url_with := fun u q => u; rfc3339 := fun _ => None |}.
Definition get_null : HRequest := MkHReq "GET" "/v1/packages/281474976710661" [("id", "281474976710661")] [] [] None 0.
Definition list_all : HRequest := MkHReq "GET" "/v1/admin/shards" [] [] [] None 0.
Definition plain_500 (_ : HRequest) : CoordServer.response := MkHResp 500 [] (RawBody []).
Definition plain_404 (_ : HRequest) : CoordServer.response := MkHResp 404 [] (RawBody []).

(** A panicking request is not counted.  When a shard answers a download with the
    JSON value null, the coordinator's handler panics; the client gets Recoverer's
    500, but neither the counter nor the latency series has the request, while the
    request after it is counted. *)
Theorem panicked_request_uncounted :
  let '((m, _), answers) := coord_Router demo_cfg plain_404 no_pattern plain_500 [(second, get_null); (millisecond, list_all)]
    (no_metrics, demo_world two_shards [ok_body (bs "null")] []) in
  match answers with Ok l => map hs_status l = [500; 200] | Err _ => False end ∧
  map_to_list (httpRequestsTotal m) = [(("GET", "/v1/admin/shards", "200"), 1)] ∧
  size (httpRequestDuration m) = 1%nat.
Proof. vm_compute. split_and!; reflexivity. Qed.
End CoordTraffic.
