(* ===== verification/ShardSync.v ===== *)
(** * Replication of the data directory: cmd/shard-sync

    A replica lists the primary's segment files and downloads those that differ
    in size or SHA-256, each into a temporary file that is synced and renamed.
    [fetch] is the HTTP client: it fails, or yields a status and a body that may
    end in an error; [decode_segments] is the JSON decoder.  A file of the replica is
    named by its path from the data directory: a name of the listing with slashes
    is a path, which [filepath.Join] cleans and which may lead out of the directory.
    Whether the directory of such a path exists is left to the faults of the disk. *)
From S2P Require Import Prelude GoLib Hash Record FS Segment SegmentStore SegmentDurable Ids Metadata MetadataInv Disk Compress Dedup BlobStore Detect Journal UnpackQueue Ingest IngestInv IngestSafe Config Http Api DiskGate ApiInv.

Abbreviation raw_response := (HResponse (bytes * option error)).
Class SegJSON := { decode_segments : bytes * option error → result (list segmentFileInfo) }.

(** [url.PathEscape]. *)
Definition path_plain (b : byte) : bool :=
  let n := bN b in
  ((97 <=? n) && (n <=? 122)) || ((65 <=? n) && (n <=? 90)) || is_digit b ||
  existsb (Z.eqb n) [45; 95; 46; 126; 36; 38; 43; 58; 61; 64].
Definition upperhex (z : Z) : byte := byte.of_Z (if z <? 10 then 48 + z else 55 + z).
Definition PathEscape (s : string) : string :=
  str (b ← bs s; if path_plain b then [b] else [x25; upperhex (bN b / 16); upperhex (bN b mod 16)]).

(** [filepath.Join(dataDir, name)], as a path from [dataDir]: the name's components
    without the empty ones and ".", a ".." taking the one before it away. *)
Fixpoint split_slash (cur l : bytes) : list bytes :=
  match l with
  | [] => [rev cur]
  | b :: l' => if bN b =? 47 then rev cur :: split_slash [] l' else split_slash (b :: cur) l'
  end.
Definition clean_step (stack : list bytes) (c : bytes) : list bytes :=
  if bool_decide (c ∈ [[]; [x2e]]) then stack else
  if bool_decide (c = [x2e; x2e]) then
    match stack with
    | [] => [c]
    | d :: rest => if bool_decide (d = c) then c :: stack else rest
    end
  else c :: stack.
Fixpoint with_slashes (cs : list bytes) : bytes :=
  match cs with [] => [] | [c] => c | c :: cs' => c ++ x2f :: with_slashes cs' end.
Definition Join (name : string) : string :=
  match fold_left clean_step (split_slash [] (bs name)) [] with
  | [] => "."
  | stack => str (with_slashes (rev stack))
  end.

Lemma split_plain l : Forall (fun b => bN b ≠ 47) l → ∀ cur, split_slash cur l = [rev cur ++ l].
Proof.
  induction 1 as [|b l Hb _ IH]; intros cur; cbn [split_slash]; [by rw app_nil_r|].
  replace (bN b =? 47) with false by lia. rw IH. cbn. by rw -app_assoc.
Qed.
Lemma until_slash_plain l : Forall (fun b => bN b ≠ 47) (until_slash l).
Proof. induction l as [|b l IH]; cbn; [done|]. destruct (Z.eqb_spec (bN b) 47); by constructor. Qed.

(** A base name is itself. *)
Lemma Join_base n : n ∉ [""; "."; ".."; "/"] → Base n = n → Join n = n.
Proof.
  intros Hn Hb. assert (Forall (fun b => bN b ≠ 47) (bs n)) as Hp.
  { unfold Base in Hb. destruct (n =? "")%string eqn:E; [apply String.eqb_eq in E; set_solver|].
    destruct (strings.drop_slashes _) as [|b l]; [exfalso; apply Hn; rewrite <- Hb; set_solver|].
    rewrite <- Hb, bs_str. apply Forall_rev, until_slash_plain. }
  assert (∀ s, s ∈ [""; "."; ".."; "/"] → bs n ≠ bs s) as Hne.
  { intros s Hs E. apply (f_equal str) in E. rewrite -> !str_bs in E. by subst. }
  unfold Join. rewrite -> split_plain by done. cbn [rev app fold_left]. unfold clean_step.
  rewrite -> bool_decide_eq_false_2; [rewrite -> bool_decide_eq_false_2; [cbn; apply str_bs|]|].
  - apply (Hne ".."). set_solver.
  - intros [E|[E|[]%not_elem_of_nil]%elem_of_cons]%elem_of_cons; [apply (Hne ""); [set_solver|done]|apply (Hne "."); [set_solver|done]].
Qed.

(** A listed name may lead out of the data directory. *)
Example Join_escapes : Join "segment_/../../etc.dat" = "../etc.dat" ∧ Join "segment_1/.//a/../b.idx" = "segment_1/b.idx".
Proof. split; reflexivity. Qed.

Section Sync.
Context {P : Type} `{SegJSON}.
Context (fetch : string → list (string * string) → M P raw_response).
Context (primaryURL clusterKey : string).

Record Sync : Type := MkSync { sy_primary : P; sy_fs : FS }.
Definition remote {A} (m : M P A) : M Sync A := zoom sy_primary (fun p s => MkSync p (sy_fs s)) m.
Definition local {A} (m : M FS A) : M Sync A := zoom sy_fs (fun fs s => MkSync (sy_primary s) fs) m.

Definition setClusterKey (key : string) : list (string * string) :=
  if (key =? "")%string then [] else [("X-Cluster-Key", key)].

Definition list_url : string := primaryURL +:+ "/v1/internal/segments".
Definition segment_url (name : string) : string := primaryURL +:+ "/v1/internal/segments/" +:+ PathEscape name.

Definition allowedSyncFile (name : string) : bool :=
  (strings.HasPrefix name "segment_" && (strings.HasSuffix name ".dat" || strings.HasSuffix name ".idx")) ||
  (name =? "ingest_journal.ndjson")%string.

Definition isFileInSync (path : string) (remote : segmentFileInfo) : M FS bool :=
  let! info := try (os.Stat path) in
  match info with
  | Err e => if error_is e ErrNotExist then mret false else fail e
  | Ok info =>
      if negb (info.1 =? sf_Size remote) then mret false else
      if (sf_SHA256 remote =? "")%string then mret false else
      let! sum := fileSHA256 path in
      mret (strings.EqualFold sum (sf_SHA256 remote))
  end.

(** [os.Create]: open for writing, creating or truncating. *)
Definition Create (name : string) : M FS File :=
  let! f := os.OpenFile name true false in
  do! modify (fun fs => set_nodes (alter (fun i => Inode [] [] (fs_clock fs)) (f_ino f)) fs);
  mret f.

(** [io.Copy(f, body)]: what the body holds, then its error. *)
Definition Copy (f : File) (body : bytes * option error) : M FS File :=
  let! f' := if zlen body.1 =? 0 then mret f else os.Write f body.1 in
  match body.2 with None => mret f' | Some e => fail e end.

Definition remove_and {A} (tmp : string) (e : error) : M FS A := do! ignore (os.Remove tmp); fail e.

(** The local part of [downloadSegment]. *)
Definition store_segment (dest : string) (body : bytes * option error) : M FS unit :=
  let tmp := dest +:+ ".tmp" in
  let! f := Create tmp in
  let! w := try (Copy f body) in
  match w with
  | Err e => remove_and tmp e
  | Ok f =>
      let! s := try (os.Sync f) in
      match s with
      | Err e => remove_and tmp e
      | Ok _ => os.Rename tmp dest
      end
  end.

Definition downloadSegment (name dest : string) : M Sync unit :=
  let! resp := remote (fetch (segment_url name) (setClusterKey clusterKey)) in
  if negb (hs_status resp =? 200) then fail (errorf ("download " +:+ name +:+ ": " +:+ str (hs_body resp).1)) else
  local (store_segment dest (hs_body resp)).

Definition sync_file (f : segmentFileInfo) : M Sync unit :=
  if negb (allowedSyncFile (sf_Name f)) then mret tt else
  let dest := Join (sf_Name f) in
  let! inSync := try (local (isFileInSync dest f)) in
  match inSync with
  | Ok true => mret tt
  | _ => downloadSegment (sf_Name f) dest
  end.

Definition syncOnce : M Sync unit :=
  let! resp := remote (fetch list_url (setClusterKey clusterKey)) in
  if negb (hs_status resp =? 200) then fail (errorf ("list segments: " +:+ str (hs_body resp).1)) else
  let! files := lift_result (decode_segments (hs_body resp)) in
  do! local os.MkdirAll;
  forM_ files sync_file.

(** The key of [main]: CLUSTER_KEY, else SHARD_CLUSTER_KEY. *)
Definition sync_key `{EnvLib} (cfg : config.Config) : string :=
  if (config.ClusterKey cfg =? "")%string then config.ShardClusterKey cfg else config.ClusterKey cfg.

(** ** No partial file, whatever fails *)
Definition node_at (fs : FS) (n : string) : option inode := fs_dir fs !! n ≫= fun ino => fs_nodes fs !! ino.

(** The file [n] is as it was, or a complete body that the primary answered with,
    which a crash does not lose. *)
Definition whole (served : string → bytes → Prop) (fs fs' : FS) (n : string) : Prop :=
  node_at fs' n = node_at fs n ∨ ∃ i, node_at fs' n = Some i ∧ served n (i_data i) ∧ i_stable i = i_data i.

Lemma whole_trans served fs1 fs2 fs3 n : whole served fs1 fs2 n → whole served fs2 fs3 n → whole served fs1 fs3 n.
Proof. intros [E1|(i & E1 & X1)] [E2|(j & E2 & X2)]; unfold whole; rw E2 ?E1; eauto 6. Qed.

Lemma only_node p fs fs' n : only p fs fs' → n ≠ p → node_at fs' n = node_at fs n.
Proof.
  intros (_ & D & N & _) Hn. unfold node_at. rw D //. destruct (fs_dir fs !! n) as [ino|] eqn:E; [|done]. cbn. by rw (N n).
Qed.

Lemma Create_only p fs fs' r : fs_wf fs → Create p fs = (fs', r) →
  only p fs fs' ∧ match r with
  | Ok f => fs_dir fs' !! p = Some (f_ino f) ∧ f_open f = true ∧ f_pos f = 0 ∧ f_append f = false ∧
      ∃ i, fs_nodes fs' !! f_ino f = Some i ∧ i_data i = []
  | Err _ => True
  end.
Proof.
  intros W E. unfold Create in E. apply bind_inv in E as [(fs1 & f & E1 & E)|(e & E1 & ->)]; apply OpenFile_inv in E1.
  2:{ split; [|done]. by apply only_core. }
  destruct E1 as [Hop Ha]. destruct (only_opened _ _ _ _ _ W Hop) as [O1 D1]. unfold modify in E.
  erewrite bind_ok in E by reflexivity. munfold. injection E as <- <-.
  destruct (wf_dir _ (proj1 O1) _ _ D1) as [i Hi]. split.
  - eapply only_trans; [exact O1|]. apply only_alter; [apply O1|done|done].
  - destruct Hop as (Ho & Hp & _). split_and!; try done. eexists. cbn. by rw lookup_alter_eq Hi.
Qed.

(** The copy puts exactly the body into the empty file, or fails. *)
Lemma Copy_only p f body fs fs' r :
  fs_wf fs → fs_dir fs !! p = Some (f_ino f) → f_open f = true → f_pos f = 0 → f_append f = false →
  (∃ i, fs_nodes fs !! f_ino f = Some i ∧ i_data i = []) → Copy f body fs = (fs', r) →
  only p fs fs' ∧ match r with
  | Ok f' => f_ino f' = f_ino f ∧ f_open f' = true ∧ body.2 = None ∧ ∃ i, fs_nodes fs' !! f_ino f = Some i ∧ i_data i = body.1
  | Err _ => True
  end.
Proof.
  intros W D Ho Hp Ha (i & Hi & Hd) E. unfold Copy in E.
  assert (∀ fs1 r1, (if zlen body.1 =? 0 then mret f else os.Write f body.1) fs = (fs1, r1) → only p fs fs1 ∧
    match r1 with Ok f' => f_ino f' = f_ino f ∧ f_open f' = true ∧ ∃ i, fs_nodes fs1 !! f_ino f = Some i ∧ i_data i = body.1 | Err _ => True end) as Hw.
  { intros fs1 r1 E1. destruct (zlen body.1 =? 0) eqn:Ez.
    - munfold. injection E1 as <- <-. split; [by apply only_core|]. split; [done|]. split; [done|]. exists i. split; [done|].
      rw Hd. by destruct body.1.
    - pose proof E1 as E1'. apply (only_Write p) in E1' as [O1 _]; [|done|done]. split; [done|].
      unfold os.Write in E1. erewrite bind_ok in E1 by (apply node_of_ok; split; [done|exact Hi]). rw Ha Hp in E1.
      apply bind_inv in E1 as [(fs2 & n & E2 & E1)|(e & E2 & ->)]; [|done].
      destruct (WriteAt_inv _ _ _ _ _ _ i E2) as [_ [_ Hn]]; [by split|unfold zlen; rw Hd; cbn; lia|].
      munfold. injection E1 as <- <-. cbn. split; [done|]. split; [done|]. eexists. split; [exact Hn|]. cbn. rw Hd.
      unfold os.splice. cbn. by rw drop_nil app_nil_r. }
  apply bind_inv in E as [(fs1 & f1 & E1 & E)|(e & E1 & ->)]; apply Hw in E1 as [O1 X1]; [|done].
  destruct body.2; munfold; injection E as <- <-; [done|]. destruct X1 as (X1 & X2 & X3). by split_and!.
Qed.

Lemma fs_wf_set_dir d fs : fs_wf fs →
  (∀ n ino, d !! n = Some ino → is_Some (fs_nodes fs !! ino)) →
  (∀ n1 n2 ino, d !! n1 = Some ino → d !! n2 = Some ino → n1 = n2) → fs_wf (set_dir (fun _ => d) fs).
Proof. intros [W1 W2 W3 W4] Hd Hi. by split. Qed.

(** Removing or renaming the temporary file. *)
Lemma remove_node p fs fs' r : fs_wf fs → os.Remove p fs = (fs', r) →
  fs_wf fs' ∧ ∀ n, n ≠ p → node_at fs' n = node_at fs n.
Proof.
  intros W E. unfold os.Remove in E. apply guarded_inv in E as (fs0 & Hc & E).
  pose proof (fs_wf_core _ _ Hc W) as W0. unfold fs_core in Hc. injection Hc as Hd Hn _ _.
  assert (∀ n, node_at fs0 n = node_at fs n) as H0 by (intros n; unfold node_at; by rw Hd Hn).
  destruct E as [E|[-> _]]; [|by split; [|intros; apply H0]].
  destruct (fs_dir fs0 !! p) as [ino|] eqn:Ep; injection E as <- _; [|by split; [|intros; apply H0]]. split.
  - apply (fs_wf_set_dir (delete p (fs_dir fs0)) fs0 W0).
    + intros n j [_ Hj]%lookup_delete_Some. by eapply W0.
    + intros n1 n2 j [_ Hj1]%lookup_delete_Some [_ Hj2]%lookup_delete_Some. by eapply W0.
  - intros n Hne. rw -H0. unfold node_at, set_dir. cbn. by rw lookup_delete_ne.
Qed.

Lemma rename_node p q fs fs' r : fs_wf fs → p ≠ q → os.Rename p q fs = (fs', r) →
  fs_wf fs' ∧ (∀ n, n ≠ p → n ≠ q → node_at fs' n = node_at fs n) ∧
  if is_ok r then node_at fs' q = node_at fs p else node_at fs' q = node_at fs q.
Proof.
  intros W Hpq E. unfold os.Rename in E. apply guarded_inv in E as (fs0 & Hc & E).
  pose proof (fs_wf_core _ _ Hc W) as W0. unfold fs_core in Hc. injection Hc as Hd Hn _ _.
  assert (∀ n, node_at fs0 n = node_at fs n) as H0 by (intros n; unfold node_at; by rw Hd Hn).
  destruct E as [E|[-> ->]]; [|split_and!; try done; intros; apply H0].
  destruct (fs_dir fs0 !! p) as [ino|] eqn:Ep; injection E as <- <-; [|split_and!; try done; intros; apply H0].
  split; [|split].
  - apply (fs_wf_set_dir (<[q := ino]> (delete p (fs_dir fs0))) fs0 W0).
    + intros n j [[_ <-]|[_ [_ Hj]%lookup_delete_Some]]%lookup_insert_Some; by eapply W0.
    + assert (∀ n j, q ≠ n → delete p (fs_dir fs0) !! n = Some j → j ≠ ino) as Hfresh.
      { intros n j _ [Hnp Hj]%lookup_delete_Some ->. apply Hnp. by eapply (wf_inj _ W0). }
      intros n1 n2 j [[<- <-]|[N1 Hj1]]%lookup_insert_Some [[<- E]|[N2 Hj2]]%lookup_insert_Some; try done.
      * by apply Hfresh in Hj2.
      * apply Hfresh in Hj1; congruence.
      * apply lookup_delete_Some in Hj1 as [_ Hj1], Hj2 as [_ Hj2]. by eapply W0.
  - intros n Hnp Hnq. rw -H0. unfold node_at, set_dir. cbn. by rw lookup_insert_ne // lookup_delete_ne.
  - cbn. rw -H0. unfold node_at, set_dir. cbn. by rw lookup_insert_eq Ep.
Qed.

Lemma tmp_ne (n : string) : n +:+ ".tmp" ≠ n.
Proof. intros E. apply (f_equal (fun s => length (bs s))) in E. rw bs_app length_app in E. cbn in E. lia. Qed.

(** Storing a body: the destination is left alone, or becomes the whole body. *)
Lemma store_segment_whole dest body fs fs' r : fs_wf fs → store_segment dest body fs = (fs', r) →
  fs_wf fs' ∧ (∀ n, n ≠ dest +:+ ".tmp" → n ≠ dest → node_at fs' n = node_at fs n) ∧
  if is_ok r then body.2 = None ∧ ∃ i, node_at fs' dest = Some i ∧ i_data i = body.1 ∧ i_stable i = i_data i
  else node_at fs' dest = node_at fs dest.
Proof.
  intros W E. unfold store_segment in E. set (tmp := dest +:+ ".tmp") in *. pose proof (tmp_ne dest : tmp ≠ dest) as Hne.
  assert (∀ fs1 e, only tmp fs fs1 → remove_and tmp e fs1 = (fs', r) → fs_wf fs' ∧
    (∀ n, n ≠ tmp → n ≠ dest → node_at fs' n = node_at fs n) ∧ is_ok r = false ∧ node_at fs' dest = node_at fs dest) as Hrm.
  { intros fs1 e O1 E1. unfold remove_and, ignore in E1. destruct (os.Remove tmp fs1) as [fs2 x] eqn:E2. munfold.
    rw E2 in E1. injection E1 as <- <-. apply remove_node in E2 as [W2 N2]; [|apply O1]. split; [done|].
    assert (∀ n, n ≠ tmp → node_at fs2 n = node_at fs n) as Hn by (intros n Hn; by rw N2 // (only_node tmp _ _ n O1)).
    split; [by auto|]. split; [done|]. by apply Hn. }
  apply bind_inv in E as [(fs1 & f & E1 & E)|(e & E1 & ->)]; apply Create_only in E1 as [O1 X1]; try done.
  2:{ split; [apply O1|]. split; [intros; by eapply only_node|]. by eapply only_node. }
  destruct X1 as (D1 & Ho & Hp & Ha & Hi). apply bind_inv in E as [(fs2 & w & E2 & E)|(e & E2 & ->)]; apply try_inv in E2 as (w' & E2 & Hw); [|done].
  injection Hw as ->. apply (Copy_only tmp) in E2 as [O2 X2]; try done; [|apply O1]. pose proof (only_trans _ _ _ _ O1 O2) as O12.
  destruct w' as [f2|e]; [|destruct (Hrm _ _ O12 E) as (? & ? & -> & ?); by split_and!].
  destruct X2 as (Hi2 & Ho2 & Hb & i & Hi' & Hdat). assert (fs_dir fs2 !! tmp = Some (f_ino f2)) as D2 by (rw Hi2; by apply O2).
  apply bind_inv in E as [(fs3 & w & E3 & E)|(e & E3 & ->)]; apply try_inv in E3 as (w' & E3 & Hw); [|done].
  injection Hw as ->. pose proof (only_Sync tmp _ _ _ _ (proj1 O2) D2 E3) as O3. pose proof (only_trans _ _ _ _ O12 O3) as O13.
  destruct w' as [u|e]; [|destruct (Hrm _ _ O13 E) as (? & ? & -> & ?); by split_and!].
  destruct (Sync_inv _ _ _ _ i 0 E3) as [_ Hi3]; [split; [done|by rw Hi2]|done|]. cbn in Hi3.
  apply rename_node in E as (W4 & N4 & X4); [|apply O3|done]. split; [done|].
  split; [intros n Hn1 Hn2; by rw N4 // (only_node tmp _ _ n O13)|].
  destruct (is_ok r); [|by rw X4; apply (only_node tmp)]. split; [done|]. exists (Inode (i_data i) (i_data i) (i_mtime i)).
  split; [|done]. rw X4. unfold node_at. destruct O3 as (_ & _ & _ & P3). rw (P3 _ D2). exact Hi3.
Qed.

Lemma local_inv {A} (m : M FS A) s s' r :
  local m s = (s', r) → ∃ fs', m (sy_fs s) = (fs', r) ∧ s' = MkSync (sy_primary s) fs'.
Proof. unfold local, zoom. destruct (m (sy_fs s)). intros [= <- <-]. eauto. Qed.
Lemma remote_inv {A} (m : M P A) s s' r :
  remote m s = (s', r) → ∃ p', m (sy_primary s) = (p', r) ∧ s' = MkSync p' (sy_fs s).
Proof. unfold remote, zoom. destruct (m (sy_primary s)). intros [= <- <-]. eauto. Qed.

Lemma reads_isFileInSync p f : reads (isFileInSync p f).
Proof.
  apply reads_bind; [apply reads_try, reads_Stat|]. intros [info|e]; [|destruct (error_is _ _); [apply reads_ret|by intros fs fs' r [= <- _]]].
  destruct (negb _); [apply reads_ret|]. destruct (_ =? _)%string; [apply reads_ret|].
  apply reads_bind; [apply reads_fileSHA256|]. intros; apply reads_ret.
Qed.

Lemma core_node fs fs' n : fs_core fs' = fs_core fs → node_at fs' n = node_at fs n.
Proof. intros Hc. unfold fs_core in Hc. injection Hc as Hd Hn _ _. unfold node_at. by rw Hd Hn. Qed.

(** What the primary answers the downloads of a file with. *)
Context (served : string → bytes → Prop).
Context (Hserved : ∀ p p' resp n, fetch (segment_url n) (setClusterKey clusterKey) p = (p', Ok resp) →
  hs_status resp = 200 → (hs_body resp).2 = None → served (Join n) (hs_body resp).1).

Definition temporary (n : string) : Prop := ∃ m, allowedSyncFile m = true ∧ n = Join m +:+ ".tmp".

Lemma sync_file_whole f s s' r : fs_wf (sy_fs s) → sync_file f s = (s', r) →
  fs_wf (sy_fs s') ∧ ∀ n, ¬ temporary n → whole served (sy_fs s) (sy_fs s') n.
Proof.
  intros W E. unfold sync_file in E. destruct (allowedSyncFile (sf_Name f)) eqn:Ha; cbn [negb] in E.
  2:{ munfold. injection E as <- _. split; [done|]. by left. }
  apply bind_inv in E as [(s1 & o & E1 & E)|(e & E1 & ->)]; apply try_inv in E1 as (r1 & E1 & Hr); [|done].
  injection Hr as ->. apply local_inv in E1 as (fs1 & E1 & ->). apply reads_isFileInSync in E1.
  pose proof (fs_wf_core _ _ E1 W) as W1. pose proof (fun n => core_node _ _ n E1) as N1.
  assert (downloadSegment (sf_Name f) (Join (sf_Name f)) (MkSync (sy_primary s) fs1) = (s', r) → fs_wf (sy_fs s') ∧
    ∀ n, ¬ temporary n → whole served (sy_fs s) (sy_fs s') n) as Hdl.
  { intros E2. unfold downloadSegment in E2.
    apply bind_inv in E2 as [(s2 & resp & E3 & E2)|(e & E3 & ->)]; apply remote_inv in E3 as (p2 & E3 & ->); cbn [sy_fs sy_primary] in *.
    2:{ split; [done|]. intros n _. left. apply N1. }
    destruct (hs_status resp =? 200) eqn:Es; cbn [negb] in E2.
    2:{ munfold. injection E2 as <- _. split; [done|]. intros n _. left. apply N1. }
    apply local_inv in E2 as (fs3 & E2 & ->). apply store_segment_whole in E2 as (W3 & N3 & X3); [|done]. cbn [sy_fs] in *.
    split; [done|]. intros n Hn. destruct (decide (n = Join (sf_Name f))) as [->|Hne].
    - destruct (is_ok r); [|left; by rw X3]. destruct X3 as (Hb & i & Hi & Hd & Hst). right. exists i. split; [done|].
      split; [|done]. rw Hd. eapply Hserved; [exact E3|lia|done].
    - left. rw N3 // => Et. apply Hn. by exists (sf_Name f). }
  destruct r1 as [[]|e]; [|by apply Hdl..]. munfold. injection E as <- _. split; [done|]. intros n _. left. apply N1.
Qed.

Lemma sync_files_whole files s s' r : fs_wf (sy_fs s) → forM_ files sync_file s = (s', r) →
  fs_wf (sy_fs s') ∧ ∀ n, ¬ temporary n → whole served (sy_fs s) (sy_fs s') n.
Proof.
  revert s; induction files as [|f files IH]; intros s W E; cbn [forM_] in E.
  { munfold. injection E as <- _. split; [done|]. by left. }
  apply bind_inv in E as [(s1 & u & E1 & E)|(e & E1 & ->)]; apply sync_file_whole in E1 as [W1 N1]; try done.
  apply IH in E as [W2 N2]; [|done]. split; [done|]. intros n Hn. eapply whole_trans; [by apply N1|by apply N2].
Qed.

(** One round: the files stay whole. *)
Lemma syncOnce_whole s s' r : fs_wf (sy_fs s) → syncOnce s = (s', r) →
  fs_wf (sy_fs s') ∧ ∀ n, ¬ temporary n → whole served (sy_fs s) (sy_fs s') n.
Proof.
  intros W E. unfold syncOnce in E.
  apply bind_inv in E as [(s1 & resp & E1 & E)|(e & E1 & ->)]; apply remote_inv in E1 as (p1 & E1 & ->); [|split; [done|by left]].
  destruct (negb _); [munfold; injection E as <- _; split; [done|by left]|].
  apply bind_inv in E as [(s2 & files & E2 & E)|(e & E2 & ->)]; unfold lift_result in E2; injection E2 as <- E2; [|split; [done|by left]].
  apply bind_inv in E as [(s3 & u & E3 & E)|(e & E3 & ->)]; apply local_inv in E3 as (fs3 & E3 & ->);
    apply (reads_guarded (mret tt) ltac:(done)) in E3; cbn [sy_fs] in *; [|split; [by eapply fs_wf_core|left; by apply core_node]].
  apply sync_files_whole in E as [W' N]; [|by eapply fs_wf_core]. split; [done|]. intros n Hn.
  eapply whole_trans; [|by apply N]. left. by apply core_node.
Qed.
End Sync.
