(* ===== verification/Bootstrap.v ===== *)
(** * The compression dictionary: internal/compress (train.go) and what bootstrap.go promises

    Collecting training samples from example archives, and the dictionary across
    restarts of the shard: blobs are compressed with it, so the one that was chosen
    must be the one that every later start finds. *)
From S2P Require Import Prelude GoLib Hash FS Metadata MetadataInv Disk Compress BlobStore Detect Journal ApiInv ShardSync.

(** ** Training samples *)

(** What [filepath.WalkDir] finds: files, with what reading them gives, and
    directories, with what listing them gives (in lexical order). *)
Inductive tree : Type :=
  | TFile (name : string) (content : result bytes)
  | TDir (entries : result (list tree)).

Section Train.
Context `{ZipLib}.

Fixpoint xml_members (files : list zip_file) : result (list bytes) :=
  match files with
  | [] => Ok []
  | f :: files' =>
      if zf_IsDir f then xml_members files' else
      if negb (strings.HasSuffix (strings.ToLower (zf_Name f)) ".xml") then xml_members files' else
      let! _ := zf_open f in
      let! body := match zf_end f with Some e => Err e | None => Ok (zf_stream f) end in
      let! out := xml_members files' in
      Ok (body :: out)
  end.
Definition extractXMLFromZip (data : bytes) : result (list bytes) :=
  let! files := zipReader data in xml_members files.

Section Walk.
Context (maxSamples : Z).

(** The inner loop of the callback: [io.EOF] when there are enough. *)
Fixpoint add_samples (xmls : list bytes) : M (list bytes) unit :=
  match xmls with
  | [] => mret tt
  | x :: xmls' =>
      do! modify (fun samples => samples ++ [x]);
      let! samples := get in
      if (0 <? maxSamples) && (maxSamples <=? zlen samples) then fail eof else add_samples xmls'
  end.

Definition visit (name : string) (content : result bytes) : M (list bytes) unit :=
  if negb (strings.HasSuffix (strings.ToLower name) ".zip") then mret tt else
  match content with
  | Err e => fail e
  | Ok data => match extractXMLFromZip data with Err _ => mret tt | Ok xmls => add_samples xmls end
  end.

(** The walk stops at the first error of the callback. *)
Fixpoint walkDir (t : tree) : M (list bytes) unit :=
  match t with
  | TFile name content => visit name content
  | TDir (Err e) => fail e
  | TDir (Ok ts) => (fix walks (ts : list tree) : M (list bytes) unit :=
      match ts with [] => mret tt | t :: ts' => do! walkDir t; walks ts' end) ts
  end.

(** The samples come with the error, as the caller uses them all the same. *)
Definition LoadSamplesFromExamples (root : result tree) : list bytes * option error :=
  match root with
  | Err e => ([], Some e)
  | Ok t =>
      match walkDir t [] with
      | (samples, Ok _) => (samples, None)
      | (samples, Err e) => (samples, if bool_decide (e = eof) then None else Some e)
      end
  end.

(** The reference: the XML members of all archives that open, in order. *)
Definition file_samples (name : string) (content : result bytes) : list bytes :=
  if negb (strings.HasSuffix (strings.ToLower name) ".zip") then [] else
  match content with
  | Err _ => []
  | Ok data => match extractXMLFromZip data with Err _ => [] | Ok xmls => xmls end
  end.
Fixpoint all_samples (t : tree) : list bytes :=
  match t with
  | TFile name content => file_samples name content
  | TDir (Err _) => []
  | TDir (Ok ts) => flat_map all_samples ts
  end.
Fixpoint readable (t : tree) : Prop :=
  match t with
  | TFile _ content => is_ok content = true
  | TDir (Err _) => False
  | TDir (Ok ts) => (fix all (ts : list tree) : Prop := match ts with [] => True | t :: ts' => readable t ∧ all ts' end) ts
  end.

(** A step that adds [new]: it stops when there are enough. *)
Definition adds (m : M (list bytes) unit) (new : list bytes) : Prop :=
  ∀ s, (0 < maxSamples → zlen s < maxSamples) →
    m s = if (0 <? maxSamples) && (maxSamples <=? zlen (s ++ new)) then (take (Z.to_nat maxSamples) (s ++ new), Err eof)
          else (s ++ new, Ok tt).

Lemma adds_nil : adds (mret tt) [].
Proof.
  intros s Hs. rewrite -> app_nil_r. destruct (0 <? maxSamples) eqn:E; [|done]. cbn.
  replace (maxSamples <=? zlen s) with false by (specialize (Hs ltac:(lia)); lia). done.
Qed.

Lemma adds_bind m k new new' : adds m new → adds k new' → adds (m ≫= fun _ => k) (new ++ new').
Proof.
  intros Hm Hk s Hs. rewrite -> app_assoc. unfold mbind, M_bind. rewrite -> (Hm s Hs).
  destruct ((0 <? maxSamples) && (maxSamples <=? zlen (s ++ new))) eqn:E.
  - apply andb_prop in E as [E1 E2]. rewrite -> zlen_app. pose proof (zlen_nonneg new').
    rewrite -> E1. replace (maxSamples <=? zlen (s ++ new) + zlen new') with true by lia. cbn.
    rewrite -> (take_app_le (s ++ new) new'); [done|]. unfold zlen in E2. lia.
  - apply Hk. intros Hp. apply andb_false_iff in E as [E|E]; lia.
Qed.

Lemma add_samples_adds xmls : adds (add_samples xmls) xmls.
Proof.
  induction xmls as [|x xmls IH]; [apply adds_nil|]. intros s Hs. cbn. unfold mbind, M_bind, modify, get. cbn.
  assert (s ++ x :: xmls = (s ++ [x]) ++ xmls) as -> by (by rewrite <- app_assoc).
  destruct ((0 <? maxSamples) && (maxSamples <=? zlen (s ++ [x]))) eqn:E.
  - apply andb_prop in E as [E1 E2]. specialize (Hs ltac:(lia)). rewrite -> !zlen_app in *. cbn in E2.
    pose proof (zlen_nonneg xmls). change (zlen [x]) with 1 in *. rewrite -> E1. replace (maxSamples <=? zlen s + 1 + zlen xmls) with true by lia.
    cbn. rewrite -> (take_app_le (s ++ [x]) xmls) by (rewrite -> length_app; cbn; unfold zlen in *; lia).
    rewrite -> take_ge by (rewrite -> length_app; cbn; unfold zlen in *; lia). done.
  - apply IH. intros Hp. apply andb_false_iff in E as [E|E]; lia.
Qed.

Lemma walk_adds : ∀ t, readable t → adds (walkDir t) (all_samples t).
Proof.
  fix IH 1. intros [name content|[ts|e]] Hr; [| |done].
  - cbn in *. unfold visit, file_samples. destruct (negb _); [apply adds_nil|]. destruct content as [data|]; [|done].
    destruct (extractXMLFromZip data); [apply add_samples_adds|apply adds_nil].
  - cbn. induction ts as [|t ts IHts]; [apply adds_nil|]. destruct Hr as [H1 H2]. cbn.
    apply adds_bind; [by apply IH|by apply IHts].
Qed.

(** When everything can be read, the samples are the first [maxSamples] of the
    reference, or all of it when there is no limit. *)
Lemma LoadSamples_spec t : readable t →
  LoadSamplesFromExamples (Ok t) = (if 0 <? maxSamples then take (Z.to_nat maxSamples) (all_samples t) else all_samples t, None).
Proof.
  intros Hr. cbn. rewrite -> (walk_adds t Hr []) by (unfold zlen; cbn; lia). cbn [app].
  destruct (0 <? maxSamples) eqn:E; [|done]. cbn. destruct (maxSamples <=? zlen (all_samples t)) eqn:E2; [done|].
  rewrite -> take_ge; [done|]. unfold zlen in E2. lia.
Qed.
End Walk.
End Train.

(** ** The dictionary's files *)
Section SidecarFiles.
Context `{MetaJSONLaws}.

(** What the directory of dictionaries holds: nothing yet, or one by its id. *)
Definition holds_dict (fs : FS) (o : option (Z * bytes)) : Prop :=
  match o with
  | None => node_at fs "current.json" = None
  | Some (id, dict) => dict ≠ [] ∧ ∃ i j sha name,
      node_at fs "current.json" = Some i ∧ unmarshal_meta (i_data i) = Ok (MkMetaFile id sha name) ∧
      node_at fs name = Some j ∧ i_data j = dict ∧ EncodeToString (sha256.Sum256 dict) = sha
  end.

Lemma holds_dict_core fs fs' o : fs_core fs' = fs_core fs → holds_dict fs o → holds_dict fs' o.
Proof.
  intros Hc. destruct o as [[id dict]|]; unfold holds_dict; [|by rewrite -> (core_node _ _ _ Hc)].
  by setoid_rewrite (fun n => core_node _ _ n Hc).
Qed.

Lemma ReadFile_node name fs fs' r : os.ReadFile name fs = (fs', r) → fs_core fs' = fs_core fs ∧
  match r with
  | Ok d => ∃ i, node_at fs name = Some i ∧ d = i_data i
  | Err e => error_is e ErrNotExist = true → node_at fs name = None
  end.
Proof.
  intros E. split; [by eapply reads_ReadFile|]. unfold os.ReadFile in E. apply guarded_inv in E as (fs0 & Hc & [E|[-> ->]]); [|done].
  fold (node_at fs0 name) in E. rewrite -> (core_node _ _ name Hc) in E.
  destruct (node_at fs name) as [i|]; injection E as <- <-; eauto.
Qed.

Lemma LoadCurrent_inv o fs fs' r : holds_dict fs o → LoadCurrent fs = (fs', r) →
  fs_core fs' = fs_core fs ∧ match r with Ok x => x = default (0, []) o | Err _ => True end.
Proof.
  intros Ho E. unfold LoadCurrent in E. apply bind_inv in E as [(fs1 & r1 & E1 & E)|(e & E1 & _)].
  2:{ by apply try_inv in E1 as (? & _ & ?). }
  apply try_inv in E1 as (r1' & E1 & [= ->]). apply ReadFile_node in E1 as [C1 X1]. destruct r1' as [mb|e].
  - destruct X1 as (i & Hi & ->). destruct o as [[id dict]|]; cbn in Ho; [|congruence].
    destruct Ho as (_ & i' & j & sha & name & Hi' & Hm & Hj & Hd & Hs). assert (i' = i) as -> by congruence.
    unfold lift_result in E. rewrite -> Hm in E. erewrite bind_ok in E by reflexivity. cbn [cm_Filename cm_SHA256 cm_DictID] in E.
    apply bind_inv in E as [(fs2 & d & E2 & E)|(e & E2 & ->)]; apply ReadFile_node in E2 as [C2 X2]; [|split; [congruence|done]].
    destruct X2 as (j' & Hj' & ->). rewrite -> (core_node _ _ _ C1) in Hj'. assert (j' = j) as -> by congruence.
    destruct (_ =? _)%string; munfold; injection E as <- <-; (split; [congruence|]); [cbn; by rewrite -> Hd|done].
  - destruct (error_is e ErrNotExist) eqn:Ee; munfold; injection E as <- <-; (split; [done|]); [|done].
    specialize (X1 eq_refl). destruct o as [[id dict]|]; [|done]. destruct Ho as (_ & i & j & sha & name & Hi & _). congruence.
Qed.

Lemma ReadFile_ok name fs : fs_faults fs = [] →
  os.ReadFile name fs = (fs, match node_at fs name with Some i => Ok (i_data i) | None => Err not_exist end).
Proof.
  intros Hf. unfold os.ReadFile. rewrite -> guarded_none by done. fold (node_at fs name). by destruct (node_at fs name).
Qed.

Lemma LoadCurrent_ok o fs : holds_dict fs o → fs_faults fs = [] → LoadCurrent fs = (fs, Ok (default (0, []) o)).
Proof.
  intros Ho Hf. unfold LoadCurrent. erewrite bind_ok by (apply try_run, ReadFile_ok, Hf).
  destruct o as [[id dict]|]; cbn in Ho; [|by rewrite -> Ho].
  destruct Ho as (_ & i & j & sha & name & -> & Hm & Hj & Hd & Hs).
  unfold lift_result. rewrite -> Hm. erewrite bind_ok by reflexivity. cbn [cm_Filename cm_SHA256 cm_DictID].
  erewrite bind_ok by (rewrite -> (ReadFile_ok name fs Hf), Hj; reflexivity).
  rewrite -> Hd, Hs, String.eqb_refl. done.
Qed.

(** The names that [Save] uses are different ones. *)
Lemma dict_name_ne id sha : dictFilename id sha ≠ "current.json" ∧ dictFilename id sha ≠ "current.json.tmp" ∧
  dictFilename id sha +:+ ".tmp" ≠ "current.json" ∧ dictFilename id sha +:+ ".tmp" ≠ "current.json.tmp".
Proof. unfold dictFilename. split_and!; by intros [=]. Qed.

(** A write of a file without an fsync: a crash may leave nothing of it. *)
Lemma WriteFile_node p d fs fs' r : fs_wf fs → os.WriteFile p d fs = (fs', r) →
  fs_wf fs' ∧ (∀ n, n ≠ p → node_at fs' n = node_at fs n) ∧
  match r with Ok _ => ∃ i, node_at fs' p = Some i ∧ i_data i = d ∧ i_stable i = [] | Err _ => True end.
Proof.
  intros W E. pose proof (only_WriteFile _ _ _ _ _ W E) as O. split; [apply O|]. split; [intros n Hn; by eapply only_node|].
  unfold os.WriteFile in E. apply bind_inv in E as [(fs1 & f & E1 & E)|(e & E1 & ->)]; [|done].
  apply OpenFile_inv in E1 as [Hop _]. destruct (only_opened _ _ _ _ _ W Hop) as [O1 D1]. unfold modify in E.
  erewrite bind_ok in E by reflexivity. apply bind_inv in E as [(fs2 & n & E2 & E)|(e & E2 & ->)]; [|done].
  munfold. injection E as <- <-. destruct (wf_dir _ (proj1 O1) _ _ D1) as [i Hi]. destruct Hop as (Ho & _ & _).
  destruct (WriteAt_inv _ _ _ _ _ _ (Inode [] [] (fs_clock fs1)) E2) as [(Ud & _) [_ Hn]]; [split; [done|cbn; by rewrite -> lookup_alter_eq, Hi]|unfold zlen; cbn; lia|].
  eexists. unfold node_at. assert (fs_dir fs2 !! p = Some (f_ino f)) as -> by (by rewrite -> Ud).
  cbn. split; [exact Hn|]. split; [|done]. cbn. unfold os.splice. cbn. by rewrite -> drop_nil, app_nil_r.
Qed.

Lemma MkdirAll_node fs fs' r : fs_wf fs → os.MkdirAll fs = (fs', r) → fs_wf fs' ∧ ∀ n, node_at fs' n = node_at fs n.
Proof.
  intros W E. unfold os.MkdirAll in E. apply guarded_pure_core in E as [Hc _]; [|done]. split; [by eapply fs_wf_core|].
  intros n. unfold node_at. unfold fs_core in Hc. by injection Hc as -> -> _ _.
Qed.

(** [Save] stores the dictionary as a replica stores a segment, then its name. *)
Lemma Save_stores id dict fs : dict ≠ [] → let sha := EncodeToString (sha256.Sum256 dict) in let name := dictFilename id sha in
  Save id dict fs = (do! os.MkdirAll; do! store_segment name (dict, None);
    do! os.WriteFile "current.json.tmp" (marshal_meta (MkMetaFile id sha name)); os.Rename "current.json.tmp" "current.json") fs.
Proof.
  intros Hne sha name. assert (zlen dict =? 0 = false) as Hz by (destruct dict; [done|rewrite -> zlen_cons; pose proof (zlen_nonneg dict); lia]).
  unfold Save, store_segment, Create. rewrite -> Hz. cbv zeta. apply bind_ext. intros _ fs0. fold sha. fold name. rewrite -> !bind_assoc. apply bind_ext. intros f fs1.
  rewrite -> !bind_assoc. apply bind_ext. intros _ fs2.
  assert (Copy f (dict, None) fs2 = os.Write f dict fs2) as Ec.
  { unfold Copy. cbn [fst snd]. rewrite -> Hz. munfold. by destruct (os.Write f dict fs2) as [fs3 [f3|e]]. }
  erewrite (bind_ok (mret f)) by reflexivity. unfold try. unfold mbind, M_bind. rewrite -> Ec.
  destruct (os.Write f dict fs2) as [fs3 [f3|e]].
  - destruct (os.Sync f3 fs3) as [fs4 [u|e]]; [done|]. unfold remove_and, ignore. munfold. by destruct (os.Remove _ fs4).
  - unfold remove_and, ignore. munfold. by destruct (os.Remove _ fs3).
Qed.

(** [Save] into an empty directory: all of it, or nothing that [LoadCurrent] sees.
    The dictionary is fsynced, the file that names it is not. *)
Lemma Save_sidecar id dict fs fs' r : fs_wf fs → holds_dict fs None → dict ≠ [] → Save id dict fs = (fs', r) →
  fs_wf fs' ∧ holds_dict fs' (if is_ok r then Some (id, dict) else None) ∧
  (is_ok r = true → ∃ i, node_at fs' "current.json" = Some i ∧ i_stable i = []).
Proof.
  intros W Hn Hne E. rewrite -> Save_stores in E by done. cbv zeta in E.
  set (sha := EncodeToString (sha256.Sum256 dict)) in *. set (name := dictFilename id sha) in *.
  destruct (dict_name_ne id sha) as (N1 & N2 & N3 & N4). fold name in N1, N2, N3, N4. cbn [holds_dict] in Hn.
  apply bind_inv in E as [(fs0 & u0 & E0 & E)|(e & E0 & ->)]; apply MkdirAll_node in E0 as (W0 & K0); try done;
    rewrite <- K0 in Hn; [clear W; rename W0 into W|by split].
  apply bind_inv in E as [(fs1 & u & E1 & E)|(e & E1 & ->)]; apply store_segment_whole in E1 as (W1 & K1 & X1); try done.
  2:{ split; [done|]. split; [|done]. cbn. by rewrite -> K1. }
  destruct X1 as (_ & i & Hi & Hd & _). cbn in Hd.
  apply bind_inv in E as [(fs2 & u2 & E2 & E)|(e & E2 & ->)]; apply WriteFile_node in E2 as (W2 & K2 & X2); try done.
  2:{ split; [done|]. split; [|done]. cbn. by rewrite -> K2, K1. }
  destruct X2 as (j & Hj & Hjd & Hjs). apply rename_node in E as (W3 & K3 & X3); [|done|done].
  split; [done|]. destruct (is_ok r); cbn [holds_dict].
  - split; [|intros _; exists j; by rewrite -> X3]. split; [done|]. exists j, i, sha, name. rewrite -> X3, Hjd, meta_round_trip.
    split_and!; try done. by rewrite -> K3, K2.
  - split; [|done]. by rewrite -> X3, K2, K1.
Qed.
End SidecarFiles.

(** ** The dictionary across starts *)
Section Dictionary.
Context `{Zstd} `{MetaJSONLaws}.

Definition db_dict (db : DB) : option bytes := fst <$> last (compression_dictionary (db_tables db)).

(** The dictionary a start will find, and the id it gets. *)
Definition chosen (s : Boot) (id : Z) (dict : bytes) : Prop :=
  fs_wf (bt_fs s) ∧ ∃ o, holds_dict (bt_fs s) o ∧
    match o with
    | Some (k, d) => d = dict ∧ id = (if k <=? 0 then 1 else k)
    | None => db_dict (bt_db s) = Some dict ∧ id = 1
    end.

Lemma boot_fs_inv {A} (m : M FS A) s s' r : boot_fs m s = (s', r) → ∃ fs', m (bt_fs s) = (fs', r) ∧ s' = MkBoot fs' (bt_db s).
Proof. unfold boot_fs, zoom. destruct (m (bt_fs s)). intros [= <- <-]. eauto. Qed.
Lemma boot_db_inv {A} (m : M DB A) s s' r : boot_db m s = (s', r) → ∃ db', m (bt_db s) = (db', r) ∧ s' = MkBoot (bt_fs s) db'.
Proof. unfold boot_db, zoom. destruct (m (bt_db s)). intros [= <- <-]. eauto. Qed.

Lemma nonempty_pos (d : bytes) : (0 <? zlen d) = true ↔ d ≠ [].
Proof. destruct d as [|b d]; [done|]. rewrite -> zlen_cons. pose proof (zlen_nonneg d). split; [done|lia]. Qed.
Lemma empty_zlen (d : bytes) : (zlen d =? 0) = negb (0 <? zlen d).
Proof. pose proof (zlen_nonneg d). lia. Qed.

Lemma chosen_found s s' id dict : chosen s id dict → fs_core (bt_fs s') = fs_core (bt_fs s) →
  compression_dictionary (db_tables (bt_db s')) = compression_dictionary (db_tables (bt_db s)) → chosen s' id dict.
Proof.
  intros (W & o & Ho & Hm) Hc Hd. split; [by eapply fs_wf_core|]. exists o. split; [by eapply holds_dict_core|].
  unfold db_dict in *. by rewrite -> Hd.
Qed.

(** The step that takes the dictionary from the database. *)
Definition from_db (id0 : Z) : M Boot (Z * bytes) :=
  let! latest := boot_db GetLatestDictionary in
  let dict := default [] (fst <$> latest) in
  if 0 <? zlen dict then do! ignore (boot_fs (Save 1 dict)); mret (1, dict) else mret (id0, dict).
(** The step that trains one. *)
Definition trained (samples : list bytes) (id0 : Z) : M Boot (Z * bytes) :=
  let! dict := lift_result (TrainDictionary samples DefaultDictSize) in
  if 0 <? zlen dict then
    do! boot_db (SaveDictionary dict (zlen samples));
    do! boot_fs (Save 1 dict);
    mret (1, dict)
  else mret (id0, dict).

Lemma from_db_inv id0 s s' id dict : fs_wf (bt_fs s) → holds_dict (bt_fs s) None → from_db id0 s = (s', Ok (id, dict)) →
  (dict ≠ [] → chosen s' 1 dict ∧ id = 1) ∧ (dict = [] → id = id0 ∧ bt_fs s' = bt_fs s).
Proof.
  intros W Ho E. apply bind_inv in E as [(s1 & latest & E1 & E)|(? & _ & ?)]; [|done].
  apply boot_db_inv in E1 as (db1 & E1 & ->). apply stmt_read in E1 as [(T1 & _) ->].
  cbv zeta in E. remember (default [] _) as d eqn:Hdd in E. destruct (0 <? zlen d) eqn:Hp; cycle 1.
  { munfold. injection E as <- <- <-. split; [|done]. intros Hn%nonempty_pos. congruence. }
  unfold ignore in E. munfold. destruct (boot_fs (Save 1 d) _) as [s2 r2] eqn:E2. cbn in E. injection E as <- <- <-.
  apply boot_fs_inv in E2 as (fs2 & E2 & ->). cbn in *. pose proof (proj1 (nonempty_pos d) Hp) as Hne.
  apply Save_sidecar in E2 as (W2 & H2 & _); try done. split; [|done]. intros _. split; [|done]. split; [done|].
  eexists. split; [exact H2|]. cbn. destruct (is_ok r2); [done|]. split; [|done].
  unfold db_dict. rewrite -> T1. destruct (last _) as [[d' n]|]; cbn in Hdd; by subst d.
Qed.

Lemma trained_inv samples id0 s s' id dict : fs_wf (bt_fs s) → holds_dict (bt_fs s) None → trained samples id0 s = (s', Ok (id, dict)) →
  dict = [] ∨ (chosen s' 1 dict ∧ id = 1).
Proof.
  intros W Ho E. apply bind_inv in E as [(s1 & d & E1 & E)|(? & _ & ?)]; [|done]. unfold lift_result in E1. injection E1 as <- _.
  destruct (0 <? zlen d) eqn:Hp; [munfold; right|munfold; left; simplify_eq; by destruct dict as [|b l]; [|rewrite -> (proj2 (nonempty_pos (b :: l)) ltac:(done)) in Hp]].
  apply bind_inv in E as [(s2 & u & E2 & E)|(? & _ & ?)]; [|done]. apply boot_db_inv in E2 as (db2 & _ & ->).
  apply bind_inv in E as [(s3 & u3 & E3 & E)|(? & _ & ?)]; [|done]. apply boot_fs_inv in E3 as (fs3 & E3 & ->).
  munfold. injection E as <- <- <-. cbn in *. apply Save_sidecar in E3 as (W3 & H3 & _); try done; [|by apply nonempty_pos].
  split; [|done]. split; [done|]. by exists (Some (1, d)).
Qed.

Lemma BootstrapEncoder_steps enabled samples min s : BootstrapEncoder enabled samples min s =
  (if negb enabled then mret None else
   let! ld := boot_fs LoadCurrent in
   let! dd := if zlen ld.2 =? 0 then from_db ld.1 else mret ld in
   let! dd := if (zlen dd.2 =? 0) && (0 <? zlen samples) then trained samples dd.1 else mret dd in
   let! enc := lift_result (NewEncoder dd.2 min) in
   mret (Some (SetDictID (if (dd.1 <=? 0) && (0 <? zlen dd.2) then 1 else dd.1) enc))) s.
Proof.
  unfold BootstrapEncoder. destruct (negb enabled); [done|]. apply bind_ext. intros [id d] s1. cbn [fst snd].
  apply bind_ext. intros [id1 d1] s2. cbn [fst snd]. apply bind_ext. by intros [id2 d2] s3.
Qed.

(** A start that ends with a dictionary leaves it where the next one looks. *)
Lemma BootstrapEncoder_chosen o enabled samples min s s' e :
  fs_wf (bt_fs s) → holds_dict (bt_fs s) o → BootstrapEncoder enabled samples min s = (s', Ok (Some e)) → e_dict e ≠ [] →
  chosen s' (dictID e) (e_dict e) ∧ zstd_dict_ok (e_dict e) = true.
Proof.
  intros W Ho E Hne. rewrite -> BootstrapEncoder_steps in E. destruct enabled; [|done]. cbn [negb] in E.
  apply bind_inv in E as [(s1 & ld & E1 & E)|(? & _ & ?)]; [|done]. apply boot_fs_inv in E1 as (fs1 & E1 & ->).
  apply (LoadCurrent_inv o) in E1 as [C1 ->]; [|done]. pose proof (fs_wf_core _ _ C1 W) as W1.
  pose proof (holds_dict_core _ _ _ C1 Ho) as Ho1.
  apply bind_inv in E as [(s2 & [id1 d1] & E2 & E)|(? & _ & ?)]; [|done].
  apply bind_inv in E as [(s3 & [id2 d2] & E3 & E)|(? & _ & ?)]; [|done]. cbn [fst snd] in E, E3.
  apply bind_inv in E as [(s4 & enc & E4 & E)|(? & _ & ?)]; [|done]. unfold lift_result in E4. injection E4 as <- E4.
  pose proof (NewEncoder_ok _ _ _ E4) as (_ & _ & Hz).
  assert (e_dict enc = d2) as Hd2 by (unfold NewEncoder in E4; destruct (_ || _); [by injection E4 as <-|done]).
  munfold. injection E as <- <-. cbn [e_dict dictID SetDictID] in *. rewrite -> Hd2 in *. split; [|by destruct Hz].
  rewrite -> (proj2 (nonempty_pos d2) Hne), andb_true_r. destruct o as [[k d]|]; cbn [default from_option id fst snd] in E2.
  - pose proof (proj1 Ho) as Hd. rewrite -> empty_zlen, (proj2 (nonempty_pos d) Hd) in E2. cbn in E2. injection E2 as <- <- <-.
    rewrite -> empty_zlen, (proj2 (nonempty_pos d) Hd) in E3. cbn in E3. injection E3 as <- <- <-.
    split; [done|]. by exists (Some (k, d)).
  - change (zlen (@nil byte) =? 0) with true in E2. cbv iota in E2. apply from_db_inv in E2 as [X1 X2]; [|done|done].
    destruct (0 <? zlen d1) eqn:Hp.
    + destruct (X1 (proj1 (nonempty_pos d1) Hp)) as [Hch ->]. rewrite -> empty_zlen, Hp in E3. cbn in E3. injection E3 as <- <- <-. done.
    + assert (d1 = []) as -> by (destruct d1; [done|by rewrite -> (proj2 (nonempty_pos (b :: d1)) ltac:(done)) in Hp]).
      destruct (X2 eq_refl) as [-> Hfs]. change (zlen (@nil byte) =? 0) with true in E3. cbn [andb] in E3.
      destruct (0 <? zlen samples); [|injection E3 as _ _ <-; done].
      apply trained_inv in E3 as [->|[Hch ->]]; try done; by rewrite -> Hfs.
Qed.

Lemma GetLatestDictionary_ok db : db_faults db = [] → aborted db = false →
  GetLatestDictionary db = (db, Ok (last (compression_dictionary (db_tables db)))).
Proof. intros Hf Ha. unfold GetLatestDictionary, stmt. rewrite -> Ha, Hf. destruct db; cbn in *. by subst. Qed.

(** A start that finds a dictionary uses it, when nothing fails. *)
Lemma BootstrapEncoder_finds samples min s id dict :
  chosen s id dict → dict ≠ [] → zstd_dict_ok dict = true →
  fs_faults (bt_fs s) = [] → db_faults (bt_db s) = [] → aborted (bt_db s) = false →
  ∃ s' e, BootstrapEncoder true samples min s = (s', Ok (Some e)) ∧ e_dict e = dict ∧ dictID e = id ∧ enc_ok e ∧ bt_db s' = bt_db s.
Proof.
  intros (W & o & Ho & Hm) Hne Hz Hf Hdf Ha. rewrite -> BootstrapEncoder_steps. cbn [negb].
  erewrite bind_ok. 2:{ unfold boot_fs, zoom. rewrite -> (LoadCurrent_ok o _ Ho Hf). reflexivity. }
  set (s1 := MkBoot (bt_fs s) (bt_db s)).
  assert (∃ s2 k, (if zlen (default (0, []) o).2 =? 0 then from_db (default (0, []) o).1 else mret (default (0, []) o)) s1 = (s2, Ok (k, dict)) ∧
    id = (if k <=? 0 then 1 else k) ∧ bt_db s2 = bt_db s) as (s2 & k & E2 & Hid & Hdb).
  { pose proof (proj2 (nonempty_pos dict) Hne) as Hp. destruct o as [[k d]|]; cbn [default from_option Datatypes.id fst snd].
    - destruct Hm as [-> ->]. rewrite -> empty_zlen, Hp. by exists s1, k.
    - destruct Hm as [Hd ->]. change (zlen (@nil byte) =? 0) with true. cbv iota. unfold from_db.
      erewrite bind_ok by (unfold boot_db, zoom; rewrite -> GetLatestDictionary_ok by done; reflexivity).
      unfold db_dict in Hd. cbn [bt_fs bt_db s1]. rewrite -> Hd. cbn [default from_option Datatypes.id]. rewrite -> Hp.
      unfold ignore. munfold. do 2 eexists. split; [reflexivity|]. split; [done|].
      unfold boot_fs, zoom. cbn [bt_fs bt_db]. by destruct (Save 1 dict (bt_fs s)). }
  erewrite bind_ok by exact E2. cbn [fst snd]. rewrite -> empty_zlen, (proj2 (nonempty_pos dict) Hne). cbn [negb andb].
  erewrite bind_ok by reflexivity. cbn [fst snd]. unfold lift_result, NewEncoder. rewrite -> Hz, orb_true_r.
  erewrite bind_ok by reflexivity. rewrite -> (proj2 (nonempty_pos dict) Hne), andb_true_r.
  do 2 eexists. split; [reflexivity|]. cbn. split; [done|]. split; [done|]. split; [|done].
  split; [done|]. cbn. split; [destruct (min <=? 0) eqn:Em; lia|by right].
Qed.

(** C23: the dictionary stays.  When a start, whatever it had to do and whatever
    failed, ended with a compression dictionary, then every later start on the same
    files and tables ends with the same one under the same id, whichever samples and
    settings it has, and decompresses what the first one compressed. *)
Theorem dictionary_stable `{!ZstdLaws} o enabled samples min s s1 e samples' min' s2 :
  fs_wf (bt_fs s) → holds_dict (bt_fs s) o →
  BootstrapEncoder enabled samples min s = (s1, Ok (Some e)) → e_dict e ≠ [] →
  fs_core (bt_fs s2) = fs_core (bt_fs s1) →
  compression_dictionary (db_tables (bt_db s2)) = compression_dictionary (db_tables (bt_db s1)) →
  fs_faults (bt_fs s2) = [] → db_faults (bt_db s2) = [] → aborted (bt_db s2) = false →
  ∃ s3 e', BootstrapEncoder true samples' min' s2 = (s3, Ok (Some e')) ∧ e_dict e' = e_dict e ∧ dictID e' = dictID e ∧
    ∀ data c, Compress e data = Ok c → zlen c < zlen data → Decompress e' c = Ok data.
Proof.
  intros W Ho E Hne Hc Hd Hf Hdf Ha. destruct (BootstrapEncoder_chosen _ _ _ _ _ _ _ W Ho E Hne) as [Hch Hz].
  pose proof (chosen_found _ s2 _ _ Hch Hc Hd) as Hch2.
  destruct (BootstrapEncoder_finds samples' min' s2 _ _ Hch2 Hne Hz Hf Hdf Ha) as (s3 & e' & E' & D & I & (Hok & _) & _).
  exists s3, e'. split_and!; try done. intros data c Hcc Hlt.
  assert (enc_ok e) as He.
  { unfold BootstrapEncoder in E. destruct (negb enabled); [done|]. do 3 (apply bind_inv in E as [(? & [? ?] & _ & E)|(? & _ & ?)]; [|done]).
    apply bind_inv in E as [(s4 & enc & E4 & E)|(? & _ & ?)]; [|done]. unfold lift_result in E4. injection E4 as <- E4.
    munfold. injection E as _ <-. by apply NewEncoder_ok in E4. }
  pose proof (Decompress_Compress e data c He Hcc Hlt) as Hdc. unfold Decompress in *. destruct He as (Ho1 & _).
  by rewrite -> Hok, D, <- Ho1 at 1.
Qed.

(** A crash can keep a shard from starting.  [Save] fsyncs the dictionary but
    not the file that names it; a crash that loses the latter's bytes makes every
    later start fail, although the directory and the database hold the dictionary. *)
Theorem dictionary_crash_blocks_start dict fs fs1 :
  fs_wf fs → holds_dict fs None → dict ≠ [] → is_ok (unmarshal_meta []) = false →
  Save 1 dict fs = (fs1, Ok tt) →
  ∃ fs2, crash fs1 fs2 ∧ fs_faults fs2 = [] ∧ ∀ db samples min, is_ok (BootstrapEncoder true samples min (MkBoot fs2 db)).2 = false.
Proof.
  intros W Ho Hne Hj E. apply Save_sidecar in E as (W1 & _ & Hs); try done. destruct (Hs eq_refl) as (i & Hi & Hst).
  set (keep i := Inode (i_stable i) (i_stable i) (i_mtime i)).
  exists (MkFS (fs_dir fs1) (keep <$> fs_nodes fs1) (fs_next fs1) (fs_clock fs1) []). split; [|split; [done|]].
  - split; [exact (wf_dir _ W1)|]. split; [exact (wf_inj _ W1)|]. split; [done|]. intros ino. cbn. rewrite -> lookup_fmap.
    destruct (fs_nodes fs1 !! ino); constructor. exists []. by rewrite -> app_nil_r.
  - intros db samples min. set (fs2 := MkFS _ _ _ _ _). unfold BootstrapEncoder. cbn [negb].
    assert (node_at fs2 "current.json" = Some (keep i)) as Hn.
    { unfold node_at in *. subst fs2. cbn. destruct (fs_dir fs1 !! _) as [ino|]; [|done]. cbn in *. by rewrite -> lookup_fmap, Hi. }
    destruct (unmarshal_meta []) as [m|e] eqn:Em; [done|]. erewrite bind_err; [done|]. unfold boot_fs, zoom. cbn [bt_fs].
    unfold LoadCurrent. erewrite bind_ok by (apply try_run, ReadFile_ok; done). rewrite -> Hn. subst keep. cbn [i_data].
    rewrite -> Hst. unfold lift_result. rewrite -> Em. by erewrite bind_err by reflexivity.
Qed.
End Dictionary.

(** ** Concrete runs *)
Definition demo_meta : MetaJSON := {|
  marshal_meta m := Codec.bits (countable.encode (cm_DictID m, cm_SHA256 m, cm_Filename m));
  unmarshal_meta l :=
    match Codec.unbits l ≫= countable.decode (A := Z * string * string) with
    | Some (id, sha, name) => Ok (MkMetaFile id sha name)
    | None => Err (errorf "unexpected end of JSON input")
    end |}.
Lemma demo_meta_laws : MetaJSONLaws (H := demo_meta).
Proof.
  split. intros [id sha name]. unfold marshal_meta, unmarshal_meta, demo_meta. rewrite -> Codec.unbits_bits. cbn [mbind option_bind].
  by rewrite -> decode_encode.
Qed.
#[local] Existing Instances demo_meta demo_meta_laws.

(** A shard whose database has a dictionary and whose directory has none yet. *)
Definition demo_dict : bytes := bs "dictionary".
Definition demo_boot : Boot :=
  MkBoot (empty_fs []) (MkDB (MkTables ∅ [] [] ∅ [(demo_dict, 5)]) 1 1 0 false false []).

Lemma dictionary_stable_witness :
  let s1 := (BootstrapEncoder true [] 0 demo_boot).1 in
  ∃ s3 e, BootstrapEncoder true [demo_dict] 100 s1 = (s3, Ok (Some e)) ∧ e_dict e = demo_dict ∧ dictID e = 1.
Proof.
  intros s1. set (e1 := MkEncoder 1 64 demo_dict true).
  assert (BootstrapEncoder true [] 0 demo_boot = (s1, Ok (Some e1))) as E.
  { rewrite -> (surjective_pairing (BootstrapEncoder true [] 0 demo_boot)) at 1. fold s1. assert ((BootstrapEncoder true [] 0 demo_boot).2 = Ok (Some e1)) as -> by (vm_compute; reflexivity). reflexivity. }
  assert (fs_faults (bt_fs s1) = [] ∧ db_faults (bt_db s1) = [] ∧ aborted (bt_db s1) = false) as (F1 & F2 & F3).
  { unfold s1. split; [|split]; vm_compute; reflexivity. }
  destruct (dictionary_stable None true [] 0 demo_boot s1 e1 [demo_dict] 100 s1 (fs_wf_empty []) eq_refl E ltac:(discriminate) eq_refl eq_refl F1 F2 F3)
    as (s3 & e' & E' & D & I & _). exists s3, e'. split; [exact E'|]. split; [exact D|exact I].
Defined.

Lemma dictionary_crash_blocks_start_witness :
  ∃ fs2, crash (Save 1 demo_dict (empty_fs [])).1 fs2 ∧
    is_ok (BootstrapEncoder true [] 0 (MkBoot fs2 (bt_db demo_boot))).2 = false.
Proof.
  destruct (dictionary_crash_blocks_start demo_dict (empty_fs []) (Save 1 demo_dict (empty_fs [])).1 (fs_wf_empty []))
    as (fs2 & Hc & _ & Hb); [done|done|done| |by exists fs2].
  rewrite -> (surjective_pairing (Save 1 demo_dict (empty_fs []))) at 1. assert ((Save 1 demo_dict (empty_fs [])).2 = Ok tt) as -> by (vm_compute; reflexivity). reflexivity.
Defined.
