(* ===== verification/Startup.v ===== *)
(** * Starting a shard: cmd/server/main.go, with internal/dedup's Open

    [main] up to the server it serves: each part is started as the code does, in its
    order, and an error ends the process ([Err]: the exit with status 1).  The
    theorem is that a shard comes back from a crash.  Connecting to the database and
    running the text of a migration are PostgreSQL's ([NewPool], [Ping], [exec_sql]);
    opening RocksDB is its library's. *)
From S2P Require Import Prelude GoLib Hash Record FS Segment SegmentScan SegmentStore SegmentDurable WriteBuffer SegmentIndex Metadata MetadataInv Disk Ledger Compress Dedup BlobStore Detect Journal UnpackQueue Ingest IngestInv IngestSafe Config Http ShardRepo Registry CoordServer RegisterClient Api ApiInv Buffered ShardSync Restart Bootstrap.

(** ** The hot index *)

(** The store of either backend. *)
Definition on_either {A B C} (f : M A C) (g : M B C) : M (A + B) C := fun s =>
  match s with
  | inl a => let '(a', r) := f a in (inl a', r)
  | inr b => let '(b', r) := g b in (inr b', r)
  end.
#[export] Instance sum_store {A B} `{kvStore A} `{kvStore B} : kvStore (A + B) := {|
  Dedup.kv_get h := on_either (Dedup.kv_get h) (Dedup.kv_get h);
  kv_put h e := on_either (kv_put h e) (kv_put h e);
  kv_clear := on_either kv_clear kv_clear;
  kv_close := on_either kv_close kv_close;
  kv_len := on_either kv_len kv_len;
|}.

(** What the server is linked with: whether RocksDB was built in ([-tags rocksdb]),
    opening it, and the database driver. *)
Class Linked (R : Type) := {
  rocksdb_tag : bool;
  OpenDb : string → result R;
  NewPool : string → result unit;
  Ping : M DB unit;
  exec_sql : bytes → M DB unit;
}.

Section Start.
Context {R : Type} `{RocksDB R} `{Linked R} `{Bloom} `{Zstd} `{MetaJSON} `{EntryJSON} `{EnvLib} `{CoordLib} `{ClientJSON} `{ZipLib}.

Notation Mem := (gmap bytes Entry).
Notation Svc := (Service Buffered (Mem + R) Journal).
Notation Srv := (Server Buffered (Mem + R) Journal).

Definition openMemoryIndex (expectedItems : Z) : result (Hot (Mem + R)) :=
  Ok (Some (MkHot (newBloom expectedItems) (inl ∅))).
Definition openRocksDBIndex (cfg : config.Config) : result (Hot (Mem + R)) :=
  if rocksdb_tag then
    match OpenDb (config.RocksDBPath cfg) with
    | Err e => Err (wrapf "open rocksdb: " e)
    | Ok db => Ok (Some (MkHot (newBloom (config.BloomExpectedItems cfg)) (inr db)))
    end
  else Err (errorf "rocksdb backend requires build tag -tags rocksdb and librocksdb-dev").
(** [Open]; the error's text goes without the backend's name. *)
Definition Open (cfg : config.Config) : result (Hot (Mem + R)) :=
  if (config.DedupBackend cfg =? "")%string || (config.DedupBackend cfg =? "postgres")%string then Ok None else
  if (config.DedupBackend cfg =? "memory")%string then openMemoryIndex (config.BloomExpectedItems cfg) else
  if (config.DedupBackend cfg =? "rocksdb")%string then openRocksDBIndex cfg else
  Err (errorf "unknown dedup backend").

(** ** main *)

(** What the process finds: its directories, the database, the coordinator. *)
Record Machine : Type := MkMachine {
  mc_data : FS;                 (** the segments and their indexes *)
  mc_journal : FS;              (** the journal, a file of the same directory *)
  mc_dicts : FS;                (** the dictionaries *)
  mc_migrations : FS;           (** the SQL files *)
  mc_db : DB;
  mc_client : Client;
  mc_others : list (list event); (** what the goroutines of the process will do *)
}.
Definition on_mdb {A} (m : M DB A) : M Machine A :=
  zoom mc_db (fun db s => MkMachine (mc_data s) (mc_journal s) (mc_dicts s) (mc_migrations s) db (mc_client s) (mc_others s)) m.
Definition on_boot {A} (m : M Boot A) : M Machine A :=
  zoom (fun s => MkBoot (mc_dicts s) (mc_db s)) (fun b s => MkMachine (mc_data s) (mc_journal s) (bt_fs b) (mc_migrations s) (bt_db b) (mc_client s) (mc_others s)) m.

Definition on_sql {A} (m : M FS A) : M Machine A :=
  zoom mc_migrations (fun fs s => MkMachine (mc_data s) (mc_journal s) (mc_dicts s) fs (mc_db s) (mc_client s) (mc_others s)) m.

#[local] Existing Instance os.name_le_dec.
(** [RunMigrations]: every SQL file, in the order of their names, at every start. *)
Definition RunMigrations (dsn : string) : M Machine unit :=
  do! lift_result (NewPool dsn);
  let! entries := on_sql os.ReadDir in
  let names := filter (fun n => strings.HasSuffix n ".sql" = true) entries in
  forM_ (merge_sort os.name_le names) (fun name =>
    let! sql := on_sql (os.ReadFile name) in
    wrap_err ("migration " +:+ name +:+ ": ") (on_mdb (exec_sql sql))).

Definition NewPostgresRepository (dsn : string) : M Machine unit :=
  do! wrap_err "connect postgres: " (lift_result (NewPool dsn));
  wrap_err "ping postgres: " (on_mdb Ping).

(** The segment manager with its index, and the write buffer when one is configured. *)
Definition open_disk (cfg : config.Config) (g : SegState) (otherwise : list (list event)) : Buffered :=
  let disk := MkDisk (SetVerifyChecksum (config.VerifyChecksum cfg) (sg g)) (si_files (NewSegmentIndex (sg_fs g))) (sg_fs g) in
  let b := MkBuffered (NewWriteBuffer (MkLogged disk (whole_segment g) []) 0) false otherwise in
  if 0 <? config.WriteBufferMaxBytes cfg then SetWriteBuffer (config.WriteBufferMaxBytes cfg) b else b.
Definition start_segments (cfg : config.Config) : M Machine Buffered := fun s =>
  match NewSegmentManager (config.SegmentMaxSize cfg) (mc_data s) with
  | (g, r) =>
      let s' := MkMachine (sg_fs g) (mc_journal s) (mc_dicts s) (mc_migrations s) (mc_db s) (mc_client s) (mc_others s) in
      match r with
      | Err e => (s', Err e)
      | Ok _ => (s', Ok (open_disk cfg g (mc_others s)))
      end
  end.

Definition start_dedup (cfg : config.Config) : M Machine (Hot (Mem + R)) :=
  let! hot := lift_result (Open cfg) in
  match hot with
  | None => mret None
  | Some _ =>
      if config.DedupRebuildOnStart cfg then
        let! blobs := on_mdb ListContentBlobs in
        let rebuilt := RebuildFromPG blobs (config.BloomExpectedItems cfg) hot in
        do! lift_result rebuilt.2;
        mret rebuilt.1
      else mret hot
  end.

Definition start_journal : M Machine Journal := fun s =>
  match NewJournal (mc_journal s) with
  | (j, r) =>
      let s' := MkMachine (mc_data s) (j_fs j) (mc_dicts s) (mc_migrations s) (mc_db s) (mc_client s) (mc_others s) in
      match r with Ok _ => (s', Ok j) | Err e => (s', Err e) end
  end.

Definition reg_err (e : reg_error) : error :=
  match e with NetErr e | OtherErr e => e | StatusErr _ body => errorf (str body) | Canceled => Error "context canceled" [ErrCanceled] end.

(** Registration, and the settings it leaves: the shard's id, read-only when sealed. *)
Definition start_registration (patience : nat) (cfg : config.Config) : M Machine config.Config := fun s =>
  if negb ((config.ShardRole cfg =? "primary")%string && negb (config.CoordinatorURL cfg =? "")%string) then (s, Ok cfg) else
  if (config.ShardUUID cfg =? "")%string then (s, Err (errorf "SHARD_UUID is required when COORDINATOR_URL is set")) else
  if (config.ClusterKey cfg =? "")%string then (s, Err (errorf "CLUSTER_KEY (or SHARD_CLUSTER_KEY) is required when COORDINATOR_URL is set")) else
  if (config.ShardAdvertiseURL cfg =? "")%string then (s, Err (errorf "SHARD_ADVERTISE_URL is required when COORDINATOR_URL is set")) else
  match RegisterShardWithRetry (config.CoordinatorURL cfg) (startupRegistrationRequest cfg) patience (mc_client s) with
  | (c, r) =>
      let s' := MkMachine (mc_data s) (mc_journal s) (mc_dicts s) (mc_migrations s) (mc_db s) c (mc_others s) in
      match r with
      | inr e => (s', Err (reg_err e))
      | inl resp =>
          let '(id, ro) := after_registration resp (config.ShardReadOnly cfg) in
          (s', Ok (config.with_shard (config.ClusterKey cfg) id ro cfg))
      end
  end.

(** [main], to the server that [ListenAndServe] gets; [examples] is the directory
    with the training samples. *)
Definition main (examples : result tree) (patience : nat) (cfg : config.Config) : M Machine (Srv * option Encoder * config.Config) :=
  let cfg := config.with_shard (config.EffectiveClusterKey cfg) (config.ShardID cfg) (config.ShardReadOnly cfg) cfg in
  let replica := (config.ShardRole cfg =? "replica")%string in
  do! (if negb replica then RunMigrations (config.PGDSN cfg) else mret tt);
  do! NewPostgresRepository (config.PGDSN cfg);
  let! disk := start_segments cfg in
  let! encoder := on_boot (BootstrapEncoder (config.CompressionEnabled cfg) (LoadSamplesFromExamples 500 examples).1 (config.CompressionMinSize cfg)) in
  let! hot := start_dedup cfg in
  let! journal := if negb replica then let! j := start_journal in mret (Some j) else mret None in
  let queue := if config.LargeZipAsyncUnpack cfg && negb replica && negb (config.ShardReadOnly cfg)
               then Some (NewUnpackQueue (config.UnpackQueueSize cfg)) else None in
  let! cfg := start_registration patience cfg in
  let! db := gets mc_db in
  mret (NewShardServer cfg (MkService (MkStore disk hot db) journal queue), encoder, cfg).
End Start.

(** ** Shutting down *)
Section Stop.
Context {K : Type} `{kvStore K} `{Bloom}.
Notation Svc := (Service Buffered K Journal).

Definition close_index : M Buffered unit := on_sm (Ledger.on_disk (on_index si_Close)).

(** The deferred calls of [main], the last one first, once the signal has come and
    the HTTP server has stopped; what they return is dropped.  The queue's workers
    are stopped, and jobs that wait in its channel are left to the next start's
    recovery scan. *)
Definition shutdown (encoder : option Encoder) : M Svc (option Encoder) :=
  do! modify (fun s => MkService (sv_store s) (sv_journal s) None);
  do! modify (fun s => MkService (sv_store s) ((fun j => (JClose j).1) <$> sv_journal s) (sv_queue s));
  do! ignore (on_store (on_hot hot_Close));
  let encoder := enc_Close <$> encoder in
  do! ignore (on_store (BlobStore.on_disk close_index));
  do! ignore (on_store (BlobStore.on_disk sm_Close));
  mret encoder.
End Stop.

(** ** Coming back *)
Section Back.
Context {R : Type} `{RocksDB R} `{Linked R} `{Bloom} `{ZstdLaws} `{MetaJSONLaws} `{EntryJSON} `{EnvLib} `{CoordLib} `{ClientJSON} `{ZipLib}.
Notation Mem := (gmap bytes Entry).

(** A start will make an encoder with this one's dictionary. *)
Definition remembers (b : Boot) (samples : list bytes) (e : Encoder) : Prop :=
  (e_dict e ≠ [] ∧ zstd_dict_ok (e_dict e) = true ∧ chosen b (dictID e) (e_dict e)) ∨
  (e_dict e = [] ∧ samples = [] ∧ holds_dict (bt_fs b) None ∧ db_dict (bt_db b) = None).

Lemma remembers_starts b samples min e : remembers b samples e →
  fs_faults (bt_fs b) = [] → db_faults (bt_db b) = [] → aborted (bt_db b) = false →
  ∃ b' e', BootstrapEncoder true samples min b = (b', Ok (Some e')) ∧ e_dict e' = e_dict e ∧ enc_ok e' ∧ bt_db b' = bt_db b.
Proof.
  intros Hr Hf Hdf Ha. destruct Hr as [(Hne & Hz & Hch)|(He & -> & Ho & Hd)].
  - destruct (BootstrapEncoder_finds samples min b _ _ Hch Hne Hz Hf Hdf Ha) as (b' & e' & E & D & _ & Hok & Hdb). by exists b', e'.
  - rewrite -> BootstrapEncoder_steps. cbn [negb].
    erewrite bind_ok by (unfold boot_fs, zoom; rewrite -> (LoadCurrent_ok None _ Ho Hf); reflexivity).
    cbn [default from_option Datatypes.id fst snd]. change (zlen (@nil byte) =? 0) with true. cbv iota.
    erewrite bind_ok. 2:{ unfold from_db. erewrite bind_ok by (unfold boot_db, zoom; cbn [bt_db]; rewrite -> GetLatestDictionary_ok by done; reflexivity).
      unfold db_dict in Hd. cbn [bt_db] in *. rewrite -> Hd. reflexivity. }
    erewrite bind_ok by reflexivity. cbn [fst snd]. unfold lift_result, NewEncoder. erewrite bind_ok by reflexivity.
    do 2 eexists. split; [reflexivity|]. cbn. split; [by rewrite -> He|]. split; [|done]. split; [done|]. cbn. split; [destruct (min <=? 0) eqn:Em; lia|by left].
Qed.

(** Rebuilding an index in memory does not fail. *)
Lemma rebuild_memory blobs n idx m : hi_store idx = inl m → ∃ h, RebuildFromPG (K := Mem + R) blobs n (Some idx) = (h, Ok tt).
Proof.
  intros Hm. cbn. rewrite -> Hm. cbn. generalize (bloom_Reset (if n <? zlen blobs then zlen blobs else n) (hi_bloom idx)). generalize (∅ : Mem).
  induction blobs as [|b blobs IH]; intros st bl; [by eexists|]. cbn [forM_]. unfold mbind, M_bind, Put. cbn. apply IH.
Qed.

Lemma start_dedup_ok cfg s : db_faults (mc_db s) = [] → aborted (mc_db s) = false →
  config.DedupBackend cfg ∈ [""; "postgres"; "memory"] → ∃ hot, start_dedup (R := R) cfg s = (s, Ok hot).
Proof.
  intros Hf Ha Hb. unfold start_dedup, Open, lift_result.
  assert (on_mdb ListContentBlobs s = (s, Ok (merge_sort seen_before (map_to_list (content_blobs (db_tables (mc_db s)))).*2))) as El.
  { unfold on_mdb, zoom, ListContentBlobs, stmt. rewrite -> Ha, Hf. destruct s as [a b c f db d o]. cbn in *. destruct db; cbn in *. by subst. }
  repeat (apply elem_of_cons in Hb as [->|Hb]); [..|by apply not_elem_of_nil in Hb]; cbn [String.eqb Ascii.eqb Bool.eqb orb].
  - by eexists.
  - by eexists.
  - unfold openMemoryIndex. erewrite bind_ok by reflexivity. destruct (config.DedupRebuildOnStart cfg); [|by eexists].
    erewrite bind_ok by exact El. cbv zeta.
    match goal with |- context [RebuildFromPG ?b ?n (Some ?i)] => destruct (rebuild_memory b n i ∅ eq_refl) as [h Eh] end.
    rewrite -> Eh. by eexists.
Qed.

(** Registration changes nothing but the client. *)
Lemma start_registration_client patience cfg s s1 : mc_client s1 = mc_client s → is_ok (start_registration patience cfg s).2 = true →
  ∃ s2 cfg', start_registration patience cfg s1 = (s2, Ok cfg') ∧ mc_db s2 = mc_db s1 ∧ mc_data s2 = mc_data s1.
Proof.
  unfold start_registration. intros ->. destruct (negb _); [by eauto|]. repeat (destruct (_ =? _)%string; [done|]).
  destruct (RegisterShardWithRetry _ _ _ _) as [c [resp|e]]; [|done]. destruct (after_registration _ _) as [id ro]. by eauto.
Qed.

(** Shutting down keeps the service's data, whatever fails. *)
Section Shutdown.
Context {K : Type} `{kvStore K} (encoder : option Encoder).
Notation Svc := (Service Buffered K Journal).

Lemma svc_inv_store debt (s s' : Svc) : svc_inv encoder debt s → store_inv encoder debt (sv_store s') →
  b_db (sv_store s') = b_db (sv_store s) → svc_inv encoder debt s'.
Proof. intros [_ O I] I' E. split; rewrite -> ?E; done. Qed.

Lemma close_index_le b b' r : dk_inv b → close_index b = (b', r) → dk_le b b'.
Proof.
  intros W E. eapply on_sm_le; [|exact W|exact E]. intros l l' r' I E'.
  unfold Ledger.on_disk, zoom, on_index, zoom in E'. cbn in E'. injection E' as <- _.
  apply kept_logged; try done; [apply I|]. cbn. unfold with_reads. by destruct (d_sm (lg_disk l)).
Qed.

(** A deferred call on a part of the store. *)
Lemma deferred {A} (m : M (Store Buffered K) A) debt (s s' : Svc) r :
  (∀ st st' r, store_inv encoder debt st → m st = (st', r) → store_inv encoder debt st' ∧ b_db st' = b_db st) →
  svc_inv encoder debt s → ignore (on_store m) s = (s', r) → svc_inv encoder debt s' ∧ b_db (sv_store s') = b_db (sv_store s).
Proof.
  intros Hm I E. unfold ignore, on_store, zoom in E. destruct (m (sv_store s)) as [st r1] eqn:E1. injection E as <- _.
  destruct (Hm _ _ _ (sv_ok _ _ _ I) E1) as [I' D]. split; [|exact D]. by eapply svc_inv_store.
Qed.

Lemma deferred_disk (m : M Buffered unit) debt (s s' : Svc) r :
  (∀ b b' r, dk_inv b → m b = (b', r) → dk_le b b') →
  svc_inv encoder debt s → ignore (on_store (BlobStore.on_disk m)) s = (s', r) →
  svc_inv encoder debt s' ∧ b_db (sv_store s') = b_db (sv_store s).
Proof.
  intros Hm. apply deferred. intros st st' r0 I E. destruct (on_disk_step encoder _ _ _ _ _ I E) as (I' & _ & D & _); [|done].
  intros d' r' Ed. eapply Hm; [apply I|exact Ed].
Qed.

Lemma shutdown_inv e debt (s s' : Svc) r : svc_inv encoder debt s → shutdown e s = (s', r) →
  svc_inv encoder debt s' ∧ b_db (sv_store s') = b_db (sv_store s).
Proof.
  intros I E. unfold shutdown, modify in E. do 2 erewrite bind_ok in E by reflexivity. cbn [sv_store sv_journal sv_queue] in E. cbv zeta in E.
  set (s0 := MkService (sv_store s) _ None) in E. assert (svc_inv encoder debt s0) as I0 by (by eapply svc_inv_store; [exact I|apply I|]).
  apply bind_inv in E as [(s1 & u1 & E1 & E)|(e1 & E1 & _)]; [|by injection E1].
  apply (deferred _ debt) in E1 as [I1 D1]; [|intros st st' r0 Is Es; by destruct (on_hot_step encoder _ _ _ _ _ Is Es) as (? & _ & ? & _)|done].
  apply bind_inv in E as [(s2 & u2 & E2 & E)|(e2 & E2 & _)]; [|by injection E2].
  apply (deferred_disk _ debt) in E2 as [I2 D2]; [|apply close_index_le|done].
  apply bind_inv in E as [(s3 & u3 & E3 & E)|(e3 & E3 & _)]; [|by injection E3].
  apply (deferred_disk _ debt) in E3 as [I3 D3]; [|apply sm_Close_le|done].
  injection E as <- _. split; [done|]. by rewrite -> D3, D2, D1.
Qed.
End Shutdown.

Section Crash.
#[local] Existing Instance os.name_le_dec.
Context {K : Type} `{kvStore K}.
Notation Svc := (Service Buffered K Journal).
Notation disk_of s := (b_disk (sv_store s)).
Notation seg_state s := (lg_seg (bf_log (disk_of s))).

(** What the next process finds after the machine of [s] has crashed: the data
    directory as a crash leaves it, the segments' entries among it, the tables as
    they were committed; and nothing fails from now on.  Every record that the crashed process appended was whole. *)
Record crashed (s : Svc) (m : Machine) : Prop := {
  cr_ledger : lg_ok (bf_log (disk_of s));
  cr_data : crash (sg_fs (seg_state s)) (mc_data m);
  cr_entries : segments_kept (sg_fs (seg_state s)) (mc_data m);
  cr_names : seg_dir (mc_data m);
  cr_db : same_but_faults (b_db (sv_store s)) (mc_db m);
  cr_idle : aborted (mc_db m) = false;
  cr_disks : fs_faults (mc_data m) = [] ∧ fs_faults (mc_journal m) = [] ∧ fs_faults (mc_dicts m) = [] ∧ fs_faults (mc_migrations m) = [];
  cr_session : db_faults (mc_db m) = [] ∧ Ping (mc_db m) = (mc_db m, Ok tt);
  (** The migrations have run before, and find nothing to do. *)
  cr_schema : ∀ name sql, file_data (mc_migrations m) name = Some sql → exec_sql sql (mc_db m) = (mc_db m, Ok tt);
  cr_sql : ∀ name, is_Some (fs_dir (mc_migrations m) !! name) → is_Some (file_data (mc_migrations m) name);
}.

Lemma on_mdb_same m s : m (mc_db s) = (mc_db s, Ok tt) → on_mdb m s = (s, Ok tt).
Proof. intros E. unfold on_mdb, zoom. rewrite -> E. by destruct s. Qed.

Lemma RunMigrations_again dsn (s : Svc) m : crashed s m → NewPool dsn = Ok tt → RunMigrations dsn m = (m, Ok tt).
Proof.
  intros C Hp. destruct (cr_disks _ _ C) as (_ & _ & _ & Hf). unfold RunMigrations, lift_result. rewrite -> Hp. erewrite bind_ok by reflexivity.
  destruct (ReadDir_ok _ Hf) as (names & Er & Hn). erewrite bind_ok by (unfold on_sql, zoom; rewrite -> Er; reflexivity). cbv zeta.
  assert (∀ n, n ∈ merge_sort os.name_le (filter (fun n => strings.HasSuffix n ".sql" = true) names) → n ∈ names) as Hin.
  { intros n. rewrite -> merge_sort_Permutation, list_elem_of_filter. by intros [_ ?]. }
  replace (MkMachine _ _ _ _ _ _ _) with m by (by destruct m).
  induction (merge_sort os.name_le _) as [|n l IH]; [done|]. cbn [forM_].
  destruct (cr_sql _ _ C n) as [sql Hs]; [apply Hn, Hin; by left|].
  assert (on_sql (os.ReadFile n) m = (m, Ok sql)) as E1.
  { unfold on_sql, zoom. rewrite -> (ReadFile_ok n _ Hf). unfold file_data in Hs. fold (node_at (mc_migrations m) n) in Hs.
    destruct (node_at (mc_migrations m) n) as [i|]; [|done]. injection Hs as ->. by destruct m. }
  erewrite bind_ok; [|erewrite bind_ok by exact E1; unfold wrap_err; rewrite -> (on_mdb_same _ _ (cr_schema _ _ C n sql Hs)); reflexivity].
  apply IH. intros k Hk. apply Hin. by right.
Qed.

Lemma NewJournal_ok fs : fs_faults fs = [] → ∃ j, NewJournal fs = (j, Ok tt).
Proof.
  intros Hf. unfold NewJournal. erewrite bind_ok by (unfold os.MkdirAll; rewrite -> guarded_none by done; reflexivity).
  unfold wrap_err, os.OpenFile. rewrite -> guarded_none by done. destruct (fs_dir fs !! JournalFile); by eexists.
Qed.

(** The settings [main] works with before registration. *)
Definition main_cfg (cfg : config.Config) : config.Config :=
  config.with_shard (config.EffectiveClusterKey cfg) (config.ShardID cfg) (config.ShardReadOnly cfg) cfg.

(** A manager that has just been started keeps its promises. *)
Lemma open_disk_inv cfg g evs : SegInv g → reads_open g → fs_faults (sg_fs g) = [] →
  dk_inv (open_disk cfg g evs) ∧ dk_readable (open_disk cfg g evs) ∧
  ∀ id off r, durable g id off r → dk_stored (open_disk cfg g evs) id off (enc r).
Proof.
  intros Ig Rg Fg. set (disk := MkDisk (SetVerifyChecksum (config.VerifyChecksum cfg) (sg g)) (si_files (NewSegmentIndex (sg_fs g))) (sg_fs g)).
  set (l := MkLogged disk (whole_segment g) []).
  assert (SegInv (seg_of disk)) as Iv by (destruct Ig as [A1 A2 A3 A4 A5 A6 A7]; by split).
  assert (dk_inv l) as Il by (split; [exact Iv|]; intros [Hw _]; exact (whole_segment_clean _ Hw)).
  assert (bf_log (open_disk cfg g evs) = l ∧ wb_ok (bf_wb (open_disk cfg g evs))) as [El W].
  { unfold open_disk. destruct (0 <? _); (split; [done|]); by apply new_ok. }
  split; [exact W|]. cbn [dk_readable buffered_ops dk_stored]. rewrite -> El. split; [by split|].
  intros id off r D. destruct (durable_holds g id off r Ig D) as [G1 G2].
  split; [split; [exact G1|exact G2]|]. intros _. exists r. split; [done|]. exact D.
Qed.

Lemma shard_comes_back e debt (s : Svc) m cfg examples patience id0 :
  svc_inv (Some e) debt s → enc_ok e → crashed s m → 0 <= id0 → is_Some (fs_dir (sg_fs (seg_state s)) !! segmentPath id0) → NewPool (config.PGDSN cfg) = Ok tt →
  config.CompressionEnabled cfg = true → config.DedupBackend cfg ∈ [""; "postgres"; "memory"] →
  remembers (MkBoot (mc_dicts m) (mc_db m)) (LoadSamplesFromExamples 500 examples).1 e →
  is_ok (start_registration patience (main_cfg cfg) m).2 = true →
  ∃ m' srv e' cfg', main (R := R) examples patience cfg m = (m', Ok (srv, Some e', cfg')) ∧ enc_ok e' ∧
    svc_inv (Some e') debt (sv_svc srv) ∧ dk_readable (disk_of (sv_svc srv)) ∧ sv_tables (sv_svc srv) = sv_tables s.
Proof.
  intros I He C Hid0 Hex Hpool Hce Hb Hr Hreg. pose proof (RunMigrations_again _ s m C Hpool) as Hmig. destruct C as [C1 C3 Ck C4 C5 C6 (F1 & F2 & F3 & _) [C8 D2] _ _].
  pose proof (ok_sm _ (si_disk _ _ _ (sv_ok _ _ _ I))) as [Is _].
  destruct (restart_durable (seg_state s) (mc_data m) (config.SegmentMaxSize cfg) id0) as (g & Eg & Rg & Hg); try done.
  pose proof Rg as (Ig & Og & Fg & _). destruct (open_disk_inv (main_cfg cfg) g (mc_others m) Ig Og Fg) as (Iv & Hread & Hst).
  unfold main. cbv zeta. fold (main_cfg cfg).
  erewrite bind_ok. 2:{ instantiate (1 := tt). instantiate (1 := m). destruct (negb _); [exact Hmig|done]. }
  erewrite bind_ok.
  2:{ unfold NewPostgresRepository, lift_result. change (config.PGDSN (main_cfg cfg)) with (config.PGDSN cfg). rewrite -> Hpool.
      erewrite bind_ok by reflexivity. unfold wrap_err. rewrite -> (on_mdb_same _ _ D2). reflexivity. }
  erewrite bind_ok. 2:{ unfold start_segments. change (config.SegmentMaxSize (main_cfg cfg)) with (config.SegmentMaxSize cfg). rewrite -> Eg. reflexivity. }
  change (config.CompressionEnabled (main_cfg cfg)) with (config.CompressionEnabled cfg). rewrite -> Hce.
  destruct (remembers_starts _ _ (config.CompressionMinSize (main_cfg cfg)) _ Hr F3 C8 C6) as (b' & e' & Eb & De & Hok & Hdb). cbn [bt_db] in Hdb.
  erewrite bind_ok by (unfold on_boot, zoom; cbn [mc_dicts mc_db]; rewrite -> Eb; reflexivity).
  cbn [mc_data mc_journal mc_migrations mc_db mc_client mc_others]. rewrite -> Hdb.
  set (m1 := MkMachine (sg_fs g) (mc_journal m) (bt_fs b') (mc_migrations m) (mc_db m) (mc_client m) (mc_others m)).
  destruct (start_dedup_ok (main_cfg cfg) m1 C8 C6 Hb) as [hot Eh]. erewrite bind_ok by exact Eh.
  assert (∃ m2 j, (if negb (config.ShardRole (main_cfg cfg) =? "replica")%string then let! j := start_journal in mret (Some j) else mret None) m1 = (m2, Ok j) ∧
    mc_client m2 = mc_client m ∧ mc_db m2 = mc_db m) as (m2 & j & Ej & Hc & Hm2).
  { destruct (negb _); [|by exists m1, None]. destruct (NewJournal_ok (mc_journal m) F2) as [j Ej].
    erewrite bind_ok by (unfold start_journal; cbn [mc_journal m1]; rewrite -> Ej; reflexivity). by do 2 eexists. }
  erewrite bind_ok by exact Ej. destruct (start_registration_client patience (main_cfg cfg) m m2 Hc Hreg) as (m3 & cfg' & Er & Hd3 & _).
  erewrite bind_ok by exact Er. unfold gets. erewrite bind_ok by reflexivity. do 4 eexists. split; [reflexivity|]. split; [done|].
  cbn [sv_svc NewShardServer]. rewrite -> Hd3, Hm2. destruct He as (Ho & _). destruct Hok as (Ho' & _).
  split; [|split; [exact Hread|by cbn; destruct C5 as (-> & _)]].
  eapply svc_inv_moved; [exact I|by apply same_dict_decoder; congruence|exact C5|exact C6|exact Iv|].
  intros id off mg p [_ Hd]. destruct (Hd C1) as (r0 & Eq & D). rewrite -> Eq. by apply Hst, Hg.
Qed.

(** A shard with a package has a segment. *)
Lemma package_segment encoder debt (s : Svc) id p :
  svc_inv encoder debt s → tget id (packages (sv_tables s)) = Some p →
  ∃ id0, 0 <= id0 ∧ is_Some (fs_dir (sg_fs (seg_state s)) !! segmentPath id0).
Proof.
  intros [I O Hi] Hp. destruct (O id p Hp) as (k & f & Hin & _).
  destruct (ri_file _ _ _ _ (si_db _ _ _ I) k f Hin) as (_ & _ & [b Hs] & _).
  destruct (si_blobs _ _ _ I _ _ Hs) as (data & mg & pl & _ & _ & [[Hh _] _] & _).
  destruct Hh as (Hid & _ & _ & i & Hn & _). exists (cb_SegmentID b). split; [lia|].
  unfold seg_node in Hn. destruct (fs_dir _ !! _); [by eauto|done].
Qed.

(** C4: an acknowledged upload survives the end of the process.  When
    [ProcessPackage] has answered with a package, then after any further operations
    and failures, through the write buffer (or without it) and among any writes of
    other goroutines, with or without a shutdown, a crash that keeps of each file
    only what was fsynced, and a start of the server in which nothing fails, the
    server runs on a sound service in which the very package that was answered is
    there, and its original reads back with the SHA-256 of the body.

    What is assumed: the process that ended was started on a segment of whole
    records (no footer) and appended no record that recovery does not accept (an
    empty payload, or 4 GiB of it); the crash has kept the directory entries of the
    segments, the names that read as segment names are those of segments below
    10000, and the database has kept its tables ([crashed]); the server starts with
    compression on, a hot index in memory or none, and still finds the dictionary of
    the process that ended ([remembers]); the database and the coordinator answer. *)
Theorem upload_survives_restart `{PG} `{Times} e withIndex icfg debt (s s1 s2 : Svc) sup body fn o os (graceful : bool) m cfg examples patience :
  enc_ok e → svc_inv (Some e) debt s →
  ProcessPackage (Some e) withIndex icfg sup body fn s = (s1, Ok o) →
  s2 = execs (Some e) withIndex icfg os s1 →
  crashed (if graceful then (shutdown (Some e) s2).1 else s2) m → NewPool (config.PGDSN cfg) = Ok tt →
  config.CompressionEnabled cfg = true → config.DedupBackend cfg ∈ [""; "postgres"; "memory"] →
  remembers (MkBoot (mc_dicts m) (mc_db m)) (LoadSamplesFromExamples 500 examples).1 e →
  is_ok (start_registration patience (main_cfg cfg) m).2 = true →
  ∃ m' srv e' cfg', main (R := R) examples patience cfg m = (m', Ok (srv, Some e', cfg')) ∧ enc_ok e' ∧
    (∃ pkg, o = Some pkg ∧ holds_upload (Some e') (sv_svc srv) (p_ID pkg) body) ∧ ∃ debt', debt_le debt debt' ∧ svc_inv (Some e') debt' (sv_svc srv).
Proof.
  intros He I E -> C Hpool Hce Hb Hr Hreg. assert (∀ e0, Some e = Some e0 → enc_ok e0) as He' by (by intros e0 [= <-]).
  destruct (Process_run (Some e) withIndex icfg He' debt sup body fn s s1 (Ok o) I E) as (d & new & Hd & R1 & U & _).
  destruct (execs_run (Some e) withIndex icfg He' d os s1 (sr_inv _ _ _ _ _ R1)) as (d2 & new2 & Hd2 & R2).
  destruct U as (pkg & f & p & Ho & _ & _ & _ & _ & Hp & Hh & _). set (id := p_ID pkg) in Hp.
  destruct (tl_kept _ _ _ (run_tables _ _ _ _ _ (sr_run _ _ _ _ _ R2)) id p Hp) as (p2 & Hp2 & E2 & _).
  set (s2 := execs _ _ _ os s1) in *. set (s3 := if graceful then _ else s2) in C.
  assert (svc_inv (Some e) d2 s3 ∧ b_db (sv_store s3) = b_db (sv_store s2)) as [I3 Edb].
  { unfold s3. destruct graceful; [|split; [apply R2|done]]. eapply shutdown_inv; [apply R2|apply surjective_pairing]. }
  rewrite <- Edb in Hp2. destruct (package_segment _ _ _ _ _ I3 Hp2) as (id0 & Hid0 & Hex).
  destruct (shard_comes_back e d2 _ m cfg examples patience id0 I3 He C Hid0 Hex Hpool Hce Hb Hr Hreg) as (m' & srv & e' & cfg' & Em & Hok & I' & Hrd & T).
  exists m', srv, e', cfg'. split; [done|]. split; [done|]. split; [|exists d2; split; [|done]; intros h; specialize (Hd h); specialize (Hd2 h); lia].
  exists pkg. split; [exact Ho|]. eapply original_upload; [exact I'|exact Hrd| |]; [rewrite -> T; exact Hp2|congruence].
Qed.
End Crash.
End Back.
