(* ===== verification/StartupDemo.v ===== *)
(** * A shard that crashes and comes back, on a concrete upload *)
From S2P Require Import Prelude GoLib Hash Record FS Segment SegmentScan SegmentStore SegmentDurable WriteBuffer SegmentIndex Metadata MetadataInv Disk Ledger Compress Dedup BlobStore Detect Journal UnpackQueue Ingest IngestInv IngestSafe IngestDemo Config Http ShardRepo Registry ControlDemo CoordServer RegisterClient CoordDemo Api ApiInv Buffered Restart Bootstrap Startup.

(** A server without RocksDB and a database whose schema is up to date. *)
#[local] Instance no_rocks : RocksDB Empty_set := {|
  GetBytes _ := fun r : Empty_set => match r with end; PutBytes _ _ := fun r : Empty_set => match r with end;
  iterate_keys := fun r : Empty_set => match r with end; write_deletes _ := fun r : Empty_set => match r with end;
  CloseDb := fun r : Empty_set => match r with end |}.
#[local] Instance linked : Linked Empty_set := {|
  rocksdb_tag := false; OpenDb _ := Err (errorf "not built in"); NewPool _ := Ok tt; Ping := mret tt; exec_sql _ := mret tt |}.
#[local] Existing Instances demo_times demo_json bad_zip demo_meta demo_meta_laws.

(** A shard with the default settings: the write buffer is attached.  While an upload
    waits for its record, another caller enqueues one and a flusher takes both; the
    ticker fires, the flusher runs its batch; then the index is written. *)
Definition default_cfg : config.Config := config.Load (fun _ => "").
Definition other_record : bytes := enc rec_b.
Definition demo_disk : Buffered := open_disk default_cfg (SegmentDurable.fresh 1000) [[EAppend other_record; ETake; ETick; ERun 0]].
Definition buffered_service : Service Buffered (gmap bytes Entry) Journal :=
  MkService (MkStore demo_disk (Some (MkHot (newBloom 0) ∅)) (empty_db 0 [])) (Some Codec.opened) (Some (NewUnpackQueue 4)).

Lemma fresh_facts : SegInv (SegmentDurable.fresh 1000) ∧ reads_open (SegmentDurable.fresh 1000) ∧ fs_faults (sg_fs (SegmentDurable.fresh 1000)) = [].
Proof. unfold SegmentDurable.fresh. destruct (fresh_start 1000) as (s & -> & I & _ & R & F & _). done. Qed.

Lemma buffered_service_inv : svc_inv demo_encoder no_debt buffered_service.
Proof.
  destruct fresh_facts as (I & R & F). destruct (open_disk_inv default_cfg _ [[EAppend other_record; ETake; ETick; ERun 0]] I R F) as (Iv & _).
  split; [split; [exact Iv|apply demo_store_inv|]|by intros id p Hp|done]. intros h b Hb. done.
Qed.

Lemma append_answered_witness :
  let x := sm_Append (enc rec_a) demo_disk in
  x.2 = Ok (MkLocation 0 0 (zlen (enc rec_a))) ∧ wb_log (bf_wb x.1) = [enc rec_a; other_record] ∧
  holds i_stable (lg_seg (bf_log x.1)) 0 0 (enc rec_a).
Proof.
  intros x. assert (x.2 = Ok (MkLocation 0 0 (zlen (enc rec_a)))) as Hx by (vm_compute; reflexivity).
  assert (wb_log (bf_wb x.1) = [enc rec_a; other_record]) as Hl by (vm_compute; reflexivity).
  split; [exact Hx|]. split; [exact Hl|]. destruct fresh_facts as (I & R & F).
  destruct (append_answered (enc rec_a) demo_disk x.1 x.2) as (_ & pw & _ & _ & _ & Hst).
  - apply (open_disk_inv default_cfg _ [[EAppend other_record; ETake; ETick; ERun 0]] I R F).
  - vm_compute. reflexivity.
  - vm_compute. intros Hc. repeat (apply elem_of_cons in Hc as [Hc|Hc]; [discriminate Hc|]). by apply not_elem_of_nil in Hc.
  - split; [|vm_compute; reflexivity]. exists [EAppend other_record; ETake], ETick, [ERun 0]. split; [reflexivity|vm_compute; reflexivity].
  - apply surjective_pairing.
  - apply (Hst _ Hx).
Defined.

(** The same server has been closed, and its write buffer holds 4 MiB. *)
Lemma append_after_close_waits_witness :
  let b := open_disk default_cfg (SegmentDurable.fresh 1000) [[ETick; EClose; ETick]] in
  (sm_Append (enc rec_a) (sm_Close b).1).2 = Err blocked.
Proof.
  intros b. destruct fresh_facts as (I & R & F). apply append_after_close_waits.
  - apply (open_disk_inv default_cfg _ [[ETick; EClose; ETick]] I R F).
  - vm_compute. reflexivity.
  - vm_compute. reflexivity.
  - repeat constructor.
Defined.

Definition uploaded_xml : Service Buffered (gmap bytes Entry) Journal :=
  (ProcessPackage demo_encoder true IngestDemo.demo_cfg 7 demo_xml None buffered_service).1.
Definition after_crash : Machine :=
  MkMachine (sg_fs (lg_seg (bf_log (b_disk (sv_store uploaded_xml))))) (empty_fs []) (empty_fs []) (empty_fs []) (b_db (sv_store uploaded_xml)) (MkClient [] [] []) [].

Definition xml_record : rec := xml_rec "<a/>".
Lemma after_crash_dir : fs_dir (mc_data after_crash) = <[segmentPath 0 := 1%positive]> {[indexPath 0 := 2%positive]}.
Proof. vm_compute. reflexivity. Qed.

Lemma crash_nodes : map_Forall (fun _ i => i_data i = i_stable i) (fs_nodes (mc_data after_crash)).
Proof. apply (bool_decide_unpack _). vm_compute. reflexivity. Qed.

Lemma after_crash_wf : fs_wf (mc_data after_crash).
Proof.
  destruct (Process_run demo_encoder true IngestDemo.demo_cfg demo_encoder_ok no_debt 7 demo_xml None buffered_service uploaded_xml
    (ProcessPackage demo_encoder true IngestDemo.demo_cfg 7 demo_xml None buffered_service).2 buffered_service_inv) as (d & new & _ & R1 & _).
  { apply surjective_pairing. }
  destruct (ok_sm _ (si_disk _ _ _ (sv_ok _ _ _ (sr_inv _ _ _ _ _ R1)))) as [Is _]. exact (inv_wf _ Is).
Qed.

Lemma demo_crashed : crashed uploaded_xml after_crash.
Proof.
  split.
  - split; [vm_compute; reflexivity|].
    assert (lg_log (bf_log (b_disk (sv_store uploaded_xml))) = [enc xml_record; other_record]) as -> by (vm_compute; reflexivity).
    repeat constructor; [exists xml_record|exists rec_b]; (split; [by apply xml_rec_valid; vm_compute|done]).
  - apply crash_refl; [apply after_crash_wf|apply crash_nodes].
  - by intros id Hid.
  - unfold seg_dir. rewrite -> after_crash_dir. split.
    + intros name id [ino Hn]. apply lookup_insert_Some in Hn as [[<- _]|[_ Hn]].
      * replace (Sscanf_segment _ _) with (Some 0) by (vm_compute; reflexivity). by intros [= <-].
      * apply lookup_singleton_Some in Hn as [<- _]. replace (Sscanf_segment _ _) with (@None Z) by (vm_compute; reflexivity). done.
    + intros id Hid [ino Hn]. apply lookup_insert_Some in Hn as [[Hn _]|[_ Hn]]; [apply segmentPath_inj in Hn; lia|].
      apply lookup_singleton_Some in Hn as [Hn _]. by apply indexPath_segment in Hn.
  - by split_and!.
  - vm_compute. reflexivity.
  - split_and!; vm_compute; reflexivity.
  - split; [vm_compute; reflexivity|done].
  - done.
  - by intros name [ino Hn].
Qed.

Lemma upload_survives_restart_witness :
  ∃ m' srv e cfg, main (R := Empty_set) (Err not_exist) 0 default_cfg after_crash = (m', Ok (srv, Some e, cfg)) ∧
    ∃ pkg, (ProcessPackage demo_encoder true IngestDemo.demo_cfg 7 demo_xml None buffered_service).2 = Ok (Some pkg) ∧
    holds_upload (Some e) (sv_svc srv) (p_ID pkg) demo_xml.
Proof.
  set (e := MkEncoder 1 64 [] true).
  assert (is_ok (ProcessPackage demo_encoder true IngestDemo.demo_cfg 7 demo_xml None buffered_service).2 = true) as Hok by (vm_compute; reflexivity).
  destruct (ProcessPackage demo_encoder true IngestDemo.demo_cfg 7 demo_xml None buffered_service) as [s1 [o|er]] eqn:E; [|done].
  assert (uploaded_xml = s1) as Hs by (unfold uploaded_xml; by rewrite -> E).
  destruct (upload_survives_restart e true IngestDemo.demo_cfg no_debt buffered_service s1 s1 7 demo_xml None o [] false after_crash default_cfg (Err not_exist) 0)
    as (m' & srv & e' & cfg & Em & _ & (pkg & Ho & Hu) & _).
  - by apply demo_encoder_ok.
  - exact buffered_service_inv.
  - exact E.
  - reflexivity.
  - rewrite <- Hs. exact demo_crashed.
  - reflexivity.
  - reflexivity.
  - right. left.
  - right. split; [done|]. split; [done|]. split; [done|]. vm_compute. reflexivity.
  - vm_compute. reflexivity.
  - exists m', srv, e', cfg. split; [exact Em|]. exists pkg. split; [cbn; by rewrite -> Ho|exact Hu].
Defined.
