(* ===== verification/Commands.v ===== *)
(** * The other programs: cmd/coordinator, cmd/recovery-tool, cmd/rebuild-index, cmd/migrate, cmd/shard-sync

    Each [main] up to what it serves or to its end; an error is the exit with status
    1.  Flags are arguments.  The coordinator's database driver and the decoder of
    its bootstrap file are parameters ([CoordDriver]). *)
From S2P Require Import Prelude GoLib Hash Record FS Segment SegmentScan SegmentStore SegmentDurable WriteBuffer SegmentIndex Metadata MetadataInv Disk Ledger Compress Dedup BlobStore Detect Journal UnpackQueue Ingest IngestInv IngestSafe Recovery Metrics ShardRepo Registry RegistryInv Config Http CoordServer RegisterClient Api ApiInv Buffered ShardSync Bootstrap Startup.

(** ** Rebuilding: recovery-tool and rebuild-index *)
Section Rebuilding.
Context {R : Type} `{RocksDB R} `{Linked R} `{Bloom} `{PG} `{Times} `{EntryJSON} `{MetaJSON} `{EnvLib}.
Notation Mem := (gmap bytes Entry).

Definition connect (dsn : string) : M DB unit :=
  do! wrap_err "connect postgres: " (lift_result (NewPool dsn));
  wrap_err "ping postgres: " Ping.

(** [dedup.RebuildFromPG] with its query. *)
Definition rebuild_hot (cfg : config.Config) (idx : Hot (Mem + R)) : M DB (Hot (Mem + R)) :=
  match idx with
  | None => mret None
  | Some _ =>
      let! blobs := ListContentBlobs in
      let rebuilt := RebuildFromPG blobs (config.BloomExpectedItems cfg) idx in
      do! lift_result rebuilt.2;
      mret rebuilt.1
  end.

(** What the tool leaves of the index: nothing without [-apply]. *)
Definition recovery_tool_main (apply : bool) (cfg : config.Config) : M Rebuilder (Hot (Mem + R)) :=
  do! on_meta (connect (config.PGDSN cfg));
  do! Rebuild apply;
  if apply then
    let! idx := lift_result (Open cfg) in
    let! idx := on_meta (rebuild_hot cfg idx) in
    mret (hot_Close idx).1
  else mret None.

(** The index that is left, and the number of entries it logs. *)
Definition rebuild_index_main (cfg : config.Config) : M DB (Hot (Mem + R) * Z) :=
  do! connect (config.PGDSN cfg);
  let! idx := lift_result (Open cfg) in
  let! idx := rebuild_hot cfg idx in
  let n := match (hot_Len idx).2 with Ok n => n | Err _ => 0 end in
  mret ((hot_Close idx).1, n).

Lemma connect_state dsn db db' r : (∀ db, db_tables (Ping db).1 = db_tables db) → connect dsn db = (db', r) → db_tables db' = db_tables db.
Proof.
  intros Hp E. unfold connect, lift_result in E. apply bind_inv in E as [(db1 & u & E1 & E)|(e & E1 & ->)];
    apply wrap_err_inv in E1 as (r1 & E1 & _); injection E1 as <- _; [|done].
  apply wrap_err_inv in E as (r2 & E & _). specialize (Hp db). by rewrite -> E in Hp.
Qed.

Lemma rebuild_hot_covers cfg idx db db' hot : BloomLaws → rebuild_hot cfg idx db = (db', Ok hot) →
  (∀ h b, content_blobs (db_tables db) !! h = Some b → ContentHash b = h) →
  db_tables db' = db_tables db ∧ packages_seq db' = packages_seq db ∧ files_seq db' = files_seq db ∧
  covers hot (elements (dom (content_blobs (db_tables db)))).
Proof.
  intros BL E Hh. unfold rebuild_hot in E. destruct idx as [i|]; [|injection E as <- <-; by split_and!].
  apply bind_inv in E as [(db1 & blobs & E1 & E)|(e & _ & ?)]; [|done].
  cbv zeta in E. destruct (RebuildFromPG blobs _ (Some i)) as [h' r'] eqn:Er. cbn [fst snd] in E.
  apply bind_inv in E as [(db2 & [] & E2 & E)|(e & _ & ?)]; [|done]. unfold lift_result in E2. injection E2 as <- ->. injection E as <- <-.
  assert (∃ t, same_but_faults db db1 ∧ t = db_tables db ∧ blobs = merge_sort seen_before (map_to_list (content_blobs t)).*2) as (t & (T & P & F & _) & -> & ->).
  { unfold ListContentBlobs in E1. apply stmt_read in E1 as [Es Eb]. eexists. split; [exact Es|]. split; [done|]. exact Eb. }
  do 3 (split; [done|]). apply RebuildFromPG_covers in Er. intros h Hin. apply Er. apply elem_of_elements, elem_of_dom in Hin as [b Hb].
  apply list_elem_of_fmap. exists b. split; [symmetry; by apply Hh|]. rewrite -> merge_sort_Permutation.
  apply list_elem_of_fmap. exists (h, b). split; [done|]. by apply elem_of_map_to_list.
Qed.

(** C15: The recovery tool puts the metadata in order.  When it succeeds with [-apply],
    whatever was in the database, the tables are sound and count every reference
    exactly, and the hot index it has filled passes every blob of the table. *)
Theorem recovery_tool_sound `{!BloomLaws} cfg s s' hot :
  recovery_tool_main true cfg s = (s', Ok hot) →
  db_inv (db_tables (rb_db s')) (packages_seq (rb_db s')) (files_seq (rb_db s')) no_debt ∧
  covers hot (elements (dom (content_blobs (db_tables (rb_db s'))))).
Proof.
  intros E. unfold recovery_tool_main in E. apply bind_inv in E as [(s1 & u1 & _ & E)|(e & _ & ?)]; [|done].
  apply bind_inv in E as [(s2 & [] & E2 & E)|(e & _ & ?)]; [|done]. apply rebuild_sound in E2.
  apply bind_inv in E as [(s3 & idx & E3 & E)|(e & _ & ?)]; [|done]. unfold lift_result in E3. injection E3 as <- _.
  apply bind_inv in E as [(s4 & idx' & E4 & E)|(e & _ & ?)]; [|done]. apply on_meta_inv in E4 as (db & E4 & ->). injection E as <- <-.
  destruct (rebuild_hot_covers cfg idx _ _ _ _ E4) as (T & P & F & Hc); [intros h b Hb; by destruct (ri_blob _ _ _ _ E2 h b Hb)|].
  cbn [rb_db]. rewrite -> T, P, F. split; [exact E2|]. intros h Hh. specialize (Hc h Hh).
  destruct idx' as [i|]; [|done]. unfold hot_Close, on_kv. by destruct (kv_close (hi_store i)).
Qed.
End Rebuilding.

(** ** cmd/coordinator *)

(** The coordinator's driver: its pool, a ping, running the text of a migration; and
    the decoder of the bootstrap file. *)
Class CoordDriver := {
  c_NewPool : string → result unit;
  c_Ping : M CDB unit;
  c_exec_sql : bytes → M CDB unit;
  decode_bootstrap : bytes → result (list BootstrapShard);
}.

Section Coordinator.
Context `{PG} `{CoordLib} `{EnvLib} `{CoordDriver}.

(** What the process finds: its two directories, and the world of its registry. *)
Record CoordMachine : Type := MkCoordMachine { cm_migrations : FS; cm_dir : FS; cm_world : World }.
Definition on_csql {A} (m : M FS A) : M CoordMachine A := zoom cm_migrations (fun fs s => MkCoordMachine fs (cm_dir s) (cm_world s)) m.
Definition on_cdir {A} (m : M FS A) : M CoordMachine A := zoom cm_dir (fun fs s => MkCoordMachine (cm_migrations s) fs (cm_world s)) m.
Definition on_cdb {A} (m : M CDB A) : M CoordMachine A :=
  zoom (fun s => w_db (cm_world s)) (fun db s => MkCoordMachine (cm_migrations s) (cm_dir s) (set_db db (cm_world s))) m.

#[local] Existing Instance os.name_le_dec.
Definition c_RunMigrations (dsn : string) : M CoordMachine unit :=
  do! lift_result (c_NewPool dsn);
  let! entries := on_csql os.ReadDir in
  let names := filter (fun n => strings.HasSuffix n ".sql" = true) entries in
  forM_ (merge_sort os.name_le names) (fun name =>
    let! sql := on_csql (os.ReadFile name) in
    wrap_err ("migration " +:+ name +:+ ": ") (on_cdb (c_exec_sql sql))).

Definition NewRepository (dsn : string) : M CoordMachine unit :=
  do! lift_result (c_NewPool dsn);
  on_cdb c_Ping.

(** [BootstrapFromFile], with the file. *)
Definition bootstrap_file (path : string) : M CoordMachine unit :=
  let! data := try (on_cdir (os.ReadFile path)) in
  match data with
  | Err e => if error_is e ErrNotExist then mret tt else fail e
  | Ok data =>
      let! shards := lift_result (decode_bootstrap data) in
      on_cdb (BootstrapFromFile shards)
  end.

(** The process starts with new gauges; the first refresh is done when it listens. *)
Definition start_refresh (cfg : config.Config) : M CoordMachine unit :=
  zoom cm_world (fun w s => MkCoordMachine (cm_migrations s) (cm_dir s) w)
    (do! modify (set_metrics coordinator_init);
     RunCoordinatorRefresh w_metrics set_metrics ShardSnapshots (config.ShardMaxBytes cfg) 0).

(** The goroutine of the seal loop, as far as its ticks have come. *)
Definition start_seal_loop (cfg : config.Config) (ticks : nat) : M CoordMachine unit :=
  zoom cm_world (fun w s => MkCoordMachine (cm_migrations s) (cm_dir s) w) (RunSealLoop cfg ticks).

(** [main] to the server, which listens when the seal loop has ticked [sealTicks] times:
    its first tick comes [SealCheckInterval] after it was started. *)
Definition coordinator_main (cfg : config.Config) (sealTicks : nat) : M CoordMachine config.Config :=
  let cfg := config.with_shard (config.EffectiveClusterKey cfg) (config.ShardID cfg) (config.ShardReadOnly cfg) cfg in
  do! c_RunMigrations (config.CoordinatorPGDSN cfg);
  do! NewRepository (config.CoordinatorPGDSN cfg);
  do! bootstrap_file (config.CoordinatorBootstrap cfg);
  do! start_seal_loop cfg sealTicks;
  do! start_refresh cfg;
  mret cfg.

(** *** A restart of the coordinator *)

(** A row of the registry after seeding: only what was missing is filled in. *)
Definition seeded (s s' : ShardInfo) : Prop :=
  sh_ID s' = sh_ID s ∧ State s' = State s ∧ sh_TotalBytes s' = sh_TotalBytes s ∧ SealedAt s' = SealedAt s ∧
  LastSeenAt s' = LastSeenAt s ∧ LastError s' = LastError s ∧ CreatedAt s' = CreatedAt s ∧
  (∀ u, ShardUUID s = Some u → ShardUUID s' = Some u) ∧ (∀ u, ReplicaURL s = Some u → ReplicaURL s' = Some u) ∧
  (blank (PrimaryURL s) = false → PrimaryURL s' = PrimaryURL s).
Definition kept_rows (t t' : table ShardInfo) : Prop := ∀ id s, tget id t = Some s → ∃ s', tget id t' = Some s' ∧ seeded s s'.

#[export] Instance seeded_preorder : PreOrder seeded.
Proof.
  split; [intros s; by repeat split|]. intros a b c (A1 & A2 & A3 & A4 & A5 & A6 & A7 & A8 & A9 & A10) (B1 & B2 & B3 & B4 & B5 & B6 & B7 & B8 & B9 & B10).
  unfold seeded. split_and!; try congruence; [by auto|by auto|]. intros Hb. rewrite -> B10; [by apply A10|]. by rewrite -> (A10 Hb).
Qed.
#[export] Instance kept_rows_preorder : PreOrder kept_rows.
Proof.
  split; [intros t id s Hs; exists s; by split; [|reflexivity]|]. intros t1 t2 t3 K1 K2 id s Hs.
  destruct (K1 id s Hs) as (s1 & E1 & S1). destruct (K2 id s1 E1) as (s2 & E2 & S2). exists s2. split; [done|]. by transitivity s1.
Qed.

Lemma seed_rows s db : kept_rows (shard_registry db) (shard_registry (seedShardFromBootstrap s db).1).
Proof.
  unfold seedShardFromBootstrap, int2_arg. destruct (int2 _); [|reflexivity].
  destruct (cstmt _ db) as [db' r] eqn:E. apply cstmt_inv in E as (fs & [[-> _]|(r1 & E & _)]); [reflexivity|].
  unfold checked in E. destruct (texts_ok s); [|by injection E as <- _]. munfold. unfold get in E. unfold write in E.
  destruct (indexes_ok _); injection E as <- _; [|reflexivity]. cbn [fst shard_registry set_registry set_faults].
  intros id o Ho. destruct (decide (id = sh_ID s)) as [->|Hne]; [|rewrite -> tget_tput_ne by done; exists o; by split; [|reflexivity]].
  rewrite -> tget_tput_eq. rewrite -> Ho. eexists. split; [reflexivity|]. unfold seeded. cbn. split_and!; try done; [by intros u ->|by intros u ->|by intros ->].
Qed.

Lemma bootstrap_rows shards db : kept_rows (shard_registry db) (shard_registry (BootstrapFromFile shards db).1).
Proof.
  unfold BootstrapFromFile. revert db. induction shards as [|b shards IH]; intros db; [reflexivity|]. cbn [forM_].
  set (m := seedShardFromBootstrap _). pose proof (seed_rows _ db : kept_rows _ (shard_registry (m db).1)) as K.
  unfold mbind, M_bind. destruct (m db) as [db1 [u|e]]; [|exact K]. transitivity (shard_registry db1); [exact K|apply IH].
Qed.

(** A step of [main] while no other session writes and the migration files stay. *)
Context (sqls : FS).
Notation rows s := (shard_registry (w_db (cm_world s))).
Definition starting (s : CoordMachine) : Prop := w_env (cm_world s) = [] ∧ fs_core (cm_migrations s) = fs_core sqls.
Definition preserves {A} (m : M CoordMachine A) : Prop := ∀ s, starting s →
  kept_rows (rows s) (rows (m s).1) ∧ starting (m s).1.

Lemma preserves_ret {A} (a : A) : preserves (mret a).
Proof. intros s Hs. by split. Qed.
Lemma preserves_fail {A} e : preserves (fail (A := A) e).
Proof. intros s Hs. by split. Qed.
Lemma preserves_lift {A} (r : result A) : preserves (lift_result r).
Proof. intros s Hs. by split. Qed.
Lemma preserves_bind {A B} (m : M CoordMachine A) (k : A → M CoordMachine B) : preserves m → (∀ a, preserves (k a)) → preserves (m ≫= k).
Proof.
  intros Hm Hk s Hs. specialize (Hm s Hs). unfold mbind, M_bind. destruct (m s) as [s1 [a|e]]; [|done].
  destruct Hm as [K1 W1]. destruct (Hk a s1 W1) as [K2 W2]. split; [|done]. by transitivity (rows s1).
Qed.
Lemma preserves_try {A} (m : M CoordMachine A) : preserves m → preserves (try m).
Proof. intros Hm s Hs. specialize (Hm s Hs). unfold try. by destruct (m s). Qed.
Lemma preserves_wrap {A} pre (m : M CoordMachine A) : preserves m → preserves (wrap_err pre m).
Proof. intros Hm s Hs. specialize (Hm s Hs). unfold wrap_err. by destruct (m s) as [? []]. Qed.
Lemma preserves_forM {A} (f : A → M CoordMachine unit) xs : (∀ a, preserves (f a)) → preserves (forM_ xs f).
Proof. intros Hf. induction xs; [apply preserves_ret|]. by apply preserves_bind. Qed.
Lemma preserves_ReadDir : preserves (on_csql os.ReadDir).
Proof.
  intros s [He Hc]. unfold on_csql, zoom. destruct (os.ReadDir _) as [fs r] eqn:E.
  apply guarded_pure_core in E as [Hc' _]; [|done]. split; [done|]. split; [done|]. by rewrite <- Hc.
Qed.
(** Running a file: [m] need preserve the rows only for what the file holds. *)
Lemma preserves_file {A} name (k : bytes → M CoordMachine A) :
  (∀ sql, file_data sqls name = Some sql → preserves (k sql)) → preserves (on_csql (os.ReadFile name) ≫= k).
Proof.
  intros Hk s [He Hc]. unfold mbind, M_bind, on_csql, zoom. destruct (os.ReadFile name (cm_migrations s)) as [fs r] eqn:E.
  apply ReadFile_node in E as [Hc' Hr].
  assert (starting (MkCoordMachine fs (cm_dir s) (cm_world s))) as St by (split; [done|cbn; by rewrite -> Hc']).
  destruct r as [sql|e]; [|by split]. refine (Hk sql _ _ St). destruct Hr as (i & Hi & ->).
  rewrite -> (core_node _ _ name Hc) in Hi. unfold file_data. fold (node_at sqls name). by rewrite -> Hi.
Qed.
Lemma preserves_dir {A} (m : M FS A) : preserves (on_cdir m).
Proof. intros s Hs. unfold on_cdir, zoom. by destruct (m _). Qed.
Lemma preserves_db {A} (m : M CDB A) : (∀ db, kept_rows (shard_registry db) (shard_registry (m db).1)) → preserves (on_cdb m).
Proof. intros Hm s Hs. specialize (Hm (w_db (cm_world s))). unfold on_cdb, zoom. by destruct (m _). Qed.

Lemma preserves_refresh cfg : preserves (start_refresh cfg).
Proof.
  intros s [Hs Hc]. unfold start_refresh, RunCoordinatorRefresh, coordinator_refresh, zoom, modify. munfold.
  set (w := set_metrics _ _). change (shard_registry (w_db (cm_world s))) with (reg w). change (w_env w = []) in Hs.
  assert (reg (ShardSnapshots w).1 = reg w ∧ w_env (ShardSnapshots w).1 = []) as [Er Ee].
  { unfold ShardSnapshots, Registry.repo, interfere, mbind, M_bind, reg. rewrite -> Hs. unfold zoom.
    unfold ListShards, cstmt, registry. destruct (c_faults _) as [|[] fs]; done. }
  destruct (ShardSnapshots w) as [w' [l|e]]; cbn in *; (split; [change (kept_rows (reg w) (reg w')); by rewrite -> Er|done]).
Qed.

Lemma preserves_seal_loop cfg : preserves (start_seal_loop cfg 0).
Proof. intros s [He Hc]. unfold start_seal_loop, RunSealLoop, zoom. by destruct (seal_loop_on cfg). Qed.

Ltac preserves :=
  repeat first
    [ apply preserves_ret | apply preserves_fail | apply preserves_lift | apply preserves_ReadDir | apply preserves_refresh
    | apply preserves_seal_loop | apply preserves_try, preserves_dir
    | apply preserves_forM; intros ? | apply preserves_wrap | apply preserves_file; intros ? ?
    | apply preserves_bind; [|intros ?]
    | match goal with |- preserves (match ?x with _ => _ end) => destruct x end ].

Lemma preserves_main cfg :
  (∀ name sql db, file_data sqls name = Some sql → shard_registry (c_exec_sql sql db).1 = shard_registry db) →
  (∀ db, shard_registry (c_Ping db).1 = shard_registry db) → preserves (coordinator_main cfg 0).
Proof.
  intros Hsql Hping. unfold coordinator_main, c_RunMigrations, NewRepository, bootstrap_file. preserves; apply preserves_db.
  - intros db. by erewrite Hsql.
  - intros db. by rewrite -> Hping.
  - apply bootstrap_rows.
Qed.
End Coordinator.

(** C37: A restart of the coordinator keeps its registry.  Whatever the bootstrap file
    says and whatever fails, [main], up to the first tick of the seal loop, leaves
    every registered shard in the state it had, with its uuid, sizes and times; it
    fills in only what was missing.  The migration files have been run before, so
    that running one again changes no row of the registry, and nor does the ping;
    and no other session writes meanwhile. *)
Theorem coordinator_restart_keeps `{PG} `{CoordLib} `{EnvLib} `{CoordDriver} cfg m m' r :
  (∀ name sql db, file_data (cm_migrations m) name = Some sql → shard_registry (c_exec_sql sql db).1 = shard_registry db) →
  (∀ db, shard_registry (c_Ping db).1 = shard_registry db) →
  w_env (cm_world m) = [] → coordinator_main cfg 0 m = (m', r) →
  kept_rows (shard_registry (w_db (cm_world m))) (shard_registry (w_db (cm_world m'))).
Proof.
  intros Hsql Hping Hw E. pose proof (preserves_main _ cfg Hsql Hping m ltac:(done)) as P. rewrite -> E in P. apply P.
Qed.

(** ** cmd/migrate *)
Section Migrate.
Context {R : Type} `{Linked R} `{CoordDriver} `{EnvLib}.

(** On the shard's machine and the coordinator's, as the flags say. *)
Definition migrate_main (runMetadata runCoordinator : bool) (cfg : config.Config) : M (Machine * CoordMachine) unit :=
  do! (if runMetadata then zoom fst (fun m s => (m, s.2)) (RunMigrations (config.PGDSN cfg)) else mret tt);
  if runCoordinator then zoom snd (fun m s => (s.1, m)) (c_RunMigrations (config.CoordinatorPGDSN cfg)) else mret tt.
End Migrate.

(** ** cmd/shard-sync *)
Section SyncMain.
Context {P : Type} `{SegJSON} `{EnvLib}.
Context (fetch : string → list (string * string) → M P raw_response).

Definition sync_interval (getenv : string → string) : Z :=
  let v := getenv "SYNC_INTERVAL" in
  if (v =? "")%string then 30 * second else default (30 * second) (ParseDuration v).

(** [main] for as many rounds as it gets; a round that fails is logged. *)
Definition shard_sync_main (getenv : string → string) (rounds : nat) : M (Sync (P := P)) unit :=
  let cfg := config.Load getenv in
  let primary := getenv "SYNC_PRIMARY_URL" in
  if (primary =? "")%string then fail (errorf "SYNC_PRIMARY_URL required") else
  forM_ (replicate rounds tt) (fun _ => ignore (syncOnce fetch primary (sync_key cfg))).

(** C18: replication never leaves a partial file.  Whatever fails on the network and
    on the replica's disk, and however the primary answers, after any number of
    rounds of shard-sync each of the replica's files (the temporary ones apart) is
    the one it was, or a complete body the primary answered its download with,
    flushed to disk.  A file is named by its path from the data directory, and its
    downloads are those of the listed names that [filepath.Join] makes that path. *)
Theorem shard_sync_whole_files (served : string → bytes → Prop) getenv rounds s s' r n :
  (∀ p p' resp m, fetch (segment_url (getenv "SYNC_PRIMARY_URL") m) (setClusterKey (sync_key (config.Load getenv))) p = (p', Ok resp) →
    hs_status resp = 200 → (hs_body resp).2 = None → served (Join m) (hs_body resp).1) →
  fs_wf (sy_fs s) → shard_sync_main getenv rounds s = (s', r) → ¬ temporary n → whole served (sy_fs s) (sy_fs s') n.
Proof.
  intros Hsv W E Hn. unfold shard_sync_main in E. destruct (_ =? _)%string; [injection E as <- _; by left|].
  revert s W E. induction rounds as [|k IH]; intros s W E; cbn [replicate forM_] in E; [injection E as <- _; by left|].
  apply bind_inv in E as [(s1 & u & E1 & E)|(e & E1 & _)]; [|by injection E1]. unfold ignore in E1. injection E1 as E1.
  destruct (syncOnce fetch _ _ s) as [s2 r2] eqn:E2. cbn in E1. subst s2.
  destruct (syncOnce_whole fetch _ _ served Hsv s s1 r2 W E2) as [W1 N1].
  eapply whole_trans; [by apply N1|]. by apply IH.
Qed.
End SyncMain.
