(* ===== verification/CommandsDemo.v ===== *)
(** * The recovery tool and a restarted coordinator, on concrete data *)
From S2P Require Import Prelude GoLib Hash Metadata MetadataInv Dedup Journal Recovery FS Ids ShardRepo Registry ControlDemo Config Http CoordServer RegisterClient CoordDemo Startup StartupDemo Commands.

(** A data directory with one index record and one journal line, an empty database,
    and the index in memory. *)
Section Tool.
#[local] Existing Instances Demo.times Demo.json Demo.meta_json Demo.any_text no_rocks linked.
Definition memory_cfg : config.Config := config.Load (fun k => if (k =? "DEDUP_BACKEND")%string then "memory" else "").

Lemma recovery_tool_sound_witness :
  let x := recovery_tool_main (R := Empty_set) true memory_cfg (Demo.start Demo.journal) in
  ∃ hot, x.2 = Ok hot ∧ (hot_Len hot).2 = Ok 1 ∧
    db_inv (db_tables (rb_db x.1)) (packages_seq (rb_db x.1)) (files_seq (rb_db x.1)) no_debt ∧
    covers hot (elements (dom (content_blobs (db_tables (rb_db x.1))))).
Proof.
  intros x. assert (match x.2 with Ok hot => (hot_Len hot).2 | Err e => Err e end = Ok 1) as Hok by (vm_compute; reflexivity).
  destruct x.2 as [hot|e] eqn:E2; [|done]. exists hot. split; [done|]. split; [done|].
  apply (recovery_tool_sound memory_cfg (Demo.start Demo.journal)). fold x. rewrite <- E2. apply surjective_pairing.
Defined.
End Tool.

(** A bootstrap file of four bytes that names shard 1 active at another address and
    shard 3 standby, on a registry where shard 1 was sealed; any SQL but the
    migration there is would empty the registry. *)
Section Restarted.
#[local] Instance driver : CoordDriver := {|
  c_NewPool _ := Ok tt; c_Ping := mret tt;
  c_exec_sql sql := if bool_decide (sql = bs "create") then mret tt else modify (set_registry (fun _ => []));
  decode_bootstrap _ := Ok [MkBootstrap 1 "active" "http://moved" "" ""; MkBootstrap 3 "standby" "http://shard-3" "" demo_uuid] |}.
Definition coord_cfg : config.Config := config.Load (fun k => if (k =? "COORDINATOR_BOOTSTRAP")%string then "shards.json" else "").
Definition sealed_one : table ShardInfo := [(1, demo_shard 1 ShardSealed); (2, demo_shard 2 ShardActive)].
Definition stopped_coordinator : CoordMachine :=
  MkCoordMachine (os.WriteFile "001.sql" (bs "create") (empty_fs [])).1 (os.WriteFile "shards.json" (bs "[..]") (empty_fs [])).1 (demo_world sealed_one [] []).

Lemma coordinator_restart_keeps_witness :
  let x := coordinator_main coord_cfg 0 stopped_coordinator in
  is_ok x.2 = true ∧ length (shard_registry (w_db (cm_world x.1))) = 3%nat ∧
  kept_rows sealed_one (shard_registry (w_db (cm_world x.1))).
Proof.
  intros x. split; [vm_compute; reflexivity|]. split; [vm_compute; reflexivity|].
  apply (coordinator_restart_keeps coord_cfg stopped_coordinator x.1 x.2); [|done|reflexivity|apply surjective_pairing].
  intros name sql db Hs. assert (file_data (cm_migrations stopped_coordinator) name = Some (bs "create")) as Hc.
  { destruct (decide (name = "001.sql")) as [->|Hn]; [vm_compute; reflexivity|].
    exfalso. unfold file_data in Hs. change (fs_dir (cm_migrations stopped_coordinator)) with ({["001.sql" := 1%positive]} : gmap string positive) in Hs.
    rewrite -> lookup_singleton_ne in Hs by congruence. discriminate Hs. }
  rewrite -> Hc in Hs. injection Hs as <-. reflexivity.
Defined.
End Restarted.
