(* ===== verification/ShardMirror.v ===== *)
(** * A replica against its primary: cmd/shard-sync with the internal endpoints of internal/api

    [primary_fetch] connects the replica's client to the primary's server of
    Api.v.  When nothing fails, one synchronisation makes every segment, index
    and journal file of the primary a file of the replica. *)
From S2P Require Import Prelude GoLib Hash Record FS Segment SegmentStore SegmentDurable Ids Metadata MetadataInv Disk Compress Dedup BlobStore Detect Journal UnpackQueue Ingest IngestInv IngestSafe Config Http Api DiskGate ApiInv ShardSync.

(** ** Comparing digests *)
Lemma fold_case_ascii l : Forall (fun b => bN b < 128) l → strings.fold_case l = strings.lower1 <$> l.
Proof.
  induction l as [|a l IH]; [done|]. intros [Ha Hl]%Forall_cons. specialize (IH Hl). destruct l as [|b l]; [done|].
  change (strings.fold_case (a :: b :: l)) with
    (if (bN a =? 197) && (bN b =? 191) then byte.of_Z 115 :: strings.fold_case l else
     match l with
     | c :: l3 => if (bN a =? 226) && (bN b =? 132) && (bN c =? 170) then byte.of_Z 107 :: strings.fold_case l3
                  else strings.lower1 a :: strings.fold_case (b :: l)
     | [] => strings.lower1 a :: strings.fold_case (b :: l)
     end).
  replace (bN a =? 197) with false by lia. replace (bN a =? 226) with false by lia. rewrite -> IH. by destruct l.
Qed.

Lemma hexdigit_lower z : 0 <= z < 16 → bN (hexdigit z) < 128 ∧ strings.lower1 (hexdigit z) = hexdigit z.
Proof.
  intros H. assert (z = 0 ∨ z = 1 ∨ z = 2 ∨ z = 3 ∨ z = 4 ∨ z = 5 ∨ z = 6 ∨ z = 7 ∨ z = 8 ∨ z = 9 ∨
    z = 10 ∨ z = 11 ∨ z = 12 ∨ z = 13 ∨ z = 14 ∨ z = 15) as Hz by lia.
  by destruct_or! Hz; subst z.
Qed.

Lemma hex_fold l : strings.fold_case (hex_encode l) = hex_encode l.
Proof.
  assert (Forall (fun b => bN b < 128 ∧ strings.lower1 b = b) (hex_encode l)) as Hl.
  { induction l as [|b l IH]; [constructor|]. pose proof (bN_range b). cbn [hex_encode].
    repeat constructor; try done; apply hexdigit_lower; pose proof (Z.div_mod (bN b) 16); pose proof (Z.mod_pos_bound (bN b) 16); lia. }
  rewrite -> fold_case_ascii by (eapply Forall_impl; [exact Hl|by intros x []]).
  induction Hl as [|x k [_ Hx] _ IH]; [done|]. cbn. by rewrite -> Hx, IH.
Qed.

Lemma EqualFold_hex a b : strings.EqualFold (EncodeToString a) (EncodeToString b) = true → a = b.
Proof.
  unfold strings.EqualFold. intros E%bool_decide_eq_true. unfold EncodeToString in E. rw !bs_str !hex_fold in E.
  apply (f_equal hex_decode) in E. rw !hex_decode_encode in E. congruence.
Qed.

(** ** The directory, when nothing fails *)
#[local] Existing Instance os.name_le_dec.
Definition info_of (n : string) (i : inode) : segmentFileInfo :=
  MkSegFile n (zlen (i_data i)) (EncodeToString (sha256.Sum256 (i_data i))) (i_mtime i / second).

Lemma fileSHA256_ok fs n : fs_faults fs = [] → fs_wf fs →
  fileSHA256 n fs = (fs, match node_at fs n with Some i => Ok (EncodeToString (sha256.Sum256 (i_data i))) | None => Err not_exist end).
Proof.
  intros Hf W. unfold fileSHA256, node_at, os.Open, os.OpenFile. unfold mbind at 1, M_bind. rw guarded_none //.
  destruct (fs_dir fs !! n) as [ino|] eqn:Ed; [|done]. destruct (wf_dir _ W _ _ Ed) as [i Hi]. cbn.
  unfold mbind, M_bind. rw guarded_none //. unfold os.node_of. cbn. by rw Hi.
Qed.

Lemma Stat_ok fs n : fs_faults fs = [] →
  os.Stat n fs = (fs, match node_at fs n with Some i => Ok (zlen (i_data i), i_mtime i) | None => Err not_exist end).
Proof. intros Hf. unfold os.Stat, node_at. rw guarded_none //. by case_match. Qed.

Definition entries (fs : FS) (n : string) : list segmentFileInfo :=
  if allowedInternalSyncFile n then match node_at fs n with Some i => [info_of n i] | None => [] end else [].

Lemma file_info_ok fs n : fs_faults fs = [] → fs_wf fs → file_info n fs = (fs, Ok (entries fs n)).
Proof.
  intros Hf W. unfold file_info, entries. destruct (allowedInternalSyncFile n); [|done]. cbn [negb].
  unfold try, mbind, M_bind. rw Stat_ok //. destruct (node_at fs n) as [i|] eqn:Ei; [|done]. by rw fileSHA256_ok // Ei.
Qed.

Lemma list_files_ok fs : fs_faults fs = [] → fs_wf fs →
  ∃ l, list_files fs = (fs, Ok l) ∧ ∀ e, e ∈ l ↔ ∃ n i, allowedInternalSyncFile n = true ∧ node_at fs n = Some i ∧ e = info_of n i.
Proof.
  intros Hf W. set (names := merge_sort os.name_le (map_to_list (fs_dir fs)).*1).
  assert (∀ acc l, foldM (fun acc n => let! l := file_info n in mret (acc ++ l)) acc l fs = (fs, Ok (acc ++ (l ≫= entries fs)))) as Hfold.
  { intros acc l. revert acc; induction l as [|n l IH]; intros acc; cbn [foldM]; [by rw app_nil_r|].
    erewrite bind_ok by (erewrite bind_ok by (by apply file_info_ok); reflexivity). rw IH. by rw -app_assoc. }
  exists (merge_sort segment_name_le (names ≫= entries fs)). split.
  - unfold list_files, os.ReadDir. erewrite bind_ok by (rw guarded_none //; reflexivity). fold names.
    by erewrite bind_ok by apply Hfold.
  - intros e. rewrite -> (merge_sort_Permutation segment_name_le). rewrite -> list_elem_of_bind. split.
    + intros (n & He & Hn). unfold entries in He. destruct (allowedInternalSyncFile n) eqn:Ea; [|by apply not_elem_of_nil in He].
      destruct (node_at fs n) as [i|] eqn:Ei; [|by apply not_elem_of_nil in He]. apply list_elem_of_singleton in He as ->. eauto 6.
    + intros (n & i & Ha & Hi & ->). exists n. split; [unfold entries; rw Ha Hi; by left|].
      unfold names. rewrite -> (merge_sort_Permutation os.name_le). apply list_elem_of_fmap. unfold node_at in Hi.
      destruct (fs_dir fs !! n) as [ino|] eqn:Ed; [|done]. exists (n, ino). split; [done|]. by apply elem_of_map_to_list.
Qed.

Lemma Create_ok fs p : fs_wf fs → fs_faults fs = [] →
  ∃ fs' ino, Create p fs = (fs', Ok (MkFile ino true 0 false)) ∧ file_is fs' p ino [].
Proof.
  intros W Hf. assert (∃ fs1 ino d, os.OpenFile p true false fs = (fs1, Ok (MkFile ino true 0 false)) ∧ file_is fs1 p ino d) as (fs1 & ino & d & E1 & F1).
  { destruct (fs_dir fs !! p) as [ino|] eqn:Ed.
    - destruct (wf_dir _ W _ _ Ed) as [i Hi]. exists fs, ino, (i_data i). assert (file_is fs p ino (i_data i)) as F by (split; eauto).
      split; [by eapply OpenFile_is|done].
    - destruct (OpenFile_new fs p false W Hf Ed) as (fs1 & E1 & F1 & _). by exists fs1, (fs_next fs), []. }
  unfold Create. erewrite bind_ok by exact E1. unfold modify. erewrite bind_ok by reflexivity.
  destruct (alter_is fs1 p ino d (fun i => Inode [] [] (fs_clock fs1)) F1) as (i & _ & F2 & _). do 2 eexists. split; [reflexivity|exact F2].
Qed.

Lemma store_segment_ok dest d fs : fs_wf fs → fs_faults fs = [] →
  ∃ fs', store_segment dest (d, None) fs = (fs', Ok tt) ∧ fs_faults fs' = [].
Proof.
  intros W Hf. unfold store_segment. set (tmp := dest +:+ ".tmp"). destruct (Create_ok fs tmp W Hf) as (fs1 & ino & E1 & F1).
  erewrite bind_ok by exact E1.
  assert (∃ fs2 pos, Copy (MkFile ino true 0 false) (d, None) fs1 = (fs2, Ok (MkFile ino true pos false)) ∧ ∃ d', file_is fs2 tmp ino d') as (fs2 & pos & E2 & d2 & F2).
  { unfold Copy. cbn [fst snd]. destruct (zlen d =? 0); [by eauto 6|].
    destruct (Write_is fs1 tmp ino [] 0 false d F1) as (fs2 & E2 & F2 & _). exists fs2. eexists.
    erewrite bind_ok by exact E2. split; [reflexivity|]. eauto. }
  erewrite bind_ok by (apply try_run; exact E2). destruct (Sync_is fs2 tmp ino d2 pos false F2) as (fs3 & E3 & F3 & _).
  erewrite bind_ok by (apply try_run; exact E3). destruct F3 as [Hf3 Hd3 _]. unfold os.Rename. rw guarded_none // Hd3. by eexists.
Qed.

Lemma isFileInSync_ok fs n i : fs_wf fs → fs_faults fs = [] →
  ∃ b, isFileInSync n (info_of n i) fs = (fs, Ok b) ∧
    (b = true → ∃ i', node_at fs n = Some i' ∧ sha256.Sum256 (i_data i') = sha256.Sum256 (i_data i) ∧ zlen (i_data i') = zlen (i_data i)).
Proof.
  intros W Hf. unfold isFileInSync. unfold try, mbind at 1, M_bind at 1. rw Stat_ok //.
  destruct (node_at fs n) as [i'|] eqn:Ei; [|by exists false]. cbn [fst sf_Size info_of].
  destruct (zlen (i_data i') =? zlen (i_data i)) eqn:Ez; cbn [negb]; [|by exists false].
  destruct (_ =? _)%string; [by exists false|]. erewrite bind_ok by (rw fileSHA256_ok // Ei; reflexivity).
  eexists. split; [reflexivity|]. cbn [sf_SHA256 info_of]. intros E%EqualFold_hex. exists i'. split; [done|]. split; [done|lia].
Qed.

(** ** The primary's server as the remote side *)
Section Mirror.
Context {K : Type} `{kvStore K} `{Bloom} `{Zstd} `{PG} `{ZipLib} `{Times}.
Context {J : Type} `{JournalOps J} `{EnvLib} `{Mime} `{SegJSON}.
Context (encoder : option Encoder) (withIndex : bool) (cfg : config.Config) (unrouted : HRequest → answer).
Context (encode_body : body → bytes) (base clusterKey : string).
Notation Server := (Api.Server Disk K J).

(** The request a client sends for a URL under [base] (names need no escaping). *)
Definition request_for (url : string) (hd : list (string * string)) : HRequest :=
  let path := str (drop (length (bs base)) (bs url)) in
  MkHReq "GET" path [("name", str (drop (length (bs "/v1/internal/segments/")) (bs path)))] [] hd None 0.
Definition primary_fetch (url : string) (hd : list (string * string)) : M Server raw_response :=
  let! a := serve encoder withIndex cfg unrouted (request_for url hd) in
  mret (MkHResp (hs_status a) (hs_header a) (encode_body (hs_body a), None)).

Notation sync := (syncOnce primary_fetch base clusterKey).
Definition primary_files (s : Server) : FS := d_fs (b_disk (sv_store (sv_svc s))).

(** The primary is a shard whose key the replica has, and nothing is going to fail. *)
Record ready (s : Server) : Prop := {
  rd_guard : is_Some (sv_guard s);
  rd_key : strings.TrimSpace clusterKey = internalAuthKey cfg;
  rd_nokey : internalAuthKey cfg ≠ "";
  rd_faults : fs_faults (primary_files s) = [];
  rd_wf : fs_wf (primary_files s);
  rd_names : ∀ n, is_Some (node_at (primary_files s) n) → allowedInternalSyncFile n = true → Base n = n ∧ PathEscape n = n;
}.

Lemma key_header r : ready r → ∀ path ps, header_key (MkHReq "GET" path ps [] (setClusterKey clusterKey) None 0) = internalAuthKey cfg.
Proof.
  intros [_ Hk Hn _ _ _] path ps. unfold header_key, setClusterKey. cbn [h_header].
  destruct (clusterKey =? "")%string eqn:E.
  - apply String.eqb_eq in E. rw E in Hk. exfalso. apply Hn. by rw -Hk.
  - cbn [kv_get String.eqb Ascii.eqb Bool.eqb]. rw Hk. apply String.eqb_neq in Hn. by rw Hn.
Qed.

Lemma request_path p hd : request_for (base +:+ p) hd =
  MkHReq "GET" p [("name", str (drop (length (bs "/v1/internal/segments/")) (bs p)))] [] hd None 0.
Proof. unfold request_for. rw bs_app drop_app_length !str_bs. done. Qed.

Lemma on_dir_pure {A} (m : M FS A) (s : Server) r : m (primary_files s) = (primary_files s, r) → on_dir m s = (s, r).
Proof.
  destruct s as [[[[sm idx fs] hot db] j q] g]. unfold primary_files. cbn. intros E.
  unfold on_dir, on_svc, on_store, on_disk, dir_fs, disk_dir, zoom. cbn. by rw E.
Qed.

(** A request of the replica to an internal endpoint passes the guard and the key. *)
Lemma serve_internal (s : Server) rt path ps (next : M Server answer) :
  ready s → let r := MkHReq "GET" path ps [] (setClusterKey clusterKey) None 0 in
  find (matches r) (routes (sv_guard s)) = Some rt →
  (rt = RSegments ∧ next = list_segments ∨ rt = RSegment ∧ next = get_segment (kv_get "name" ps)) →
  serve encoder withIndex cfg unrouted r s = next s.
Proof.
  intros Hr r Hf Hnext. pose proof (key_header s Hr path ps) as Hk. fold r in Hk. destruct Hr as [[g Hg] _ Hn _ _ _].
  unfold serve, gets. erewrite bind_ok by reflexivity. cbv beta iota. replace (blocked r _) with false by done. rw Hf.
  unfold handle, gets. erewrite bind_ok by reflexivity. cbv beta iota zeta. rw Hg.
  assert (∀ m : M Server answer, requireClusterKey cfg m r = m) as Hreq.
  { intros m. unfold requireClusterKey. apply String.eqb_neq in Hn. rw Hn Hk. by rewrite -> String.eqb_refl. }
  destruct Hnext as [[-> ->]|[-> ->]]; by rw Hreq.
Qed.

Lemma fetch_list (s : Server) : ready s → ∃ l hd,
  primary_fetch (list_url base) (setClusterKey clusterKey) s = (s, Ok (MkHResp 200 hd (encode_body (ESegments l), None))) ∧
  ∀ e, e ∈ l ↔ ∃ n i, allowedInternalSyncFile n = true ∧ node_at (primary_files s) n = Some i ∧ e = info_of n i.
Proof.
  intros Hr. destruct (list_files_ok (primary_files s) (rd_faults _ Hr) (rd_wf _ Hr)) as (l & El & Hl). exists l. eexists. split; [|exact Hl].
  unfold primary_fetch, list_url. rw request_path.
  rewrite -> (bind_ok _ _ s s (writeJSON 200 (ESegments l))); [reflexivity|].
  rewrite -> (serve_internal s RSegments _ _ list_segments Hr); [| |by left].
  - unfold list_segments. by erewrite bind_ok by (apply try_run, on_dir_pure; exact El).
  - destruct (rd_guard _ Hr) as [g ->]. reflexivity.
Qed.

Lemma fetch_segment (s : Server) n i : ready s → allowedInternalSyncFile n = true → node_at (primary_files s) n = Some i →
  ∃ hd, primary_fetch (segment_url base n) (setClusterKey clusterKey) s = (s, Ok (MkHResp 200 hd (encode_body (ERaw (i_data i)), None))).
Proof.
  intros Hr Ha Hi. destruct (rd_names _ Hr n) as [Hb He]; [by eauto|done|]. eexists.
  unfold primary_fetch, segment_url. rw He request_path.
  rewrite -> (bind_ok _ _ s s (MkHResp 200 [("Content-Type", "application/octet-stream")] (ERaw (i_data i)))); [reflexivity|].
  assert (str (drop (length (bs "/v1/internal/segments/")) (bs ("/v1/internal/segments/" +:+ n))) = n) as Hp
    by (rw bs_app drop_app_length; by apply str_bs). rw Hp.
  rewrite -> (serve_internal s RSegment _ _ (get_segment n) Hr); [| |by right].
  - unfold get_segment. rw Hb Ha. rewrite -> String.eqb_refl. cbn [negb orb].
    rewrite -> (bind_ok _ _ s s (Ok (i_data i))); [reflexivity|]. apply try_run, on_dir_pure. unfold os.ReadFile. rw guarded_none; [apply Hr|].
    unfold node_at in Hi. by rw Hi.
  - destruct (rd_guard _ Hr) as [g ->]. cbn [routes app find]. unfold matches, path_of. cbn [h_method h_path h_params fst snd kv_get String.eqb Ascii.eqb Bool.eqb andb].
    cbn. by rewrite -> String.eqb_refl.
Qed.

(** ** One synchronisation *)

(** The file has the size and the SHA-256 of the primary's. *)
Definition mirrored (fs : FS) (n : string) (i : inode) : Prop :=
  ∃ i', node_at fs n = Some i' ∧ sha256.Sum256 (i_data i') = sha256.Sum256 (i_data i) ∧ zlen (i_data i') = zlen (i_data i).

Lemma allowed_not_temporary n : allowedSyncFile n = true → ¬ temporary n.
Proof.
  intros Ha (m & _ & ->). unfold allowedSyncFile, strings.HasSuffix in Ha. rw !bs_app !rev_app_distr in Ha.
  cbn in Ha. rewrite -> andb_false_r in Ha. apply String.eqb_eq, (f_equal (fun s => rev (bs s))) in Ha.
  rw bs_app rev_app_distr in Ha. discriminate Ha.
Qed.

Lemma allowed_Join (s : Server) n : ready s → allowedSyncFile n = true → is_Some (node_at (primary_files s) n) → Join n = n.
Proof.
  intros Hr Ha Hn. apply Join_base; [|by apply (rd_names _ Hr)].
  intros Hin. repeat (apply elem_of_cons in Hin as [->|Hin]; [discriminate Ha|]). by apply not_elem_of_nil in Hin.
Qed.

Context (Hraw : ∀ d, encode_body (ERaw d) = d).
Context (Hsegs : ∀ l, decode_segments (encode_body (ESegments l), None) = Ok l).

Lemma sync_file_ok (s : Server) fs n i :
  ready s → allowedSyncFile n = true → node_at (primary_files s) n = Some i → fs_wf fs → fs_faults fs = [] →
  ∃ fs', sync_file primary_fetch base clusterKey (info_of n i) (MkSync s fs) = (MkSync s fs', Ok tt) ∧
    fs_wf fs' ∧ fs_faults fs' = [] ∧ mirrored fs' n i ∧ ∀ m, m ≠ n → ¬ temporary m → node_at fs' m = node_at fs m.
Proof.
  intros Hr Ha Hi W Hf. unfold sync_file. cbn [sf_Name info_of]. rw Ha. cbn [negb].
  pose proof (allowed_Join s n Hr Ha ltac:(eauto)) as Hj. rewrite -> Hj.
  destruct (isFileInSync_ok fs n i W Hf) as (b & Eb & Hb).
  rewrite -> (bind_ok _ _ (MkSync s fs) (MkSync s fs) (Ok b)) by (unfold local, zoom, try; cbn [sy_fs]; by rw Eb).
  destruct b; [exists fs; split_and!; try done; by apply Hb|].
  unfold downloadSegment. destruct (fetch_segment s n i Hr Ha Hi) as (hd & Ef).
  rewrite -> (bind_ok _ _ (MkSync s fs) (MkSync s fs) (MkHResp 200 hd (encode_body (ERaw (i_data i)), None)))
    by (unfold remote, zoom; cbn [sy_primary]; by rw Ef).
  cbn [hs_status hs_body Z.eqb Pos.eqb negb]. rw Hraw.
  destruct (store_segment_ok n (i_data i) fs W Hf) as (fs' & Es & Hf'). pose proof Es as Es'.
  apply store_segment_whole in Es' as (W' & N' & _ & i' & Hi' & Hd' & _); [|done].
  exists fs'. unfold local, zoom. cbn [sy_fs sy_primary]. rw Es. split_and!; try done.
  - exists i'. cbn in Hd'. by rw Hd'.
  - intros m Hm Ht. apply N'; [|done]. intros ->. apply Ht. exists n. by rewrite -> Hj.
Qed.

Definition honest (s : Server) (e : segmentFileInfo) : Prop :=
  ∃ n i, allowedInternalSyncFile n = true ∧ node_at (primary_files s) n = Some i ∧ e = info_of n i.

Lemma sync_files_ok (s : Server) l fs : ready s → Forall (honest s) l → fs_wf fs → fs_faults fs = [] →
  ∃ fs', forM_ l (sync_file primary_fetch base clusterKey) (MkSync s fs) = (MkSync s fs', Ok tt) ∧
    (∀ n i, node_at (primary_files s) n = Some i → allowedSyncFile n = true →
       (info_of n i ∈ l ∨ mirrored fs n i) → mirrored fs' n i) ∧
    ∀ m, ¬ temporary m → (∀ i, info_of m i ∉ l) → node_at fs' m = node_at fs m.
Proof.
  intros Hr. revert fs; induction l as [|e l IH]; intros fs Hl W Hf.
  { exists fs. split; [done|]. split; [|done]. by intros n i _ _ [?%not_elem_of_nil|?]. }
  apply Forall_cons in Hl as [(n & i & Ha & Hi & ->) Hl].
  destruct (sync_file_ok s fs n i Hr Ha Hi W Hf) as (fs1 & E1 & W1 & F1 & M1 & N1).
  destruct (IH fs1 Hl W1 F1) as (fs2 & E2 & M2 & N2). exists fs2. split; [cbn [forM_]; by erewrite bind_ok by exact E1|]. split.
  - intros n' i' Hi' Ha' Hm. apply M2; [done|done|]. destruct (decide (n' = n)) as [->|Hne].
    { right. rw Hi in Hi'. by injection Hi' as <-. }
    destruct Hm as [[Hm|Hm]%elem_of_cons|Hm]; [by apply (f_equal sf_Name) in Hm|by left|]. right. unfold mirrored.
    by rw N1; [|by apply allowed_not_temporary|].
  - intros m Ht Hm. rw N2 //; [intros j Hj; apply (Hm j); by right|]. apply N1; [|done].
    intros ->. apply (Hm i). by left.
Qed.

(** C17: a synchronisation makes the replica a mirror.  When the replica has the
    primary's key and nothing fails, [syncOnce] against the primary's internal
    endpoints succeeds; afterwards every segment, index and journal file of the
    primary is a file of the replica with the same size and SHA-256, and the
    replica's other files (temporary ones apart) are untouched. *)
Theorem sync_mirrors (s : Server) fs : ready s → fs_wf fs → fs_faults fs = [] →
  ∃ fs', sync (MkSync s fs) = (MkSync s fs', Ok tt) ∧
    (∀ n i, allowedInternalSyncFile n = true → node_at (primary_files s) n = Some i → mirrored fs' n i) ∧
    ∀ m, ¬ temporary m → allowedInternalSyncFile m = false ∨ node_at (primary_files s) m = None → node_at fs' m = node_at fs m.
Proof.
  intros Hr W Hf. destruct (fetch_list s Hr) as (l & hd & El & Hl).
  assert (Forall (honest s) l) as Hh by (apply Forall_forall; intros e; apply Hl).
  destruct (sync_files_ok s l fs Hr Hh W Hf) as (fs' & E & M & N). exists fs'. split; [|split].
  - unfold syncOnce. rewrite -> (bind_ok _ _ (MkSync s fs) (MkSync s fs) (MkHResp 200 hd (encode_body (ESegments l), None)))
      by (unfold remote, zoom; cbn [sy_primary]; by rw El).
    cbn [hs_status hs_body Z.eqb Pos.eqb negb]. rw Hsegs. unfold lift_result. erewrite bind_ok by reflexivity.
    rewrite -> (bind_ok _ _ (MkSync s fs) (MkSync s fs) tt); [exact E|].
    unfold local, zoom, os.MkdirAll. cbn [sy_fs]. by rw guarded_none.
  - intros n i Ha Hi. apply M; [done|done|]. left. apply Hl. by exists n, i.
  - intros m Ht Hm. apply N; [done|]. intros i Hi. apply Hl in Hi as (n & j & Ha & Hj & E2).
    apply (f_equal sf_Name) in E2. cbn in E2. subst m.
    destruct Hm as [Hm|Hm]; congruence.
Qed.
End Mirror.
