(* ===== verification/SyncDemo.v ===== *)
(** * A replica of a concrete shard

    The shard of ApiDemo.v after one upload, replicated into an empty directory,
    and a download that breaks off. *)
From S2P Require Import Prelude GoLib Hash FS Segment SegmentStore SegmentDurable Metadata MetadataInv Disk Compress Dedup BlobStore Detect Journal UnpackQueue Ingest IngestInv IngestSafe IngestDemo Config Http Api DiskGate ApiInv ApiDemo ShardSync ShardMirror Commands.

#[local] Existing Instances demo_times demo_json bad_zip shard_env plain_mime.

(** A listing in the bits of its fields. *)
Definition seg_fields (f : segmentFileInfo) : string * Z * string * Z := (sf_Name f, sf_Size f, sf_SHA256 f, sf_ModifiedUnix f).
Definition of_fields (x : string * Z * string * Z) : segmentFileInfo := MkSegFile x.1.1.1 x.1.1.2 x.1.2 x.2.
Definition wire_body (b : body) : bytes :=
  match b with
  | ERaw d => d
  | ESegments l => Codec.bits (countable.encode (seg_fields <$> l))
  | _ => []
  end.
Definition wire_json : SegJSON := {|
  decode_segments b := match Codec.unbits b.1 ≫= countable.decode (A := list (string * Z * string * Z)) with
                       | Some l => Ok (of_fields <$> l) | None => Err (errorf "unexpected end of JSON input") end |}.
#[local] Existing Instance wire_json.

Lemma wire_segments l : decode_segments (wire_body (ESegments l), None) = Ok l.
Proof.
  cbn [wire_body decode_segments wire_json fst]. rw Codec.unbits_bits. cbn [mbind option_bind]. rewrite -> decode_encode.
  f_equal. induction l as [|[] l IH]; [done|]. cbn. by f_equal.
Qed.

Definition primary : DemoServer := (ask post_xml shard).1.
Lemma primary_ready : ready shard_cfg " secret" primary.
Proof.
  split.
  - vm_compute. by eexists.
  - vm_compute. reflexivity.
  - by vm_compute.
  - vm_compute. reflexivity.
  - destruct (serve_run demo_encoder true shard_cfg chi_404 demo_encoder_ok no_debt post_xml shard primary (ask post_xml shard).2
      demo_service_inv (surjective_pairing _)) as (_ & d & new & _ & R & _).
    apply (inv_wf _ (si_disk _ _ _ (sv_ok _ _ _ (sr_inv _ _ _ _ _ R)))).
  - assert (∀ n, n ∈ (map_to_list (fs_dir (primary_files primary))).*1 → Base n = n ∧ PathEscape n = n) as Hall.
    { replace (map_to_list _).*1 with ["segment_0000.idx"; "segment_0000.dat"] by (vm_compute; reflexivity).
      intros n [->|[->|[]%not_elem_of_nil]%elem_of_cons]%elem_of_cons; split; vm_compute; reflexivity. }
    intros n [i Hi] _. unfold node_at in Hi. destruct (fs_dir _ !! n) as [ino|] eqn:E; [|done]. apply Hall, list_elem_of_fmap.
    exists (n, ino). split; [done|]. by apply elem_of_map_to_list.
Qed.

Lemma sync_mirrors_witness :
  let s' := syncOnce (primary_fetch demo_encoder true shard_cfg chi_404 wire_body "http://p") "http://p" " secret" (MkSync primary (empty_fs [])) in
  s'.2 = Ok tt ∧ ∀ i, node_at (primary_files primary) "segment_0000.dat" = Some i → mirrored (sy_fs s'.1) "segment_0000.dat" i.
Proof.
  intros s'. destruct (sync_mirrors demo_encoder true shard_cfg chi_404 wire_body "http://p" " secret" (fun d => eq_refl) wire_segments
    primary (empty_fs []) primary_ready (fs_wf_empty []) eq_refl) as (fs' & E & M & _).
  unfold s'. rewrite -> E. split; [reflexivity|]. intros i Hi. apply M; [reflexivity|exact Hi].
Defined.

(** A primary that lists one file and whose download breaks off after two bytes. *)
Definition cut_fetch (url : string) (_ : list (string * string)) : M unit raw_response :=
  mret (MkHResp 200 [] (if (url =? "http://p/v1/internal/segments")%string
    then (wire_body (ESegments [MkSegFile "segment_0000.dat" 4 "00" 0]), None) else (bs "ab", Some (errorf "unexpected EOF")))).
Definition old_copy : FS := (os.WriteFile "segment_0000.dat" (bs "old") (empty_fs [])).1.

Definition sync_env (key : string) : string := if (key =? "SYNC_PRIMARY_URL")%string then "http://p" else "".

Lemma shard_sync_whole_files_witness :
  let s' := (shard_sync_main cut_fetch sync_env 3 (MkSync tt old_copy)).1 in
  (syncOnce cut_fetch "http://p" "" (MkSync tt old_copy)).2 = Err (errorf "unexpected EOF") ∧
  node_at (sy_fs s') "segment_0000.dat" = node_at old_copy "segment_0000.dat" ∧
  whole (fun _ _ => False) old_copy (sy_fs s') "segment_0000.dat".
Proof.
  intros s'. split; [vm_compute; reflexivity|].
  assert (fs_wf old_copy) as W by (apply (only_WriteFile "segment_0000.dat" (bs "old") (empty_fs []) old_copy (Ok tt) (fs_wf_empty [])); vm_compute; reflexivity).
  assert (whole (fun _ _ => False) old_copy (sy_fs s') "segment_0000.dat") as Hw.
  { apply (shard_sync_whole_files cut_fetch (fun _ _ => False) sync_env 3 (MkSync tt old_copy) s' (shard_sync_main cut_fetch sync_env 3 (MkSync tt old_copy)).2).
    - intros p p' resp n E _ Hb. unfold cut_fetch, mret, M_ret in E. injection E as _ <-. cbn in Hb. change (sync_env "SYNC_PRIMARY_URL") with "http://p" in *.
      destruct (segment_url "http://p" n =? "http://p/v1/internal/segments")%string eqn:Eu; [|done].
      apply String.eqb_eq, (f_equal (fun s => length (bs s))) in Eu. unfold segment_url in Eu. rw !bs_app !length_app in Eu. cbn in Eu. lia.
    - exact W.
    - apply surjective_pairing.
    - apply allowed_not_temporary. reflexivity. }
  split; [|exact Hw]. destruct Hw as [Hw|(i & _ & [] & _)]. exact Hw.
Defined.
