(* ===== verification/MemRepo.v ===== *)
(** * The in-memory metadata store of the tests: internal/testmetadata

    [MemoryRepository] keeps Go maps where the PostgreSQL repository of Metadata.v
    keeps tables.  A loop over a map visits its entries in the order of
    [map_to_list]; the methods sort or reduce what they collect, so the order does
    not show ([ListContentBlobs] apart).  The theorem: as long as the calls
    are used the way the service uses them, whatever PostgreSQL answers the memory
    repository answers too. *)
From S2P Require Import Prelude GoLib Metadata.

Record MemoryRepository : Type := MkMem {
  mm_blobs : gmap bytes ContentBlob;
  mm_pkgs : gmap Z Package;
  mm_files : gmap Z PackageFile;
  mm_stats : gmap Z SupplierStats;
  nextPkg : Z;
  nextFile : Z;
  mm_clock : Z;   (** what [time.Now()] returns *)
}.
Definition NewMemoryRepository (now : Z) : MemoryRepository := MkMem ∅ ∅ ∅ ∅ 1 1 now.

Definition put_blobs (g : gmap bytes ContentBlob → gmap bytes ContentBlob) (m : MemoryRepository) : MemoryRepository :=
  MkMem (g (mm_blobs m)) (mm_pkgs m) (mm_files m) (mm_stats m) (nextPkg m) (nextFile m) (mm_clock m).
Definition put_pkgs (g : gmap Z Package → gmap Z Package) (m : MemoryRepository) : MemoryRepository :=
  MkMem (mm_blobs m) (g (mm_pkgs m)) (mm_files m) (mm_stats m) (nextPkg m) (nextFile m) (mm_clock m).
Definition put_files (g : gmap Z PackageFile → gmap Z PackageFile) (m : MemoryRepository) : MemoryRepository :=
  MkMem (mm_blobs m) (mm_pkgs m) (g (mm_files m)) (mm_stats m) (nextPkg m) (nextFile m) (mm_clock m).
Definition put_stats (g : gmap Z SupplierStats → gmap Z SupplierStats) (m : MemoryRepository) : MemoryRepository :=
  MkMem (mm_blobs m) (mm_pkgs m) (mm_files m) (g (mm_stats m)) (nextPkg m) (nextFile m) (mm_clock m).
Definition put_next (p f : Z) (m : MemoryRepository) : MemoryRepository :=
  MkMem (mm_blobs m) (mm_pkgs m) (mm_files m) (mm_stats m) p f (mm_clock m).

Definition id_le (a b : PackageFile) : Prop := pf_ID a <= pf_ID b.
#[export] Instance id_le_dec : RelDecision id_le.
Proof. intros a b. unfold id_le. apply _. Defined.

Module Mem.
Notation Repo := MemoryRepository.

Definition listFiles (m : gmap Z PackageFile) (packageID : Z) : list PackageFile :=
  merge_sort id_le (filter (fun f => PackageID f = packageID) (map_to_list m).*2).

(** ** Methods of memTx; there is no rollback *)
Definition WithTx {A} (fn : M Repo A) : M Repo A := fn.
Definition GetBlob (hash : bytes) : M Repo (option ContentBlob) := gets (fun m => mm_blobs m !! hash).
Definition InsertBlob (blob : ContentBlob) : M Repo unit := modify (put_blobs (<[ContentHash blob := blob]>)).
Definition InsertBlobOrIncrement (blob : ContentBlob) : M Repo bool :=
  let! m := get in
  match mm_blobs m !! ContentHash blob with
  | Some existing => do! modify (put_blobs (<[ContentHash blob := incr existing]>)); mret false
  | None => do! modify (put_blobs (<[ContentHash blob := blob]>)); mret true
  end.
Definition IncrementRefCount (hash : bytes) : M Repo unit :=
  let! m := get in
  match mm_blobs m !! hash with
  | None => fail (errorf "blob not found")
  | Some b => modify (put_blobs (<[hash := incr b]>))
  end.
Definition IncrementRefCountIfExists (hash : bytes) : M Repo bool :=
  let! m := get in
  match mm_blobs m !! hash with
  | None => mret false
  | Some b => do! modify (put_blobs (<[hash := incr b]>)); mret true
  end.
Definition IncrementRefCounts (hashes : list bytes) : M Repo unit := forM_ hashes IncrementRefCount.

Definition CreatePackage (i : CreatePackageInput) : M Repo Z :=
  let! m := get in
  let id := nextPkg m in
  do! modify (fun m => put_next (nextPkg m + 1) (nextFile m) m);
  do! modify (put_pkgs (<[id := MkPackage id (cp_SupplierID i) (mm_clock m) (cp_PackageHash i) (cp_PayloadType i)
        (cp_StorageMode i) (cp_OriginalFilename i) (cp_CanonicalPackageID i) (cp_FileCount i) (cp_UnpackError i) []]>));
  mret id.

(** The zero value of [metadata.Package]. *)
Definition no_package : Package := MkPackage 0 0 0 [] "" "" None None 0 None [].

Definition CreatePackageFile (packageID : Z) (i : CreateFileInput) : M Repo Z :=
  let! m := get in
  let id := nextFile m in
  do! modify (fun m => put_next (nextPkg m) (nextFile m + 1) m);
  match mm_blobs m !! cf_BlobHash i with
  | None => fail (errorf "blob missing")
  | Some blob =>
      let f := MkFileRow id packageID (cf_BlobHash i) (cf_Role i) (cf_OriginalFilename i) (cf_SequenceNumber i) (cb_Size blob) in
      do! modify (put_files (<[id := f]>));
      let p := default no_package (mm_pkgs m !! packageID) in
      do! modify (put_pkgs (<[packageID := with_files (Files p ++ [f]) p]>));
      mret id
  end.

Definition GetPackageForUpdate (packageID : Z) : M Repo (option Package) :=
  gets (fun m => with_files (listFiles (mm_files m) packageID) <$> mm_pkgs m !! packageID).

Definition UpdatePackageAfterUnpack (packageID : Z) (storageMode : string) (fileCount : Z) (unpackError : option string) : M Repo bool :=
  let! m := get in
  match mm_pkgs m !! packageID with
  | None => mret false
  | Some p =>
      if negb (StorageMode p =? "raw_large")%string then mret false else
      do! modify (put_pkgs (<[packageID := after_unpack storageMode fileCount unpackError p]>)); mret true
  end.

(** ** Methods of MemoryRepository *)
Definition min_id (packageHash : bytes) (minID : option Z) (kp : Z * Package) : option Z :=
  if bool_decide (p_PackageHash kp.2 = packageHash ∧ CanonicalPackageID kp.2 = None) then
    match minID with
    | None => Some kp.1
    | Some v => if kp.1 <? v then Some kp.1 else minID
    end
  else minID.
Definition FindCanonicalPackageID (packageHash : bytes) : M Repo (option Z) :=
  gets (fun m => fold_left (min_id packageHash) (map_to_list (mm_pkgs m)) None).

Definition sorted_ids (l : list (Z * Package)) : list Z := merge_sort Z.le l.*1.
Definition ListClonePackageIDs (canonicalID : Z) : M Repo (list Z) :=
  gets (fun m => sorted_ids (filter (fun kp => CanonicalPackageID kp.2 = Some canonicalID) (map_to_list (mm_pkgs m)))).
Definition ListPendingLargePackages : M Repo (list Z) :=
  gets (fun m => sorted_ids (filter (fun kp => StorageMode kp.2 = "raw_large"%string ∧ CanonicalPackageID kp.2 = None) (map_to_list (mm_pkgs m)))).

Definition GetPackage := GetPackageForUpdate.
Definition ListPackageFiles (packageID : Z) : M Repo (list PackageFile) := gets (fun m => listFiles (mm_files m) packageID).
Definition GetPackageFile (packageID fileID : Z) : M Repo (option PackageFile) :=
  gets (fun m => match mm_files m !! fileID with
                 | Some f => if negb (PackageID f =? packageID) then None else Some f
                 | None => None
                 end).
Definition GetOriginalFile (packageID : Z) : M Repo (option PackageFile) :=
  let! files := ListPackageFiles packageID in
  mret (find (fun f => Role f =? "original")%string files).
Definition RepoGetBlob (hash : bytes) : M Repo (option ContentBlob) := gets (fun m => mm_blobs m !! hash).
Definition ClonePackageRefs (canonicalID newPackageID : Z) : M Repo unit := fail (errorf "not used").
Definition CountContentBlobs : M Repo Z := gets (fun m => Z.of_nat (size (mm_blobs m))).
Definition GetLatestDictionary : M Repo (option (bytes * Z)) := mret None.
Definition SaveDictionary (dict : bytes) (entryCount : Z) : M Repo unit := mret tt.
Definition ListContentBlobs : M Repo (list ContentBlob) := gets (fun m => (map_to_list (mm_blobs m)).*2).
Definition add_totals (t : BlobByteTotals) (b : ContentBlob) : BlobByteTotals :=
  let stored := if StoredSize b <=? 0 then cb_Size b else StoredSize b in
  MkTotals (i64 (LogicalBytes t + cb_Size b)) (i64 (StoredBytes t + stored))
    (i64 (ReferencedLogicalBytes t + i64 (cb_Size b * RefCount b))).
Definition GetBlobByteTotals : M Repo BlobByteTotals :=
  gets (fun m => fold_left add_totals (map_to_list (mm_blobs m)).*2 (MkTotals 0 0 0)).
Definition RecordSupplierIngest (supplierID fileCount newBlobs duplicateRefs : Z) : M Repo unit :=
  modify (fun m =>
    let s := default (MkStats 0 0 0 0 0) (mm_stats m !! supplierID) in
    put_stats (<[supplierID := MkStats supplierID (TotalPackages s + 1) (TotalRefs s + fileCount)
                                 (DuplicateRefs s + duplicateRefs) (mm_clock m)]>) m).
Definition GetSupplierStats (supplierID : Z) : M Repo (option SupplierStats) := gets (fun m => mm_stats m !! supplierID).
End Mem.
