(* ===== verification/MemRefine.v ===== *)
(** * The in-memory store simulates the PostgreSQL one

    [call] and [reply] are the methods of metadata.Repository and metadata.Tx, all
    but [ClonePackageRefs], which has no caller and which the in-memory store
    refuses; [sim] relates the maps to the tables; [mem_answer] says what the
    in-memory store answers where PostgreSQL answers [a]: the same, but for three
    methods. *)
From S2P Require Import Prelude GoLib Metadata MetadataInv MemRepo.

(** ** Maps and tables *)
Section rep.
Context {A : Type}.
Implicit Types (m : gmap Z A) (t : table A).

(** The map's entries are the table's rows, which are in key order. *)
Definition rep m t : Prop := StronglySorted Z.lt t.*1 ∧ ∀ k, m !! k = tget k t.

Lemma sorted_keys_nodup t : StronglySorted Z.lt t.*1 → NoDup t.*1.
Proof.
  induction t as [|[k a] t IH]; cbn; intros Hs; [constructor|]. apply StronglySorted_inv in Hs as [Hs Hk].
  apply NoDup_cons. split; [|by apply IH]. intros Hin. rewrite -> Forall_forall in Hk. apply Hk in Hin. lia.
Qed.

Lemma rep_perm m t : rep m t → map_to_list m ≡ₚ t.
Proof.
  intros [Hs Hm]. pose proof (sorted_keys_nodup t Hs) as Hd. apply NoDup_Permutation; [apply NoDup_map_to_list|by eapply NoDup_fmap_1|].
  intros [k a]. rewrite -> elem_of_map_to_list, Hm. split; [apply tget_Some_elem|]. intros Hin. by apply tget_elem.
Qed.

Lemma rep_empty : rep ∅ [].
Proof. split; [constructor|]. intros k. by rw lookup_empty. Qed.

Lemma rep_tput m t k a : rep m t → rep (<[k := a]> m) (tput k a t).
Proof.
  intros [Hs Hm]. split; [by apply tput_sorted|]. intros k'. destruct (decide (k = k')) as [->|Hne].
  - by rw lookup_insert_eq tget_tput_eq.
  - by rw lookup_insert_ne // tget_tput_ne.
Qed.

Lemma rep_tmap m t k g : rep m t → rep (alter g k m) (tmap k g t).
Proof.
  intros [Hs Hm]. split; [by rw tmap_keys|]. intros k'. rw tget_tmap. destruct (k' =? k) eqn:E.
  - assert (k' = k) as -> by lia. by rw lookup_alter_eq Hm.
  - rw lookup_alter_ne; [lia|]. apply Hm.
Qed.
End rep.

Lemma sorted_weaken {A} (R R' : relation A) l : (∀ x y, R x y → R' x y) → StronglySorted R l → StronglySorted R' l.
Proof. intros HR. induction 1 as [|a l _ IH Hl]; constructor; [done|]. eapply Forall_impl; [exact Hl|by auto]. Qed.

Lemma sorted_filter_keys {A} (P : Z * A → Prop) `{∀ x, Decision (P x)} (t : table A) :
  StronglySorted Z.lt t.*1 → StronglySorted Z.lt (filter P t).*1.
Proof.
  induction t as [|[k a] t IH]; intros Hs; [constructor|]. cbn in Hs. apply StronglySorted_inv in Hs as [Hs Hk].
  rw filter_cons. destruct (decide _); [|by apply IH]. cbn. constructor; [by apply IH|].
  apply Forall_forall. intros x ([k' a'] & -> & [_ Hin]%list_elem_of_filter)%list_elem_of_fmap.
  rewrite -> Forall_forall in Hk. apply Hk. apply list_elem_of_fmap. by exists (k', a').
Qed.

Lemma sorted_ids_filter (P : Z * Package → Prop) `{∀ x, Decision (P x)} m t :
  rep m t → Mem.sorted_ids (filter P (map_to_list m)) = (filter P t).*1.
Proof.
  intros Hr. unfold Mem.sorted_ids. apply (StronglySorted_unique Z.le).
  - apply (StronglySorted_merge_sort Z.le).
  - eapply sorted_weaken; [|apply (sorted_filter_keys P _ (proj1 Hr))]. intros x y. lia.
  - rewrite -> merge_sort_Permutation. by rewrite -> (rep_perm m t Hr).
Qed.

(** The first row of a hash, where the earliest is canonical. *)
Lemma min_id_spec h l acc : let r := fold_left (Mem.min_id h) l acc in
  (∀ v, acc = Some v → ∃ v', r = Some v' ∧ v' <= v) ∧
  (∀ k p, (k, p) ∈ l → p_PackageHash p = h → CanonicalPackageID p = None → ∃ v, r = Some v ∧ v <= k) ∧
  ∀ v, r = Some v → acc = Some v ∨ ∃ p, (v, p) ∈ l ∧ p_PackageHash p = h ∧ CanonicalPackageID p = None.
Proof.
  revert acc; induction l as [|[k p] l IH]; intros acc; cbn zeta; cbn [fold_left].
  { split; [intros v ->; eauto with lia|]. split; [by intros ?? ?%not_elem_of_nil|]. by left. }
  destruct (IH (Mem.min_id h acc (k, p))) as (H1 & H2 & H3). unfold Mem.min_id in *. cbn [fst snd] in *. split_and!.
  - intros v ->. destruct (bool_decide _); [|by apply H1]. destruct (k <? v) eqn:E; [|by apply H1].
    destruct (H1 k eq_refl) as (v' & -> & ?). exists v'. split; [done|lia].
  - intros k' p' [Hin|Hin]%elem_of_cons Hh Hc; [|by eapply H2]. injection Hin as -> ->.
    rewrite -> bool_decide_true in H1 |- * by done. destruct acc as [v|]; [|by apply H1].
    destruct (k <? v) eqn:E; [by apply H1|]. destruct (H1 v eq_refl) as (v' & -> & ?). exists v'. split; [done|lia].
  - intros v Hv. destruct (H3 v Hv) as [Ha|(q & Hq & X)]; [|right; exists q; split; [by right|done]].
    destruct (bool_decide _) eqn:Eb; [|by left]. apply bool_decide_eq_true in Eb as [Eb1 Eb2].
    destruct acc as [w|]; [destruct (k <? w)|]; try (by left); injection Ha as <-; right; exists p; (split; [by left|done]).
Qed.

Lemma tput_elem_old {A} (t : table A) k a k' a' : (k', a') ∈ t → k' < k → (k', a') ∈ tput k a t.
Proof.
  induction t as [|[j b] t IH]; [by intros ?%not_elem_of_nil|]. intros Hin Hlt. cbn.
  destruct (k <? j) eqn:E1; [by right|]. destruct (j =? k) eqn:E2.
  - apply elem_of_cons in Hin as [[= -> ->]|Hin]; [lia|by right].
  - apply elem_of_cons in Hin as [->|Hin]; [by left|right; by apply IH].
Qed.

(** ** The relation *)

(** The rows of package_files with their joined size. *)
Definition sized (t : Tables) : table PackageFile := omap (fun kf => (pair kf.1) <$> with_size t kf.2) (package_files t).

Record sim (m : MemoryRepository) (db : DB) : Prop := {
  sm_blobs : mm_blobs m = content_blobs (db_tables db);
  sm_pkgs : rep (with_files [] <$> mm_pkgs m) (packages (db_tables db));
  sm_files : rep (mm_files m) (sized (db_tables db));
  sm_rows : ∀ k f, (k, f) ∈ package_files (db_tables db) →
    pf_ID f = k ∧ k < files_seq db ∧ is_Some (content_blobs (db_tables db) !! BlobHash f);
  sm_ids : ∀ k p, (k, p) ∈ packages (db_tables db) → k < packages_seq db;
  sm_next : nextPkg m = packages_seq db ∧ nextFile m = files_seq db;
  sm_stats : mm_stats m = supplier_stats (db_tables db);
  sm_clock : mm_clock m = db_clock db;
  sm_canon : ∀ k p c, (k, p) ∈ packages (db_tables db) → CanonicalPackageID p = Some c →
    c < k ∧ ∃ q, (c, q) ∈ packages (db_tables db) ∧ p_PackageHash q = p_PackageHash p ∧ CanonicalPackageID q = None;
}.

Lemma sim_same m db db' : same_but_faults db db' → sim m db → sim m db'.
Proof.
  intros (T & P & F & C & _) [S1 S2 S3 S4 S5 S6 S7 S8 S9]. split; rw ?T ?P ?F ?C; done.
Qed.

Lemma sim_new now faults : sim (NewMemoryRepository now) (empty_db now faults).
Proof.
  split; cbn; try done; try (by intros * ?%not_elem_of_nil); try apply rep_empty.
Qed.

Lemma with_size_row t f g : with_size t f = Some g → pf_ID g = pf_ID f ∧ PackageID g = PackageID f ∧ BlobHash g = BlobHash f.
Proof. unfold with_size. destruct (content_blobs t !! BlobHash f); [|done]. by intros [= <-]. Qed.

Lemma files_of_sized t pid : files_of t pid = filter (fun f => PackageID f = pid) (sized t).*2.
Proof.
  unfold files_of, sized. induction (package_files t) as [|[k f] l IH]; [done|]. rw fmap_cons filter_cons.
  assert (omap (fun kf => pair kf.1 <$> with_size t kf.2) ((k, f) :: l) =
    match with_size t f with Some g => (k, g) :: omap (fun kf => pair kf.1 <$> with_size t kf.2) l
    | None => omap (fun kf => pair kf.1 <$> with_size t kf.2) l end) as -> by (cbn; by destruct (with_size t f)).
  destruct (with_size t f) as [g|] eqn:Eg.
  - pose proof (with_size_row _ _ _ Eg) as (_ & Hp & _). rw fmap_cons filter_cons. cbn [snd]. rw Hp.
    destruct (decide (PackageID f = pid)); [|exact IH]. rw -IH. cbn. by rw Eg.
  - cbn [snd]. destruct (decide (PackageID f = pid)); [|exact IH]. rw -IH. cbn. by rw Eg.
Qed.

Lemma sized_elem t k g : (k, g) ∈ sized t ↔ ∃ f, (k, f) ∈ package_files t ∧ with_size t f = Some g.
Proof.
  unfold sized. rewrite -> list_elem_of_omap. split.
  - intros ([k' f] & Hin & E). apply fmap_Some in E as (g' & E & [= -> ->]). by exists f.
  - intros (f & Hin & E). exists (k, f). split; [done|]. cbn. by rw E.
Qed.

(** The rows stay the same under changes of the blob table that keep the sizes. *)
Lemma sized_blobs t g : (∀ k f, (k, f) ∈ package_files t → is_Some (content_blobs t !! BlobHash f)) →
  (∀ h b, content_blobs t !! h = Some b → ∃ b', g (content_blobs t) !! h = Some b' ∧ cb_Size b' = cb_Size b) →
  sized (set_blobs g t) = sized t.
Proof.
  intros Hrows Hg. unfold sized. cbn [set_blobs package_files]. apply list_omap_ext. apply Forall2_same_length_lookup_2; [done|].
  intros i [k f] [k' f'] H1 H2. rewrite -> H1 in H2. injection H2 as <- <-. cbn. f_equal.
  apply list_elem_of_lookup_2 in H1. destruct (Hrows k f H1) as [b Hb]. destruct (Hg _ _ Hb) as (b' & Hb' & Hs).
  unfold with_size. cbn. by rw Hb Hb' /= Hs.
Qed.

#[export] Instance id_le_trans : Transitive id_le.
Proof. intros a b c. unfold id_le. lia. Qed.
#[export] Instance id_le_total : Total id_le.
Proof. intros a b. unfold id_le. lia. Qed.

Section Sim.
Context `{PG}.
Context (m : MemoryRepository) (db : DB) (Hsim : sim m db).
Notation t := (db_tables db).

(** Whatever PostgreSQL answers, the memory store answers, and they stay related. *)
Definition simulates {A} (mm : M MemoryRepository A) (pg : M DB A) : Prop :=
  ∀ db' a, pg db = (db', Ok a) → ∃ m', mm m = (m', Ok a) ∧ sim m' db'.

Lemma sim_read {A} (f : MemoryRepository → A) (g : Tables → A) :
  f m = g t → simulates (gets f) (stmt (let! t := tables in mret (g t))).
Proof.
  intros E db' a Ea. apply stmt_read in Ea as [S ->]. exists m. split; [unfold gets; by rw E|]. by eapply sim_same.
Qed.

Lemma rows_blob k f : (k, f) ∈ package_files t → is_Some (content_blobs t !! BlobHash f).
Proof. intros Hin. by destruct (sm_rows _ _ Hsim k f Hin) as (_ & _ & ?). Qed.

(** A change of blobs that keeps the sizes of those there. *)
Lemma sim_blobs db1 g : same_but_faults db db1 →
  (∀ h b, content_blobs t !! h = Some b → ∃ b', g (content_blobs t) !! h = Some b' ∧ cb_Size b' = cb_Size b) →
  sim (put_blobs g m) (set_tables (set_blobs g) db1).
Proof.
  intros S Hg. pose proof (sim_same _ _ _ S Hsim) as [S1 S2 S3 S4 S5 S6 S7 S8 S9]. destruct S as (T & P & F & C & _).
  split; cbn; try done; [by rw S1| |].
  - change (rep (mm_files m) (sized (set_blobs g (db_tables db1)))).
    rw sized_blobs; [intros k f Hin; by destruct (S4 k f Hin) as (_ & _ & ?)|by rw T|done].
  - intros k f Hin. destruct (S4 k f Hin) as (Hk & Hl & [b Hb]). split; [done|]. split; [done|]. rw T in Hb |- *.
    destruct (Hg _ _ Hb) as (b' & -> & _). by eexists.
Qed.

Lemma incr_sizes h k b : content_blobs t !! k = Some b →
  ∃ b', alter incr h (content_blobs t) !! k = Some b' ∧ cb_Size b' = cb_Size b.
Proof.
  intros Hb. destruct (decide (k = h)) as [->|Hne]; [|exists b; by rw lookup_alter_ne].
  rw lookup_alter_eq Hb. by exists (incr b).
Qed.

Lemma insert_incr h b : content_blobs t !! h = Some b → <[h := incr b]> (content_blobs t) = alter incr h (content_blobs t).
Proof. intros Hb. apply map_eq. intros k. destruct (decide (k = h)) as [->|Hne]; [by rw lookup_insert_eq lookup_alter_eq Hb|by rw lookup_insert_ne // lookup_alter_ne]. Qed.

Lemma put_incr h b : content_blobs t !! h = Some b → put_blobs (<[h := incr b]>) m = put_blobs (alter incr h) m.
Proof. intros Hb. unfold put_blobs. rw (sm_blobs _ _ Hsim). by rw insert_incr. Qed.

Lemma stmt_done {A} (pg : M DB A) db' a : stmt pg db = (db', Ok a) → ∃ db1, same_but_faults db db1 ∧ pg db1 = (db', Ok a).
Proof. intros E. by apply stmt_inv in E. Qed.

Ltac pg_done E :=
  try (apply int4_args_inv in E as [[_ E]|[_ E]]; [|discriminate E]);
  apply stmt_done in E as (db1 & Sm & E); unfold tables, upd_tables in E; munfold; rw ?(proj1 Sm) in E.

Lemma sim_InsertBlob b : simulates (Mem.InsertBlob b) (InsertBlob b).
Proof.
  intros db' a E. unfold InsertBlob in E. pg_done E.
  destruct (content_blobs t !! ContentHash b) as [b0|] eqn:Eb; [done|]. injection E as <- <-. eexists. split; [done|].
  apply sim_blobs; [done|]. intros h b' Hb'. destruct (decide (h = ContentHash b)) as [->|Hne]; [congruence|].
  exists b'. by rw lookup_insert_ne.
Qed.

Lemma sim_InsertOrIncrement b : simulates (Mem.InsertBlobOrIncrement b) (InsertBlobOrIncrement b).
Proof.
  intros db' a E. unfold InsertBlobOrIncrement in E. pg_done E.
  unfold Mem.InsertBlobOrIncrement, get, modify. munfold. rw (sm_blobs _ _ Hsim).
  destruct (content_blobs t !! ContentHash b) as [b0|] eqn:Eb; injection E as <- <-; eexists; (split; [reflexivity|]).
  - rw put_incr //. apply sim_blobs; [done|]. apply incr_sizes.
  - apply sim_blobs; [done|]. intros h b' Hb'. destruct (decide (h = ContentHash b)) as [->|Hne]; [congruence|].
    exists b'. by rw lookup_insert_ne.
Qed.

Lemma sim_Increment h : is_Some (content_blobs t !! h) → simulates (Mem.IncrementRefCount h) (IncrementRefCount h).
Proof.
  intros [b Hb] db' a E. unfold IncrementRefCount in E. pg_done E. injection E as <- <-.
  unfold Mem.IncrementRefCount, get, modify. munfold. rw (sm_blobs _ _ Hsim) Hb. eexists. split; [reflexivity|].
  rw put_incr //. apply sim_blobs; [done|]. apply incr_sizes.
Qed.

Lemma sim_IncrementIfExists h : simulates (Mem.IncrementRefCountIfExists h) (IncrementRefCountIfExists h).
Proof.
  intros db' a E. unfold IncrementRefCountIfExists in E. pg_done E. injection E as <- <-.
  unfold Mem.IncrementRefCountIfExists, get, modify. munfold. rw (sm_blobs _ _ Hsim).
  destruct (content_blobs t !! h) as [b|] eqn:Eb; eexists; (split; [by try rewrite -> bool_decide_true by eauto|]).
  - rw put_incr //. apply sim_blobs; [done|]. apply incr_sizes.
  - assert (put_blobs (alter incr h) m = m) as <-.
    { unfold put_blobs. rw (sm_blobs _ _ Hsim) alter_id; [by rw Eb|]. rw -(sm_blobs _ _ Hsim). by destruct m. }
    apply sim_blobs; [done|]. apply incr_sizes.
Qed.

(** A clone names the canonical package of its hash. *)
Definition canonical_ok (i : CreatePackageInput) : Prop :=
  match cp_CanonicalPackageID i with
  | None => True
  | Some c => ∃ q, tget c (packages t) = Some q ∧ p_PackageHash q = cp_PackageHash i ∧ CanonicalPackageID q = None
  end.

Lemma sim_CreatePackage i : canonical_ok i → simulates (Mem.CreatePackage i) (CreatePackage i).
Proof.
  intros Hc db' a E. unfold CreatePackage in E. pg_done E. destruct (negb _); [done|].
  destruct (negb _); [done|]. destruct (bool_decide _); [done|]. injection E as <- <-.
  pose proof (sim_same _ _ _ Sm Hsim) as [S1 S2 S3 S4 S5 [S6 S6'] S7 S8 S9]. destruct Sm as (T & P & F & C & _).
  unfold Mem.CreatePackage, get, modify. munfold. rw S6 S8. eexists. split; [reflexivity|].
  split; cbn [put_pkgs put_next mm_blobs mm_pkgs mm_files mm_stats nextPkg nextFile mm_clock set_tables set_seqs db_tables packages_seq
    files_seq db_clock set_packages content_blobs packages package_files supplier_stats]; try done.
  - rw fmap_insert. by apply rep_tput.
  - intros k p [[= -> ->]|Hin]%in_tput; [lia|]. specialize (S5 k p Hin). lia.
  - intros k p c [[= -> ->]|Hin]%in_tput Hp; cbn in *.
    + unfold canonical_ok in Hc. rw Hp in Hc. destruct Hc as (q & Hq & Hh & Hn). rw -T in Hq. apply tget_Some_elem in Hq.
      split; [by apply (S5 c q)|]. exists q. split; [|done]. by apply tput_elem_old; [|apply (S5 c q)].
    + destruct (S9 k p c Hin Hp) as (Hlt & q & Hq & Hh & Hn). split; [done|]. exists q. split; [|done].
      by apply tput_elem_old; [|apply (S5 c q)].
Qed.

Lemma sized_tput f g : Forall (fun kf => kf.1 < pf_ID f) (package_files t) → with_size t f = Some g →
  sized (set_files (tput (pf_ID f) f) t) = tput (pf_ID f) g (sized t).
Proof.
  intros Hlt Hg. rw (tput_last (pf_ID f) g).
  - apply Forall_forall. intros [k x] (x0 & Hin & _)%sized_elem. rewrite -> Forall_forall in Hlt. exact (Hlt _ Hin).
  - unfold sized. cbn [set_files package_files]. rw (tput_last _ _ _ Hlt) omap_app. f_equal.
    change (with_size (set_files _ t) f) with (with_size t f). cbn. unfold with_size in *. cbn in *. by rw Hg.
Qed.

Lemma sim_CreateFile pid i : simulates (Mem.CreatePackageFile pid i) (CreatePackageFile pid i).
Proof.
  intros db' a E. unfold CreatePackageFile in E. pg_done E.
  set (f := MkFileRow (files_seq db1) pid (cf_BlobHash i) (cf_Role i) (cf_OriginalFilename i) (cf_SequenceNumber i) 0) in E.
  unfold lift_result in E. destruct (check_file t f) as [[]|e] eqn:Ec; [|done]. destruct (bool_decide _); [done|]. injection E as <- <-.
  apply check_file_ok in Ec as [Hp [b Hb]]. cbn in Hb.
  pose proof (sim_same _ _ _ Sm Hsim) as [S1 S2 S3 S4 S5 [S6 S6'] S7 S8 S9]. destruct Sm as (T & P & F & C & _).
  unfold Mem.CreatePackageFile, get, modify. munfold. rw S6' S1 T Hb. eexists. split; [reflexivity|].
  destruct Hp as [p Hp]. rw -T in Hp. cbn in Hp.
  assert (∃ p0, mm_pkgs m !! pid = Some p0 ∧ with_files [] p0 = p) as (p0 & Hp0 & Ep).
  { pose proof (proj2 S2 pid) as X. rw Hp lookup_fmap in X. apply fmap_Some in X as (p0 & ? & ->). eauto. }
  split; cbn [put_pkgs put_files put_next mm_blobs mm_pkgs mm_files mm_stats nextPkg nextFile mm_clock set_tables set_seqs db_tables packages_seq
    files_seq db_clock set_files content_blobs packages package_files supplier_stats]; try done.
  - rw fmap_insert Hp0. cbn [default]. split; [apply S2|]. intros k. destruct (decide (k = pid)) as [->|Hne].
    + rw lookup_insert_eq Hp -Ep. by destruct p0.
    + rw lookup_insert_ne //. apply S2.
  - set (g := MkFileRow (files_seq db1) pid (cf_BlobHash i) (cf_Role i) (cf_OriginalFilename i) (cf_SequenceNumber i) (cb_Size b)).
    change (rep (<[pf_ID f := g]> (mm_files m)) (sized (set_files (tput (pf_ID f) f) (db_tables db1)))).
    rw T. rw (sized_tput f g).
    + apply Forall_forall. intros [k x] Hin. rw -T in Hin. by destruct (S4 k x Hin) as (_ & ? & _).
    + unfold with_size. cbn. by rw Hb.
    + apply rep_tput. by rw -T.
  - intros k x [[= -> ->]|Hin]%in_tput; cbn; [split; [done|]; split; [lia|rw T Hb; eauto]|].
    destruct (S4 k x Hin) as (? & ? & ?). split; [done|]. split; [lia|done].
Qed.

Lemma sim_Update id mode n err : simulates (Mem.UpdatePackageAfterUnpack id mode n err) (UpdatePackageAfterUnpack id mode n err).
Proof.
  intros db' a E. unfold UpdatePackageAfterUnpack in E. pg_done E.
  pose proof (sim_same _ _ _ Sm Hsim) as Hs. pose proof Hs as [S1 S2 S3 S4 S5 S6 S7 S8 S9]. pose proof Sm as (T & P & F & C & _).
  unfold Mem.UpdatePackageAfterUnpack, get, modify. munfold.
  pose proof (proj2 S2 id) as X. rw T lookup_fmap in X. destruct (tget id (packages t)) as [p|] eqn:Ep.
  2:{ apply fmap_None in X. rw X. injection E as <- <-. eauto. }
  apply fmap_Some in X as (p0 & -> & ->). cbn [StorageMode with_files] in E.
  destruct (StorageMode p0 =? "raw_large")%string eqn:Em; cbn [negb]; [|injection E as <- <-; eauto].
  destruct (negb _); [done|]. injection E as <- <-. eexists. split; [reflexivity|].
  assert (∀ k q, (k, q) ∈ tmap id (after_unpack mode n err) (packages (db_tables db1)) → ∃ q0, (k, q0) ∈ packages (db_tables db1) ∧
    p_PackageHash q = p_PackageHash q0 ∧ CanonicalPackageID q = CanonicalPackageID q0) as Hold.
  { intros k q ([k0 q0] & E & Hin)%list_elem_of_fmap. cbn in E. exists q0. destruct (k0 =? id); injection E as -> ->; done. }
  split; cbn [put_pkgs mm_blobs mm_pkgs mm_files mm_stats nextPkg nextFile mm_clock set_tables db_tables packages_seq
    files_seq db_clock set_packages content_blobs packages package_files supplier_stats]; try done.
  - assert (with_files [] <$> <[id := after_unpack mode n err p0]> (mm_pkgs m) = alter (after_unpack mode n err) id (with_files [] <$> mm_pkgs m)) as ->.
    { apply map_eq. intros k. rw lookup_fmap. destruct (decide (k = id)) as [->|Hne].
      - rw lookup_insert_eq lookup_alter_eq. pose proof (proj2 S2 id) as X. rw T Ep in X. by rw X.
      - by rw lookup_insert_ne // lookup_alter_ne // lookup_fmap. }
    by apply rep_tmap.
  - intros k q (q0 & Hin & _)%Hold. by eapply S5.
  - intros k q c Hin Hq. destruct (Hold k q Hin) as (q0 & Hin0 & Eh & Ec). rw Ec in Hq.
    destruct (S9 k q0 c Hin0 Hq) as (Hlt & r & Hr & Hrh & Hrc). split; [done|].
    exists (if c =? id then after_unpack mode n err r else r). split; [|by destruct (c =? id); cbn; rw Eh].
    apply list_elem_of_fmap. exists (c, r). split; [cbn; by destruct (c =? id)|done].
Qed.

(** *** Reads *)
Lemma pkgs_elem k p : (k, p) ∈ map_to_list (mm_pkgs m) → (k, with_files [] p) ∈ packages t.
Proof.
  intros Hin%elem_of_map_to_list. apply tget_Some_elem. pose proof (proj2 (sm_pkgs _ _ Hsim) k) as X. by rw lookup_fmap Hin in X.
Qed.
Lemma elem_pkgs k p : (k, p) ∈ packages t → ∃ p0, (k, p0) ∈ map_to_list (mm_pkgs m) ∧ p = with_files [] p0.
Proof.
  intros Hin. pose proof (sm_pkgs _ _ Hsim) as [Hs Hm]. apply (tget_elem _ _ _ (sorted_keys_nodup _ Hs)) in Hin.
  specialize (Hm k). rw Hin lookup_fmap in Hm. apply fmap_Some in Hm as (p0 & Hp0 & ->). exists p0. by rewrite -> elem_of_map_to_list.
Qed.

Lemma ids_of (P : Z * Package → Prop) `{∀ x, Decision (P x)} : (∀ k p, P (k, with_files [] p) ↔ P (k, p)) →
  Mem.sorted_ids (filter P (map_to_list (mm_pkgs m))) = (filter P (packages t)).*1.
Proof.
  intros HP. rewrite <- (sorted_ids_filter P _ _ (sm_pkgs _ _ Hsim)). unfold Mem.sorted_ids. f_equal. rw map_to_list_fmap.
  induction (map_to_list (mm_pkgs m)) as [|[k p] l IH]; [done|]. rw fmap_cons !filter_cons. cbn [prod_map fst snd id].
  destruct (decide (P (k, p))) as [Hp|Hp], (decide (P (k, with_files [] p))) as [Hq|Hq].
  - rw !fmap_cons IH. done.
  - destruct Hq. by apply HP.
  - destruct Hp. by apply HP.
  - exact IH.
Qed.

Lemma filter_head_le (P : Z * Package → Prop) `{∀ x, Decision (P x)} k p l k' p' :
  filter P (packages t) = (k, p) :: l → (k', p') ∈ packages t → P (k', p') → k <= k'.
Proof.
  intros Ef Hin HP. pose proof (sorted_filter_keys P _ (proj1 (sm_pkgs _ _ Hsim))) as Hs. rw Ef in Hs. cbn in Hs.
  apply StronglySorted_inv in Hs as [_ Hk]. assert ((k', p') ∈ filter P (packages t)) as Hf by (by apply list_elem_of_filter).
  rw Ef in Hf. apply elem_of_cons in Hf as [[= -> ->]|Hf]; [lia|]. rewrite -> Forall_forall in Hk.
  assert (k < k'); [|lia]. apply Hk, list_elem_of_fmap. by exists (k', p').
Qed.

Lemma sim_Find h : simulates (Mem.FindCanonicalPackageID h) (FindCanonicalPackageID h).
Proof.
  apply sim_read. set (P := fun kp : Z * Package => p_PackageHash kp.2 = h).
  destruct (min_id_spec h (map_to_list (mm_pkgs m)) None) as (_ & H2 & H3).
  destruct (fold_left _ _ None) as [v|] eqn:Ev.
  - destruct (H3 v eq_refl) as [?|(p & Hin & Hh & Hc)]; [done|]. apply pkgs_elem in Hin.
    assert ((v, with_files [] p) ∈ filter P (packages t)) as Hf by (by apply list_elem_of_filter).
    destruct (filter P (packages t)) as [|[k q] l] eqn:Ef; [by apply not_elem_of_nil in Hf|]. cbn. f_equal.
    assert ((k, q) ∈ filter P (packages t)) as Hq by (rw Ef; by left). apply list_elem_of_filter in Hq as [Hqh Hq]. unfold P in Hqh. cbn in Hqh.
    pose proof (filter_head_le P _ _ _ v (with_files [] p) Ef Hin Hh) as Hle.
    destruct (CanonicalPackageID q) as [c|] eqn:Ec.
    + destruct (sm_canon _ _ Hsim k q c Hq Ec) as (Hlt & r & Hr & Hrh & _).
      assert (P (c, r)) as HP by (unfold P; cbn; congruence). pose proof (filter_head_le P _ _ _ c r Ef Hr HP). lia.
    + apply elem_pkgs in Hq as (q0 & Hq0 & ->). destruct (H2 k q0 Hq0 Hqh Ec) as (v' & [= <-] & Hv). lia.
  - destruct (filter P (packages t)) as [|[k q] l] eqn:Ef; [done|]. exfalso.
    assert ((k, q) ∈ filter P (packages t)) as Hq by (rw Ef; by left). apply list_elem_of_filter in Hq as [Hqh Hq]. unfold P in Hqh. cbn in Hqh.
    destruct (CanonicalPackageID q) as [c|] eqn:Ec.
    + destruct (sm_canon _ _ Hsim k q c Hq Ec) as (_ & r & Hr & Hrh & Hrc). apply elem_pkgs in Hr as (r0 & Hr0 & ->).
      destruct (H2 c r0 Hr0) as (v & ? & _); [cbn in *; congruence|done|done].
    + apply elem_pkgs in Hq as (q0 & Hq0 & ->). by destruct (H2 k q0 Hq0 Hqh Ec) as (v & ? & _).
Qed.

Lemma listFiles_eq pid : Mem.listFiles (mm_files m) pid = files_of t pid.
Proof.
  rw files_of_sized. unfold Mem.listFiles. pose proof (sm_files _ _ Hsim) as Hr. pose proof (rep_perm _ _ Hr) as Hp.
  assert (∀ k f, (k, f) ∈ sized t → pf_ID f = k) as Hid.
  { intros k f (f0 & Hin & E)%sized_elem. apply with_size_row in E as (-> & _). by destruct (sm_rows _ _ Hsim k f0 Hin). }
  pose proof (sorted_keys_nodup _ (proj1 Hr)) as Hnd.
  apply (StronglySorted_unique_strong id_le).
  - intros f g Hf Hg Hfg Hgf. rewrite -> merge_sort_Permutation in Hf. apply list_elem_of_filter in Hf as [_ Hf]. apply list_elem_of_filter in Hg as [_ Hg].
    apply list_elem_of_fmap in Hf as ([k f'] & -> & Hf), Hg as ([k' g'] & -> & Hg). rewrite -> Hp in Hf. cbn in *. unfold id_le in *.
    rw (Hid _ _ Hf) (Hid _ _ Hg) in Hfg Hgf. assert (k' = k) as -> by lia.
    apply (tget_elem _ _ _ Hnd) in Hf, Hg. congruence.
  - apply (StronglySorted_merge_sort id_le).
  - clear Hp Hnd. pose proof (proj1 Hr) as Hs. clear Hr. induction (sized t) as [|[k f] l IH]; [constructor|].
    cbn in Hs. apply StronglySorted_inv in Hs as [Hs Hk]. specialize (IH (fun k f Hin => Hid k f ltac:(by right)) Hs).
    rw fmap_cons filter_cons. destruct (decide _); [|exact IH]. constructor; [exact IH|]. apply Forall_forall.
    intros g [_ Hg]%list_elem_of_filter. apply list_elem_of_fmap in Hg as ([k' g'] & -> & Hg). unfold id_le. cbn.
    rw (Hid k f); [by left|]. rw (Hid k' g'); [by right|]. rewrite -> Forall_forall in Hk.
    assert (k < k'); [|lia]. apply Hk, list_elem_of_fmap. by exists (k', g').
  - rewrite -> merge_sort_Permutation. by rewrite -> Hp.
Qed.

Lemma sim_Clones c : simulates (Mem.ListClonePackageIDs c) (ListClonePackageIDs c).
Proof. apply sim_read. by apply (ids_of (fun kp => CanonicalPackageID kp.2 = Some c)). Qed.
Lemma sim_Pending : simulates Mem.ListPendingLargePackages ListPendingLargePackages.
Proof. apply sim_read. by apply (ids_of (fun kp => StorageMode kp.2 = "raw_large"%string ∧ CanonicalPackageID kp.2 = None)). Qed.

Lemma pkg_lookup id : tget id (packages t) = with_files [] <$> mm_pkgs m !! id.
Proof. rw -(proj2 (sm_pkgs _ _ Hsim) id). by rw lookup_fmap. Qed.

Lemma sim_GetPackage id : simulates (Mem.GetPackage id) (GetPackage id).
Proof.
  intros db' a E. apply GetPackage_inv in E as E'. destruct E' as (_ & T & ->). exists m. split.
  - unfold Mem.GetPackage, Mem.GetPackageForUpdate, gets. rw listFiles_eq pkg_lookup. by destruct (mm_pkgs m !! id) as [[]|].
  - unfold GetPackage in E. apply bind_inv in E as [(db1 & o & E1 & E)|(e & _ & ?)]; [|done]. apply stmt_read in E1 as [S1 _].
    destruct o as [p|]; [|munfold; injection E as <- _; by eapply sim_same].
    apply bind_inv in E as [(db2 & fs & E2 & E)|(e & _ & ?)]; [|done]. apply stmt_read in E2 as [S2 _]. munfold. injection E as <- _.
    eapply sim_same; [exact S2|]. by eapply sim_same.
Qed.

Lemma find_filter {A} (P : A → Prop) `{∀ x, Decision (P x)} (p : A → bool) l : (∀ x, p x = true ↔ P x) → find p l = head (filter P l).
Proof.
  intros Hp. induction l as [|x l IH]; [done|]. cbn [find]. rw filter_cons. destruct (p x) eqn:E.
  - apply Hp in E. by rewrite -> decide_True by done.
  - rewrite -> decide_False; [exact IH|]. intros Hx%Hp. congruence.
Qed.

Lemma sim_GetPackageFile pid fid : simulates (Mem.GetPackageFile pid fid) (GetPackageFile pid fid).
Proof.
  apply sim_read. rw files_of_sized. pose proof (sm_files _ _ Hsim) as [Hs Hm]. rw Hm. clear Hm.
  assert (∀ k f, (k, f) ∈ sized t → pf_ID f = k) as Hid.
  { intros k f (f0 & Hin & E)%sized_elem. apply with_size_row in E as (-> & _). by destruct (sm_rows _ _ Hsim k f0 Hin). }
  induction (sized t) as [|[k f] l IH]; [done|]. cbn in Hs. apply StronglySorted_inv in Hs as [Hs Hk].
  specialize (IH Hs (fun k f Hin => Hid k f ltac:(by right))). cbn [tget]. rw fmap_cons filter_cons. cbn [snd].
  pose proof (Hid k f ltac:(by left)) as Hf. destruct (k =? fid) eqn:Ek.
  - assert (fid = k) as -> by lia. destruct (decide (PackageID f = pid)) as [Hp|Hp].
    + replace (PackageID f =? pid) with true by lia. cbn [negb]. rw filter_cons. by rewrite -> decide_True by done.
    + replace (PackageID f =? pid) with false by lia. cbn [negb]. symmetry. destruct (filter (fun f => pf_ID f = k) _) as [|g l'] eqn:Eg; [done|].
      assert (g ∈ filter (fun f => pf_ID f = k) (filter (fun f => PackageID f = pid) l.*2)) as Hg by (rw Eg; by left).
      apply list_elem_of_filter in Hg as [Hgk Hg]. apply list_elem_of_filter in Hg as [_ Hg].
      apply list_elem_of_fmap in Hg as ([k' g'] & -> & Hg). cbn in Hgk. rewrite -> Forall_forall in Hk.
      assert (k < k') by (apply Hk, list_elem_of_fmap; by exists (k', g')). rw (Hid k' g' ltac:(by right)) in Hgk. lia.
  - destruct (decide (PackageID f = pid)); [|exact IH]. rw filter_cons. rewrite -> decide_False; [exact IH|]. lia.
Qed.

Lemma sim_GetOriginal id : simulates (Mem.GetOriginalFile id) (GetOriginalFile id).
Proof.
  intros db' a E. apply stmt_read in E as [S ->]. exists m. split; [|by eapply sim_same].
  unfold Mem.GetOriginalFile, Mem.ListPackageFiles, gets. erewrite bind_ok by reflexivity. rw listFiles_eq.
  rewrite -> (find_filter (fun f => Role f = "original"%string)); [done|]. intros f. apply String.eqb_eq.
Qed.

Lemma sim_Record sup n new dup : 0 <= dup → simulates (Mem.RecordSupplierIngest sup n new dup) (RecordSupplierIngest sup n new dup).
Proof.
  intros Hd db' a E. unfold RecordSupplierIngest in E. replace (dup <? 0) with false in E by lia. pg_done E. injection E as <- <-.
  pose proof (sim_same _ _ _ Sm Hsim) as [S1 S2 S3 S4 S5 S6 S7 S8 S9].
  eexists. split; [reflexivity|]. split; cbn; try done. rw S7 S8 (proj1 Sm). apply map_eq. intros k.
  destruct (decide (k = sup)) as [->|Hne]; [|by rw lookup_insert_ne // lookup_partial_alter_ne].
  rw lookup_insert_eq lookup_partial_alter_eq. by destruct (supplier_stats t !! sup) as [[]|].
Qed.
End Sim.

(** ** The interface *)

(** metadata.Repository and metadata.Tx. *)
Class MetaRepo (S : Type) := {
  rp_GetBlob : bytes → M S (option ContentBlob);
  rp_InsertBlob : ContentBlob → M S unit;
  rp_InsertBlobOrIncrement : ContentBlob → M S bool;
  rp_IncrementRefCount : bytes → M S unit;
  rp_IncrementRefCounts : list bytes → M S unit;
  rp_IncrementRefCountIfExists : bytes → M S bool;
  rp_CreatePackage : CreatePackageInput → M S Z;
  rp_CreatePackageFile : Z → CreateFileInput → M S Z;
  rp_GetPackageForUpdate : Z → M S (option Package);
  rp_UpdatePackageAfterUnpack : Z → string → Z → option string → M S bool;
  rp_FindCanonicalPackageID : bytes → M S (option Z);
  rp_ListClonePackageIDs : Z → M S (list Z);
  rp_ListPendingLargePackages : M S (list Z);
  rp_GetPackage : Z → M S (option Package);
  rp_ListPackageFiles : Z → M S (list PackageFile);
  rp_GetPackageFile : Z → Z → M S (option PackageFile);
  rp_GetOriginalFile : Z → M S (option PackageFile);
  rp_CountContentBlobs : M S Z;
  rp_RecordSupplierIngest : Z → Z → Z → Z → M S unit;
  rp_GetSupplierStats : Z → M S (option SupplierStats);
  rp_GetLatestDictionary : M S (option (bytes * Z));
  rp_SaveDictionary : bytes → Z → M S unit;
  rp_ListContentBlobs : M S (list ContentBlob);
  rp_BlobByteTotals : M S BlobByteTotals;
}.

#[export] Instance pg_repo `{PG} : MetaRepo DB :=
  Build_MetaRepo DB GetBlob InsertBlob InsertBlobOrIncrement IncrementRefCount IncrementRefCounts IncrementRefCountIfExists CreatePackage CreatePackageFile
    GetPackageForUpdate UpdatePackageAfterUnpack FindCanonicalPackageID ListClonePackageIDs ListPendingLargePackages GetPackage
    ListPackageFiles GetPackageFile GetOriginalFile CountContentBlobs RecordSupplierIngest GetSupplierStats
    GetLatestDictionary SaveDictionary ListContentBlobs GetBlobByteTotals.
#[export] Instance mem_repo : MetaRepo MemoryRepository :=
  Build_MetaRepo MemoryRepository Mem.GetBlob Mem.InsertBlob Mem.InsertBlobOrIncrement Mem.IncrementRefCount Mem.IncrementRefCounts Mem.IncrementRefCountIfExists
    Mem.CreatePackage Mem.CreatePackageFile Mem.GetPackageForUpdate Mem.UpdatePackageAfterUnpack Mem.FindCanonicalPackageID
    Mem.ListClonePackageIDs Mem.ListPendingLargePackages Mem.GetPackage Mem.ListPackageFiles Mem.GetPackageFile Mem.GetOriginalFile
    Mem.CountContentBlobs Mem.RecordSupplierIngest Mem.GetSupplierStats Mem.GetLatestDictionary Mem.SaveDictionary
    Mem.ListContentBlobs Mem.GetBlobByteTotals.

Inductive call : Type :=
  | CGetBlob (h : bytes) | CInsertBlob (b : ContentBlob) | CInsertOrIncrement (b : ContentBlob)
  | CIncrement (h : bytes) | CIncrements (hs : list bytes) | CIncrementIfExists (h : bytes)
  | CCreatePackage (i : CreatePackageInput) | CCreateFile (packageID : Z) (i : CreateFileInput)
  | CGetForUpdate (id : Z) | CUpdate (id : Z) (mode : string) (count : Z) (err : option string)
  | CFind (h : bytes) | CClones (id : Z) | CPending
  | CGetPackage (id : Z) | CListFiles (id : Z) | CGetFile (packageID fileID : Z) | CGetOriginal (id : Z)
  | CCount | CRecord (supplierID fileCount newBlobs duplicateRefs : Z) | CStats (supplierID : Z)
  | CDictionary | CSaveDictionary (dict : bytes) (entryCount : Z) | CListBlobs | CTotals.

Inductive reply : Type :=
  | AUnit | ABool (b : bool) | AId (id : Z) | AFound (o : option Z) | AIds (l : list Z) | ABlob (o : option ContentBlob)
  | APackage (o : option Package) | AFile (o : option PackageFile) | AFiles (l : list PackageFile) | AStats (o : option SupplierStats)
  | ADict (o : option (bytes * Z)) | ABlobs (l : list ContentBlob) | ATotals (t : BlobByteTotals).

Definition reply_with {S A} (f : A → reply) (m : M S A) : M S reply := let! a := m in mret (f a).

Definition perform {S} `{MetaRepo S} (c : call) : M S reply :=
  match c with
  | CGetBlob h => reply_with ABlob (rp_GetBlob h)
  | CInsertBlob b => reply_with (fun _ => AUnit) (rp_InsertBlob b)
  | CInsertOrIncrement b => reply_with ABool (rp_InsertBlobOrIncrement b)
  | CIncrement h => reply_with (fun _ => AUnit) (rp_IncrementRefCount h)
  | CIncrements hs => reply_with (fun _ => AUnit) (rp_IncrementRefCounts hs)
  | CIncrementIfExists h => reply_with ABool (rp_IncrementRefCountIfExists h)
  | CCreatePackage i => reply_with AId (rp_CreatePackage i)
  | CCreateFile pid i => reply_with AId (rp_CreatePackageFile pid i)
  | CGetForUpdate id => reply_with APackage (rp_GetPackageForUpdate id)
  | CUpdate id mode n e => reply_with ABool (rp_UpdatePackageAfterUnpack id mode n e)
  | CFind h => reply_with AFound (rp_FindCanonicalPackageID h)
  | CClones id => reply_with AIds (rp_ListClonePackageIDs id)
  | CPending => reply_with AIds rp_ListPendingLargePackages
  | CGetPackage id => reply_with APackage (rp_GetPackage id)
  | CListFiles id => reply_with AFiles (rp_ListPackageFiles id)
  | CGetFile pid fid => reply_with AFile (rp_GetPackageFile pid fid)
  | CGetOriginal id => reply_with AFile (rp_GetOriginalFile id)
  | CCount => reply_with AId rp_CountContentBlobs
  | CRecord sup n new dup => reply_with (fun _ => AUnit) (rp_RecordSupplierIngest sup n new dup)
  | CStats sup => reply_with AStats (rp_GetSupplierStats sup)
  | CDictionary => reply_with ADict rp_GetLatestDictionary
  | CSaveDictionary dict n => reply_with (fun _ => AUnit) (rp_SaveDictionary dict n)
  | CListBlobs => reply_with ABlobs rp_ListContentBlobs
  | CTotals => reply_with ATotals rp_BlobByteTotals
  end.

Fixpoint performs {S} `{MetaRepo S} (cs : list call) : M S (list reply) :=
  match cs with
  | [] => mret []
  | c :: cs => let! a := perform c in let! l := performs cs in mret (a :: l)
  end.

(** What the in-memory store answers to a call that PostgreSQL answers with [a] when
    its tables are [t]: the same, except that a package read for update comes with
    its files, which PostgreSQL leaves out; that no dictionary is ever found; and
    that the blobs are listed in any order. *)
Definition mem_answer (t : Tables) (c : call) (a a' : reply) : Prop :=
  match c with
  | CGetForUpdate id => ∃ o, a = APackage o ∧ a' = APackage (with_files (files_of t id) <$> o)
  | CDictionary => a' = ADict None
  | CListBlobs => ∃ l l', a = ABlobs l ∧ a' = ABlobs l' ∧ l' ≡ₚ l
  | _ => a' = a
  end.

(** How the service uses the calls: references are taken of blobs that are there, a
    clone names the canonical package, the duplicates of an upload are counted, and
    the totals fit in 64 bits. *)
Definition usable (db : DB) (c : call) : Prop :=
  match c with
  | CIncrement h => is_Some (content_blobs (db_tables db) !! h)
  | CTotals => let t := db_tables db in is_i64 (sum_blobs cb_Size t) ∧
      is_i64 (sum_blobs (fun b => if 0 <? StoredSize b then StoredSize b else cb_Size b) t) ∧ is_i64 (sum_blobs (fun b => cb_Size b * RefCount b) t)
  | CIncrements hs => Forall (fun h => is_Some (content_blobs (db_tables db) !! h)) hs
  | CCreatePackage i => canonical_ok db i
  | CRecord _ _ _ dup => 0 <= dup
  | _ => True
  end.

(** Sessions of PostgreSQL in which every statement succeeds, with their
    transactions: the calls, the tables each was made on, and the replies. *)
Inductive pg_session `{PG} : DB → list (Tables * call * reply) → DB → Prop :=
  | ps_done db : pg_session db [] db
  | ps_call db c a db1 tr db' : usable db c → perform c db = (db1, Ok a) → pg_session db1 tr db' → pg_session db ((db_tables db, c, a) :: tr) db'
  | ps_begin db db1 tr db' : begin_tx db = (db1, Ok tt) → pg_session db1 tr db' → pg_session db tr db'
  | ps_commit t0 db db1 tr db' : commit_tx t0 db = (db1, Ok tt) → pg_session db1 tr db' → pg_session db tr db'.

Lemma reply_sim `{PG} {A B} m db (f : A → reply) (g : B → reply) (mm : M MemoryRepository A) (pg : M DB B) (Q : reply → reply → Prop) :
  (∀ db' b, pg db = (db', Ok b) → ∃ m' a, mm m = (m', Ok a) ∧ Q (g b) (f a) ∧ sim m' db') →
  ∀ db' r, reply_with g pg db = (db', Ok r) → ∃ m' r', reply_with f mm m = (m', Ok r') ∧ Q r r' ∧ sim m' db'.
Proof.
  intros Hs db' r E. unfold reply_with in E. apply bind_inv in E as [(db1 & b & E1 & E)|(e & _ & ?)]; [|done]. munfold. injection E as <- <-.
  destruct (Hs _ _ E1) as (m' & a & Em & Ef & Hm). exists m', (f a). split; [|done]. unfold reply_with. by erewrite bind_ok by exact Em.
Qed.

Lemma reply_same `{PG} {A} m db (f : A → reply) (mm : M MemoryRepository A) (pg : M DB A) :
  simulates m db mm pg → ∀ db' r, reply_with f pg db = (db', Ok r) → ∃ m' r', reply_with f mm m = (m', Ok r') ∧ r' = r ∧ sim m' db'.
Proof.
  intros Hs. apply (reply_sim _ _ _ _ _ _ (fun a a' => a' = a)). intros db' b E. destruct (Hs _ _ E) as (m' & Em & Hm). by exists m', b.
Qed.

(** Sums with wrap-around are the sums, wrapped around once. *)
Lemma i64_add_l a b : i64 (i64 a + b) = i64 (a + b).
Proof.
  unfold i64. replace ((a + 2 ^ 63) mod 2 ^ 64 - 2 ^ 63 + b + 2 ^ 63) with ((a + 2 ^ 63) mod 2 ^ 64 + b) by lia.
  rewrite -> Z.add_mod_idemp_l by lia. do 2 f_equal. lia.
Qed.
Lemma i64_add_r a b : i64 (a + i64 b) = i64 (a + b).
Proof. rewrite -> (Z.add_comm a), i64_add_l. f_equal. lia. Qed.

Definition list_sum (g : ContentBlob → Z) (l : list ContentBlob) : Z := foldr (fun b n => g b + n) 0 l.
Lemma add_totals_sum l a b c : fold_left Mem.add_totals l (MkTotals (i64 a) (i64 b) (i64 c)) =
  MkTotals (i64 (a + list_sum cb_Size l)) (i64 (b + list_sum (fun b => if 0 <? StoredSize b then StoredSize b else cb_Size b) l))
    (i64 (c + list_sum (fun b => cb_Size b * RefCount b) l)).
Proof.
  revert a b c; induction l as [|x l IH]; intros a b c; cbn [fold_left list_sum foldr]; [by rewrite -> !Z.add_0_r|].
  unfold Mem.add_totals at 2. cbn [LogicalBytes StoredBytes ReferencedLogicalBytes]. rewrite -> !i64_add_l, i64_add_r, IH.
  fold (list_sum cb_Size l) (list_sum (fun b => if 0 <? StoredSize b then StoredSize b else cb_Size b) l) (list_sum (fun b => cb_Size b * RefCount b) l).
  f_equal; f_equal; rewrite <- ?Z.add_assoc; try done. destruct (0 <? StoredSize x) eqn:E1, (StoredSize x <=? 0) eqn:E2; lia.
Qed.

Lemma sum_blobs_list g t : sum_blobs g t = list_sum g (map_to_list (content_blobs t)).*2.
Proof.
  unfold sum_blobs. rewrite -> map_fold_foldr. unfold list_sum. induction (map_to_list _) as [|[k b] l IH]; [done|]. cbn. by rewrite -> IH.
Qed.

Lemma sim_Totals `{PG} m db : sim m db → usable db CTotals → simulates m db Mem.GetBlobByteTotals GetBlobByteTotals.
Proof.
  intros Hs (T1 & T2 & T3). apply sim_read; [done|]. rewrite -> (sm_blobs _ _ Hs).
  change (MkTotals 0 0 0) with (MkTotals (i64 0) (i64 0) (i64 0)). rewrite -> add_totals_sum, !Z.add_0_l, <- !sum_blobs_list.
  by rewrite -> !i64_small.
Qed.

Lemma sim_SaveDictionary `{PG} m db dict n : sim m db → simulates m db (Mem.SaveDictionary dict n) (SaveDictionary dict n).
Proof.
  intros Hs db' a E. apply int4_args_inv in E as [[_ E]|[_ E]]; [|done]. apply stmt_inv in E as (db2 & S & E). unfold upd_tables, modify in E.
  injection E as <- <-. eexists. split; [reflexivity|]. pose proof (sim_same _ _ _ S Hs) as []. by split.
Qed.

Lemma sim_Increments `{PG} hs : ∀ m db, sim m db → Forall (fun h => is_Some (content_blobs (db_tables db) !! h)) hs →
  simulates m db (Mem.IncrementRefCounts hs) (IncrementRefCounts hs).
Proof.
  induction hs as [|h hs IH]; intros m db Hs Hh db' a E; unfold IncrementRefCounts, Mem.IncrementRefCounts in *; cbn [forM_] in *.
  { munfold. injection E as <- <-. eauto. }
  apply Forall_cons in Hh as [Hh Hhs]. apply bind_inv in E as [(db1 & u & E1 & E)|(e & _ & ?)]; [|done].
  destruct (sim_Increment m db Hs h Hh db1 u E1) as (m1 & Em & Hm1). erewrite bind_ok by exact Em.
  eapply IH; [exact Hm1| |exact E]. eapply Forall_impl; [exact Hhs|]. intros k Hk.
  apply stmt_inv in E1 as (db2 & (T & _) & E1). unfold upd_tables, modify in E1. injection E1 as <- _. cbn. rw T. by apply lookup_alter_is_Some.
Qed.

Lemma perform_sim `{PG} m db c : sim m db → usable db c →
  ∀ db' r, perform c db = (db', Ok r) → ∃ m' r', perform c m = (m', Ok r') ∧ mem_answer (db_tables db) c r r' ∧ sim m' db'.
Proof.
  intros Hs Hu. destruct c; cbn [perform usable] in *;
    lazymatch goal with
    | |- context [rp_GetPackageForUpdate] => idtac | |- context [rp_GetLatestDictionary] => idtac
    | |- context [rp_ListContentBlobs] => idtac | _ => apply reply_same; cbn end.
  - apply sim_read; [done|]. by rw (sm_blobs _ _ Hs).
  - by apply sim_InsertBlob.
  - by apply sim_InsertOrIncrement.
  - by apply sim_Increment.
  - by apply sim_Increments.
  - by apply sim_IncrementIfExists.
  - by apply sim_CreatePackage.
  - by apply sim_CreateFile.
  - apply (reply_sim _ _ _ _ _ _ (mem_answer (db_tables db) (CGetForUpdate id))). intros db' b E. apply stmt_read in E as [S ->].
    do 2 eexists. split; [reflexivity|]. split; [|by eapply sim_same]. eexists. split; [reflexivity|]. f_equal.
    rw (pkg_lookup m db Hs) (listFiles_eq m db Hs). by destruct (mm_pkgs m !! id) as [[]|].
  - by apply sim_Update.
  - by apply sim_Find.
  - by apply sim_Clones.
  - by apply sim_Pending.
  - by apply sim_GetPackage.
  - apply sim_read; [done|]. by apply listFiles_eq.
  - by apply sim_GetPackageFile.
  - by apply sim_GetOriginal.
  - apply sim_read; [done|]. by rw (sm_blobs _ _ Hs).
  - by apply sim_Record.
  - intros db' a E. apply int4_args_inv in E as [[_ E]|[_ E]]; [|done]. eapply sim_read; [exact Hs| |exact E]. by rw (sm_stats _ _ Hs).
  - apply (reply_sim _ _ _ _ _ _ (mem_answer (db_tables db) CDictionary)). intros db' b E. apply stmt_read in E as [S _].
    do 2 eexists. split; [reflexivity|]. split; [done|by eapply sim_same].
  - by apply sim_SaveDictionary.
  - apply (reply_sim _ _ _ _ _ _ (mem_answer (db_tables db) CListBlobs)). intros db' b E. apply stmt_read in E as [S ->].
    do 2 eexists. split; [reflexivity|]. split; [|by eapply sim_same]. do 2 eexists. split; [reflexivity|]. split; [reflexivity|].
    rewrite -> merge_sort_Permutation. by rewrite -> (sm_blobs _ _ Hs).
  - by apply sim_Totals.
Qed.

(** C19: the in-memory repository refines the PostgreSQL one, up to three methods.
    For every session on a new database in which the calls are used as the service
    uses them ([usable]) and no statement fails, transactions included, the
    in-memory repository answers every call that PostgreSQL answers, with the same
    reply, except that a package read for update comes with its files, which
    PostgreSQL leaves out, that the latest dictionary is never found, and that the
    blobs are listed in another order ([mem_answer]); and its maps stay the image of
    the tables.  ClonePackageRefs, which nothing calls, is not among the calls. *)
Theorem memory_refines_postgres `{PG} now faults tr db' :
  pg_session (empty_db now faults) tr db' →
  ∃ m' replies, performs tr.*1.*2 (NewMemoryRepository now) = (m', Ok replies) ∧
    Forall2 (fun x a' => mem_answer x.1.1 x.1.2 x.2 a') tr replies ∧ sim m' db'.
Proof.
  enough (∀ db, pg_session db tr db' → ∀ m, sim m db → ∃ m' replies, performs tr.*1.*2 m = (m', Ok replies) ∧
    Forall2 (fun x a' => mem_answer x.1.1 x.1.2 x.2 a') tr replies ∧ sim m' db') as Hall.
  { intros Hp. by eapply Hall, sim_new. }
  clear. intros db Hp. induction Hp as [db|db c a db1 tr db' Hu E _ IH|db db1 tr db' E _ IH|t0 db db1 tr db' E _ IH]; intros m Hs.
  - by exists m, [].
  - destruct (perform_sim m db c Hs Hu db1 a E) as (m1 & a' & E1 & Ha & Hs1). destruct (IH m1 Hs1) as (m' & rs & E' & Hrs & Hs').
    exists m', (a' :: rs). split; [|split; [by constructor|done]]. cbn [performs fmap list_fmap fst snd]. erewrite bind_ok by exact E1. by erewrite bind_ok by exact E'.
  - apply IH. apply stmt_inv in E as (db2 & S & E). unfold modify in E. injection E as <-. pose proof (sim_same _ _ _ S Hs) as []. by split.
  - apply IH. unfold commit_tx in E. destruct (stmt (mret tt) db) as [db2 [u|e]] eqn:Es.
    2:{ destruct (aborted db); [done|]. by destruct (match db_faults db2 with [] => _ | _ => _ end). }
    injection E as <-. apply stmt_inv in Es as (db3 & S & Es). munfold. injection Es as <- _. pose proof (sim_same _ _ _ S Hs) as []. by split.
Qed.

(** ** A concrete session: an upload and its repetition *)
Module MemDemo.
Definition any_text : PG := {| text_ok _ _ := true |}.
#[local] Existing Instance any_text.
Definition hash : bytes := [x2a].
Definition blob : ContentBlob := MkBlob hash 4 4 0 20 1 1000.
Definition original : CreateFileInput := MkCreateFile hash "original" (Some "a.xml") None.
Definition package (canonical : option Z) : CreatePackageInput := MkCreatePackage 7 hash "xml" "single" (Some "a.xml") canonical 1 None.
Definition calls : list call :=
  [CFind hash; CInsertOrIncrement blob; CCreatePackage (package None); CCreateFile 1 original; CRecord 7 1 1 0; CGetPackage 1;
   CFind hash; CCreatePackage (package (Some 1)); CCreateFile 2 original; CIncrements [hash]; CClones 1; CGetFile 2 2; CGetForUpdate 1; CTotals].

(** Sessions by evaluation. *)
Inductive act : Type := Begin | Commit | Do (c : call).
Definition usableb (db : DB) (c : call) : bool :=
  match c with
  | CIncrements hs => forallb (fun h => bool_decide (is_Some (content_blobs (db_tables db) !! h))) hs
  | CCreatePackage i =>
      match cp_CanonicalPackageID i with
      | None => true
      | Some c =>
          match tget c (packages (db_tables db)) with
          | Some q => bool_decide (p_PackageHash q = cp_PackageHash i ∧ CanonicalPackageID q = None)
          | None => false
          end
      end
  | CRecord _ _ _ dup => 0 <=? dup
  | CIncrement h => bool_decide (is_Some (content_blobs (db_tables db) !! h))
  | CTotals => let t := db_tables db in let fits z := (- 2 ^ 63 <=? z) && (z <? 2 ^ 63) in fits (sum_blobs cb_Size t) &&
      fits (sum_blobs (fun b => if 0 <? StoredSize b then StoredSize b else cb_Size b) t) && fits (sum_blobs (fun b => cb_Size b * RefCount b) t)
  | _ => true
  end.
Lemma usableb_ok db c : usableb db c = true → usable db c.
Proof.
  destruct c; cbn [usableb usable]; try done.
  - intros Hb%bool_decide_eq_true. done.
  - intros Hh. apply Forall_forall. intros h Hin. apply list_elem_of_In in Hin. apply (forallb_forall _ hs) with (x := h) in Hh; [|done].
    by apply bool_decide_eq_true in Hh.
  - unfold canonical_ok. destruct (cp_CanonicalPackageID i) as [c|]; [|done].
    destruct (tget c _) as [q|]; [|done]. intros Hb%bool_decide_eq_true. by exists q.
  - lia.
  - cbv zeta. unfold is_i64. lia.
Qed.

Fixpoint play (acts : list act) (db : DB) : option (list (Tables * call * reply) * DB) :=
  match acts with
  | [] => Some ([], db)
  | Begin :: l => match begin_tx db with (db1, Ok tt) => play l db1 | _ => None end
  | Commit :: l => match commit_tx (db_tables db) db with (db1, Ok tt) => play l db1 | _ => None end
  | Do c :: l =>
      if usableb db c then
        match perform c db with
        | (db1, Ok a) => match play l db1 with Some (tr, db') => Some ((db_tables db, c, a) :: tr, db') | None => None end
        | _ => None
        end
      else None
  end.
Lemma play_session acts db tr db' : play acts db = Some (tr, db') → pg_session db tr db'.
Proof.
  revert db tr; induction acts as [|[| |c] l IH]; intros db tr; cbn [play].
  - intros [= <- <-]. apply ps_done.
  - destruct (begin_tx db) as [db1 [[]|e]] eqn:E; [|done]. intros Hp. eapply ps_begin; [exact E|]. by apply IH.
  - destruct (commit_tx _ db) as [db1 [[]|e]] eqn:E; [|done]. intros Hp. eapply ps_commit; [exact E|]. by apply IH.
  - destruct (usableb db c) eqn:Eu; [|done]. destruct (perform c db) as [db1 [a|e]] eqn:E; [|done].
    destruct (play l db1) as [[tr1 db2]|] eqn:Ep; [|done]. intros [= <- <-].
    eapply ps_call; [by apply usableb_ok|exact E|]. by apply IH.
Qed.
Definition session : list act :=
  match calls with
  | c1 :: c2 :: c3 :: c4 :: c5 :: c6 :: c7 :: c8 :: c9 :: c10 :: l =>
      [Do c1; Begin; Do c2; Do c3; Do c4; Commit; Do c5; Do c6; Do c7; Begin; Do c8; Do c9; Do c10; Commit] ++ (Do <$> l)
  | _ => []
  end.
Definition facts (x : list (Tables * call * reply) * DB) : list call * option Z :=
  (x.1.*1.*2, RefCount <$> content_blobs (db_tables x.2) !! hash).
End MemDemo.

(** The package read for update comes with its file here; PostgreSQL's has none. *)
Lemma memory_refines_postgres_witness :
  ∃ tr db' m' replies, MemDemo.play MemDemo.session (empty_db 0 []) = Some (tr, db') ∧ tr.*1.*2 = MemDemo.calls ∧
    performs MemDemo.calls (NewMemoryRepository 0) = (m', Ok replies) ∧
    Forall2 (fun x a' => mem_answer x.1.1 x.1.2 x.2 a') tr replies ∧ RefCount <$> mm_blobs m' !! MemDemo.hash = Some 2.
Proof.
  assert (MemDemo.facts <$> MemDemo.play MemDemo.session (empty_db 0 []) = Some (MemDemo.calls, Some 2)) as Hx by (vm_compute; reflexivity).
  destruct (MemDemo.play MemDemo.session (empty_db 0 [])) as [[tr db']|] eqn:Ep; [|discriminate Hx].
  unfold fmap, option_fmap, option_map, MemDemo.facts in Hx. injection Hx as Hc Hr. apply MemDemo.play_session in Ep.
  destruct (memory_refines_postgres 0 [] tr db' Ep) as (m' & rs & E & Ha & Hs). exists tr, db', m', rs. split; [reflexivity|].
  split; [exact Hc|]. rewrite <- Hc. split; [exact E|]. split; [exact Ha|]. rewrite -> (sm_blobs _ _ Hs). exact Hr.
Defined.
